(* ===== verification/_CoqProject ===== *)
-Q . S2P
Prelude.v
Base64.v
Net.v
Types.v
Json.v
Diff.v
Reconcile.v
WireGuard.v
Policy.v
Nftables.v
Verifier.v
Sse.v
Reconnect.v
SseManager.v
Stun.v
Netlink.v
NatTraversal.v
Relay.v
BridgeCfg.v
Routes.v
Bridge.v
DiffRestart.v
SiteToSite.v
UserAccess.v
Ingress.v
Tunnel.v
Fs.v
Sha256.v
Duration.v
Integrity.v
Identity.v
Registration.v
Client.v
ActionRun.v
Executor.v
StateCache.v
Forwarder.v
NodeApi.v
NodeAuth.v
Agent.v
Up.v
KubeAudit.v
KubeAuth.v
CrdController.v
Installer.v
Sources.v
SshServer.v
Cli.v
Lifecycle.v
System.v
Main.v
