(* ===== verification/Prelude.v ===== *)
(** * plexd: a verification development

    plexd (src/) is the node agent of a WireGuard mesh.  It keeps an event
    stream open to a control plane, fetches the desired state of the node,
    computes how it differs from the state last applied, and lets handlers
    bring the node to it: WireGuard peers, firewall rules, bridge routes and
    sessions, the local node API.  Around this core it registers the node, runs
    actions and hooks, gives access through tunnels, forwards logs and metrics
    and integrates with Kubernetes.  This library translates the agent into
    executable definitions and proves what makes it correct, together with the
    places where the code does not do what it means to.

    ** The parts and how they interact

    A signed event arrives on the stream (Sse), is verified (Verifier) and
    dispatched to a handler; the stream is kept alive by the reconnect engine
    (Reconnect).  Independently the reconciler (Reconcile) fetches the desired
    state on a timer or a trigger, computes a difference (Diff) and calls the
    registered handlers with it: the WireGuard manager (WireGuard, over the
    Linux controller of Netlink), the policy enforcer (Policy, over the
    nftables backend of Nftables), the UDP relay (Relay).  Endpoint discovery
    (NatTraversal, over the STUN messages of Stun) reports to the control plane
    and feeds the WireGuard manager.  The node API's state cache (StateCache)
    keeps metadata, data and reports in memory and on disk (Fs); its handlers
    (NodeApi) serve local programs behind routes and access checks (NodeAuth)
    and hand report changes to a syncer.  Logs, audit events and metrics
    (Sources, KubeAudit) are forwarded in batches (Forwarder).  In bridge mode
    the manager (Bridge) and its features route between the mesh and other
    networks (Routes, SiteToSite, UserAccess, Ingress).  Sessions give access
    to a node (Tunnel, SshServer).  Actions run hooks that were checked before
    (Executor, ActionRun, Integrity).  A node joins with a token and keeps its
    identity (Registration, Identity); the commands (Main, Up, Cli, Installer)
    put the parts together, System runs the reconciler, the heartbeat and the
    node API against each other, and Lifecycle says how they stop.

    ** Files

    - Prelude: results and panics, machine integers, time, maps built from
      lists, the iteration order of Go maps, tactics and hints.
    - Base64, Net: encoding/base64 and net/netip of the Go standard library,
      as far as the code uses them (parsing of addresses and CIDRs, masks).
    - Types: the wire types of src/internal/api/types.go, one record each; the
      prefix of a field names its type.
    - Json: encoding/json as an interface of encoders and decoders with its
      laws.
    - Diff: src/internal/reconcile/diff.go and drift.go ([ComputeDiff],
      [diffPeers], ..., [BuildDriftReport]).  The equivalence of states is a
      setoid: peers up to the order of allowed IPs, policies by ID.
    - Reconcile: snapshot.go, reconciler.go, config.go of the same package
      ([runCycle], [invokeHandlers], [TriggerReconcile], the loop as a step
      function over its events).
    - WireGuard: src/internal/wireguard (index, manager, handlers,
      configuration) against the interface [WGController] with its laws
      [WGLaws].
    - Netlink: controller_linux.go of that package, an instance of
      [WGController] over netlink and wgctrl ([WGNet]); the instance
      [netlink_laws] discharges what the manager relies on.
    - Policy: src/internal/policy (engine, enforcer, handler, configuration)
      against the interface of a firewall.
    - Nftables: nftables_linux.go, down to the expressions of a rule, over a
      transaction interface ([NftConn]) and the meaning of an expression list
      ([NftSemantics]).
    - Verifier: src/internal/api/envelope.go, verifier.go, dispatcher.go and
      the event types of types.go; the signature primitive is an argument, each
      reading of the clock too.
    - Sse: sse.go, with the line scanner of bufio and the idle timeout.
    - Reconnect: errors.go, config.go, reconnect.go; a run is fuelled by its
      rounds against an environment ([Env]).
    - Stun: src/internal/nat/stun.go on bytes, panicking slices included.
    - NatTraversal: the rest of src/internal/nat and src/internal/peerexchange.
    - Relay: src/internal/bridge/relay.go and relay_handler.go, with a store
      of shared sessions and timers and a step relation.
    - Fs: src/internal/fsutil/atomic.go as the sequence of its system calls,
      with failures, and crashes that lose what was not synced.
    - StateCache: src/internal/nodeapi/cache.go and events.go.
    - Forwarder: src/internal/logfwd, auditfwd and metrics, whose forwarding
      code is the same but for the entry type and the limits.
    - NodeApi: handler.go, decrypt.go, sync.go and the middleware, the
      reconcile handler and the event registration of server.go of
      src/internal/nodeapi.
    - NodeAuth: auth.go, auth_unix.go, config.go, the routes of handler.go and
      the construction, cache loading, socket file and listeners of server.go
      of that package; the credentials of a connection are read from its kernel
      side and travel in the request's context.
    - SseManager: src/internal/api/manager.go over Sse and Reconnect.
    - BridgeCfg, Routes, Bridge, DiffRestart, SiteToSite, UserAccess, Ingress:
      src/internal/bridge: configuration; the route controller's interface and
      route_linux.go over the kernel; the manager; the reconciliation of a keyed
      collection that two features share; the features with their handlers.
      The theorems on the managers assume a controller that keeps the whole
      interface ([RouteControllerLaws]); the Linux one keeps all of it except
      that a removed route is gone ([RouteControllerBase]), which is enough for
      SiteToSite.
    - Tunnel: src/internal/tunnel: session.go, manager.go, handler.go, config.go.
    - SshServer: hostkey.go, ssh_server.go, ssh_channels.go, mesh_server.go,
      k8s_proxy.go of the same package.
    - Sha256, Duration: crypto/sha256, time.ParseDuration.
    - Integrity: src/internal/integrity.
    - ActionRun, Executor: src/internal/actions: hooks, built-in actions and
      captured output; the executor as a step relation.
    - Identity, Registration: src/internal/registration: key pair and identity
      files; token sources, requests with retries, the registrar.
    - Client: src/internal/api/client.go, endpoints.go: requests, paths,
      statuses.
    - Agent: src/internal/agent: heartbeat and configuration.
    - Up: src/cmd/plexd/cmd: up.go, join.go, deregister.go.
    - KubeAudit, KubeAuth, CrdController: src/internal/kubernetes and the audit
      sources of src/internal/auditfwd.
    - Installer: src/internal/packaging with plexd install and uninstall, and
      the systemd controller down to the systemctl commands it runs.
    - Sources: the collectors of src/internal/metrics and the journal of
      src/internal/logfwd.
    - Cli: the commands that talk to the agent's socket, and plexd logs.
    - Lifecycle: the goroutines and shutdowns of nodeapi/server.go and up.go.
    - System: the reconciler, dispatcher and heartbeat that up.go builds, with
      their handlers, the start of the node API's server and its requests over
      one shared world, as a step relation; a cycle is cut into the steps between
      which other goroutines can get the lock of the cache.
    - Main: main.go and root.go, the flags of plexd up and its logger.

    ** Conventions

    A Go string is a [string], a byte slice a list of [Z], an [int] a [Z] that
    is wrapped where it can overflow, a time in nanoseconds with 0 for the zero
    time.  A function that returns an error returns [result] or an option of an
    error type, a function that can panic an [outcome].  State is passed
    explicitly; an external system is a world behind a class of operations,
    with a second class for its documented behaviour and a concrete instance
    on which the witnesses evaluate.  Iteration over a Go map takes its order
    from [MapOrder] and every theorem holds for all orders.  Handlers of events
    receive what [json.Unmarshal] made of the payload.  Logging is left out.

    ** What the theorems show

    - Reconciliation: the difference is a patch, it is empty exactly on
      equivalent states, a cycle makes progress or leaves the reconciler as it
      was, a second cycle has nothing to do, triggers coalesce without loss.
    - WireGuard: through any number of cycles without handler errors the index
      holds the peers last fetched, and the interface their keys as long as no
      key changes; key rotation replaces the key; what a Linux device is
      programmed with.
    - Policy: which peers are visible, which are configured when the policy
      handler alone works on the manager, that an installed chain gives each
      packet the verdict of the first matching rule, denies by default (an allow
      rule for a peer without an address matches any), and is replaced
      atomically.
    - Events: an accepted envelope is fresh, unseen and signed; nothing is
      accepted twice, save at the very end of an envelope's five minutes; a
      forgery changes nothing; the stream parser inverts the rendering of
      events; only verified events reach handlers; the reconnect loop ends only
      for the stated reasons and waits within bounds.
    - Relay: by induction on the steps, packets stay within a live session,
      sessions are bounded in number and time; its handler reaches the
      desired set.
    - NAT: the response parser inverts the RFC encoding, accepts only answers
      to the request and does not panic on aligned messages; the
      classification of the NAT.
    - Node API: atomic writes, restoration of the cache by a restart,
      optimistic locking of reports, what a report request changes and
      notifies, a syncer that loses neither entries nor deletions.
    - Access to the node API: with the check that plexd up turns on, values of
      secrets leave it only to root, to members of a group, or against the
      token; the syncer is told exactly what changed; a report written on the
      command line under a plain key is read back.
    - Forwarders and sources: bounded batches and buffers, nothing acknowledged
      twice, no reordering, no loss below capacity; an audit log read in parts
      gives the entries of the whole.
    - Bridge: a failed setup is rolled back, what an update adds and removes, a
      tunnel stays installed while nothing works on its interface, invariants
      of the other features by induction on their steps, removal terminates.
    - Tunnels: sessions are bounded, and expire when their timer was started;
      the SSH server serves and dials for accepted tokens only; its host key is
      kept; shutdown in order.
    - Actions: a hook is started only if its file had the expected digest when
      it was verified, executions are controlled until they are reported,
      shutdown cancels all of them.
    - Registration: retries terminate, a crash during the first registration
      leaves the identity or none, a node that joined starts with what it got.
    - Kubernetes: a request passes only with a reviewed token; an update of the
      secret index leaves the wanted secrets, and those whose deletion failed.
    - Installing: what an installation leaves, that uninstalling takes it back
      and touches nothing else.
    - Stopping: server and agent return within their timeouts.
    - The agent as a whole: run in any interleaving from an empty state
      directory, with the server loading its cache before the first data entry,
      it prints the metadata and data versions of the state last fetched to a
      client of the local socket; what the node API's event handlers would do
      if they were registered.
    - Flaws of the code, stated as theorems about it: sections and policy
      rules that no cycle notices, keys that stay on the interface, a removed
      peer that blocks reconciliation, rules that match any source, a
      forgotten removal, panics on long interface names, endpoint updates
      that are never applied, relay sessions that cut each other, a crash that
      makes the cache unreadable, an installation whose agent cannot start, a
      command that acknowledges a report it did not write, clients that block
      the SSH server, a token that is never renewed, removed metadata that a
      restart brings back, a cache loaded over newer data, routes that the Linux
      controller adds and never removes, denied peers that stay configured,
      tunnels that share an interface, hooks exchanged after their verification,
      a log level of the configuration that a flag's default overrides.

    ** Fuel and bounds

    Fuel appears where recursion is not structural, always with a lemma that
    it suffices or with the fuel as part of the statement: the attribute loop
    of Stun gets one unit per byte (each round consumes at least four), the
    connection loop of Sse one per token of its input plus one, the flush of
    Forwarder one per entry plus one, the IPv6 parser of Net eight for eight
    fields, SHA-256 one per block and the duration parser one per byte.  A run
    of the reconnect engine is given a number of rounds and the theorems hold
    for every number; a run of the endpoint exchange likewise for every number
    of ticks.  The registration's retries are given rounds too, and
    [registerWithRetry_terminates] says how many are enough.  The redirects of
    Cli are limited to ten because net/http limits them.

    ** Not modelled

    - Encodings and protocols of other packages: JSON and YAML (an interface
      with laws, or the decoded value), TLS, HTTP transport, SSH, AES-GCM and
      Ed25519 (arguments); of net/http the routing, redirects and shutdown that
      the code relies on are modelled as documented.
    - The operating system: netlink, nftables, wgctrl, systemd, the Kubernetes
      API and file systems are worlds behind interfaces; file modes are left
      out except those of the socket.
    - The declarations of the cobra commands (names, help texts, binding of
      flags to variables) apart from the flags of plexd up; getters and
      interface declarations that only name what is modelled elsewhere; the
      verifier that accepts everything, which only a stream built without a
      verifier uses; stubs for systems other than Linux.
    - Logging, and with it every branch that only logs. *)

From stdpp Require Export base list strings gmap numbers option tactics sorting.
From Stdlib Require Export ZArith Lia.

(** ** Outcomes of Go calls

    A Go function that returns [(T, error)] is modelled by [result]; a
    function that can also panic (slice or index out of range) is modelled by
    [outcome]. *)

Inductive result (E A : Type) : Type :=
| Ok (a : A)
| Err (e : E).
Arguments Ok {E A} _.
Arguments Err {E A} _.

Inductive outcome (A : Type) : Type :=
| Returns (a : A)
| Panics.
Arguments Returns {A} _.
Arguments Panics {A}.

Definition is_ok {E A} (r : result E A) : bool :=
  match r with Ok _ => true | Err _ => false end.

#[global] Instance result_eq_dec {E A} `{EqDecision E, EqDecision A} : EqDecision (result E A).
Proof. solve_decision. Defined.

#[global] Instance result_ret E : MRet (result E) := fun A a => Ok a.
#[global] Instance result_bind E : MBind (result E) :=
  fun A B k r => match r with Ok a => k a | Err e => Err e end.

(** ** Machine integers

    Go's [int] is 64-bit on the two supported platforms (linux amd64/arm64).
    Values are kept in [Z]; operations that can wrap are written with
    [wrap_int]; unsigned widths with [wrap_u]. *)

Open Scope Z_scope.

Definition wrap_u (w : Z) (z : Z) : Z := z mod 2 ^ w.
Definition wrap_int (z : Z) : Z := (z + 2 ^ 63) mod 2 ^ 64 - 2 ^ 63.

Definition max_int64 : Z := 2 ^ 63 - 1.
Definition min_int64 : Z := - 2 ^ 63.

Lemma wrap_int_id z : min_int64 <= z <= max_int64 -> wrap_int z = z.
Proof.
  unfold min_int64, max_int64, wrap_int. intros H.
  rewrite Z.mod_small by lia. lia.
Qed.

Lemma wrap_int_add a b : wrap_int (wrap_int a + b) = wrap_int (a + b).
Proof.
  unfold wrap_int. f_equal.
  replace ((a + 2 ^ 63) mod 2 ^ 64 - 2 ^ 63 + b + 2 ^ 63) with ((a + 2 ^ 63) mod 2 ^ 64 + b) by lia.
  rewrite Z.add_mod_idemp_l by done. f_equal. lia.
Qed.

Lemma wrap_u_bound w z : 0 <= w -> 0 <= wrap_u w z < 2 ^ w.
Proof. intros. apply Z.mod_pos_bound. lia. Qed.

Lemma wrap_u_id w z : 0 <= z < 2 ^ w -> wrap_u w z = z.
Proof. intros. by apply Z.mod_small. Qed.

(** ** Time

    [time.Time] is the number of nanoseconds since Go's zero time, so that
    [IsZero] is the comparison with 0; [time.Duration] is a signed 64-bit
    nanosecond count.  [Time.Sub] saturates, as the Go library documents. *)

Definition nanosecond : Z := 1.
Definition millisecond : Z := 1000000.
Definition second : Z := 1000000000.
Definition minute : Z := 60 * second.

Definition is_zero_time (t : Z) : bool := bool_decide (t = 0).
Definition time_sub (t u : Z) : Z := Z.max min_int64 (Z.min max_int64 (t - u)).
Definition time_before (t u : Z) : bool := bool_decide (t < u).
Definition time_after (t u : Z) : bool := bool_decide (u < t).

Lemma time_sub_gt t u d :
  min_int64 <= d < max_int64 -> d < time_sub t u <-> d < t - u.
Proof. unfold time_sub. unfold min_int64, max_int64 in *. lia. Qed.

Lemma time_sub_ge t u d :
  min_int64 < d <= max_int64 -> d <= time_sub t u <-> d <= t - u.
Proof. unfold time_sub. unfold min_int64, max_int64 in *. lia. Qed.

(** ** Maps built by a loop

    [for _, x := range l { m[key(x)] = val(x) }]: later elements overwrite
    earlier ones. *)

Section build_map.
Context {K : Type} `{Countable K} {A V : Type}.
Implicit Types (key : A -> K) (val : A -> V) (l : list A).

Definition build_map key val l : gmap K V :=
  foldl (fun m x => <[key x := val x]> m) ∅ l.

Lemma build_map_snoc key val l x :
  build_map key val (l ++ [x]) = <[key x := val x]> (build_map key val l).
Proof. unfold build_map. by rewrite foldl_app. Qed.

Lemma build_map_None key val l k :
  build_map key val l !! k = None <-> k ∉ key <$> l.
Proof.
  induction l as [|x l IH] using rev_ind.
  - unfold build_map. simpl. rewrite lookup_empty. set_solver.
  - rewrite build_map_snoc, fmap_app, not_elem_of_app, lookup_insert.
    case_decide as E; [set_solver|]. rewrite IH. set_solver.
Qed.

Lemma build_map_Some_inv key val l k v :
  build_map key val l !! k = Some v -> exists x, x ∈ l /\ key x = k /\ val x = v.
Proof.
  induction l as [|x l IH] using rev_ind.
  - unfold build_map. simpl. by rewrite lookup_empty.
  - rewrite build_map_snoc, lookup_insert. case_decide as E.
    + intros [= <-]. exists x. set_solver.
    + intros (y & ? & ? & ?)%IH. exists y. set_solver.
Qed.

Lemma build_map_is_Some key val l k :
  is_Some (build_map key val l !! k) <-> k ∈ key <$> l.
Proof.
  rewrite <- not_eq_None_Some, build_map_None.
  destruct (decide (k ∈ key <$> l)); tauto.
Qed.

Lemma build_map_NoDup key val l x :
  NoDup (key <$> l) -> x ∈ l -> build_map key val l !! key x = Some (val x).
Proof.
  induction l as [|y l IH] using rev_ind; [set_solver|].
  rewrite build_map_snoc, fmap_app, NoDup_app, lookup_insert. simpl.
  intros (Hl & Hy & _) Hx. case_decide as E.
  - apply elem_of_app in Hx as [Hx|Hx]; [|set_solver].
    exfalso. apply (Hy (key x)); [by apply list_elem_of_fmap_2|].
    rewrite E. set_solver.
  - apply IH; [done|]. apply elem_of_app in Hx as [?|Hx]; [done|].
    apply list_elem_of_singleton in Hx. congruence.
Qed.

Lemma dom_build_map key val l : dom (build_map key val l) = list_to_set (key <$> l).
Proof.
  apply set_eq. intros k. rewrite elem_of_dom, build_map_is_Some. set_solver.
Qed.
End build_map.

(** ** Iteration order of Go maps

    [for k, v := range m] visits the entries of [m] in an order the runtime
    chooses.  Definitions that iterate over a map take the order from this
    class; every theorem holds for all its instances. *)

Class MapOrder := {
  map_order : forall {A : Type}, list A -> list A;
  map_order_perm : forall {A : Type} (l : list A), map_order l ≡ₚ l
}.

Definition range_map `{MapOrder} {K} `{Countable K} {V} (m : gmap K V) : list (K * V) :=
  map_order (map_to_list m).

Definition range_keys `{MapOrder} {K} `{Countable K} {V} (m : gmap K V) : list K :=
  (range_map m).*1.

(** The order used by the concrete witnesses. *)
Definition id_order : MapOrder :=
  {| map_order := fun _ l => l; map_order_perm := fun A l => Permutation_refl l |}.

(** A second, distinct order: witnesses can also run entries backwards. *)
Definition rev_order : MapOrder :=
  {| map_order := fun A l => reverse l; map_order_perm := fun A l => reverse_Permutation l |}.

Section range_map.
Context `{MapOrder} {K : Type} `{Countable K} {V : Type}.
Implicit Types (m : gmap K V).

Lemma elem_of_range_map m k v : (k, v) ∈ range_map m <-> m !! k = Some v.
Proof. unfold range_map. rewrite map_order_perm. apply elem_of_map_to_list. Qed.

Lemma NoDup_range_keys m : NoDup (range_keys m).
Proof.
  unfold range_keys, range_map. rewrite map_order_perm. apply NoDup_fst_map_to_list.
Qed.

Lemma elem_of_range_keys m k : k ∈ range_keys m <-> is_Some (m !! k).
Proof.
  unfold range_keys. rewrite list_elem_of_fmap. split.
  - intros ([k' v] & -> & ?%elem_of_range_map). eauto.
  - intros [v ?]. exists (k, v). by rewrite elem_of_range_map.
Qed.

Lemma length_range_keys m : length (range_keys m) = size m.
Proof.
  unfold range_keys, range_map. rewrite length_fmap, map_order_perm.
  apply length_map_to_list.
Qed.

Lemma list_to_map_range m : list_to_map (range_map m) = m.
Proof.
  rewrite <- (list_to_map_to_list m) at 2. apply list_to_map_proper.
  - apply NoDup_range_keys.
  - apply map_order_perm.
Qed.
End range_map.

(** ** Folds *)


Lemma foldl_pair {A B X} (f : A -> X -> A) (g : B -> X -> B) a b l :
  foldl (fun '(a, b) x => (f a x, g b x)) (a, b) l = (foldl f a l, foldl g b l).
Proof. revert a b. induction l as [|x l IH]; intros a b; simpl; [done|apply IH]. Qed.

Lemma existsb_true {A} (f : A -> bool) l : existsb f l = true <-> exists x, x ∈ l /\ f x = true.
Proof.
  rewrite existsb_exists. split; intros (x & Hx & Hf); exists x; by rewrite list_elem_of_In in *.
Qed.

Lemma existsb_false {A} (f : A -> bool) l : existsb f l = false <-> forall x, x ∈ l -> f x = false.
Proof.
  rewrite <- not_true_iff_false, existsb_true. split.
  - intros Hn x Hx. apply not_true_iff_false. naive_solver.
  - intros Hf (x & Hx & E). rewrite Hf in E; done.
Qed.

Lemma filter_nil_iff {A} (P : A -> Prop) `{!forall x, Decision (P x)} l :
  filter P l = [] <-> forall x, x ∈ l -> ~ P x.
Proof.
  split.
  - intros E x Hx HP. assert (x ∈ filter P l) by by apply list_elem_of_filter. rewrite E in *. set_solver.
  - intros Hn. destruct (filter P l) as [|x k] eqn:E; [done|].
    assert (x ∈ filter P l) as [? ?]%list_elem_of_filter by (rewrite E; set_solver). naive_solver.
Qed.

Lemma list_filter_all {A} (P : A -> Prop) `{!forall x, Decision (P x)} l :
  Forall P l -> filter P l = l.
Proof. induction 1; [done|]. rewrite filter_cons_True by done. congruence. Qed.

Lemma foldl_delete_lookup {K} `{Countable K} {V} (m : gmap K V) l i :
  foldl (fun m k => delete k m) m l !! i = if decide (i ∈ l) then None else m !! i.
Proof.
  revert m. induction l as [|k l IH]; intros m; cbn [foldl].
  - case_decide; [set_solver|done].
  - rewrite IH, lookup_delete. repeat case_decide; set_solver.
Qed.

Lemma foldl_insert_union {K} `{Countable K} {A V} (key : A -> K) (val : A -> V) m l :
  foldl (fun m x => <[key x := val x]> m) m l = build_map key val l ∪ m.
Proof.
  induction l as [|x l IH] using rev_ind.
  - unfold build_map. cbn [foldl]. by rewrite (left_id_L ∅ (∪)).
  - rewrite foldl_app, build_map_snoc. simpl. by rewrite IH, insert_union_l.
Qed.

(** A result known by its first component. *)
Lemma option_pair_eq {A B} (r : option (A * B)) a d :
  fst <$> r = Some a -> r = Some (a, default d (snd <$> r)).
Proof. destruct r as [[x y]|]; [by intros [= ->]|done]. Qed.

Lemma list_fmap_nil_iff {A B} (f : A -> B) l : f <$> l = [] <-> l = [].
Proof. by destruct l. Qed.

(** ** Strings *)

Lemma string_app_nil_r s : String.append s "" = s.
Proof.
  induction s as [|c s IH]; [done|].
  change (String c (String.append s "") = String c s). by rewrite IH.
Qed.

Lemma string_app_assoc a b c : String.append (String.append a b) c = String.append a (String.append b c).
Proof.
  induction a as [|x a IH]; [done|].
  change (String x (String.append (String.append a b) c) = String x (String.append a (String.append b c))).
  by rewrite IH.
Qed.

Lemma string_app_list a b :
  String.list_ascii_of_string (String.append a b) =
  String.list_ascii_of_string a ++ String.list_ascii_of_string b.
Proof.
  induction a as [|x a IH]; [done|].
  change (x :: String.list_ascii_of_string (String.append a b) =
          x :: String.list_ascii_of_string a ++ String.list_ascii_of_string b).
  by rewrite IH.
Qed.

Lemma string_app_inj_r a b c : String.append a c = String.append b c -> a = b.
Proof.
  intros E. rewrite <- (String.string_of_list_ascii_of_string a), <- (String.string_of_list_ascii_of_string b).
  f_equal. apply (app_inv_tail (String.list_ascii_of_string c)).
  by rewrite <- !string_app_list, E.
Qed.

(** ** Tactics and hints *)

Create HintDb plexd.

(** A closed decidable goal, decided by evaluation. *)
Ltac by_compute := refine (bool_decide_unpack _ _); vm_compute; exact I.
