(* ===== verification/Base64.v ===== *)
(** * Go's [base64.StdEncoding]

    The padded standard alphabet, as the Go library documents it: decoding
    ignores carriage returns and newlines, wants every quantum complete,
    allows padding in the last quantum only, and does not inspect the unused
    bits of that quantum.  Bytes are integers in [0, 256). *)

From Stdlib Require Import Ascii.
From stdpp Require Import base strings list.
From S2P Require Import Prelude.

Definition byte_ok (b : Z) : Prop := 0 <= b < 256.

Definition ascii_code (c : ascii) : Z := Z.of_N (N_of_ascii c).
Definition ascii_of_code (z : Z) : ascii := ascii_of_N (Z.to_N z).

Definition bytes_of_string (s : string) : list Z := ascii_code <$> String.list_ascii_of_string s.
Definition string_of_bytes (l : list Z) : string := String.string_of_list_ascii (ascii_of_code <$> l).

(** The alphabet: A-Z, a-z, 0-9, + and /. *)
Definition b64_char (v : Z) : Z :=
  if v <? 26 then v + 65
  else if v <? 52 then v + 71
  else if v <? 62 then v - 4
  else if v =? 62 then 43
  else 47.

Definition b64_value (c : Z) : option Z :=
  if (65 <=? c) && (c <=? 90) then Some (c - 65)
  else if (97 <=? c) && (c <=? 122) then Some (c - 71)
  else if (48 <=? c) && (c <=? 57) then Some (c + 4)
  else if c =? 43 then Some 62
  else if c =? 47 then Some 63
  else None.

Definition pad_char : Z := 61.
Definition is_newline (c : Z) : bool := (c =? 10) || (c =? 13).

Fixpoint encode_bytes (l : list Z) : list Z :=
  match l with
  | [] => []
  | [b1] =>
      let v := b1 * 65536 in
      [b64_char (v / 262144); b64_char (v / 4096 mod 64); pad_char; pad_char]
  | [b1; b2] =>
      let v := b1 * 65536 + b2 * 256 in
      [b64_char (v / 262144); b64_char (v / 4096 mod 64); b64_char (v / 64 mod 64); pad_char]
  | b1 :: b2 :: b3 :: l =>
      let v := b1 * 65536 + b2 * 256 + b3 in
      b64_char (v / 262144) :: b64_char (v / 4096 mod 64) :: b64_char (v / 64 mod 64) ::
      b64_char (v mod 64) :: encode_bytes l
  end.

Fixpoint decode_quanta (l : list Z) : option (list Z) :=
  match l with
  | [] => Some []
  | c1 :: c2 :: c3 :: c4 :: l =>
      v1 ← b64_value c1; v2 ← b64_value c2;
      if c3 =? pad_char then
        if (c4 =? pad_char) && bool_decide (l = [])
        then Some [(v1 * 262144 + v2 * 4096) / 65536] else None
      else
        v3 ← b64_value c3;
        if c4 =? pad_char then
          if bool_decide (l = []) then
            let v := v1 * 262144 + v2 * 4096 + v3 * 64 in
            Some [v / 65536; v / 256 mod 256]
          else None
        else
          v4 ← b64_value c4;
          let v := v1 * 262144 + v2 * 4096 + v3 * 64 + v4 in
          rest ← decode_quanta l;
          Some (v / 65536 :: v / 256 mod 256 :: v mod 256 :: rest)
  | _ => None
  end.

Definition EncodeToString (b : list Z) : string := string_of_bytes (encode_bytes b).

Definition DecodeString (s : string) : option (list Z) :=
  decode_quanta (filter (fun c => is_newline c = false) (bytes_of_string s)).

(** ** Lemmas *)

Lemma ascii_code_of_code z : byte_ok z -> ascii_code (ascii_of_code z) = z.
Proof.
  unfold byte_ok, ascii_code, ascii_of_code. intros Hz.
  rewrite N_ascii_embedding by lia. lia.
Qed.

Lemma ascii_code_ok c : byte_ok (ascii_code c).
Proof. unfold byte_ok, ascii_code. pose proof (N_ascii_bounded c). lia. Qed.

Lemma ascii_of_code_code c : ascii_of_code (ascii_code c) = c.
Proof. unfold ascii_of_code, ascii_code. rewrite N2Z.id. apply ascii_N_embedding. Qed.

Lemma bytes_of_string_ok s : Forall byte_ok (bytes_of_string s).
Proof. apply Forall_fmap, Forall_forall. intros c _. apply ascii_code_ok. Qed.

Lemma bytes_of_string_app a b : bytes_of_string (String.append a b) = bytes_of_string a ++ bytes_of_string b.
Proof. unfold bytes_of_string. by rewrite string_app_list, fmap_app. Qed.

Lemma string_of_bytes_app a b : string_of_bytes (a ++ b) = String.append (string_of_bytes a) (string_of_bytes b).
Proof.
  unfold string_of_bytes. rewrite fmap_app. generalize (ascii_of_code <$> a) as l.
  induction l as [|c l IH]; [done|]. cbn. by rewrite IH.
Qed.

Lemma bytes_of_string_of_bytes l : Forall byte_ok l -> bytes_of_string (string_of_bytes l) = l.
Proof.
  intros Hl. unfold bytes_of_string, string_of_bytes.
  rewrite String.list_ascii_of_string_of_list_ascii, <- list_fmap_compose.
  rewrite <- (list_fmap_id l) at 2. apply list_fmap_ext. intros i b Hb.
  apply ascii_code_of_code. by eapply Forall_lookup_1.
Qed.

Lemma string_of_bytes_of_string s : string_of_bytes (bytes_of_string s) = s.
Proof.
  unfold bytes_of_string, string_of_bytes. rewrite <- list_fmap_compose.
  rewrite <- (String.string_of_list_ascii_of_string s) at 2. f_equal.
  rewrite <- (list_fmap_id (String.list_ascii_of_string s)) at 2. apply list_fmap_ext.
  intros i c _. apply ascii_of_code_code.
Qed.

Lemma b64_char_range v : 0 <= v < 64 ->
  43 <= b64_char v <= 122 /\ (b64_char v =? pad_char) = false.
Proof.
  intros Hv. unfold b64_char, pad_char.
  repeat case_match; lia.
Qed.

Lemma b64_value_char v : 0 <= v < 64 -> b64_value (b64_char v) = Some v.
Proof.
  intros Hv. unfold b64_char, b64_value.
  repeat (case_match; [|]); try lia; try (f_equal; lia).
Qed.

(** The digits of a 24-bit group are in range and put together again. *)
Lemma digits_spec v : 0 <= v < 16777216 ->
  (0 <= v / 262144 < 64 /\ 0 <= v / 4096 mod 64 < 64 /\ 0 <= v / 64 mod 64 < 64 /\
   0 <= v mod 64 < 64) /\
  v / 262144 * 262144 + v / 4096 mod 64 * 4096 + v / 64 mod 64 * 64 + v mod 64 = v.
Proof.
  intros Hv.
  assert (E2 : v / 4096 = v / 64 / 64) by (rewrite Z.div_div; [done|lia|lia]).
  assert (E3 : v / 262144 = v / 64 / 64 / 64) by (rewrite !Z.div_div; [done|lia..]).
  rewrite E2, E3. clear E2 E3.
  pose proof (Z.div_mod v 64 ltac:(lia)). pose proof (Z.mod_pos_bound v 64 ltac:(lia)).
  set (q1 := v / 64) in *.
  pose proof (Z.div_mod q1 64 ltac:(lia)). pose proof (Z.mod_pos_bound q1 64 ltac:(lia)).
  set (q2 := q1 / 64) in *.
  pose proof (Z.div_mod q2 64 ltac:(lia)). pose proof (Z.mod_pos_bound q2 64 ltac:(lia)).
  lia.
Qed.

Lemma group_bytes b1 b2 b3 : byte_ok b1 -> byte_ok b2 -> byte_ok b3 ->
  let v := b1 * 65536 + b2 * 256 + b3 in
  0 <= v < 16777216 /\ v / 65536 = b1 /\ v / 256 mod 256 = b2 /\ v mod 256 = b3.
Proof.
  unfold byte_ok. intros H1 H2 H3. cbv zeta.
  replace (b1 * 65536 + b2 * 256 + b3) with (b3 + (b1 * 256 + b2) * 256) by lia.
  assert (E : (b3 + (b1 * 256 + b2) * 256) / 256 = b1 * 256 + b2)
    by (rewrite Z.div_add, Z.div_small by lia; lia).
  split_and!; try lia.
  - change 65536 with (256 * 256). rewrite <- Z.div_div, E by lia.
    rewrite Z.add_comm, Z.div_add, Z.div_small by lia. lia.
  - rewrite E, Z.add_comm, Z.mod_add, Z.mod_small by lia. lia.
  - rewrite Z.mod_add, Z.mod_small by lia. lia.
Qed.

(** Groups of one or two bytes leave the low digits zero. *)
Lemma one_byte_digits v : (65536 | v) -> v / 262144 * 262144 + v / 4096 mod 64 * 4096 = v.
Proof.
  intros [b ->].
  replace (b * 65536 / 4096) with (b * 16) by (replace (b * 65536) with (b * 16 * 4096) by lia; by rewrite Z.div_mul).
  replace (b * 65536 / 262144) with (b * 16 / 64).
  2: { replace (b * 65536) with (b * 16 * 4096) by lia. by rewrite <- (Z.div_mul_cancel_r _ 64 4096). }
  pose proof (Z.div_mod (b * 16) 64 ltac:(lia)). lia.
Qed.

Lemma two_byte_digits v : (256 | v) ->
  v / 262144 * 262144 + v / 4096 mod 64 * 4096 + v / 64 mod 64 * 64 = v.
Proof.
  intros [b ->].
  replace (b * 256 / 64) with (b * 4) by (replace (b * 256) with (b * 4 * 64) by lia; by rewrite Z.div_mul).
  assert (E2 : b * 256 / 4096 = b * 4 / 64).
  { replace (b * 256) with (b * 4 * 64) by lia. by rewrite <- (Z.div_mul_cancel_r _ 64 64). }
  assert (E3 : b * 256 / 262144 = b * 4 / 64 / 64).
  { replace (b * 256) with (b * 4 * 64) by lia. rewrite Z.div_div by lia.
    by rewrite <- (Z.div_mul_cancel_r _ (64 * 64) 64). }
  rewrite E2, E3.
  pose proof (Z.div_mod (b * 4) 64 ltac:(lia)). pose proof (Z.div_mod (b * 4 / 64) 64 ltac:(lia)). lia.
Qed.

Lemma encode_bytes_ok l : Forall byte_ok l ->
  Forall (fun c => 43 <= c <= 122) (encode_bytes l).
Proof.
  revert l. fix IH 1. intros [|b1 [|b2 [|b3 l]]] Hl; simpl.
  - constructor.
  - apply Forall_cons in Hl as [H1 _]. destruct (group_bytes b1 0 0 H1) as (Hv & _); [done..|].
    rewrite Z.mul_0_l, !Z.add_0_r in Hv.
    destruct (digits_spec _ Hv) as ((? & ? & ? & ?) & _).
    repeat constructor; try apply b64_char_range; done.
  - apply Forall_cons in Hl as [H1 [H2 _]%Forall_cons].
    destruct (group_bytes b1 b2 0 H1 H2) as (Hv & _); [done|]. rewrite Z.add_0_r in Hv.
    destruct (digits_spec _ Hv) as ((? & ? & ? & ?) & _).
    repeat constructor; try apply b64_char_range; done.
  - apply Forall_cons in Hl as [H1 [H2 [H3 Hl]%Forall_cons]%Forall_cons].
    destruct (group_bytes b1 b2 b3 H1 H2 H3) as (Hv & _).
    destruct (digits_spec _ Hv) as ((? & ? & ? & ?) & _).
    repeat (constructor; [by apply b64_char_range|]). by apply IH.
Qed.

Lemma decode_encode_bytes l : Forall byte_ok l -> decode_quanta (encode_bytes l) = Some l.
Proof.
  revert l. fix IH 1. intros [|b1 [|b2 [|b3 l]]] Hl.
  - done.
  - apply Forall_cons in Hl as [H1 _]. cbn [encode_bytes decode_quanta].
    destruct (group_bytes b1 0 0 H1) as (Hv & E1 & E2 & _); [done..|].
    rewrite !Z.mul_0_l, !Z.add_0_r in *.
    destruct (digits_spec _ Hv) as ((? & ? & ? & ?) & E).
    rewrite !b64_value_char by done. simpl.
    rewrite (one_byte_digits (b1 * 65536)) by (exists b1; lia). by rewrite E1.
  - apply Forall_cons in Hl as [H1 [H2 _]%Forall_cons]. cbn [encode_bytes decode_quanta].
    destruct (group_bytes b1 b2 0 H1 H2) as (Hv & E1 & E2 & _); [done|]. rewrite !Z.add_0_r in *.
    destruct (digits_spec _ Hv) as ((? & ? & D3 & ?) & E).
    rewrite !b64_value_char by done. simpl. destruct (b64_char_range _ D3) as (_ & ->).
    rewrite (two_byte_digits (b1 * 65536 + b2 * 256)) by (exists (b1 * 256 + b2); lia).
    by rewrite E1, E2.
  - apply Forall_cons in Hl as [H1 [H2 [H3 Hl]%Forall_cons]%Forall_cons].
    cbn [encode_bytes decode_quanta].
    destruct (group_bytes b1 b2 b3 H1 H2 H3) as (Hv & E1 & E2 & E3).
    destruct (digits_spec _ Hv) as ((? & ? & D3 & D4) & E).
    rewrite !b64_value_char by done. simpl.
    destruct (b64_char_range _ D3) as (_ & ->). destruct (b64_char_range _ D4) as (_ & ->).
    simpl. rewrite IH by done. simpl. by rewrite E, E1, E2, E3.
Qed.

Lemma DecodeString_EncodeToString b : Forall byte_ok b -> DecodeString (EncodeToString b) = Some b.
Proof.
  intros Hb. unfold DecodeString, EncodeToString. pose proof (encode_bytes_ok b Hb) as He.
  rewrite bytes_of_string_of_bytes by (eapply Forall_impl; [exact He|unfold byte_ok; lia]).
  rewrite list_filter_all by (eapply Forall_impl; [exact He|unfold is_newline; lia]).
  by apply decode_encode_bytes.
Qed.

Lemma b64_value_range c v : b64_value c = Some v -> 0 <= v < 64.
Proof. unfold b64_value. intros. repeat case_match; simplify_eq; lia. Qed.

Lemma decode_quanta_ok l b : decode_quanta l = Some b -> Forall byte_ok b.
Proof.
  revert l b. fix IH 1. intros [|c1 [|c2 [|c3 [|c4 l]]]] b; cbn [decode_quanta]; try done.
  { intros [= <-]. constructor. }
  destruct (b64_value c1) as [v1|] eqn:E1; [|done]. destruct (b64_value c2) as [v2|] eqn:E2; [|done].
  apply b64_value_range in E1, E2. simpl.
  destruct (c3 =? pad_char).
  { destruct (_ && _); [|done]. intros [= <-]. constructor; [|constructor].
    split; [apply Z.div_pos|apply Z.div_lt_upper_bound]; lia. }
  destruct (b64_value c3) as [v3|] eqn:E3; [|done]. apply b64_value_range in E3. simpl.
  destruct (c4 =? pad_char).
  { destruct (bool_decide _); [|done]. intros [= <-].
    constructor; [|constructor; [|constructor]].
    - split; [apply Z.div_pos|apply Z.div_lt_upper_bound]; lia.
    - by apply Z.mod_pos_bound. }
  destruct (b64_value c4) as [v4|] eqn:E4; [|done]. apply b64_value_range in E4. simpl.
  destruct (decode_quanta l) as [r|] eqn:Er; [|done]. intros [= <-].
  constructor; [split; [apply Z.div_pos|apply Z.div_lt_upper_bound]; lia|].
  constructor; [by apply Z.mod_pos_bound|]. constructor; [by apply Z.mod_pos_bound|].
  exact (IH l r Er).
Qed.

Lemma DecodeString_ok s b : DecodeString s = Some b -> Forall byte_ok b.
Proof. apply decode_quanta_ok. Qed.

#[export] Hint Resolve bytes_of_string_ok : plexd.
