(* ===== verification/Net.v ===== *)
(** * Textual IP addresses of Go's [net] and [net/netip] packages

    [ParseAddr], [ParseIP], [To4], [ParseCIDR], [CIDRMask] as the Go standard
    library implements them.  Text is a list of byte codes, an address a list
    of bytes in network order. *)

From stdpp Require Import base strings list.
From S2P Require Import Prelude Base64.

(** Codes of the characters the parsers look at. *)
Definition c_dot : Z := 46.
Definition c_colon : Z := 58.
Definition c_percent : Z := 37.
Definition c_slash : Z := 47.

Definition digit (c : Z) : option Z := if (48 <=? c) && (c <=? 57) then Some (c - 48) else None.
Definition hexdigit (c : Z) : option Z :=
  if (48 <=? c) && (c <=? 57) then Some (c - 48)
  else if (97 <=? c) && (c <=? 102) then Some (c - 87)
  else if (65 <=? c) && (c <=? 70) then Some (c - 55)
  else None.

(** [strings.Cut] at the first occurrence of a byte. *)
Fixpoint cut (c : Z) (l : list Z) : option (list Z * list Z) :=
  match l with
  | [] => None
  | x :: l =>
      if x =? c then Some ([], l)
      else match cut c l with Some (a, b) => Some (x :: a, b) | None => None end
  end.

(** ** IPv4: [parseIPv4Fields]

    [fields] are the octets read so far, [val] and [dig] value and number of
    digits of the current one. *)
Fixpoint parseIPv4Fields (l : list Z) (fields : list Z) (val : Z) (dig : nat) : option (list Z) :=
  match l with
  | [] =>
      if decide (length fields = 3%nat /\ dig <> 0%nat) then Some (fields ++ [val]) else None
  | c :: l =>
      match digit c with
      | Some d =>
          if decide (dig = 1%nat /\ val = 0) then None
          else
            let val := val * 10 + d in
            if 255 <? val then None else parseIPv4Fields l fields val (S dig)
      | None =>
          if c =? c_dot then
            if decide (dig = 0%nat \/ l = [] \/ length fields = 3%nat) then None
            else parseIPv4Fields l (fields ++ [val]) 0 0
          else None
      end
  end.

Definition parseIPv4 (l : list Z) : option (list Z) := parseIPv4Fields l [] 0 0.

(** ** IPv6: [parseIPv6] *)

(** The hex number at the head of the text: value, digits read, rest. *)
Fixpoint hexfield (l : list Z) (acc : Z) (off : nat) : option (Z * nat * list Z) :=
  match l with
  | [] => Some (acc, off, [])
  | c :: l' =>
      match hexdigit c with
      | None => Some (acc, off, l)
      | Some d =>
          if (3 <? off)%nat then None
          else
            let acc := acc * 16 + d in
            if 65535 <? acc then None else hexfield l' acc (S off)
      end
  end.

(** The loop over fields: [ip] holds the bytes read so far; at most eight
    rounds, since each adds at least two of the sixteen bytes or ends. *)
Fixpoint parseIPv6_loop (fuel : nat) (l ip : list Z) (ellipsis : option nat)
    : option (list Z * list Z * option nat) :=
  match fuel with
  | O => Some (l, ip, ellipsis)
  | S fuel =>
      match hexfield l 0 0 with
      | None => None
      | Some (acc, off, rest) =>
          if decide (off = 0%nat) then None
          else
            match rest with
            | c :: _ =>
                if c =? c_dot then
                  if decide ((ellipsis = None /\ length ip <> 12%nat) \/ (12 < length ip)%nat) then None
                  else
                    match parseIPv4 l with
                    | None => None
                    | Some v4 => Some ([], ip ++ v4, ellipsis)
                    end
                else
                  let ip := ip ++ [acc / 256; acc mod 256] in
                  if c =? c_colon then
                    match tail rest with
                    | [] => None
                    | c2 :: rest2 =>
                        if c2 =? c_colon then
                          match ellipsis with
                          | Some _ => None
                          | None =>
                              match rest2 with
                              | [] => Some ([], ip, Some (length ip))
                              | _ => parseIPv6_loop fuel rest2 ip (Some (length ip))
                              end
                          end
                        else parseIPv6_loop fuel (c2 :: rest2) ip ellipsis
                    end
                  else None
            | [] => Some ([], ip ++ [acc / 256; acc mod 256], ellipsis)
            end
      end
  end.

(** An address: IPv4 in four bytes, or IPv6 in sixteen with its zone. *)
Inductive Addr := Addr4 (b : list Z) | Addr6 (b : list Z) (zone : list Z).

Definition parseIPv6_body (l : list Z) (ellipsis : option nat) : option (list Z) :=
  match parseIPv6_loop 8 l [] ellipsis with
  | Some ([], ip, ell) =>
      if decide (length ip < 16)%nat then
        match ell with
        | None => None
        | Some e => Some (take e ip ++ replicate (16 - length ip) 0 ++ drop e ip)
        end
      else match ell with None => Some ip | Some _ => None end
  | _ => None
  end.

Definition parseIPv6 (l : list Z) : option Addr :=
  match (match cut c_percent l with
         | None => Some (l, [])
         | Some (_, []) => None
         | Some (s, zone) => Some (s, zone)
         end) with
  | None => None
  | Some (s, zone) =>
      match s with
      | c1 :: c2 :: s' =>
          if (c1 =? c_colon) && (c2 =? c_colon) then
            match s' with
            | [] => Some (Addr6 (replicate 16 0) zone)
            | _ => (fun ip => Addr6 ip zone) <$> parseIPv6_body s' (Some 0%nat)
            end
          else (fun ip => Addr6 ip zone) <$> parseIPv6_body s None
      | _ => (fun ip => Addr6 ip zone) <$> parseIPv6_body s None
      end
  end.

(** ** [netip.ParseAddr], [net.ParseIP], [IP.To4] *)

Fixpoint addr_kind (l : list Z) : option Z :=
  match l with
  | [] => None
  | c :: l => if (c =? c_dot) || (c =? c_colon) || (c =? c_percent) then Some c else addr_kind l
  end.

Definition ParseAddr (l : list Z) : option Addr :=
  match addr_kind l with
  | Some c =>
      if c =? c_dot then Addr4 <$> parseIPv4 l
      else if c =? c_colon then parseIPv6 l
      else None
  | None => None
  end.

Definition v4InV6Prefix : list Z := replicate 10 0 ++ [255; 255].

(** [As16]: the sixteen-byte form. *)
Definition As16 (a : Addr) : list Z :=
  match a with Addr4 b => v4InV6Prefix ++ b | Addr6 b _ => b end.

Definition Zone (a : Addr) : list Z := match a with Addr4 _ => [] | Addr6 _ z => z end.
Definition BitLen (a : Addr) : nat := match a with Addr4 _ => 32%nat | Addr6 _ _ => 128%nat end.

Definition ParseIP (s : string) : option (list Z) :=
  match ParseAddr (bytes_of_string s) with
  | Some a => if decide (Zone a = []) then Some (As16 a) else None
  | None => None
  end.

Definition To4 (ip : list Z) : option (list Z) :=
  if decide (length ip = 4%nat) then Some ip
  else if decide (length ip = 16%nat /\ take 12 ip = v4InV6Prefix) then Some (drop 12 ip)
  else None.

(** ** CIDR notation *)

(** [dtoi]: leading decimal digits; fails without digits or above 0xFFFFFF. *)
Fixpoint dtoi_loop (l : list Z) (n : Z) : option (Z * list Z) :=
  match l with
  | [] => Some (n, [])
  | c :: l' =>
      match digit c with
      | None => Some (n, l)
      | Some d =>
          let n := n * 10 + d in
          if 16777215 <=? n then None else dtoi_loop l' n
      end
  end.

Definition dtoi (l : list Z) : option (Z * list Z) :=
  match l with
  | c :: _ => if decide (is_Some (digit c)) then dtoi_loop l 0 else None
  | [] => None
  end.

(** [CIDRMask ones bits]: [ones] one bits followed by zeros. *)
Definition mask_byte (ones : nat) : Z :=
  if (8 <=? ones)%nat then 255 else 256 - 2 ^ (8 - Z.of_nat ones).

Definition CIDRMask (ones bits : nat) : list Z :=
  (fun i => mask_byte (ones - 8 * i)) <$> seq 0 (bits / 8).

(** [IP.Mask] for the masks [ParseCIDR] builds. *)
Definition Mask (ip m : list Z) : list Z :=
  let ip := if decide (length m = 4%nat /\ length ip = 16%nat /\ take 12 ip = v4InV6Prefix)
            then drop 12 ip else ip in
  zip_with Z.land ip m.

(** [net.IPNet] with the prefix length its mask was made from: [Mask.Size()]
    gives [(ones, 8 * length mask)]. *)
Record IPNet := mkIPNet { net_IP : list Z; net_Mask : list Z; net_ones : nat }.

Definition Mask_Size (n : IPNet) : nat * nat := (net_ones n, (8 * length (net_Mask n))%nat).

Definition ParseCIDR (s : string) : option (list Z * IPNet) :=
  match cut c_slash (bytes_of_string s) with
  | None => None
  | Some (addr, mask) =>
      match ParseAddr addr with
      | None => None
      | Some a =>
          if decide (Zone a = []) then
            match dtoi mask with
            | Some (n, []) =>
                if decide (0 <= n <= Z.of_nat (BitLen a)) then
                  let ones := Z.to_nat n in
                  let m := CIDRMask ones (BitLen a) in
                  Some (As16 a, mkIPNet (Mask (As16 a) m) m ones)
                else None
            | _ => None
            end
          else None
      end
  end.

(** ** Prefixes as numbers *)

(** Big-endian value. *)
Definition be32 (b : list Z) : Z := foldl (fun z x => z * 256 + x) 0 b.

(** Same leading [ones] bits. *)
Definition in_prefix (ones : nat) (base d : list Z) : bool :=
  bool_decide (be32 d / 2 ^ (32 - Z.of_nat ones) = be32 base / 2 ^ (32 - Z.of_nat ones)).

(** ** Lemmas *)

Lemma parseIPv4Fields_ok l fields val dig ip :
  Forall byte_ok fields -> (length fields <= 3)%nat -> byte_ok val ->
  parseIPv4Fields l fields val dig = Some ip -> length ip = 4%nat /\ Forall byte_ok ip.
Proof.
  revert fields val dig. induction l as [|c l IH]; intros fields val dig Hf Hl Hv; simpl.
  - case_decide as E; [|done]. intros [= <-]. rewrite length_app. simpl.
    split; [lia|]. apply Forall_app. eauto.
  - destruct (digit c) as [d|] eqn:Ed.
    + case_decide; [done|]. destruct (255 <? val * 10 + d) eqn:Eb; [done|].
      apply IH; [done..|]. unfold byte_ok in *.
      unfold digit in Ed. case_match; simplify_eq. lia.
    + destruct (c =? c_dot); [|done]. case_decide as E; [done|].
      apply IH; [apply Forall_app; eauto| |done]. rewrite length_app. simpl. lia.
Qed.

Lemma parseIPv4_ok l ip : parseIPv4 l = Some ip -> length ip = 4%nat /\ Forall byte_ok ip.
Proof. apply parseIPv4Fields_ok; [constructor|simpl; lia|done]. Qed.

Lemma To4_length ip b : To4 ip = Some b -> length b = 4%nat.
Proof.
  unfold To4. repeat case_decide; intros; simplify_eq; [done|]. rewrite length_drop. lia.
Qed.

Lemma CIDRMask_length ones bits : length (CIDRMask ones bits) = (bits / 8)%nat.
Proof. unfold CIDRMask. by rewrite length_fmap, length_seq. Qed.

Lemma hexfield_ok l acc off v o r :
  0 <= acc <= 65535 -> hexfield l acc off = Some (v, o, r) -> 0 <= v <= 65535.
Proof.
  revert acc off. induction l as [|c l IH]; intros acc off Ha; simpl; [by intros; simplify_eq|].
  destruct (hexdigit c) as [d|] eqn:Ed; [|by intros; simplify_eq].
  destruct (3 <? off)%nat; [done|]. destruct (65535 <? acc * 16 + d) eqn:E; [done|].
  apply IH. unfold hexdigit in Ed. repeat case_match; simplify_eq; lia.
Qed.

Lemma parseIPv6_loop_ok fuel l ip ell r ip' ell' :
  Forall byte_ok ip -> parseIPv6_loop fuel l ip ell = Some (r, ip', ell') -> Forall byte_ok ip'.
Proof.
  revert l ip ell. induction fuel as [|fuel IH]; intros l ip ell Hip; simpl; [by intros; simplify_eq|].
  destruct (hexfield l 0 0) as [[[acc off] rest]|] eqn:Eh; [|done].
  apply hexfield_ok in Eh; [|lia]. case_decide; [done|].
  assert (Hip2 : Forall byte_ok (ip ++ [acc / 256; acc mod 256])).
  { apply Forall_app. split; [done|]. repeat constructor.
    - by apply Z.div_pos; lia.
    - apply Z.div_lt_upper_bound; lia.
    - by apply Z.mod_pos_bound.
    - by apply Z.mod_pos_bound. }
  destruct rest as [|c rest]; [by intros; simplify_eq|].
  destruct (c =? c_dot).
  { case_decide; [done|]. destruct (parseIPv4 l) as [v4|] eqn:E4; [|done]. intros [= <- <- <-].
    apply Forall_app. by apply parseIPv4_ok in E4 as [_ ?]. }
  destruct (c =? c_colon); [|done]. simpl. destruct rest as [|c2 rest]; [done|].
  destruct (c2 =? c_colon); [|by apply IH].
  destruct ell; [done|]. destruct rest; [by intros; simplify_eq|]. by apply IH.
Qed.

Lemma parseIPv6_body_ok l ell ip : parseIPv6_body l ell = Some ip -> Forall byte_ok ip.
Proof.
  unfold parseIPv6_body. destruct (parseIPv6_loop 8 l [] ell) as [[[[|??] ip'] ell']|] eqn:E; [|done..].
  apply parseIPv6_loop_ok in E; [|constructor].
  case_decide; destruct ell'; intros; simplify_eq; try done.
  apply Forall_app; split; [by apply Forall_take|]. apply Forall_app; split; [|by apply Forall_drop].
  apply Forall_replicate. done.
Qed.

Lemma ParseAddr_ok l a : ParseAddr l = Some a -> Forall byte_ok (As16 a).
Proof.
  unfold ParseAddr. destruct (addr_kind l) as [c|]; [|done]. destruct (c =? c_dot).
  - intros (b & [_ Hb]%parseIPv4_ok & ->)%fmap_Some. apply Forall_app. split; [|done]. by repeat constructor.
  - destruct (c =? c_colon); [|done]. unfold parseIPv6. intros Hp.
    repeat case_match; simplify_eq; first
      [ apply fmap_Some in Hp as (b & Hb & ->); by apply parseIPv6_body_ok in Hb
      | by apply Forall_replicate ].
Qed.

Lemma To4_ok ip b : Forall byte_ok ip -> To4 ip = Some b -> Forall byte_ok b.
Proof. unfold To4. intros. repeat case_decide; simplify_eq; [done|]. by apply Forall_drop. Qed.

Lemma ParseIP_ok s ip : ParseIP s = Some ip -> Forall byte_ok ip.
Proof.
  unfold ParseIP. destruct (ParseAddr _) as [a|] eqn:E; [|done]. case_decide; [|done].
  intros [= <-]. by apply ParseAddr_ok in E.
Qed.

(** An IPv4 CIDR: the parsed net has a four-byte mask and network address. *)
Lemma ParseCIDR_v4 s ip n :
  ParseCIDR s = Some (ip, n) -> (Mask_Size n).2 = 32%nat ->
  exists b, length b = 4%nat /\ Forall byte_ok b /\ ip = v4InV6Prefix ++ b /\ (net_ones n <= 32)%nat /\
    net_Mask n = CIDRMask (net_ones n) 32 /\ net_IP n = zip_with Z.land b (net_Mask n).
Proof.
  unfold ParseCIDR. destruct (cut _ _) as [[addr mask]|]; [|done].
  destruct (ParseAddr addr) as [a|] eqn:Ea; [|done]. case_decide; [|done].
  destruct (dtoi mask) as [[k [|??]]|]; [|done..]. case_decide as Hk; [|done].
  intros [= <- <-]. unfold Mask_Size. simpl. rewrite CIDRMask_length.
  destruct a as [b|b z]; simpl; [|done]. intros _. exists b.
  assert (Hb : length b = 4%nat).
  { unfold ParseAddr in Ea. repeat case_match; try done.
    - apply fmap_Some in Ea as (b' & Hb & [= ->]). by apply parseIPv4_ok in Hb as [? _].
    - unfold parseIPv6 in Ea. repeat case_match; try done; 
        by apply fmap_Some in Ea as (b' & _ & ?). }
  split_and!; try done.
  { apply ParseAddr_ok, Forall_app in Ea. apply Ea. }
  { simpl in *; lia. }
  unfold Mask. rewrite decide_True; [done|]. rewrite CIDRMask_length. simpl. rewrite Hb. done.
Qed.

Lemma mask_byte_land b k : byte_ok b -> (k <= 8)%nat ->
  Z.land b (mask_byte k) = b / 2 ^ (8 - Z.of_nat k) * 2 ^ (8 - Z.of_nat k).
Proof.
  intros Hb Hk.
  assert (Hall : forallb (fun k => forallb (fun b =>
    Z.land b (mask_byte k) =? b / 2 ^ (8 - Z.of_nat k) * 2 ^ (8 - Z.of_nat k))
    (Z.of_nat <$> seq 0 256)) (seq 0 9) = true) by (vm_compute; reflexivity).
  rewrite forallb_forall in Hall. specialize (Hall k). rewrite forallb_forall in Hall.
  apply Z.eqb_eq, Hall.
  - apply in_seq. lia.
  - apply in_map_iff. exists (Z.to_nat b). unfold byte_ok in Hb. split; [lia|]. apply in_seq. lia.
Qed.

Lemma mask_byte_big k : (8 <= k)%nat -> mask_byte k = mask_byte 8.
Proof. intros Hk. unfold mask_byte. by rewrite (proj2 (Nat.leb_le 8 k) Hk). Qed.

Lemma list4_eq (a0 a1 a2 a3 b0 b1 b2 b3 : Z) :
  [a0; a1; a2; a3] = [b0; b1; b2; b3] <-> a0 = b0 /\ a1 = b1 /\ a2 = b2 /\ a3 = b3.
Proof. split; [by intros [= -> -> -> ->]|by intros (-> & -> & -> & ->)]. Qed.

(** Keeping the leading bits of every byte is keeping the leading bits of the
    number. *)
Lemma masked_bytes_eq ones a0 a1 a2 a3 b0 b1 b2 b3 :
  Forall byte_ok [a0; a1; a2; a3] -> Forall byte_ok [b0; b1; b2; b3] -> (ones <= 32)%nat ->
  zip_with Z.land [a0; a1; a2; a3] (CIDRMask ones 32) =
  zip_with Z.land [b0; b1; b2; b3] (CIDRMask ones 32) <->
  be32 [a0; a1; a2; a3] / 2 ^ (32 - Z.of_nat ones) = be32 [b0; b1; b2; b3] / 2 ^ (32 - Z.of_nat ones).
Proof.
  intros Ha Hb Hones. rewrite !Forall_cons in Ha, Hb.
  destruct Ha as (Ha0 & Ha1 & Ha2 & Ha3 & _), Hb as (Hb0 & Hb1 & Hb2 & Hb3 & _).
  assert (Hm : forall x k, byte_ok x -> Z.land x (mask_byte k) =
    x / 2 ^ (8 - Z.of_nat (Nat.min 8 k)) * 2 ^ (8 - Z.of_nat (Nat.min 8 k))).
  { intros x k Hx. destruct (decide (k <= 8)%nat).
    - rewrite Nat.min_r by done. by apply mask_byte_land.
    - rewrite mask_byte_big, Nat.min_l by lia. by apply mask_byte_land. }
  unfold CIDRMask. simpl. rewrite !Hm, list4_eq by done. clear Hm.
  unfold byte_ok, be32 in *. simpl.
  do 33 (destruct ones as [|ones]; [clear Hones; simpl; rewrite ?Z.div_1_r, ?Z.mul_1_r; split; intros;
    Z.to_euclidean_division_equations; lia|]). lia.
Qed.

Lemma prefix_test ones base d :
  length base = 4%nat -> Forall byte_ok base -> length d = 4%nat -> Forall byte_ok d ->
  (ones <= 32)%nat ->
  zip_with Z.land d (CIDRMask ones 32) = zip_with Z.land base (CIDRMask ones 32) <->
  in_prefix ones base d = true.
Proof.
  intros Hb Hbo Hd Hdo Ho. unfold in_prefix. rewrite bool_decide_eq_true.
  destruct base as [|? [|? [|? [|? [|]]]]], d as [|? [|? [|? [|? [|]]]]]; try done.
  by apply masked_bytes_eq.
Qed.

Lemma land_255 x : byte_ok x -> Z.land x 255 = x.
Proof. intros Hx. change 255 with (Z.ones 8). rewrite Z.land_ones by done. by apply Z.mod_small. Qed.

Lemma prefix_32 base d :
  length base = 4%nat -> Forall byte_ok base -> length d = 4%nat -> Forall byte_ok d ->
  in_prefix 32 base d = true <-> d = base.
Proof.
  intros Hb Hbo Hd Hdo. rewrite <- (prefix_test 32) by (done || lia).
  assert (Hid : forall l, length l = 4%nat -> Forall byte_ok l -> zip_with Z.land l (CIDRMask 32 32) = l).
  { intros [|x0 [|x1 [|x2 [|x3 [|]]]]] Hl Hl'; try done. rewrite !Forall_cons in Hl'.
    change (CIDRMask 32 32) with [255; 255; 255; 255]. simpl. by rewrite !land_255 by tauto. }
  by rewrite !Hid.
Qed.

Lemma xor_zeros ones d :
  length d = 4%nat ->
  zip_with Z.lxor (zip_with Z.land (take 4 d) (CIDRMask ones 32)) [0; 0; 0; 0] =
  zip_with Z.land d (CIDRMask ones 32).
Proof.
  intros Hd. destruct d as [|? [|? [|? [|? [|]]]]]; try done. unfold CIDRMask. simpl.
  by rewrite !Z.lxor_0_r.
Qed.
