(* ===== verification/Types.v ===== *)
(** * Wire types of the control-plane API (src/internal/api/types.go)

    Every struct is a record with the source's fields, in the source's order;
    field names carry a short prefix because record fields share one name
    space.  JSON tags are not modelled: the records are the decoded values.
    A nil slice and an empty slice are the same list (the code only ranges
    over them or takes their length), a nil map is the empty map, a pointer
    field is an [option], [json.RawMessage] is the raw byte string, and
    [time.Time] is a [Z] as explained in Prelude. *)

From stdpp Require Import base strings gmap list.
From S2P Require Import Prelude.

Record Peer := mkPeer {
  peer_ID : string;
  peer_PublicKey : string;
  peer_MeshIP : string;
  peer_Endpoint : string;
  peer_AllowedIPs : list string;
  peer_PSK : string
}.
#[global] Instance Peer_eq_dec : EqDecision Peer.
Proof. solve_decision. Defined.

Record RegisterResponse := mkRegisterResponse {
  rres_NodeID : string;
  rres_MeshIP : string;
  rres_SigningPublicKey : string;
  rres_NodeSecretKey : string;
  rres_Peers : list Peer
}.
#[global] Instance RegisterResponse_eq_dec : EqDecision RegisterResponse.
Proof. solve_decision. Defined.

Record HeartbeatResponse := mkHeartbeatResponse {
  hbr_Reconcile : bool;
  hbr_RotateKeys : bool
}.
#[global] Instance HeartbeatResponse_eq_dec : EqDecision HeartbeatResponse.
Proof. solve_decision. Defined.

Record PolicyRule := mkPolicyRule {
  pr_Src : string;
  pr_Dst : string;
  pr_Port : Z;
  pr_Protocol : string;
  pr_Action : string
}.
#[global] Instance PolicyRule_eq_dec : EqDecision PolicyRule.
Proof. solve_decision. Defined.

Record Policy := mkPolicy {
  pol_ID : string;
  pol_Rules : list PolicyRule
}.
#[global] Instance Policy_eq_dec : EqDecision Policy.
Proof. solve_decision. Defined.

Record SigningKeys := mkSigningKeys {
  sk_Current : string;
  sk_Previous : string;
  sk_TransitionExpires : option Z
}.
#[global] Instance SigningKeys_eq_dec : EqDecision SigningKeys.
Proof. solve_decision. Defined.

Record DataEntry := mkDataEntry {
  de_Key : string;
  de_ContentType : string;
  de_Payload : string;
  de_Version : Z;
  de_UpdatedAt : Z
}.
#[global] Instance DataEntry_eq_dec : EqDecision DataEntry.
Proof. solve_decision. Defined.

Record SecretRef := mkSecretRef {
  sr_Key : string;
  sr_Version : Z
}.
#[global] Instance SecretRef_eq_dec : EqDecision SecretRef.
Proof. solve_decision. Defined.

Record BridgeConfig := mkBridgeConfig {
  bc_AccessSubnets : list string;
  bc_EnableNAT : bool;
  bc_EnableForwarding : bool
}.
#[global] Instance BridgeConfig_eq_dec : EqDecision BridgeConfig.
Proof. solve_decision. Defined.

Record RelaySessionAssignment := mkRelaySessionAssignment {
  rsa_SessionID : string;
  rsa_PeerAID : string;
  rsa_PeerAEndpoint : string;
  rsa_PeerBID : string;
  rsa_PeerBEndpoint : string;
  rsa_ExpiresAt : Z
}.
#[global] Instance RelaySessionAssignment_eq_dec : EqDecision RelaySessionAssignment.
Proof. solve_decision. Defined.

Record RelayConfig := mkRelayConfig {
  rc_Sessions : list RelaySessionAssignment
}.
#[global] Instance RelayConfig_eq_dec : EqDecision RelayConfig.
Proof. solve_decision. Defined.

Record UserAccessPeer := mkUserAccessPeer {
  uap_PublicKey : string;
  uap_AllowedIPs : list string;
  uap_PSK : string;
  uap_Label : string
}.
#[global] Instance UserAccessPeer_eq_dec : EqDecision UserAccessPeer.
Proof. solve_decision. Defined.

Record UserAccessConfig := mkUserAccessConfig {
  uac_Enabled : bool;
  uac_InterfaceName : string;
  uac_ListenPort : Z;
  uac_Peers : list UserAccessPeer
}.
#[global] Instance UserAccessConfig_eq_dec : EqDecision UserAccessConfig.
Proof. solve_decision. Defined.

Record IngressRule := mkIngressRule {
  ir_RuleID : string;
  ir_ListenPort : Z;
  ir_TargetAddr : string;
  ir_Mode : string;
  ir_CertPEM : string;
  ir_KeyPEM : string
}.
#[global] Instance IngressRule_eq_dec : EqDecision IngressRule.
Proof. solve_decision. Defined.

Record IngressConfig := mkIngressConfig {
  ic_Enabled : bool;
  ic_Rules : list IngressRule
}.
#[global] Instance IngressConfig_eq_dec : EqDecision IngressConfig.
Proof. solve_decision. Defined.

Record SiteToSiteTunnel := mkSiteToSiteTunnel {
  sst_TunnelID : string;
  sst_RemoteEndpoint : string;
  sst_RemotePublicKey : string;
  sst_LocalSubnets : list string;
  sst_RemoteSubnets : list string;
  sst_PSK : string;
  sst_InterfaceName : string;
  sst_ListenPort : Z
}.
#[global] Instance SiteToSiteTunnel_eq_dec : EqDecision SiteToSiteTunnel.
Proof. solve_decision. Defined.

Record SiteToSiteConfig := mkSiteToSiteConfig {
  ssc_Enabled : bool;
  ssc_Tunnels : list SiteToSiteTunnel
}.
#[global] Instance SiteToSiteConfig_eq_dec : EqDecision SiteToSiteConfig.
Proof. solve_decision. Defined.

Record StateResponse := mkStateResponse {
  st_Peers : list Peer;
  st_Policies : list Policy;
  st_SigningKeys : option SigningKeys;
  st_Metadata : gmap string string;
  st_BridgeConfig : option BridgeConfig;
  st_RelayConfig : option RelayConfig;
  st_UserAccessConfig : option UserAccessConfig;
  st_IngressConfig : option IngressConfig;
  st_SiteToSiteConfig : option SiteToSiteConfig;
  st_Data : list DataEntry;
  st_SecretRefs : list SecretRef
}.
#[global] Instance StateResponse_eq_dec : EqDecision StateResponse.
Proof. solve_decision. Defined.

Record DriftCorrection := mkDriftCorrection {
  dc_Type : string;
  dc_Detail : string
}.
#[global] Instance DriftCorrection_eq_dec : EqDecision DriftCorrection.
Proof. solve_decision. Defined.

Record DriftReport := mkDriftReport {
  dr_Timestamp : Z;
  dr_Corrections : list DriftCorrection
}.
#[global] Instance DriftReport_eq_dec : EqDecision DriftReport.
Proof. solve_decision. Defined.

Record SecretResponse := mkSecretResponse {
  srp_Key : string;
  srp_Ciphertext : string;
  srp_Nonce : string;
  srp_Version : Z
}.
#[global] Instance SecretResponse_eq_dec : EqDecision SecretResponse.
Proof. solve_decision. Defined.

Record ReportEntry := mkReportEntry {
  re_Key : string;
  re_ContentType : string;
  re_Payload : string;
  re_Version : Z;
  re_UpdatedAt : Z
}.
#[global] Instance ReportEntry_eq_dec : EqDecision ReportEntry.
Proof. solve_decision. Defined.

Record ReportSyncRequest := mkReportSyncRequest {
  rsr_Entries : list ReportEntry;
  rsr_Deleted : list string
}.
#[global] Instance ReportSyncRequest_eq_dec : EqDecision ReportSyncRequest.
Proof. solve_decision. Defined.

Record MetricPoint := mkMetricPoint {
  mp_Timestamp : Z;
  mp_Group : string;
  mp_PeerID : string;
  mp_Data : string
}.
#[global] Instance MetricPoint_eq_dec : EqDecision MetricPoint.
Proof. solve_decision. Defined.

Record LogEntry := mkLogEntry {
  le_Timestamp : Z;
  le_Source : string;
  le_Unit : string;
  le_Message : string;
  le_Severity : string;
  le_Hostname : string
}.
#[global] Instance LogEntry_eq_dec : EqDecision LogEntry.
Proof. solve_decision. Defined.

Record AuditEntry := mkAuditEntry {
  ae_Timestamp : Z;
  ae_Source : string;
  ae_EventType : string;
  ae_Subject : string;
  ae_Object : string;
  ae_Action : string;
  ae_Result : string;
  ae_Hostname : string;
  ae_Raw : string
}.
#[global] Instance AuditEntry_eq_dec : EqDecision AuditEntry.
Proof. solve_decision. Defined.

Record EndpointReport := mkEndpointReport {
  er_PublicEndpoint : string;
  er_NATType : string
}.
#[global] Instance EndpointReport_eq_dec : EqDecision EndpointReport.
Proof. solve_decision. Defined.

Record PeerEndpoint := mkPeerEndpoint {
  pe_PeerID : string;
  pe_Endpoint : string
}.
#[global] Instance PeerEndpoint_eq_dec : EqDecision PeerEndpoint.
Proof. solve_decision. Defined.

Record EndpointResponse := mkEndpointResponse {
  erp_PeerEndpoints : list PeerEndpoint
}.
#[global] Instance EndpointResponse_eq_dec : EqDecision EndpointResponse.
Proof. solve_decision. Defined.

Record NATInfo := mkNATInfo {
  ni_PublicEndpoint : string;
  ni_Type : string
}.
#[global] Instance NATInfo_eq_dec : EqDecision NATInfo.
Proof. solve_decision. Defined.

Record BridgeInfo := mkBridgeInfo {
  bi_Enabled : bool;
  bi_AccessInterface : string;
  bi_ActiveRoutes : Z;
  bi_RelayEnabled : bool;
  bi_ActiveRelaySessions : Z;
  bi_IngressEnabled : bool;
  bi_ActiveIngressRules : Z;
  bi_SiteToSiteEnabled : bool;
  bi_ActiveSiteToSiteTunnels : Z
}.
#[global] Instance BridgeInfo_eq_dec : EqDecision BridgeInfo.
Proof. solve_decision. Defined.

Record TriggeredBy := mkTriggeredBy {
  tb_Type : string;
  tb_SessionID : string;
  tb_UserID : string;
  tb_Email : string
}.
#[global] Instance TriggeredBy_eq_dec : EqDecision TriggeredBy.
Proof. solve_decision. Defined.

Record ActionParam := mkActionParam {
  ap_Name : string;
  ap_Type : string;
  ap_Required : bool;
  ap_Description : string
}.
#[global] Instance ActionParam_eq_dec : EqDecision ActionParam.
Proof. solve_decision. Defined.

Record ActionInfo := mkActionInfo {
  ai_Name : string;
  ai_Description : string;
  ai_Parameters : list ActionParam
}.
#[global] Instance ActionInfo_eq_dec : EqDecision ActionInfo.
Proof. solve_decision. Defined.

Record HookInfo := mkHookInfo {
  hi_Name : string;
  hi_Description : string;
  hi_Source : string;
  hi_Checksum : string;
  hi_Parameters : list ActionParam;
  hi_Timeout : string;
  hi_Sandbox : string
}.
#[global] Instance HookInfo_eq_dec : EqDecision HookInfo.
Proof. solve_decision. Defined.

Record BinaryInfo := mkBinaryInfo {
  bin_Version : string;
  bin_Checksum : string
}.
#[global] Instance BinaryInfo_eq_dec : EqDecision BinaryInfo.
Proof. solve_decision. Defined.

Record CapabilitiesPayload := mkCapabilitiesPayload {
  cp_Binary : option BinaryInfo;
  cp_BuiltinActions : list ActionInfo;
  cp_Hooks : list HookInfo
}.
#[global] Instance CapabilitiesPayload_eq_dec : EqDecision CapabilitiesPayload.
Proof. solve_decision. Defined.

Record RegisterRequest := mkRegisterRequest {
  rreq_Token : string;
  rreq_PublicKey : string;
  rreq_Hostname : string;
  rreq_Metadata : gmap string string;
  rreq_Capabilities : option CapabilitiesPayload
}.
#[global] Instance RegisterRequest_eq_dec : EqDecision RegisterRequest.
Proof. solve_decision. Defined.

Record MeshInfo := mkMeshInfo {
  mi_Interface : string;
  mi_PeerCount : Z;
  mi_ListenPort : Z
}.
#[global] Instance MeshInfo_eq_dec : EqDecision MeshInfo.
Proof. solve_decision. Defined.

Record UserAccessInfo := mkUserAccessInfo {
  uai_Enabled : bool;
  uai_InterfaceName : string;
  uai_PeerCount : Z;
  uai_ListenPort : Z
}.
#[global] Instance UserAccessInfo_eq_dec : EqDecision UserAccessInfo.
Proof. solve_decision. Defined.

Record IngressInfo := mkIngressInfo {
  ii_Enabled : bool;
  ii_RuleCount : Z;
  ii_ConnectionCount : Z
}.
#[global] Instance IngressInfo_eq_dec : EqDecision IngressInfo.
Proof. solve_decision. Defined.

Record SiteToSiteInfo := mkSiteToSiteInfo {
  ssi_Enabled : bool;
  ssi_TunnelCount : Z
}.
#[global] Instance SiteToSiteInfo_eq_dec : EqDecision SiteToSiteInfo.
Proof. solve_decision. Defined.

Record HeartbeatRequest := mkHeartbeatRequest {
  hbq_NodeID : string;
  hbq_Timestamp : Z;
  hbq_Status : string;
  hbq_Uptime : string;
  hbq_BinaryChecksum : string;
  hbq_Mesh : option MeshInfo;
  hbq_NAT : option NATInfo;
  hbq_Bridge : option BridgeInfo;
  hbq_UserAccess : option UserAccessInfo;
  hbq_Ingress : option IngressInfo;
  hbq_SiteToSite : option SiteToSiteInfo
}.
#[global] Instance HeartbeatRequest_eq_dec : EqDecision HeartbeatRequest.
Proof. solve_decision. Defined.

Record ActionRequest := mkActionRequest {
  areq_ExecutionID : string;
  areq_Action : string;
  areq_Parameters : gmap string string;
  areq_Timeout : string;
  areq_Checksum : string;
  areq_TriggeredBy : option TriggeredBy
}.
#[global] Instance ActionRequest_eq_dec : EqDecision ActionRequest.
Proof. solve_decision. Defined.

Record ExecutionAck := mkExecutionAck {
  eack_ExecutionID : string;
  eack_Status : string;
  eack_Reason : string
}.
#[global] Instance ExecutionAck_eq_dec : EqDecision ExecutionAck.
Proof. solve_decision. Defined.

Record ExecutionResult := mkExecutionResult {
  eres_ExecutionID : string;
  eres_Status : string;
  eres_ExitCode : Z;
  eres_Stdout : string;
  eres_Stderr : string;
  eres_Duration : string;
  eres_FinishedAt : Z;
  eres_TriggeredBy : option TriggeredBy
}.
#[global] Instance ExecutionResult_eq_dec : EqDecision ExecutionResult.
Proof. solve_decision. Defined.

Record KeyRotateRequest := mkKeyRotateRequest {
  krq_NodeID : string;
  krq_NewPublicKey : string
}.
#[global] Instance KeyRotateRequest_eq_dec : EqDecision KeyRotateRequest.
Proof. solve_decision. Defined.

Record KeyRotateResponse := mkKeyRotateResponse {
  krs_UpdatedPeers : list Peer
}.
#[global] Instance KeyRotateResponse_eq_dec : EqDecision KeyRotateResponse.
Proof. solve_decision. Defined.

Record SSHSessionSetup := mkSSHSessionSetup {
  sss_SessionID : string;
  sss_TargetHost : string;
  sss_TargetPort : Z;
  sss_AuthorizedKey : string;
  sss_ExpiresAt : Z
}.
#[global] Instance SSHSessionSetup_eq_dec : EqDecision SSHSessionSetup.
Proof. solve_decision. Defined.

Record TunnelReadyRequest := mkTunnelReadyRequest {
  trr_ListenAddr : string;
  trr_Timestamp : Z
}.
#[global] Instance TunnelReadyRequest_eq_dec : EqDecision TunnelReadyRequest.
Proof. solve_decision. Defined.

Record TunnelClosedRequest := mkTunnelClosedRequest {
  tcr_Reason : string;
  tcr_Duration : string;
  tcr_Timestamp : Z
}.
#[global] Instance TunnelClosedRequest_eq_dec : EqDecision TunnelClosedRequest.
Proof. solve_decision. Defined.

Record IntegrityViolationReport := mkIntegrityViolationReport {
  ivr_Type : string;
  ivr_Path : string;
  ivr_ExpectedChecksum : string;
  ivr_ActualChecksum : string;
  ivr_Detail : string;
  ivr_Timestamp : Z
}.
#[global] Instance IntegrityViolationReport_eq_dec : EqDecision IntegrityViolationReport.
Proof. solve_decision. Defined.

(** [&api.StateResponse{}]: every field zero. *)
Definition empty_StateResponse : StateResponse :=
  mkStateResponse [] [] None ∅ None None None None None [] [].
