(* ===== verification/Json.v ===== *)
(** * JSON files

    Encoding to JSON and back is an interface: what the components that keep
    their state in files rely on, and an encoding that has it, for the
    witnesses. *)

From stdpp Require Import base list countable.
From S2P Require Import Prelude.

(** [norm] is what a round trip does to a value: the indentation of embedded
    raw JSON changes. *)
Class Codec (A : Type) := {
  MarshalIndent : A -> option (list Z);
  Unmarshal : list Z -> option A;
  norm : A -> A
}.

(** A round trip normalises; no strict prefix of an encoding decodes. *)
Class CodecLaws (A : Type) `{Codec A} := {
  Unmarshal_Marshal : forall a b, MarshalIndent a = Some b -> Unmarshal b = Some (norm a);
  Unmarshal_prefix : forall a b n, MarshalIndent a = Some b -> (n < length b)%nat ->
    Unmarshal (take n b) = None
}.

(** ** A concrete encoding, for the witnesses *)

Module SimCodec.

(** Binary digits, closed by a terminator. *)
Fixpoint digits (p : positive) : list Z :=
  match p with xH => [2] | xO p => 0 :: digits p | xI p => 1 :: digits p end.
Fixpoint undigits (l : list Z) : option positive :=
  match l with
  | [2] => Some xH
  | 0 :: l => xO <$> undigits l
  | 1 :: l => xI <$> undigits l
  | _ => None
  end.

Lemma undigits_digits p : undigits (digits p) = Some p.
Proof. induction p as [p IH|p IH|]; simpl; [by rewrite IH..|done]. Qed.

Lemma undigits_prefix p : forall n, (n < length (digits p))%nat -> undigits (take n (digits p)) = None.
Proof.
  induction p as [p IH|p IH|]; intros [|n] Hn; simpl in *; try done; [..|lia];
    by rewrite IH by lia.
Qed.

#[export] Instance sim_codec {A} `{Countable A} : Codec A := {|
  MarshalIndent := fun a => Some (digits (encode a));
  Unmarshal := fun l => undigits l ≫= decode;
  norm := fun a => a
|}.
#[export] Instance sim_codec_laws {A} `{Countable A} : CodecLaws A.
Proof.
  split; simpl.
  - intros a b [= <-]. rewrite undigits_digits. simpl. apply decode_encode.
  - intros a b n [= <-] Hn. by rewrite undigits_prefix.
Qed.

End SimCodec.
