(* ===== verification/Diff.v ===== *)
(** * Drift between two states (src/internal/reconcile/diff.go, drift.go)

    [ComputeDiff] compares the state the control plane wants with the state
    last applied; [BuildDriftReport] turns the difference into the report sent
    upstream.  The theorems say which differences the comparison sees (a
    setoid [≡] on states, coarser than equality), that the difference is a
    patch from the current to the desired state, and that the report has one
    correction per item. *)

From stdpp Require Import base strings gmap list sorting.
From S2P Require Import Prelude Types.

(** ** The difference *)

Record StateDiff := mkStateDiff {
  PeersToAdd : list Peer;
  PeersToRemove : list string;
  PeersToUpdate : list Peer;
  PoliciesToAdd : list Policy;
  PoliciesToRemove : list string;
  SigningKeysChanged : bool;
  NewSigningKeys : option SigningKeys;
  MetadataChanged : bool;
  DataChanged : bool;
  SecretRefsChanged : bool
}.

Definition empty_StateDiff : StateDiff :=
  mkStateDiff [] [] [] [] [] false None false false false.

Definition IsEmpty (d : StateDiff) : bool :=
  (length (PeersToAdd d) =? 0)%nat &&
  (length (PeersToRemove d) =? 0)%nat &&
  (length (PeersToUpdate d) =? 0)%nat &&
  (length (PoliciesToAdd d) =? 0)%nat &&
  (length (PoliciesToRemove d) =? 0)%nat &&
  negb (SigningKeysChanged d) &&
  negb (MetadataChanged d) &&
  negb (DataChanged d) &&
  negb (SecretRefsChanged d).

(** Assignments [diff.F = append(diff.F, x)] and [diff.F = v]. *)
Definition append_PeersToAdd (p : Peer) (d : StateDiff) : StateDiff :=
  mkStateDiff (PeersToAdd d ++ [p]) (PeersToRemove d) (PeersToUpdate d)
    (PoliciesToAdd d) (PoliciesToRemove d) (SigningKeysChanged d) (NewSigningKeys d)
    (MetadataChanged d) (DataChanged d) (SecretRefsChanged d).
Definition append_PeersToRemove (id : string) (d : StateDiff) : StateDiff :=
  mkStateDiff (PeersToAdd d) (PeersToRemove d ++ [id]) (PeersToUpdate d)
    (PoliciesToAdd d) (PoliciesToRemove d) (SigningKeysChanged d) (NewSigningKeys d)
    (MetadataChanged d) (DataChanged d) (SecretRefsChanged d).
Definition append_PeersToUpdate (p : Peer) (d : StateDiff) : StateDiff :=
  mkStateDiff (PeersToAdd d) (PeersToRemove d) (PeersToUpdate d ++ [p])
    (PoliciesToAdd d) (PoliciesToRemove d) (SigningKeysChanged d) (NewSigningKeys d)
    (MetadataChanged d) (DataChanged d) (SecretRefsChanged d).
Definition append_PoliciesToAdd (p : Policy) (d : StateDiff) : StateDiff :=
  mkStateDiff (PeersToAdd d) (PeersToRemove d) (PeersToUpdate d)
    (PoliciesToAdd d ++ [p]) (PoliciesToRemove d) (SigningKeysChanged d) (NewSigningKeys d)
    (MetadataChanged d) (DataChanged d) (SecretRefsChanged d).
Definition append_PoliciesToRemove (id : string) (d : StateDiff) : StateDiff :=
  mkStateDiff (PeersToAdd d) (PeersToRemove d) (PeersToUpdate d)
    (PoliciesToAdd d) (PoliciesToRemove d ++ [id]) (SigningKeysChanged d) (NewSigningKeys d)
    (MetadataChanged d) (DataChanged d) (SecretRefsChanged d).
Definition set_SigningKeys (k : option SigningKeys) (d : StateDiff) : StateDiff :=
  mkStateDiff (PeersToAdd d) (PeersToRemove d) (PeersToUpdate d)
    (PoliciesToAdd d) (PoliciesToRemove d) true k
    (MetadataChanged d) (DataChanged d) (SecretRefsChanged d).
Definition set_MetadataChanged (d : StateDiff) : StateDiff :=
  mkStateDiff (PeersToAdd d) (PeersToRemove d) (PeersToUpdate d)
    (PoliciesToAdd d) (PoliciesToRemove d) (SigningKeysChanged d) (NewSigningKeys d)
    true (DataChanged d) (SecretRefsChanged d).
Definition set_DataChanged (d : StateDiff) : StateDiff :=
  mkStateDiff (PeersToAdd d) (PeersToRemove d) (PeersToUpdate d)
    (PoliciesToAdd d) (PoliciesToRemove d) (SigningKeysChanged d) (NewSigningKeys d)
    (MetadataChanged d) true (SecretRefsChanged d).
Definition set_SecretRefsChanged (d : StateDiff) : StateDiff :=
  mkStateDiff (PeersToAdd d) (PeersToRemove d) (PeersToUpdate d)
    (PoliciesToAdd d) (PoliciesToRemove d) (SigningKeysChanged d) (NewSigningKeys d)
    (MetadataChanged d) (DataChanged d) true.

(** [sort.Strings]: the ascending sort of Go strings (bytewise order); the
    sorted permutation of a list is unique, so the algorithm is immaterial. *)
Definition sort_Strings (l : list string) : list string := merge_sort String.le l.

(** The comparison loop [for i := range sa]: [sb] has the same length. *)
Fixpoint strings_equal_loop (sa sb : list string) : bool :=
  match sa, sb with
  | x :: sa, y :: sb => if decide (x = y) then strings_equal_loop sa sb else false
  | _, _ => true
  end.

Definition sortedStringsEqual (a b : list string) : bool :=
  if decide (length a = length b)
  then strings_equal_loop (sort_Strings a) (sort_Strings b)
  else false.

Definition peerChanged (desired current : Peer) : bool :=
  if decide (peer_PublicKey desired <> peer_PublicKey current \/
             peer_MeshIP desired <> peer_MeshIP current \/
             peer_Endpoint desired <> peer_Endpoint current \/
             peer_PSK desired <> peer_PSK current)
  then true
  else negb (sortedStringsEqual (peer_AllowedIPs desired) (peer_AllowedIPs current)).

Definition diffPeers (desired current : list Peer) (diff : StateDiff) : StateDiff :=
  let currentByID := build_map peer_ID id current in
  let '(desiredByID, diff) :=
    foldl (fun '(desiredByID, diff) dp =>
      (<[peer_ID dp := tt]> desiredByID,
       match currentByID !! peer_ID dp with
       | None => append_PeersToAdd dp diff
       | Some cp => if peerChanged dp cp then append_PeersToUpdate dp diff else diff
       end)) ((∅ : gmap string unit), diff) desired in
  foldl (fun diff cp =>
    match desiredByID !! peer_ID cp with
    | None => append_PeersToRemove (peer_ID cp) diff
    | Some _ => diff
    end) diff current.

Definition diffPolicies (desired current : list Policy) (diff : StateDiff) : StateDiff :=
  let currentByID := build_map pol_ID (fun _ => tt) current in
  let '(desiredByID, diff) :=
    foldl (fun '(desiredByID, diff) dp =>
      (<[pol_ID dp := tt]> desiredByID,
       match currentByID !! pol_ID dp with
       | None => append_PoliciesToAdd dp diff
       | Some _ => diff
       end)) ((∅ : gmap string unit), diff) desired in
  foldl (fun diff cp =>
    match desiredByID !! pol_ID cp with
    | None => append_PoliciesToRemove (pol_ID cp) diff
    | Some _ => diff
    end) diff current.

Definition diffSigningKeys (desired current : option SigningKeys) (diff : StateDiff) : StateDiff :=
  match desired, current with
  | None, None => diff
  | None, Some _ | Some _, None => set_SigningKeys desired diff
  | Some d, Some c =>
      if decide (sk_Current d <> sk_Current c \/ sk_Previous d <> sk_Previous c)
      then set_SigningKeys desired diff
      else diff
  end.

(** [maps.Equal]. *)
Definition diffMetadata (desired current : gmap string string) (diff : StateDiff) : StateDiff :=
  if decide (desired = current) then diff else set_MetadataChanged diff.

Section map_order.
Context `{MapOrder}.

(** The two range loops shared by [diffData] and [diffSecretRefs]: the first
    that finds a difference returns. *)
Definition versions_differ (desiredMap currentMap : gmap string Z) : bool :=
  existsb (fun '(k, dv) =>
    match currentMap !! k with
    | None => true
    | Some cv => negb (dv =? cv)
    end) (range_map desiredMap) ||
  existsb (fun k =>
    match desiredMap !! k with None => true | Some _ => false end) (range_keys currentMap).

Definition diffData (desired current : list DataEntry) (diff : StateDiff) : StateDiff :=
  let currentMap := build_map de_Key de_Version current in
  let desiredMap := build_map de_Key de_Version desired in
  if versions_differ desiredMap currentMap then set_DataChanged diff else diff.

Definition diffSecretRefs (desired current : list SecretRef) (diff : StateDiff) : StateDiff :=
  let currentMap := build_map sr_Key sr_Version current in
  let desiredMap := build_map sr_Key sr_Version desired in
  if versions_differ desiredMap currentMap then set_SecretRefsChanged diff else diff.

Definition ComputeDiff (desired current : option StateResponse) : StateDiff :=
  match desired with
  | None => empty_StateDiff
  | Some desired =>
      let cur := default empty_StateResponse current in
      let diff := diffPeers (st_Peers desired) (st_Peers cur) empty_StateDiff in
      let diff := diffPolicies (st_Policies desired) (st_Policies cur) diff in
      let diff := diffSigningKeys (st_SigningKeys desired) (st_SigningKeys cur) diff in
      let diff := diffMetadata (st_Metadata desired) (st_Metadata cur) diff in
      let diff := diffData (st_Data desired) (st_Data cur) diff in
      diffSecretRefs (st_SecretRefs desired) (st_SecretRefs cur) diff
  end.

End map_order.

(** ** The drift report *)

Definition BuildDriftReport (now : Z) (diff : StateDiff) : DriftReport :=
  let corrections :=
    ((fun p => mkDriftCorrection "peer_added" ("peer " +:+ peer_ID p)) <$> PeersToAdd diff) ++
    ((fun id => mkDriftCorrection "peer_removed" ("peer " +:+ id)) <$> PeersToRemove diff) ++
    ((fun p => mkDriftCorrection "peer_updated" ("peer " +:+ peer_ID p)) <$> PeersToUpdate diff) ++
    ((fun p => mkDriftCorrection "policy_added" ("policy " +:+ pol_ID p)) <$> PoliciesToAdd diff) ++
    ((fun id => mkDriftCorrection "policy_removed" ("policy " +:+ id)) <$> PoliciesToRemove diff) ++
    (if SigningKeysChanged diff
     then [mkDriftCorrection "signing_keys_updated" "signing keys rotated"] else []) ++
    (if MetadataChanged diff
     then [mkDriftCorrection "metadata_updated" "metadata updated"] else []) ++
    (if DataChanged diff
     then [mkDriftCorrection "data_updated" "data updated"] else []) ++
    (if SecretRefsChanged diff
     then [mkDriftCorrection "secret_refs_updated" "secret refs updated"] else []) in
  mkDriftReport now corrections.

(** ** Which states the comparison identifies

    Peers are equal up to the order of their allowed IPs; two states are
    equal when they have, per ID, equal peers, the same policy IDs, signing
    keys with the same two keys, the same metadata, and the same versions of
    data entries and secret references.  The other fields play no role. *)

#[global] Instance peer_equiv : Equiv Peer := fun p q =>
  peer_PublicKey p = peer_PublicKey q /\ peer_MeshIP p = peer_MeshIP q /\
  peer_Endpoint p = peer_Endpoint q /\ peer_PSK p = peer_PSK q /\
  peer_AllowedIPs p ≡ₚ peer_AllowedIPs q.

#[global] Instance signing_keys_equiv : Equiv SigningKeys := fun j k =>
  sk_Current j = sk_Current k /\ sk_Previous j = sk_Previous k.

Definition peers_by_id (l : list Peer) : gmap string Peer := build_map peer_ID id l.
Definition policy_ids (l : list Policy) : gset string := list_to_set (pol_ID <$> l).
Definition data_versions (l : list DataEntry) : gmap string Z := build_map de_Key de_Version l.
Definition secret_versions (l : list SecretRef) : gmap string Z := build_map sr_Key sr_Version l.

#[global] Instance state_equiv : Equiv StateResponse := fun s t =>
  peers_by_id (st_Peers s) ≡ peers_by_id (st_Peers t) /\
  policy_ids (st_Policies s) = policy_ids (st_Policies t) /\
  st_SigningKeys s ≡ st_SigningKeys t /\
  st_Metadata s = st_Metadata t /\
  data_versions (st_Data s) = data_versions (st_Data t) /\
  secret_versions (st_SecretRefs s) = secret_versions (st_SecretRefs t).

(** A state whose peer IDs are distinct. *)
Definition wf_state (s : StateResponse) : Prop := NoDup (peer_ID <$> st_Peers s).

(** Applying a difference: remove, then update, then add, by ID. *)
Definition patch_peers (d : StateDiff) (m : gmap string Peer) : gmap string Peer :=
  let m := foldl (fun m id => delete id m) m (PeersToRemove d) in
  let m := foldl (fun m p => <[peer_ID p := p]> m) m (PeersToUpdate d) in
  foldl (fun m p => <[peer_ID p := p]> m) m (PeersToAdd d).

Definition patch_policies (d : StateDiff) (s : gset string) : gset string :=
  (s ∖ list_to_set (PoliciesToRemove d)) ∪ list_to_set (pol_ID <$> PoliciesToAdd d).

Definition patch_signing_keys (d : StateDiff) (k : option SigningKeys) : option SigningKeys :=
  if SigningKeysChanged d then NewSigningKeys d else k.

(** ** Lemmas *)

#[global] Instance peer_equiv_equivalence : Equivalence (≡@{Peer}).
Proof.
  unfold equiv, peer_equiv. split.
  - intros p. naive_solver.
  - intros p q (? & ? & ? & ? & ?). naive_solver.
  - intros p q r (? & ? & ? & ? & ?) (? & ? & ? & ? & ?).
    repeat split; try congruence. by etrans.
Qed.

#[global] Instance signing_keys_equivalence : Equivalence (≡@{SigningKeys}).
Proof.
  unfold equiv, signing_keys_equiv. split.
  - intros k. done.
  - intros j k [? ?]. done.
  - intros i j k [? ?] [? ?]. split; congruence.
Qed.

#[global] Instance state_equivalence : Equivalence (≡@{StateResponse}).
Proof.
  split.
  - intros s. hnf. split_and!; reflexivity.
  - intros s t (? & ? & ? & ? & ? & ?). hnf. split_and!; by symmetry.
  - intros s t u (? & ? & ? & ? & ? & ?) (? & ? & ? & ? & ? & ?).
    hnf. split_and!; by etrans.
Qed.

Lemma strings_equal_loop_spec sa sb :
  length sa = length sb -> strings_equal_loop sa sb = true <-> sa = sb.
Proof.
  revert sb. induction sa as [|x sa IH]; intros [|y sb] Hl; simpl in *; [done..|].
  case_decide as E; [rewrite IH by lia|]; naive_solver.
Qed.

Lemma sort_Strings_perm l : sort_Strings l ≡ₚ l.
Proof. apply merge_sort_Permutation. Qed.

Lemma sort_Strings_sorted l : Sorted String.le (sort_Strings l).
Proof. apply Sorted_merge_sort, _. Qed.

Lemma sortedStringsEqual_true a b : sortedStringsEqual a b = true <-> a ≡ₚ b.
Proof.
  unfold sortedStringsEqual. case_decide as Hl.
  - rewrite strings_equal_loop_spec by (by rewrite !sort_Strings_perm). split.
    + intros E. by rewrite <- (sort_Strings_perm a), E, sort_Strings_perm.
    + intros Hp. apply (Sorted_unique String.le); try apply sort_Strings_sorted.
      by rewrite !sort_Strings_perm.
  - split; [done|]. intros Hp. by apply Permutation_length in Hp.
Qed.

Lemma peerChanged_false p q : peerChanged p q = false <-> p ≡ q.
Proof.
  unfold peerChanged, equiv, peer_equiv. case_decide as E.
  - naive_solver.
  - rewrite negb_false_iff, sortedStringsEqual_true.
    split; [|naive_solver]. intros Hp. repeat split; try done; apply dec_stable; naive_solver.
Qed.

#[global] Instance peerChanged_proper : Proper ((≡) ==> (≡) ==> (=)) peerChanged.
Proof.
  intros p p' Hp q q' Hq. apply eq_bool_prop_intro.
  destruct (peerChanged p q) eqn:E1, (peerChanged p' q') eqn:E2; try done; exfalso.
  - rewrite peerChanged_false, <- Hp, <- Hq, <- peerChanged_false in E2. congruence.
  - rewrite peerChanged_false, Hp, Hq, <- peerChanged_false in E1. congruence.
Qed.

Definition peer_is_changed (cur : gmap string Peer) (dp : Peer) : bool :=
  match cur !! peer_ID dp with Some cp => peerChanged dp cp | None => false end.

(** The closed forms of the two loops of [diffPeers]. *)
Lemma diffPeers_loop1 (cur : gmap string Peer) desired d :
  foldl (fun diff dp =>
    match cur !! peer_ID dp with
    | None => append_PeersToAdd dp diff
    | Some cp => if peerChanged dp cp then append_PeersToUpdate dp diff else diff
    end) d desired =
  mkStateDiff
    (PeersToAdd d ++ filter (fun p => cur !! peer_ID p = None) desired) (PeersToRemove d)
    (PeersToUpdate d ++ filter (fun p => peer_is_changed cur p = true) desired)
    (PoliciesToAdd d) (PoliciesToRemove d) (SigningKeysChanged d) (NewSigningKeys d)
    (MetadataChanged d) (DataChanged d) (SecretRefsChanged d).
Proof.
  revert d. induction desired as [|p l IH]; intros d; simpl.
  - rewrite !app_nil_r. by destruct d.
  - rewrite IH, !filter_cons.
    assert (E : peer_is_changed cur p =
      match cur !! peer_ID p with Some cp => peerChanged p cp | None => false end) by done.
    rewrite E. clear E IH.
    destruct (cur !! peer_ID p) as [cp|]; [destruct (peerChanged p cp)|];
      repeat case_decide; simpl; rewrite <- ?app_assoc; try done; congruence.
Qed.

Lemma diffPeers_loop2 (m : gmap string unit) current d :
  foldl (fun diff cp =>
    match m !! peer_ID cp with
    | None => append_PeersToRemove (peer_ID cp) diff
    | Some _ => diff
    end) d current =
  mkStateDiff (PeersToAdd d)
    (PeersToRemove d ++ (peer_ID <$> filter (fun p => m !! peer_ID p = None) current))
    (PeersToUpdate d) (PoliciesToAdd d) (PoliciesToRemove d) (SigningKeysChanged d)
    (NewSigningKeys d) (MetadataChanged d) (DataChanged d) (SecretRefsChanged d).
Proof.
  revert d. induction current as [|p l IH]; intros d; simpl.
  - rewrite app_nil_r. by destruct d.
  - rewrite IH, filter_cons. destruct (m !! peer_ID p) eqn:E;
      case_decide; try congruence; simpl; by rewrite <- ?app_assoc.
Qed.

Lemma diffPeers_eq desired current d :
  diffPeers desired current d =
  mkStateDiff
    (PeersToAdd d ++ filter (fun p => peers_by_id current !! peer_ID p = None) desired)
    (PeersToRemove d ++
      (peer_ID <$> filter (fun p => peers_by_id desired !! peer_ID p = None) current))
    (PeersToUpdate d ++ filter (fun p => peer_is_changed (peers_by_id current) p = true) desired)
    (PoliciesToAdd d) (PoliciesToRemove d) (SigningKeysChanged d) (NewSigningKeys d)
    (MetadataChanged d) (DataChanged d) (SecretRefsChanged d).
Proof.
  unfold diffPeers. rewrite foldl_pair, diffPeers_loop1, diffPeers_loop2. simpl.
  repeat f_equal. apply list_filter_iff. intros p.
  fold (build_map peer_ID (fun _ => tt) desired). unfold peers_by_id.
  by rewrite !build_map_None.
Qed.

Lemma diffPolicies_loop1 (cur : gmap string unit) desired d :
  foldl (fun diff dp =>
    match cur !! pol_ID dp with
    | None => append_PoliciesToAdd dp diff
    | Some _ => diff
    end) d desired =
  mkStateDiff (PeersToAdd d) (PeersToRemove d) (PeersToUpdate d)
    (PoliciesToAdd d ++ filter (fun p => cur !! pol_ID p = None) desired)
    (PoliciesToRemove d) (SigningKeysChanged d) (NewSigningKeys d)
    (MetadataChanged d) (DataChanged d) (SecretRefsChanged d).
Proof.
  revert d. induction desired as [|p l IH]; intros d; simpl.
  - rewrite app_nil_r. by destruct d.
  - rewrite IH, filter_cons. destruct (cur !! pol_ID p) eqn:E;
      case_decide; try congruence; simpl; by rewrite <- ?app_assoc.
Qed.

Lemma diffPolicies_loop2 (m : gmap string unit) current d :
  foldl (fun diff cp =>
    match m !! pol_ID cp with
    | None => append_PoliciesToRemove (pol_ID cp) diff
    | Some _ => diff
    end) d current =
  mkStateDiff (PeersToAdd d) (PeersToRemove d) (PeersToUpdate d) (PoliciesToAdd d)
    (PoliciesToRemove d ++ (pol_ID <$> filter (fun p => m !! pol_ID p = None) current))
    (SigningKeysChanged d) (NewSigningKeys d) (MetadataChanged d) (DataChanged d)
    (SecretRefsChanged d).
Proof.
  revert d. induction current as [|p l IH]; intros d; simpl.
  - rewrite app_nil_r. by destruct d.
  - rewrite IH, filter_cons. destruct (m !! pol_ID p) eqn:E;
      case_decide; try congruence; simpl; by rewrite <- ?app_assoc.
Qed.

Lemma diffPolicies_eq desired current d :
  diffPolicies desired current d =
  mkStateDiff (PeersToAdd d) (PeersToRemove d) (PeersToUpdate d)
    (PoliciesToAdd d ++ filter (fun p => pol_ID p ∉ pol_ID <$> current) desired)
    (PoliciesToRemove d ++ (pol_ID <$> filter (fun p => pol_ID p ∉ pol_ID <$> desired) current))
    (SigningKeysChanged d) (NewSigningKeys d) (MetadataChanged d) (DataChanged d)
    (SecretRefsChanged d).
Proof.
  unfold diffPolicies. rewrite foldl_pair, diffPolicies_loop1, diffPolicies_loop2. simpl.
  repeat f_equal; apply list_filter_iff; intros p.
  - by rewrite build_map_None.
  - fold (build_map pol_ID (fun _ => tt) desired). by rewrite build_map_None.
Qed.

Section compute.
Context `{MapOrder}.

Lemma versions_differ_false (d c : gmap string Z) : versions_differ d c = false <-> d = c.
Proof.
  unfold versions_differ. rewrite orb_false_iff, !existsb_false. split.
  - intros [H1 H2]. apply map_eq. intros k.
    destruct (d !! k) as [v|] eqn:Ed.
    + specialize (H1 (k, v)). rewrite elem_of_range_map in H1. specialize (H1 Ed). simpl in H1.
      destruct (c !! k); [|done]. f_equal. lia.
    + destruct (c !! k) as [w|] eqn:Ec; [|done]. specialize (H2 k).
      rewrite elem_of_range_keys, Ec, Ed in H2. by discriminate H2.
  - intros ->. split.
    + intros [k v] ->%elem_of_range_map. lia.
    + intros k [v ->]%elem_of_range_keys. done.
Qed.

Lemma diffSigningKeys_spec dk ck d :
  SigningKeysChanged d = false ->
  let d' := diffSigningKeys dk ck d in
  (SigningKeysChanged d' = false <-> dk ≡ ck) /\
  patch_signing_keys d' ck ≡ dk /\
  PeersToAdd d' = PeersToAdd d /\ PeersToRemove d' = PeersToRemove d /\
  PeersToUpdate d' = PeersToUpdate d /\ PoliciesToAdd d' = PoliciesToAdd d /\
  PoliciesToRemove d' = PoliciesToRemove d /\ MetadataChanged d' = MetadataChanged d /\
  DataChanged d' = DataChanged d /\ SecretRefsChanged d' = SecretRefsChanged d.
Proof.
  intros Hd. unfold diffSigningKeys, patch_signing_keys.
  destruct dk as [dk|], ck as [ck|]; simpl; try case_decide as E; rewrite ?Hd; simpl.
  all: split_and!; try done; rewrite ?Hd.
  all: try (split; [intros ?; try done|intros Hx; inversion Hx as [?? [??]|]; naive_solver]).
  all: constructor; split; apply dec_stable; naive_solver.
Qed.

(** What [ComputeDiff] returns, field by field. *)
Lemma ComputeDiff_fields d c :
  let δ := ComputeDiff (Some d) (Some c) in
  PeersToAdd δ = filter (fun p => peers_by_id (st_Peers c) !! peer_ID p = None) (st_Peers d) /\
  PeersToRemove δ =
    peer_ID <$> filter (fun p => peers_by_id (st_Peers d) !! peer_ID p = None) (st_Peers c) /\
  PeersToUpdate δ =
    filter (fun p => peer_is_changed (peers_by_id (st_Peers c)) p = true) (st_Peers d) /\
  PoliciesToAdd δ = filter (fun p => pol_ID p ∉ pol_ID <$> st_Policies c) (st_Policies d) /\
  PoliciesToRemove δ =
    pol_ID <$> filter (fun p => pol_ID p ∉ pol_ID <$> st_Policies d) (st_Policies c) /\
  (SigningKeysChanged δ = false <-> st_SigningKeys d ≡ st_SigningKeys c) /\
  patch_signing_keys δ (st_SigningKeys c) ≡ st_SigningKeys d /\
  (MetadataChanged δ = false <-> st_Metadata d = st_Metadata c) /\
  (DataChanged δ = false <-> data_versions (st_Data d) = data_versions (st_Data c)) /\
  (SecretRefsChanged δ = false <->
    secret_versions (st_SecretRefs d) = secret_versions (st_SecretRefs c)).
Proof.
  unfold ComputeDiff. simpl. rewrite diffPeers_eq, diffPolicies_eq. simpl.
  match goal with |- context [diffSigningKeys ?a ?b ?d0] =>
    pose proof (diffSigningKeys_spec a b d0 eq_refl) as HS; set (d1 := diffSigningKeys a b d0) in * end.
  simpl in HS. destruct HS as (? & ? & ? & ? & ? & ? & ? & HM & HD & HR). clearbody d1.
  unfold diffMetadata, diffData, diffSecretRefs.
  fold (data_versions (st_Data d)) (data_versions (st_Data c)).
  fold (secret_versions (st_SecretRefs d)) (secret_versions (st_SecretRefs c)).
  rewrite <- (versions_differ_false (data_versions _)), <- (versions_differ_false (secret_versions _)).
  case_decide; repeat case_match; unfold patch_signing_keys in *; simpl;
    rewrite ?HM, ?HD, ?HR; split_and!; done.
Qed.

Lemma IsEmpty_true δ :
  IsEmpty δ = true <->
  PeersToAdd δ = [] /\ PeersToRemove δ = [] /\ PeersToUpdate δ = [] /\
  PoliciesToAdd δ = [] /\ PoliciesToRemove δ = [] /\ SigningKeysChanged δ = false /\
  MetadataChanged δ = false /\ DataChanged δ = false /\ SecretRefsChanged δ = false.
Proof.
  unfold IsEmpty. rewrite !andb_true_iff, !Nat.eqb_eq, !length_zero_iff_nil, !negb_true_iff.
  tauto.
Qed.

Lemma peers_by_id_lookup l p : NoDup (peer_ID <$> l) -> p ∈ l -> peers_by_id l !! peer_ID p = Some p.
Proof. intros. by apply (build_map_NoDup peer_ID id). Qed.

Lemma peers_by_id_Some l i p : peers_by_id l !! i = Some p -> p ∈ l /\ peer_ID p = i.
Proof. intros (q & ? & ? & <-)%build_map_Some_inv. done. Qed.

Lemma peers_by_id_filter l (P : Peer -> Prop) `{!forall p, Decision (P p)} i :
  NoDup (peer_ID <$> l) ->
  peers_by_id (filter P l) !! i =
  match peers_by_id l !! i with Some p => if decide (P p) then Some p else None | None => None end.
Proof.
  intros Hl. assert (Hf : NoDup (peer_ID <$> filter P l))
    by (eapply sublist_NoDup; [exact Hl|apply fmap_sublist, sublist_filter]).
  destruct (peers_by_id (filter P l) !! i) as [p|] eqn:E.
  - apply peers_by_id_Some in E as [[HP Hp]%list_elem_of_filter <-].
    rewrite peers_by_id_lookup by done. by rewrite decide_True.
  - destruct (peers_by_id l !! i) as [p|] eqn:E'; [|done].
    apply peers_by_id_Some in E' as [Hp <-]. case_decide as HP; [|done].
    rewrite peers_by_id_lookup in E; [done..|]. by apply list_elem_of_filter.
Qed.

(** Peers found on both sides are unchanged exactly when nothing is added,
    removed or updated. *)
Lemma peers_no_diff d c :
  NoDup (peer_ID <$> d) ->
  filter (fun p => peers_by_id c !! peer_ID p = None) d = [] /\
  peer_ID <$> filter (fun p => peers_by_id d !! peer_ID p = None) c = [] /\
  filter (fun p => peer_is_changed (peers_by_id c) p = true) d = [] <->
  peers_by_id d ≡ peers_by_id c.
Proof.
  intros Hd. rewrite list_fmap_nil_iff, !filter_nil_iff. split.
  - intros (Hadd & Hrem & Hupd) i. destruct (peers_by_id d !! i) as [p|] eqn:Ed.
    + apply peers_by_id_Some in Ed as [Hp <-]. specialize (Hadd p Hp). specialize (Hupd p Hp).
      unfold peer_is_changed in Hupd. destruct (peers_by_id c !! peer_ID p) as [q|]; [|done].
      constructor. apply peerChanged_false, not_true_iff_false, Hupd.
    + destruct (peers_by_id c !! i) as [q|] eqn:Ec; [|done].
      apply peers_by_id_Some in Ec as [Hq <-]. by destruct (Hrem q Hq).
  - intros E. split_and!; intros p Hp.
    + pose proof (E (peer_ID p)) as Ep. rewrite peers_by_id_lookup in Ep by done. 
      intros Hn. rewrite Hn in Ep. inversion Ep.
    + pose proof (E (peer_ID p)) as Ep. intros Hn. rewrite Hn in Ep. symmetry in Ep.
      apply None_equiv_eq, build_map_None in Ep. apply Ep. by apply list_elem_of_fmap_2.
    + pose proof (E (peer_ID p)) as Ep. rewrite peers_by_id_lookup in Ep by done.
      unfold peer_is_changed. inversion Ep as [x q Hq Hx Hy|]. subst.
      apply not_true_iff_false. by apply peerChanged_false.
Qed.

Lemma patch_peers_lookup δ m i :
  patch_peers δ m !! i =
  (peers_by_id (PeersToAdd δ) !! i) ∪ ((peers_by_id (PeersToUpdate δ) !! i) ∪
    (if decide (i ∈ PeersToRemove δ) then None else m !! i)).
Proof.
  unfold patch_peers. rewrite !(foldl_insert_union peer_ID id).
  by rewrite !lookup_union, foldl_delete_lookup.
Qed.

Lemma patch_peers_correct d c :
  wf_state d ->
  patch_peers (ComputeDiff (Some d) (Some c)) (peers_by_id (st_Peers c)) ≡ peers_by_id (st_Peers d).
Proof.
  intros Hd i. destruct (ComputeDiff_fields d c) as (Ha & Hr & Hu & _).
  rewrite patch_peers_lookup, Ha, Hr, Hu, !peers_by_id_filter by done.
  destruct (peers_by_id (st_Peers d) !! i) as [p|] eqn:Ed.
  - apply peers_by_id_Some in Ed as [Hp <-].
    unfold peer_is_changed. destruct (peers_by_id (st_Peers c) !! peer_ID p) as [q|] eqn:Ec.
    + rewrite (decide_False (P := peer_ID p ∈ _)).
      2: { intros (r & Hr' & [Hn _]%list_elem_of_filter)%list_elem_of_fmap.
           rewrite <- Hr', peers_by_id_lookup in Hn by done. done. }
      simpl. case_decide as E; simpl.
      * done.
      * symmetry. constructor. apply peerChanged_false, not_true_iff_false, E.
    + rewrite decide_True by done. simpl. by case_decide.
  - simpl. case_decide as E; [done|]. destruct (peers_by_id (st_Peers c) !! i) as [q|] eqn:Ec; [|done].
    apply peers_by_id_Some in Ec as [Hq <-]. destruct E.
    apply list_elem_of_fmap_2, list_elem_of_filter. done.
Qed.

Lemma patch_policies_correct d c :
  patch_policies (ComputeDiff (Some d) (Some c)) (policy_ids (st_Policies c)) =
  policy_ids (st_Policies d).
Proof.
  destruct (ComputeDiff_fields d c) as (_ & _ & _ & Ha & Hr & _).
  unfold patch_policies, policy_ids. rewrite Ha, Hr. apply set_eq. intros i.
  rewrite elem_of_union, elem_of_difference, !elem_of_list_to_set, !list_elem_of_fmap.
  setoid_rewrite list_elem_of_filter. split.
  - intros [[(q & -> & Hq) Hn]|(p & -> & ? & ?)]; [|eauto].
    destruct (decide (pol_ID q ∈ pol_ID <$> st_Policies d)) as [Hi|Hi].
    + apply list_elem_of_fmap in Hi as (p & ? & ?). eauto.
    + destruct Hn. eauto.
  - intros (p & -> & Hp).
    destruct (decide (pol_ID p ∈ pol_ID <$> st_Policies c)) as [Hi|Hi]; [left|right; eauto].
    apply list_elem_of_fmap in Hi as (q & Eq & Hq). split; [eauto|].
    intros (r & Er & Hr' & _). destruct Hr'. rewrite <- Er. by apply list_elem_of_fmap_2.
Qed.

Lemma policies_no_diff d c :
  filter (fun p => pol_ID p ∉ pol_ID <$> c) d = [] /\
  pol_ID <$> filter (fun p => pol_ID p ∉ pol_ID <$> d) c = [] <->
  policy_ids d = policy_ids c.
Proof.
  rewrite list_fmap_nil_iff, !filter_nil_iff. unfold policy_ids.
  rewrite set_eq. setoid_rewrite elem_of_list_to_set. split.
  - intros [H1 H2] i. split; intros (p & -> & Hp)%list_elem_of_fmap; apply dec_stable; eauto.
  - intros E. split; intros p Hp Hn; apply Hn, E; by apply list_elem_of_fmap_2.
Qed.

Lemma IsEmpty_ComputeDiff d c :
  wf_state d -> IsEmpty (ComputeDiff (Some d) (Some c)) = true <-> d ≡ c.
Proof.
  intros Hd. rewrite IsEmpty_true.
  destruct (ComputeDiff_fields d c) as (-> & -> & -> & Ha & Hr & -> & _ & -> & -> & ->).
  pose proof (peers_no_diff (st_Peers d) (st_Peers c) Hd) as HP.
  rewrite Ha, Hr. pose proof (policies_no_diff (st_Policies d) (st_Policies c)) as HQ.
  change (d ≡ c) with (state_equiv d c). unfold state_equiv. tauto.
Qed.

(** C2. [ComputeDiff] followed by [IsEmpty] reports no drift exactly when the
    two states are equivalent: same peers up to the order of allowed IPs, same
    policy IDs, same current and previous signing key, same metadata, same
    data and secret versions (for a desired state with distinct peer IDs). *)
Theorem ComputeDiff_empty_iff d c :
  wf_state d -> IsEmpty (ComputeDiff (Some d) (Some c)) = true <-> d ≡ c.
Proof. apply IsEmpty_ComputeDiff. Qed.

(** C1. The difference is a patch: removing, updating and adding the peers it
    lists turns the current peers into the desired ones (up to the order of
    allowed IPs), and likewise for policy IDs and signing keys. *)
Theorem ComputeDiff_patch d c :
  wf_state d ->
  let δ := ComputeDiff (Some d) (Some c) in
  patch_peers δ (peers_by_id (st_Peers c)) ≡ peers_by_id (st_Peers d) /\
  patch_policies δ (policy_ids (st_Policies c)) = policy_ids (st_Policies d) /\
  patch_signing_keys δ (st_SigningKeys c) ≡ st_SigningKeys d.
Proof.
  intros Hd δ. split_and!.
  - by apply patch_peers_correct.
  - apply patch_policies_correct.
  - destruct (ComputeDiff_fields d c) as (_ & _ & _ & _ & _ & _ & ? & _). done.
Qed.

End compute.

(** Every item of a difference produces one correction of the drift report,
    so the report is empty exactly when the difference is. *)
Theorem BuildDriftReport_count now δ :
  length (dr_Corrections (BuildDriftReport now δ)) =
    (length (PeersToAdd δ) + length (PeersToRemove δ) + length (PeersToUpdate δ) +
     length (PoliciesToAdd δ) + length (PoliciesToRemove δ) +
     Nat.b2n (SigningKeysChanged δ) + Nat.b2n (MetadataChanged δ) +
     Nat.b2n (DataChanged δ) + Nat.b2n (SecretRefsChanged δ))%nat /\
  (dr_Corrections (BuildDriftReport now δ) = [] <-> IsEmpty δ = true).
Proof.
  assert (Hl : forall (b : bool) (c : DriftCorrection), length (if b then [c] else []) = Nat.b2n b)
    by (by intros []).
  assert (E : length (dr_Corrections (BuildDriftReport now δ)) =
    (length (PeersToAdd δ) + length (PeersToRemove δ) + length (PeersToUpdate δ) +
     length (PoliciesToAdd δ) + length (PoliciesToRemove δ) +
     Nat.b2n (SigningKeysChanged δ) + Nat.b2n (MetadataChanged δ) +
     Nat.b2n (DataChanged δ) + Nat.b2n (SecretRefsChanged δ))%nat).
  { unfold BuildDriftReport. cbn [dr_Corrections].
    rewrite !length_app, !length_fmap, !Hl. lia. }
  split; [exact E|]. rewrite <- length_zero_iff_nil, E.
  unfold IsEmpty. rewrite !andb_true_iff, !Nat.eqb_eq, !negb_true_iff.
  repeat match goal with |- context [Nat.b2n ?b] => destruct b; simpl end; intuition lia.
Qed.

(** ** Concrete states *)

Definition ex_peer (id key : string) (ips : list string) : Peer :=
  mkPeer id key "10.0.0.9" "1.2.3.4:51820" ips "".

Definition ex_desired : StateResponse :=
  mkStateResponse
    [ex_peer "a" "ka" ["10.0.0.1/32"; "10.1.0.0/16"]; ex_peer "b" "kb2" []; ex_peer "c" "kc" []]
    [mkPolicy "p1" []; mkPolicy "p2" []] (Some (mkSigningKeys "k2" "k1" None))
    {[ "env" := "prod" ]} None None None None None
    [mkDataEntry "cfg" "text/plain" "x" 2 0] [mkSecretRef "s" 1].

Definition ex_current : StateResponse :=
  mkStateResponse
    [ex_peer "a" "ka" ["10.1.0.0/16"; "10.0.0.1/32"]; ex_peer "b" "kb" []; ex_peer "d" "kd" []]
    [mkPolicy "p2" []; mkPolicy "p3" []] (Some (mkSigningKeys "k1" "" None))
    {[ "env" := "prod" ]} None None None None None
    [mkDataEntry "cfg" "text/plain" "x" 1 0] [mkSecretRef "s" 1].

Lemma ex_desired_wf : wf_state ex_desired.
Proof. unfold wf_state. by_compute. Qed.

Lemma ComputeDiff_patch_witness :
  let δ := ComputeDiff (H := id_order) (Some ex_desired) (Some ex_current) in
  peer_ID <$> PeersToAdd δ = ["c"] /\ PeersToRemove δ = ["d"] /\
  peer_ID <$> PeersToUpdate δ = ["b"] /\
  patch_peers δ (peers_by_id (st_Peers ex_current)) ≡ peers_by_id (st_Peers ex_desired).
Proof.
  split_and!; [vm_compute; reflexivity..|].
  apply (ComputeDiff_patch (H := id_order) ex_desired ex_current).
  exact ex_desired_wf.
Defined.

Lemma ComputeDiff_empty_iff_witness :
  IsEmpty (ComputeDiff (H := id_order) (Some ex_desired) (Some ex_current)) = false /\
  ~ ex_desired ≡ ex_current.
Proof.
  split; [vm_compute; reflexivity|]. intros E.
  apply (ComputeDiff_empty_iff (H := id_order) ex_desired ex_current) in E.
  - vm_compute in E. discriminate E.
  - exact ex_desired_wf.
Defined.
