(* ===== verification/Reconcile.v ===== *)
(** * The reconciliation loop (src/internal/reconcile/snapshot.go,
    reconciler.go, config.go)

    The snapshot of the last applied state, the cycle fetch-diff-handle-report-
    update, the handlers with panic recovery, and the loop that runs a cycle
    per tick or trigger.  The control-plane client and the handlers act on an
    abstract world [W]. *)

From stdpp Require Import base strings gmap list.
From S2P Require Import Prelude Types Diff.

(** ** Configuration *)

Record Config := mkConfig { Interval : Z }.

Definition DefaultInterval : Z := 60 * second.

Definition ApplyDefaults (c : Config) : Config :=
  if decide (Interval c = 0) then mkConfig DefaultInterval else c.

Inductive config_error := IntervalNegative | IntervalTooShort.

Definition Validate (c : Config) : option config_error :=
  if decide (Interval c < 0) then Some IntervalNegative
  else if decide (Interval c < second) then Some IntervalTooShort
  else None.

(** ** The snapshot

    The deep copies rebuild every element; values are immutable here, so the
    copy shares nothing observable with its source. *)

Record stateSnapshot := mkSnapshot {
  sn_peers : list Peer;
  sn_policies : list Policy;
  sn_signingKeys : option SigningKeys;
  sn_metadata : gmap string string;
  sn_data : list DataEntry;
  sn_secretRefs : list SecretRef
}.

Definition NewStateSnapshot : stateSnapshot := mkSnapshot [] [] None ∅ [] [].

Definition copyPeers (src : list Peer) : list Peer :=
  (fun p => mkPeer (peer_ID p) (peer_PublicKey p) (peer_MeshIP p) (peer_Endpoint p)
              (foldr cons [] (peer_AllowedIPs p)) (peer_PSK p)) <$> src.

Definition copyPolicies (src : list Policy) : list Policy :=
  (fun p => mkPolicy (pol_ID p) (foldr cons [] (pol_Rules p))) <$> src.

Definition copySigningKeys (src : option SigningKeys) : option SigningKeys :=
  match src with
  | None => None
  | Some k =>
      Some (mkSigningKeys (sk_Current k) (sk_Previous k)
        (match sk_TransitionExpires k with None => None | Some t => Some t end))
  end.

Definition copyData (src : list DataEntry) : list DataEntry :=
  (fun e => mkDataEntry (de_Key e) (de_ContentType e) (de_Payload e) (de_Version e)
              (de_UpdatedAt e)) <$> src.

Definition copySecretRefs (src : list SecretRef) : list SecretRef := foldr cons [] src.

Section reconciler.
Context `{MapOrder}.

(** [for k, v := range src { dst[k] = v }]. *)
Definition copyMetadata (src : gmap string string) : gmap string string :=
  build_map fst snd (range_map src).

Definition Get (s : stateSnapshot) : StateResponse :=
  mkStateResponse (copyPeers (sn_peers s)) (copyPolicies (sn_policies s))
    (copySigningKeys (sn_signingKeys s)) (copyMetadata (sn_metadata s))
    None None None None None
    (copyData (sn_data s)) (copySecretRefs (sn_secretRefs s)).

Definition Update (s : stateSnapshot) (desired : StateResponse) : stateSnapshot :=
  mkSnapshot (copyPeers (st_Peers desired)) (copyPolicies (st_Policies desired))
    (copySigningKeys (st_SigningKeys desired)) (copyMetadata (st_Metadata desired))
    (copyData (st_Data desired)) (copySecretRefs (st_SecretRefs desired)).

Definition UpdatePartial (s : stateSnapshot) (desired : StateResponse) (categories : list string)
    : stateSnapshot :=
  foldl (fun s cat =>
    let '(mkSnapshot p q k m d r) := s in
    if decide (cat = "peers") then mkSnapshot (copyPeers (st_Peers desired)) q k m d r
    else if decide (cat = "policies") then mkSnapshot p (copyPolicies (st_Policies desired)) k m d r
    else if decide (cat = "signing_keys") then
      mkSnapshot p q (copySigningKeys (st_SigningKeys desired)) m d r
    else if decide (cat = "metadata") then mkSnapshot p q k (copyMetadata (st_Metadata desired)) d r
    else if decide (cat = "data") then mkSnapshot p q k m (copyData (st_Data desired)) r
    else if decide (cat = "secret_refs") then
      mkSnapshot p q k m d (copySecretRefs (st_SecretRefs desired))
    else s) s categories.

(** ** The reconciler *)

Context {W E : Type}.

(** [StateFetcher]: both calls go to the control plane and may change the
    world whether or not they fail. *)
Record StateFetcher := mkStateFetcher {
  FetchState : string -> W -> result E (option StateResponse) * W;
  ReportDrift : string -> DriftReport -> W -> option E * W
}.

(** What a handler call comes back with: an error value (nil is [None]) or a
    panic. *)
Inductive handler_outcome := HReturns (err : option E) | HPanics.

Definition ReconcileHandler : Type := StateResponse -> StateDiff -> W -> handler_outcome * W.

Record Reconciler := mkReconciler {
  rc_client : option StateFetcher;
  rc_cfg : Config;
  rc_snapshot : stateSnapshot;
  rc_handlers : list ReconcileHandler;
  (** the buffered channel of capacity 1: a trigger is pending *)
  rc_triggerCh : bool
}.

Definition NewReconciler (client : option StateFetcher) (cfg : Config) : Reconciler :=
  mkReconciler client (ApplyDefaults cfg) NewStateSnapshot [] false.

Definition RegisterHandler (r : Reconciler) (h : ReconcileHandler) : Reconciler :=
  mkReconciler (rc_client r) (rc_cfg r) (rc_snapshot r) (rc_handlers r ++ [h]) (rc_triggerCh r).

(** The non-blocking send: a full channel drops the signal. *)
Definition TriggerReconcile (r : Reconciler) : Reconciler :=
  if rc_triggerCh r then r
  else mkReconciler (rc_client r) (rc_cfg r) (rc_snapshot r) (rc_handlers r) true.

(** [safeInvoke]: a panic becomes an error.  [true] is a non-nil error. *)
Definition safeInvoke (h : ReconcileHandler) (desired : StateResponse) (diff : StateDiff) (w : W)
    : bool * W :=
  match h desired diff w with
  | (HReturns None, w) => (false, w)
  | (HReturns (Some _), w) => (true, w)
  | (HPanics, w) => (true, w)
  end.

Definition invokeHandlers (r : Reconciler) (desired : StateResponse) (diff : StateDiff) (w : W)
    : bool * W :=
  foldl (fun '(anyFailed, w) h =>
    let '(failed, w) := safeInvoke h desired diff w in
    (if failed then true else anyFailed, w)) (false, w) (rc_handlers r).

(** One cycle; [now] is the clock reading of the drift report. *)
Definition runCycle (client : StateFetcher) (r : Reconciler) (nodeID : string) (now : Z) (w : W)
    : Reconciler * W :=
  match FetchState client nodeID w with
  | (Err _, w) => (r, w)
  | (Ok desired, w) =>
      let current := Get (rc_snapshot r) in
      let diff := ComputeDiff desired (Some current) in
      if IsEmpty diff then (r, w)
      else
        match desired with
        | None => (r, w) (* not reached: a nil state has an empty diff *)
        | Some desired =>
            let '(handlerFailed, w) := invokeHandlers r desired diff w in
            let report := BuildDriftReport now diff in
            let '(_, w) := ReportDrift client nodeID report w in
            if handlerFailed then (r, w)
            else (mkReconciler (rc_client r) (rc_cfg r) (Update (rc_snapshot r) desired)
                    (rc_handlers r) (rc_triggerCh r), w)
        end
  end.

(** [Run] as a step function on the select loop.  A label is what happens
    next: another goroutine calls [TriggerReconcile], or the select takes the
    ticker, the trigger channel or the cancelled context.  [None]: the
    label's case is not ready.  Ticks carry no time, so that resetting the
    ticker after a triggered cycle needs no state. *)
Inductive run_error := ClientNil | NodeIDEmpty.

Inductive run_label := LTrigger | LTick (now : Z) | LReceive (now : Z) | LDone.

#[global] Instance run_label_eq_dec : EqDecision run_label.
Proof. solve_decision. Defined.

Inductive run_state := Running (r : Reconciler) (w : W) | Stopped (r : Reconciler) (w : W).

(** The first cycle, and the ticker: [time.NewTicker] panics on an interval
    that is not positive. *)
Definition run_start (r : Reconciler) (nodeID : string) (now : Z) (w : W)
    : outcome (result run_error run_state) :=
  match rc_client r with
  | None => Returns (Err ClientNil)
  | Some client =>
      if decide (nodeID = "") then Returns (Err NodeIDEmpty)
      else
        let '(r, w) := runCycle client r nodeID now w in
        if decide (Interval (rc_cfg r) <= 0) then Panics else Returns (Ok (Running r w))
  end.

Definition clear_trigger (r : Reconciler) : Reconciler :=
  mkReconciler (rc_client r) (rc_cfg r) (rc_snapshot r) (rc_handlers r) false.

Definition run_step (client : StateFetcher) (nodeID : string) (s : run_state) (l : run_label)
    : option run_state :=
  match s, l with
  | Running r w, LTrigger => Some (Running (TriggerReconcile r) w)
  | Running r w, LTick now =>
      let '(r, w) := runCycle client r nodeID now w in Some (Running r w)
  | Running r w, LReceive now =>
      if rc_triggerCh r then
        let '(r, w) := runCycle client (clear_trigger r) nodeID now w in Some (Running r w)
      else None
  | Running r w, LDone => Some (Stopped r w)
  | Stopped _ _, _ => None
  end.

Definition run_trace (client : StateFetcher) (nodeID : string) (s : run_state) (ls : list run_label)
    : option run_state :=
  foldl (fun s l => s ≫= fun s => run_step client nodeID s l) (Some s) ls.

Definition is_receive (l : run_label) : bool := match l with LReceive _ => true | _ => false end.

(** ** Lemmas *)

Lemma foldr_cons_id {A} (l : list A) : foldr cons [] l = l.
Proof. induction l; simpl; congruence. Qed.

Lemma copyPeers_id l : copyPeers l = l.
Proof.
  unfold copyPeers. rewrite <- (list_fmap_id l) at 2. apply list_fmap_ext. intros i p _.
  rewrite foldr_cons_id. by destruct p.
Qed.

Lemma copyPolicies_id l : copyPolicies l = l.
Proof.
  unfold copyPolicies. rewrite <- (list_fmap_id l) at 2. apply list_fmap_ext. intros i p _.
  rewrite foldr_cons_id. by destruct p.
Qed.

Lemma copySigningKeys_id k : copySigningKeys k = k.
Proof. by destruct k as [[? ? []]|]. Qed.

Lemma copyData_id l : copyData l = l.
Proof.
  unfold copyData. rewrite <- (list_fmap_id l) at 2. apply list_fmap_ext. intros i p _.
  by destruct p.
Qed.

Lemma copyMetadata_id m : copyMetadata m = m.
Proof.
  unfold copyMetadata. apply map_eq. intros k. destruct (m !! k) as [v|] eqn:Ek.
  - apply elem_of_range_map in Ek. apply (build_map_NoDup fst snd _ _ (NoDup_range_keys m) Ek).
  - apply build_map_None. change (fst <$> range_map m) with (range_keys m).
    rewrite elem_of_range_keys, Ek. by apply is_Some_None.
Qed.

Lemma copySecretRefs_id l : copySecretRefs l = l.
Proof. apply foldr_cons_id. Qed.

Lemma Get_Update_equiv s d : Get (Update s d) ≡ d.
Proof.
  unfold Get, Update. simpl.
  rewrite !copyPeers_id, !copyPolicies_id, !copySigningKeys_id, !copyMetadata_id, !copyData_id,
    !copySecretRefs_id.
  hnf. simpl. split_and!; reflexivity.
Qed.

(** The handlers run one after the other, each exactly once whatever the
    others return; the flag says that one of them failed. *)
Fixpoint run_all (hs : list ReconcileHandler) (d : StateResponse) (δ : StateDiff) (w : W)
    : list bool * W :=
  match hs with
  | [] => ([], w)
  | h :: hs =>
      let '(f, w) := safeInvoke h d δ w in
      let '(fs, w) := run_all hs d δ w in (f :: fs, w)
  end.

Lemma invokeHandlers_run_all r d δ w :
  invokeHandlers r d δ w = (existsb id (run_all (rc_handlers r) d δ w).1,
                            (run_all (rc_handlers r) d δ w).2).
Proof.
  unfold invokeHandlers. generalize (rc_handlers r). intros hs.
  assert (G : forall b w, foldl (fun '(anyFailed, w) h =>
    let '(failed, w) := safeInvoke h d δ w in
    (if failed then true else anyFailed, w)) (b, w) hs =
    (existsb id (run_all hs d δ w).1 || b, (run_all hs d δ w).2)).
  { induction hs as [|h hs IH]; intros b w'; simpl; [done|].
    destruct (safeInvoke h d δ w') as [f w1]. rewrite IH.
    destruct (run_all hs d δ w1) as [fs w2]. simpl. unfold id at 2.
    destruct f, b; simpl; rewrite ?orb_true_r, ?orb_false_r; done. }
  rewrite G. by rewrite orb_false_r.
Qed.

Lemma runCycle_noop client r nodeID now w d w1 :
  FetchState client nodeID w = (Ok (Some d), w1) ->
  IsEmpty (ComputeDiff (Some d) (Some (Get (rc_snapshot r)))) = true ->
  runCycle client r nodeID now w = (r, w1).
Proof. intros Hf He. unfold runCycle. by rewrite Hf, He. Qed.

(** A cycle never touches configuration, handlers or the pending trigger. *)
Lemma runCycle_frame client r nodeID now w :
  let r' := (runCycle client r nodeID now w).1 in
  rc_client r' = rc_client r /\ rc_cfg r' = rc_cfg r /\ rc_handlers r' = rc_handlers r /\
  rc_triggerCh r' = rc_triggerCh r.
Proof. unfold runCycle. repeat case_match; by simplify_eq/=. Qed.

Definition pending (s : run_state) : bool :=
  match s with Running r _ | Stopped r _ => rc_triggerCh r end.

Lemma run_step_pending client nodeID s l s' :
  run_step client nodeID s l = Some s' ->
  pending s' = match l with LTrigger => true | LReceive _ => false | _ => pending s end.
Proof.
  destruct s as [r w|r w], l as [|now|now|]; simpl; intros Hs; simplify_eq/=; try done.
  - unfold TriggerReconcile. by destruct (rc_triggerCh r) eqn:?.
  - pose proof (runCycle_frame client r nodeID now w) as Hf.
    destruct (runCycle client r nodeID now w) as [r' w']. simplify_eq/=. by destruct Hf as (_ & _ & _ & ->).
  - destruct (rc_triggerCh r) eqn:?; [|done].
    pose proof (runCycle_frame client (clear_trigger r) nodeID now w) as Hf.
    destruct (runCycle client (clear_trigger r) nodeID now w) as [r' w']. simplify_eq/=.
    by destruct Hf as (_ & _ & _ & ->).
Qed.

Lemma run_trace_app client nodeID s l1 l2 :
  run_trace client nodeID s (l1 ++ l2) =
  run_trace client nodeID s l1 ≫= fun s => run_trace client nodeID s l2.
Proof.
  unfold run_trace. rewrite foldl_app. destruct (foldl _ _ l1); simpl; [done|].
  induction l2; simpl; done.
Qed.

Lemma run_trace_cons client nodeID s l ls :
  run_trace client nodeID s (l :: ls) =
  run_step client nodeID s l ≫= fun s => run_trace client nodeID s ls.
Proof.
  change (l :: ls) with ([l] ++ ls). rewrite run_trace_app. done.
Qed.

(** A trace without the labels that change the flag to [b] keeps it at
    [negb b]. *)
Lemma run_trace_pending client nodeID s ls s' (b : bool) :
  run_trace client nodeID s ls = Some s' ->
  (forall l, l ∈ ls -> if b then l <> LTrigger else is_receive l = false) ->
  pending s = negb b -> pending s' = negb b.
Proof.
  revert s. induction ls as [|l ls IH]; intros s Ht Hl Hp.
  - unfold run_trace in Ht. by simplify_eq/=.
  - rewrite run_trace_cons in Ht. apply bind_Some in Ht as (s1 & Hs & Ht).
    apply (IH s1); [done|set_solver|]. rewrite (run_step_pending _ _ _ _ _ Hs).
    specialize (Hl l ltac:(set_solver)). by destruct l, b.
Qed.

(** C3. After a cycle that fetched a well-formed state, either the snapshot is
    equivalent to that state, or the reconciler is unchanged and at least one
    handler failed (returned an error or panicked); in the second case every
    handler was still called once, in registration order. *)
Theorem runCycle_progress client r nodeID now w d w1 :
  FetchState client nodeID w = (Ok (Some d), w1) -> wf_state d ->
  let δ := ComputeDiff (Some d) (Some (Get (rc_snapshot r))) in
  let '(fs, w2) := run_all (rc_handlers r) d δ w1 in
  let '(r', w') := runCycle client r nodeID now w in
  (Get (rc_snapshot r') ≡ d /\ (IsEmpty δ = false -> true ∉ fs)) \/
  (r' = r /\ true ∈ fs /\ length fs = length (rc_handlers r) /\
   w' = (ReportDrift client nodeID (BuildDriftReport now δ) w2).2).
Proof.
  intros Hf Hd δ. destruct (run_all (rc_handlers r) d δ w1) as [fs w2] eqn:Er.
  unfold runCycle. rewrite Hf. fold δ. destruct (IsEmpty δ) eqn:He.
  - left. split; [|done]. symmetry. by apply IsEmpty_ComputeDiff.
  - rewrite invokeHandlers_run_all, Er. simpl.
    destruct (ReportDrift client nodeID (BuildDriftReport now δ) w2) as [e w3].
    destruct (existsb id fs) eqn:Ex; simpl.
    + right. split_and!; try done.
      * apply existsb_true in Ex as ([] & ? & ?); done.
      * clear - Er. revert w1 w2 fs Er. generalize (rc_handlers r) as hs.
        induction hs as [|h hs IH]; intros w1 w2 fs Er; simpl in Er.
        -- by simplify_eq.
        -- destruct (safeInvoke h d δ w1) as [f w3]. destruct (run_all hs d δ w3) eqn:E'.
           simplify_eq/=. by erewrite IH.
    + left. split; [apply Get_Update_equiv|]. intros _ Hin.
      by pose proof (proj1 (existsb_false id fs) Ex true Hin).
Qed.

(** C4. The loop converges: once a cycle for [d] succeeded in every handler, a
    later cycle that fetches an equivalent state calls no handler, reports
    nothing and leaves the reconciler as it is. *)
Theorem runCycle_converges client r nodeID now now' w d w1 d' w' w1' :
  FetchState client nodeID w = (Ok (Some d), w1) -> wf_state d ->
  true ∉ (run_all (rc_handlers r) d (ComputeDiff (Some d) (Some (Get (rc_snapshot r)))) w1).1 ->
  FetchState client nodeID w' = (Ok (Some d'), w1') -> wf_state d' -> d' ≡ d ->
  let r' := (runCycle client r nodeID now w).1 in
  runCycle client r' nodeID now' w' = (r', w1').
Proof.
  intros Hf Hd Hok Hf' Hd' Hdd r'. apply runCycle_noop with d'; [done|].
  apply IsEmpty_ComputeDiff; [done|]. subst r'. unfold runCycle. rewrite Hf.
  destruct (IsEmpty _) eqn:He.
  - apply IsEmpty_ComputeDiff in He; [|done]. by rewrite Hdd.
  - rewrite invokeHandlers_run_all. destruct (run_all _ _ _ _) as [fs w2]. simpl in *.
    destruct (ReportDrift _ _ _ _) as [e w3]. destruct (existsb id fs) eqn:Ex; simpl.
    + apply existsb_true in Ex as ([] & ? & ?); done.
    + by rewrite Get_Update_equiv.
Qed.

(** The state [s] with other rules in its policies and other bridge, relay,
    user-access, ingress and site-to-site sections. *)
Definition with_sections (s : StateResponse) (rules : Policy -> list PolicyRule)
    bc rc uc ic sc : StateResponse :=
  mkStateResponse (st_Peers s) ((fun p => mkPolicy (pol_ID p) (rules p)) <$> st_Policies s)
    (st_SigningKeys s) (st_Metadata s) bc rc uc ic sc (st_Data s) (st_SecretRefs s).

Lemma with_sections_equiv s rules bc rc uc ic sc : with_sections s rules bc rc uc ic sc ≡ s.
Proof.
  hnf. unfold with_sections. simpl. split_and!; try reflexivity.
  unfold policy_ids. by rewrite <- list_fmap_compose.
Qed.

(** A change of the rules of an existing policy, or of the bridge, relay,
    user-access, ingress or site-to-site section, is not drift: the cycle that
    fetches it calls no handler, so that it is never applied. *)
Theorem runCycle_misses_sections client r nodeID now w d w1 rules bc rc uc ic sc :
  wf_state d -> Get (rc_snapshot r) ≡ d ->
  FetchState client nodeID w = (Ok (Some (with_sections d rules bc rc uc ic sc)), w1) ->
  runCycle client r nodeID now w = (r, w1).
Proof.
  intros Hd Hs Hf. eapply runCycle_noop; [exact Hf|].
  apply IsEmpty_ComputeDiff; [exact Hd|]. by rewrite with_sections_equiv.
Qed.

(** Triggers are coalesced and never lost: between two triggered cycles
    there is a call of [TriggerReconcile], and after such a call the loop can
    run a triggered cycle as long as none has run. *)
Theorem triggers_coalesce client nodeID s0 l1 l2 :
  (forall now1 now2 l3 s,
    run_trace client nodeID s0 (l1 ++ LReceive now1 :: l2 ++ LReceive now2 :: l3) = Some s ->
    LTrigger ∈ l2) /\
  (forall now r w,
    run_trace client nodeID s0 (l1 ++ LTrigger :: l2) = Some (Running r w) ->
    existsb is_receive l2 = false ->
    is_Some (run_step client nodeID (Running r w) (LReceive now))).
Proof.
  split.
  - intros now1 now2 l3 s Ht. rewrite run_trace_app in Ht.
    apply bind_Some in Ht as (s1 & _ & Ht). rewrite run_trace_cons in Ht.
    apply bind_Some in Ht as (s2 & Hr & Ht). rewrite run_trace_app in Ht.
    apply bind_Some in Ht as (s3 & Ht & Hr'). rewrite run_trace_cons in Hr'.
    apply bind_Some in Hr' as (s4 & Hr' & _).
    destruct (decide (LTrigger ∈ l2)) as [?|Hn]; [done|].
    exfalso. assert (pending s3 = false) as Hp.
      { apply (run_trace_pending client nodeID s2 l2 s3 true); [done| |].
        - by intros l Hl ->.
        - by rewrite (run_step_pending _ _ _ _ _ Hr). }
      destruct s3 as [r w|r w]; simpl in *; [|done]. by rewrite Hp in Hr'.
  - intros now r w Ht Hn. rewrite run_trace_app in Ht.
    apply bind_Some in Ht as (s1 & _ & Ht). rewrite run_trace_cons in Ht.
    apply bind_Some in Ht as (s2 & Hr & Ht).
    assert (pending (Running r w) = true) as Hp.
    { apply (run_trace_pending client nodeID s2 l2 _ false); [done| |].
      - by apply existsb_false.
      - by rewrite (run_step_pending _ _ _ _ _ Hr). }
    simpl in *. rewrite Hp. destruct (runCycle _ _ _ _ _). eauto.
Qed.

End reconciler.

(** ** A concrete client and handlers; the world is a log of calls. *)

Definition ex_client (d : StateResponse) : StateFetcher (W := list string) (E := string) :=
  mkStateFetcher
    (fun _ w => (Ok (Some d), w ++ ["fetch"]))
    (fun _ _ w => (Some "unreachable", w ++ ["report"])).

Definition ex_handler (name : string) (out : handler_outcome (E := string))
    : ReconcileHandler (W := list string) :=
  fun _ _ w => (out, w ++ [name]).

Definition ex_reconciler (hs : list (ReconcileHandler (W := list string) (E := string)))
    : Reconciler :=
  foldl RegisterHandler (NewReconciler (Some (ex_client ex_desired)) (mkConfig 0)) hs.

Definition ex_failing : Reconciler :=
  ex_reconciler [ex_handler "h1" HPanics; ex_handler "h2" (HReturns None)].
Definition ex_working : Reconciler := ex_reconciler [ex_handler "h1" (HReturns None)].

Lemma runCycle_progress_witness :
  let '(r', w') := runCycle (H := id_order) (ex_client ex_desired) ex_failing "n" 0 [] in
  r' = ex_failing /\ w' = ["fetch"; "h1"; "h2"; "report"].
Proof.
  pose proof (runCycle_progress (H := id_order) (ex_client ex_desired) ex_failing "n" 0 [] ex_desired
    ["fetch"] eq_refl ex_desired_wf) as P.
  vm_compute in P. vm_compute. destruct P as [[_ Hn]|(_ & _ & _ & Hw)].
  - exfalso. apply Hn; [reflexivity|constructor].
  - split; [reflexivity|exact Hw].
Defined.

Lemma runCycle_converges_witness :
  let r' := (runCycle (H := id_order) (ex_client ex_desired) ex_working "n" 0 []).1 in
  runCycle (H := id_order) (ex_client ex_desired) r' "n" 1 ["later"] = (r', ["later"; "fetch"]).
Proof.
  exact (runCycle_converges (H := id_order) (ex_client ex_desired) ex_working "n" 0 1 [] ex_desired
    ["fetch"] ex_desired ["later"] ["later"; "fetch"] eq_refl ex_desired_wf
    ltac:(by_compute) eq_refl ex_desired_wf (reflexivity ex_desired)).
Defined.

(** A node whose policies and bridge section change: nothing is applied. *)
Definition ex_changed : StateResponse :=
  with_sections ex_desired (fun _ => [mkPolicyRule "a" "b" 22 "tcp" "allow"])
    (Some (mkBridgeConfig ["10.9.0.0/16"] true true)) None None None None.

Lemma runCycle_misses_sections_witness :
  let r := (runCycle (H := id_order) (ex_client ex_desired) ex_working "n" 0 []).1 in
  st_Policies ex_changed <> st_Policies ex_desired /\
  runCycle (H := id_order) (ex_client ex_changed) r "n" 1 [] = (r, ["fetch"]).
Proof.
  split; [by_compute|].
  assert (Hs : Get (H := id_order) (rc_snapshot
    (runCycle (H := id_order) (ex_client ex_desired) ex_working "n" 0 []).1) ≡ ex_desired).
  { symmetry. apply (IsEmpty_ComputeDiff (H := id_order)); [exact ex_desired_wf|].
    vm_compute. reflexivity. }
  exact (runCycle_misses_sections (H := id_order)
    (ex_client ex_changed) _ "n" 1 [] ex_desired ["fetch"] _ _ _ _ _ _ ex_desired_wf Hs eq_refl).
Defined.

Lemma triggers_coalesce_witness :
  is_Some (run_step (H := id_order) (ex_client ex_desired) "n"
    (Running (TriggerReconcile (TriggerReconcile ex_working)) []) (LReceive 5)).
Proof.
  destruct (triggers_coalesce (H := id_order) (ex_client ex_desired) "n" (Running ex_working [])
    [LTrigger] []) as [_ Ht].
  exact (Ht 5 _ [] eq_refl eq_refl).
Defined.
