(* ===== verification/WireGuard.v ===== *)
(** * WireGuard peers (src/internal/wireguard: index.go, manager.go,
    handler.go, controller.go, config.go)

    The manager keeps an index from peer IDs to base64 public keys and drives
    a controller that owns the interface.  [WGController] is the controller
    interface; [WGLaws] says what its peer operations do to the set of public
    keys configured on the interface.  The theorems relate index and
    interface, and compose the reconcile handler with [ComputeDiff]. *)

From stdpp Require Import base strings gmap list.
From S2P Require Import Prelude Base64 Types Diff Reconcile.

(** ** Configuration *)

Record Config := mkConfig { InterfaceName : string; ListenPort : Z; MTU : Z }.

Definition DefaultInterfaceName : string := "plexd0".
Definition DefaultListenPort : Z := 51820.

Definition ApplyDefaults (c : Config) : Config :=
  let c := if decide (InterfaceName c = "")
           then mkConfig DefaultInterfaceName (ListenPort c) (MTU c) else c in
  if decide (ListenPort c = 0) then mkConfig (InterfaceName c) DefaultListenPort (MTU c) else c.

Inductive config_error := ListenPortRange | MTUNegative.

Definition Validate (c : Config) : option config_error :=
  if decide (ListenPort c <= 0 \/ ListenPort c > 65535) then Some ListenPortRange
  else if decide (MTU c < 0) then Some MTUNegative
  else None.

(** ** Peer configuration *)

Record PeerConfig := mkPeerConfig {
  pc_PublicKey : list Z;
  pc_Endpoint : string;
  pc_AllowedIPs : list string;
  pc_PSK : option (list Z);
  pc_PersistentKeepalive : Z
}.

Inductive error :=
| DecodePublicKey
| DecodePSK
| UnknownPeerID (id : string)
| ControllerError (msg : string)
| ContextError
| ParsePayload.

Definition PeerConfigFromAPI (peer : Peer) : result error PeerConfig :=
  match DecodeString (peer_PublicKey peer) with
  | None => Err DecodePublicKey
  | Some pubKey =>
      if decide (peer_PSK peer = "") then
        Ok (mkPeerConfig pubKey (peer_Endpoint peer) (peer_AllowedIPs peer) None 0)
      else
        match DecodeString (peer_PSK peer) with
        | None => Err DecodePSK
        | Some psk =>
            Ok (mkPeerConfig pubKey (peer_Endpoint peer) (peer_AllowedIPs peer) (Some psk) 0)
        end
  end.

(** ** The controller interface

    A call returns an error message or nil and the new state of the system. *)

Class WGController (D : Type) := {
  ctrl_CreateInterface : string -> list Z -> Z -> D -> option string * D;
  ctrl_DeleteInterface : string -> D -> option string * D;
  ctrl_ConfigureAddress : string -> string -> D -> option string * D;
  ctrl_SetInterfaceUp : string -> D -> option string * D;
  ctrl_SetMTU : string -> Z -> D -> option string * D;
  ctrl_AddPeer : string -> PeerConfig -> D -> option string * D;
  ctrl_RemovePeer : string -> list Z -> D -> option string * D
}.

(** The public keys configured on an interface.  Adding is an upsert, and a
    failing call configures nothing. *)
Class WGLaws (D : Type) `{WGController D} := {
  device_keys : string -> D -> gset (list Z);
  AddPeer_ok : forall i cfg d d', ctrl_AddPeer i cfg d = (None, d') ->
    device_keys i d' = {[ pc_PublicKey cfg ]} ∪ device_keys i d;
  AddPeer_err : forall i cfg d e d', ctrl_AddPeer i cfg d = (Some e, d') ->
    device_keys i d' = device_keys i d;
  RemovePeer_ok : forall i k d d', ctrl_RemovePeer i k d = (None, d') ->
    device_keys i d' = device_keys i d ∖ {[ k ]};
  RemovePeer_err : forall i k d e d', ctrl_RemovePeer i k d = (Some e, d') ->
    device_keys i d' = device_keys i d
}.

(** ** The peer index *)

Abbreviation PeerIndex := (gmap string string).

Definition NewPeerIndex : PeerIndex := ∅.
Definition Add (p : PeerIndex) (peerID publicKey : string) : PeerIndex := <[peerID := publicKey]> p.
Definition Remove (p : PeerIndex) (peerID : string) : PeerIndex := delete peerID p.
Definition Lookup (p : PeerIndex) (peerID : string) : option string := p !! peerID.
Definition Update (p : PeerIndex) (peerID newPublicKey : string) : PeerIndex :=
  <[peerID := newPublicKey]> p.
Definition LoadFromPeers (p : PeerIndex) (peers : list Peer) : PeerIndex :=
  foldl (fun m peer => <[peer_ID peer := peer_PublicKey peer]> m) ∅ peers.

(** ** The manager *)

Record Manager := mkManager { mg_cfg : Config; mg_peers : PeerIndex }.

Definition set_peers (m : Manager) (p : PeerIndex) : Manager := mkManager (mg_cfg m) p.
Definition iface (m : Manager) : string := InterfaceName (mg_cfg m).

Definition NewManager (cfg : Config) : Manager := mkManager (ApplyDefaults cfg) NewPeerIndex.

Section manager.
Context {D : Type} `{WGController D}.

(** An operation of the manager: an error or nil, the manager, the system. *)
Definition op : Type := Manager * D -> option error * (Manager * D).

(** [PrivateKey] and [MeshIP] of the node identity. *)
Definition Setup (privateKey : list Z) (meshIP : string) : op := fun '(m, d) =>
  match ctrl_CreateInterface (iface m) privateKey (ListenPort (mg_cfg m)) d with
  | (Some e, d) => (Some (ControllerError e), (m, d))
  | (None, d) =>
      match ctrl_ConfigureAddress (iface m) (meshIP +:+ "/32") d with
      | (Some e, d) => (Some (ControllerError e), (m, d))
      | (None, d) =>
          let '(err, d) :=
            if decide (MTU (mg_cfg m) > 0) then ctrl_SetMTU (iface m) (MTU (mg_cfg m)) d
            else (None, d) in
          match err with
          | Some e => (Some (ControllerError e), (m, d))
          | None =>
              match ctrl_SetInterfaceUp (iface m) d with
              | (Some e, d) => (Some (ControllerError e), (m, d))
              | (None, d) => (None, (m, d))
              end
          end
      end
  end.

Definition Teardown : op := fun '(m, d) =>
  let '(err, d) := ctrl_DeleteInterface (iface m) d in (ControllerError <$> err, (m, d)).

Definition AddPeer (peer : Peer) : op := fun '(m, d) =>
  match PeerConfigFromAPI peer with
  | Err e => (Some e, (m, d))
  | Ok peerCfg =>
      match ctrl_AddPeer (iface m) peerCfg d with
      | (Some e, d) => (Some (ControllerError e), (m, d))
      | (None, d) => (None, (set_peers m (Add (mg_peers m) (peer_ID peer) (peer_PublicKey peer)), d))
      end
  end.

Definition RemovePeer (publicKey : list Z) : op := fun '(m, d) =>
  let '(err, d) := ctrl_RemovePeer (iface m) publicKey d in (ControllerError <$> err, (m, d)).

Definition RemovePeerByID (peerID : string) : op := fun '(m, d) =>
  match Lookup (mg_peers m) peerID with
  | None => (Some (UnknownPeerID peerID), (m, d))
  | Some pubKeyB64 =>
      match DecodeString pubKeyB64 with
      | None => (Some DecodePublicKey, (m, d))
      | Some pubKeyBytes =>
          match ctrl_RemovePeer (iface m) pubKeyBytes d with
          | (Some e, d) => (Some (ControllerError e), (m, d))
          | (None, d) => (None, (set_peers m (Remove (mg_peers m) peerID), d))
          end
      end
  end.

Definition UpdatePeer (peer : Peer) : op := fun '(m, d) =>
  match PeerConfigFromAPI peer with
  | Err e => (Some e, (m, d))
  | Ok peerCfg =>
      match ctrl_AddPeer (iface m) peerCfg d with
      | (Some e, d) => (Some (ControllerError e), (m, d))
      | (None, d) =>
          (None, (set_peers m (Update (mg_peers m) (peer_ID peer) (peer_PublicKey peer)), d))
      end
  end.

(** The loop of [ConfigurePeers]; [cancelled] is what [ctx.Err()] says at the
    start of each iteration. *)
Fixpoint ConfigurePeers_loop (peers : list Peer) (cancelled : list bool) (m : Manager) (d : D)
    : option error * D :=
  match peers with
  | [] => (None, d)
  | peer :: peers =>
      if default false (head cancelled) then (Some ContextError, d)
      else
        let d := match PeerConfigFromAPI peer with
                 | Err _ => d
                 | Ok peerCfg => (ctrl_AddPeer (iface m) peerCfg d).2
                 end in
        ConfigurePeers_loop peers (tail cancelled) m d
  end.

Definition ConfigurePeers (cancelled : list bool) (peers : list Peer) : op := fun '(m, d) =>
  let m := set_peers m (LoadFromPeers (mg_peers m) peers) in
  let '(err, d) := ConfigurePeers_loop peers cancelled m d in
  (err, (m, d)).

(** ** Handlers *)

(** [for _, x := range l { if err := f(x); err != nil { errs = append(errs, err) } }]. *)
Definition collect {X} (f : X -> op) (l : list X) (st : list error * (Manager * D))
    : list error * (Manager * D) :=
  foldl (fun '(errs, s) x =>
    let '(err, s) := f x s in
    (match err with Some e => errs ++ [e] | None => errs end, s)) st l.

(** [errors.Join] of no error is nil. *)
Definition ReconcileHandler : Reconcile.ReconcileHandler (W := Manager * D) (E := list error) :=
  fun desired diff s =>
    let '(errs, s) := collect RemovePeerByID (PeersToRemove diff) ([], s) in
    let '(errs, s) := collect UpdatePeer (PeersToUpdate diff) (errs, s) in
    let '(errs, s) := collect AddPeer (PeersToAdd diff) (errs, s) in
    (HReturns (if decide (errs = []) then None else Some errs), s).

(** Event handlers take what [json.Unmarshal] made of the payload ([None]: it
    failed). *)
Definition HandlePeerAdded (payload : option Peer) : op := fun s =>
  match payload with
  | None => (Some ParsePayload, s)
  | Some peer => AddPeer peer s
  end.

Definition HandlePeerRemoved (payload : option string) : op := fun s =>
  match payload with
  | None => (Some ParsePayload, s)
  | Some peerID => RemovePeerByID peerID s
  end.

Definition HandlePeerKeyRotated (payload : option Peer) : op := fun s =>
  match payload with
  | None => (Some ParsePayload, s)
  | Some peer =>
      let '(_, s) := RemovePeerByID (peer_ID peer) s in
      AddPeer peer s
  end.

Definition HandlePeerEndpointChanged (payload : option Peer) : op := fun s =>
  match payload with
  | None => (Some ParsePayload, s)
  | Some peer => UpdatePeer peer s
  end.

End manager.

(** ** Index and interface

    [consistent]: every indexed key decodes, no two IDs share a key, and the
    interface has exactly the indexed keys. *)

Definition index_keys (p : PeerIndex) : gset (list Z) :=
  list_to_set (omap DecodeString (map_to_list p).*2).

Definition keys_injective (p : PeerIndex) : Prop :=
  forall id1 id2 b1 b2 k, p !! id1 = Some b1 -> p !! id2 = Some b2 ->
    DecodeString b1 = Some k -> DecodeString b2 = Some k -> id1 = id2.

Record consistent {D} `{WGLaws D} (s : Manager * D) : Prop := mkConsistent {
  con_decode : forall id b, mg_peers s.1 !! id = Some b -> is_Some (DecodeString b);
  con_inj : keys_injective (mg_peers s.1);
  con_device : device_keys (iface s.1) s.2 = index_keys (mg_peers s.1)
}.

(** The index a list of peers asks for. *)
Definition desired_index (l : list Peer) : PeerIndex := peer_PublicKey <$> peers_by_id l.

Lemma elem_of_index_keys p k :
  k ∈ index_keys p <-> exists id b, p !! id = Some b /\ DecodeString b = Some k.
Proof.
  unfold index_keys. rewrite elem_of_list_to_set, list_elem_of_omap. split.
  - intros (b & Hb & Hk). apply list_elem_of_fmap in Hb as ([id b'] & -> & Hb).
    apply elem_of_map_to_list in Hb. eauto.
  - intros (id & b & Hb & Hk). exists b. split; [|done].
    apply list_elem_of_fmap. exists (id, b). by rewrite elem_of_map_to_list.
Qed.

Lemma index_keys_insert p id b k :
  DecodeString b = Some k ->
  (forall b', p !! id = Some b' -> DecodeString b' = Some k) ->
  index_keys (<[id := b]> p) = {[ k ]} ∪ index_keys p.
Proof.
  intros Hk Hold. apply set_eq. intros k'.
  rewrite elem_of_union, elem_of_singleton, !elem_of_index_keys. split.
  - intros (i & b' & Hi & Hk'). rewrite lookup_insert in Hi. case_decide; simplify_eq; eauto.
  - intros [->|(i & b' & Hi & Hk')]; [exists id, b; by rewrite lookup_insert_eq|].
    destruct (decide (i = id)) as [->|Hne].
    + exists id, b. rewrite lookup_insert_eq. split; [done|]. rewrite (Hold b' Hi) in Hk'. congruence.
    + exists i, b'. by rewrite lookup_insert_ne.
Qed.

Lemma index_keys_delete p id b k :
  keys_injective p -> p !! id = Some b -> DecodeString b = Some k ->
  index_keys (delete id p) = index_keys p ∖ {[ k ]}.
Proof.
  intros Hinj Hid Hk. apply set_eq. intros k'.
  rewrite elem_of_difference, elem_of_singleton, !elem_of_index_keys. split.
  - intros (i & b' & Hi & Hk'). rewrite lookup_delete_Some in Hi. destruct Hi as [Hne Hi].
    split; [eauto|]. intros ->. apply Hne. by eapply Hinj.
  - intros [(i & b' & Hi & Hk') Hne]. exists i, b'. rewrite lookup_delete_ne; [done|].
    intros ->. congruence.
Qed.

Lemma keys_injective_delete p id : keys_injective p -> keys_injective (delete id p).
Proof.
  intros Hinj i1 i2 b1 b2 k [_ H1]%lookup_delete_Some [_ H2]%lookup_delete_Some. by eapply Hinj.
Qed.

Lemma keys_injective_subseteq p q : p ⊆ q -> keys_injective q -> keys_injective p.
Proof.
  intros Hsub Hinj i1 i2 b1 b2 k H1 H2. eapply Hinj; by eapply lookup_weaken.
Qed.

Section theorems.
Context {D : Type} `{WGLaws D}.
Implicit Types (s : Manager * D).

(** Success of an operation, spelled out. *)
Lemma AddPeer_inv peer s s' :
  AddPeer peer s = (None, s') ->
  exists cfg, PeerConfigFromAPI peer = Ok cfg /\ DecodeString (peer_PublicKey peer) = Some (pc_PublicKey cfg) /\
    ctrl_AddPeer (iface s.1) cfg s.2 = (None, s'.2) /\
    s'.1 = set_peers s.1 (<[peer_ID peer := peer_PublicKey peer]> (mg_peers s.1)).
Proof.
  destruct s as [m d]. unfold AddPeer. simpl.
  destruct (PeerConfigFromAPI peer) as [cfg|] eqn:Ec; [|done].
  destruct (ctrl_AddPeer (iface m) cfg d) as [[e|] d'] eqn:Ea; [done|]. intros [= <-].
  exists cfg. split_and!; try done. clear Ea. unfold PeerConfigFromAPI in Ec.
  repeat case_match; simplify_eq; done.
Qed.

Lemma UpdatePeer_AddPeer peer s : UpdatePeer peer s = AddPeer peer s.
Proof. by destruct s. Qed.

Lemma RemovePeerByID_inv id s s' :
  RemovePeerByID id s = (None, s') ->
  exists b k, mg_peers s.1 !! id = Some b /\ DecodeString b = Some k /\
    ctrl_RemovePeer (iface s.1) k s.2 = (None, s'.2) /\
    s'.1 = set_peers s.1 (delete id (mg_peers s.1)).
Proof.
  destruct s as [m d]. unfold RemovePeerByID, Lookup. simpl.
  destruct (mg_peers m !! id) as [b|]; [|done]. destruct (DecodeString b) as [k|] eqn:Ek; [|done].
  destruct (ctrl_RemovePeer (iface m) k d) as [[e|] d'] eqn:Er; [done|]. intros [= <-].
  exists b, k. done.
Qed.

Lemma AddPeer_consistent K peer s s' :
  consistent s -> mg_peers s.1 ⊆ K -> keys_injective K ->
  K !! peer_ID peer = Some (peer_PublicKey peer) ->
  AddPeer peer s = (None, s') -> consistent s' /\ mg_peers s'.1 ⊆ K.
Proof.
  intros [Hdec Hinj Hdev] Hsub HK Hp (cfg & _ & Hk & Ha & Em)%AddPeer_inv.
  assert (Hsub' : mg_peers s'.1 ⊆ K).
  { rewrite Em. simpl. by apply insert_subseteq_l. }
  split; [|done]. split.
  - rewrite Em. simpl. intros id b Hb. rewrite lookup_insert in Hb. case_decide; simplify_eq; eauto.
  - by apply (keys_injective_subseteq _ K).
  - rewrite Em. simpl. rewrite (AddPeer_ok _ _ _ _ Ha). unfold iface in *. rewrite Hdev.
    symmetry. apply index_keys_insert; [done|]. intros b' Hb'.
    apply (lookup_weaken _ K) in Hb'; [|done]. rewrite Hp in Hb'. by simplify_eq.
Qed.

Lemma RemovePeerByID_consistent id s s' :
  consistent s -> RemovePeerByID id s = (None, s') -> consistent s'.
Proof.
  intros [Hdec Hinj Hdev] (b & k & Hb & Hk & Hr & Em)%RemovePeerByID_inv. split; rewrite Em; simpl.
  - intros i b' [_ ?]%lookup_delete_Some. eauto.
  - by apply keys_injective_delete.
  - rewrite (RemovePeer_ok _ _ _ _ Hr). unfold iface in *. rewrite Hdev.
    symmetry. by apply (index_keys_delete _ _ b).
Qed.

(** A failing operation leaves index and key set as they were. *)
Lemma AddPeer_failed peer s e s' :
  AddPeer peer s = (Some e, s') -> s'.1 = s.1 /\ device_keys (iface s.1) s'.2 = device_keys (iface s.1) s.2.
Proof.
  destruct s as [m d]. unfold AddPeer. simpl. destruct (PeerConfigFromAPI peer) as [cfg|].
  - destruct (ctrl_AddPeer (iface m) cfg d) as [[e'|] d'] eqn:Ea; [|done]. intros [= <- <-].
    split; [done|]. by apply (AddPeer_err _ _ _ _ _ Ea).
  - by intros [= <- <-].
Qed.

Lemma RemovePeerByID_failed id s e s' :
  RemovePeerByID id s = (Some e, s') ->
  s'.1 = s.1 /\ device_keys (iface s.1) s'.2 = device_keys (iface s.1) s.2.
Proof.
  destruct s as [m d]. unfold RemovePeerByID, Lookup. simpl.
  destruct (mg_peers m !! id) as [b|]; [|by intros [= <- <-]].
  destruct (DecodeString b) as [k|]; [|by intros [= <- <-]].
  destruct (ctrl_RemovePeer (iface m) k d) as [[e'|] d'] eqn:Er; [|done]. intros [= <- <-].
  split; [done|]. by apply (RemovePeer_err _ _ _ _ _ Er).
Qed.

(** All calls of a loop succeed. *)
Fixpoint succeeds {X} (f : X -> op (D := D)) (l : list X) s s' : Prop :=
  match l with
  | [] => s' = s
  | x :: l => exists s1, f x s = (None, s1) /\ succeeds f l s1 s'
  end.

Lemma collect_prefix {X} (f : X -> op (D := D)) l errs s :
  exists es, (collect f l (errs, s)).1 = errs ++ es.
Proof.
  revert errs s. induction l as [|x l IH]; intros errs s.
  - exists []. simpl. by rewrite app_nil_r.
  - unfold collect in *. simpl. destruct (f x s) as [[e|] s1].
    + destruct (IH (errs ++ [e]) s1) as [es ->]. exists ([e] ++ es). by rewrite app_assoc.
    + apply IH.
Qed.

Lemma collect_succeeds {X} (f : X -> op (D := D)) l errs s s' :
  collect f l (errs, s) = ([], s') -> errs = [] /\ succeeds f l s s'.
Proof.
  revert errs s. induction l as [|x l IH]; intros errs s Hc.
  - unfold collect in Hc. by simplify_eq/=.
  - unfold collect in Hc. simpl in Hc. destruct (f x s) as [[e|] s1] eqn:Ef.
    + apply IH in Hc as [Hn _]. by destruct errs.
    + apply IH in Hc as [-> Hs]. simpl. eauto.
Qed.

Lemma ReconcileHandler_succeeds d δ s s' :
  ReconcileHandler d δ s = (HReturns None, s') ->
  exists s1 s2, succeeds RemovePeerByID (PeersToRemove δ) s s1 /\
    succeeds UpdatePeer (PeersToUpdate δ) s1 s2 /\ succeeds AddPeer (PeersToAdd δ) s2 s'.
Proof.
  unfold ReconcileHandler.
  destruct (collect RemovePeerByID (PeersToRemove δ) ([], s)) as [e1 s1] eqn:E1.
  destruct (collect UpdatePeer (PeersToUpdate δ) (e1, s1)) as [e2 s2] eqn:E2.
  destruct (collect AddPeer (PeersToAdd δ) (e2, s2)) as [e3 s3] eqn:E3.
  case_decide as He; [|done]. intros [= <-]. subst.
  apply collect_succeeds in E3 as [-> H3]. apply collect_succeeds in E2 as [-> H2].
  apply collect_succeeds in E1 as [_ H1]. eauto.
Qed.

Lemma removes_index l s s' :
  succeeds RemovePeerByID l s s' ->
  mg_peers s'.1 = foldl (fun p id => delete id p) (mg_peers s.1) l.
Proof.
  revert s. induction l as [|id l IH]; intros s; simpl; [by intros ->|].
  intros (s1 & (b & k & _ & _ & _ & Em)%RemovePeerByID_inv & Hs). by rewrite (IH _ Hs), Em.
Qed.

Lemma adds_index l s s' :
  succeeds AddPeer l s s' ->
  mg_peers s'.1 = foldl (fun p q => <[peer_ID q := peer_PublicKey q]> p) (mg_peers s.1) l.
Proof.
  revert s. induction l as [|q l IH]; intros s; simpl; [by intros ->|].
  intros (s1 & (cfg & _ & _ & _ & Em)%AddPeer_inv & Hs). by rewrite (IH _ Hs), Em.
Qed.

Lemma updates_adds l s s' : succeeds UpdatePeer l s s' <-> succeeds AddPeer l s s'.
Proof.
  revert s. induction l as [|q l IH]; intros s; simpl; [done|].
  setoid_rewrite UpdatePeer_AddPeer. by setoid_rewrite IH.
Qed.

Lemma removes_consistent l s s' : consistent s -> succeeds RemovePeerByID l s s' -> consistent s'.
Proof.
  revert s. induction l as [|id l IH]; intros s Hc; simpl; [by intros ->|].
  intros (s1 & H1 & Hs). apply (IH s1); [|done]. by eapply RemovePeerByID_consistent.
Qed.

Lemma adds_consistent K l s s' :
  keys_injective K -> consistent s -> mg_peers s.1 ⊆ K ->
  (forall q, q ∈ l -> K !! peer_ID q = Some (peer_PublicKey q)) ->
  succeeds AddPeer l s s' -> consistent s' /\ mg_peers s'.1 ⊆ K.
Proof.
  intros HK. revert s. induction l as [|q l IH]; intros s Hc Hsub Hl; simpl; [by intros ->|].
  intros (s1 & H1 & Hs). destruct (AddPeer_consistent K q s s1) as [? ?]; [set_solver..|].
  apply (IH s1); set_solver.
Qed.

(** The index after a successful handler run is the patched index. *)
Lemma handler_index (R : list string) (U A : list Peer) (m : gmap string Peer) :
  foldl (fun p q => <[peer_ID q := peer_PublicKey q]> p)
    (foldl (fun p q => <[peer_ID q := peer_PublicKey q]> p)
      (foldl (fun p id => delete id p) (peer_PublicKey <$> m) R) U) A =
  peer_PublicKey <$>
    foldl (fun m p => <[peer_ID p := p]> m)
      (foldl (fun m p => <[peer_ID p := p]> m) (foldl (fun m id => delete id m) m R) U) A.
Proof.
  assert (Hd : forall R m, foldl (fun p id => delete id p) (peer_PublicKey <$> m) R =
    peer_PublicKey <$> foldl (fun (m : gmap string Peer) id => delete id m) m R).
  { clear. induction R as [|i R IH]; intros m; simpl; [done|]. by rewrite <- fmap_delete, IH. }
  assert (Hi : forall A m, foldl (fun p q => <[peer_ID q := peer_PublicKey q]> p) (peer_PublicKey <$> m) A =
    peer_PublicKey <$> foldl (fun (m : gmap string Peer) p => <[peer_ID p := p]> m) m A).
  { clear. induction A as [|q A IH]; intros m; simpl; [done|].
    by rewrite <- (fmap_insert peer_PublicKey m (peer_ID q) q), IH. }
  by rewrite Hd, !Hi.
Qed.

#[global] Instance PublicKey_fmap_proper :
  Proper ((≡) ==> (=)) (fmap peer_PublicKey : gmap string Peer -> PeerIndex).
Proof.
  intros m m' Hm. apply map_eq. intros i. rewrite !lookup_fmap. specialize (Hm i).
  inversion Hm as [p q Hpq Hp Hq|Hp Hq]; simpl; [|done]. f_equal. apply Hpq.
Qed.

Lemma handler_index_desired `{HO : MapOrder} d c s s' :
  wf_state d -> mg_peers s.1 = desired_index (st_Peers c) ->
  ReconcileHandler d (ComputeDiff (Some d) (Some c)) s = (HReturns None, s') ->
  mg_peers s'.1 = desired_index (st_Peers d).
Proof.
  intros Hd Hs (s1 & s2 & H1 & H2%updates_adds & H3)%ReconcileHandler_succeeds.
  rewrite (adds_index _ _ _ H3), (adds_index _ _ _ H2), (removes_index _ _ _ H1), Hs.
  unfold desired_index. rewrite handler_index. apply PublicKey_fmap_proper.
  by apply (patch_peers_correct d c).
Qed.

(** A run of the handler without error keeps index and interface in agreement,
    when no peer keeps its ID while changing its key and the desired keys are
    distinct. *)
Lemma ReconcileHandler_consistent `{HO : MapOrder} d c s s' :
  wf_state d -> consistent s -> mg_peers s.1 = desired_index (st_Peers c) ->
  ReconcileHandler d (ComputeDiff (Some d) (Some c)) s = (HReturns None, s') ->
  keys_injective (desired_index (st_Peers d)) ->
  (forall id b b', desired_index (st_Peers c) !! id = Some b -> desired_index (st_Peers d) !! id = Some b' -> b = b') ->
  consistent s'.
Proof.
  intros Hd Hc Hs Hh Hinj Hkeep.
  apply ReconcileHandler_succeeds in Hh as (s1 & s2 & H1 & H2%updates_adds & H3).
  destruct (ComputeDiff_fields d c) as (EA & ER & EU & _).
  assert (HK : forall q, q ∈ st_Peers d ->
    desired_index (st_Peers d) !! peer_ID q = Some (peer_PublicKey q)).
  { intros q Hq. unfold desired_index. by rewrite lookup_fmap, peers_by_id_lookup. }
  assert (Hsub : mg_peers s1.1 ⊆ desired_index (st_Peers d)).
  { rewrite (removes_index _ _ _ H1), Hs. apply map_subseteq_spec. intros id b.
    rewrite foldl_delete_lookup. case_decide as Hr; [done|]. intros Hb.
    assert (Hb' := Hb). unfold desired_index in Hb'. rewrite lookup_fmap in Hb'.
    apply fmap_Some in Hb' as (q & [Hq <-]%peers_by_id_Some & ->).
    destruct (desired_index (st_Peers d) !! peer_ID q) as [b'|] eqn:Ed.
    - f_equal. symmetry. by eapply Hkeep.
    - exfalso. apply Hr. rewrite ER. apply list_elem_of_fmap_2, list_elem_of_filter.
      split; [|done]. unfold desired_index in Ed. rewrite lookup_fmap in Ed.
      by apply fmap_None in Ed. }
  pose proof (removes_consistent _ _ _ Hc H1) as Hc1.
  destruct (adds_consistent _ (PeersToUpdate (ComputeDiff (Some d) (Some c))) s1 s2 Hinj Hc1 Hsub)
    as [Hc2 Hsub2]; [|by apply updates_adds|].
  { intros q. rewrite EU. intros [_ Hq]%list_elem_of_filter. by apply HK. }
  destruct (adds_consistent _ (PeersToAdd (ComputeDiff (Some d) (Some c))) s2 s' Hinj Hc2 Hsub2)
    as [Hc3 _]; [|done..].
  intros q. rewrite EA. intros [_ Hq]%list_elem_of_filter. by apply HK.
Qed.

(** *** The handler in the reconcile loop *)

Section cycles.
Context `{HO : MapOrder} {N : Type} (client : StateFetcher (W := (Manager * D) * N) (E := list error)) (nodeID : string).

(** The handler beside the control plane's state [N]. *)
Definition wg_handler : Reconcile.ReconcileHandler (W := (Manager * D) * N) (E := list error) := fun d δ w =>
  let '(o, s) := ReconcileHandler d δ w.1 in (o, (s, w.2)).

(** A new reconciler with this handler, a new manager. *)
Definition wg_start (rcfg : Reconcile.Config) (cfg : Config) (dev : D) (n : N)
    : Reconciler (W := (Manager * D) * N) (E := list error) * ((Manager * D) * N) :=
  (RegisterHandler (NewReconciler (Some client) rcfg) wg_handler, ((NewManager cfg, dev), n)).

(** Cycles of the loop: fetches may fail, the handler does not; the states that
    were fetched. *)
Inductive cycles (x0 : Reconciler * ((Manager * D) * N)) : list StateResponse -> Reconciler * ((Manager * D) * N) -> Prop :=
| cycles_start : cycles x0 [] x0
| cycles_missed ds r w now e w1 : cycles x0 ds (r, w) -> FetchState client nodeID w = (Err e, w1) ->
    cycles x0 ds (runCycle client r nodeID now w)
| cycles_fetched ds r w now d w1 : cycles x0 ds (r, w) -> FetchState client nodeID w = (Ok (Some d), w1) ->
    (invokeHandlers r d (ComputeDiff (Some d) (Some (Get (rc_snapshot r)))) w1).1 = false ->
    cycles x0 (ds ++ [d]) (runCycle client r nodeID now w).

(** The client leaves manager and interface alone. *)
Context (Hfetch : forall w, (FetchState client nodeID w).2.1 = w.1).
Context (Hreport : forall rep w, (ReportDrift client nodeID rep w).2.1 = w.1).

Lemma invoke_wg r d δ w : rc_handlers r = [wg_handler] -> (invokeHandlers r d δ w).1 = false ->
  exists s', ReconcileHandler d δ w.1 = (HReturns None, s') /\ (invokeHandlers r d δ w).2 = (s', w.2).
Proof using Type.
  intros Hh. unfold invokeHandlers, safeInvoke. rewrite Hh. cbn [foldl]. unfold wg_handler.
  destruct (ReconcileHandler d δ w.1) as [[[e|]|] s']; cbn; try done. intros _. by eexists.
Qed.

(** What a cycle does to the manager, and the snapshot it leaves. *)
Lemma runCycle_wg r w now d w1 : rc_handlers r = [wg_handler] -> FetchState client nodeID w = (Ok (Some d), w1) ->
  (invokeHandlers r d (ComputeDiff (Some d) (Some (Get (rc_snapshot r)))) w1).1 = false ->
  let '(r', w') := runCycle client r nodeID now w in
  rc_handlers r' = [wg_handler] /\
  ReconcileHandler d (ComputeDiff (Some d) (Some (Get (rc_snapshot r)))) w.1 = (HReturns None, w'.1) /\
  (st_Peers (Get (rc_snapshot r')) = st_Peers d \/ (r' = r /\ w'.1 = w.1)).
Proof using Hfetch Hreport.
  intros Hh Hf Hok. pose proof (Hfetch w) as Ew. rewrite Hf in Ew. cbn in Ew.
  destruct (invoke_wg _ _ _ _ Hh Hok) as (s' & Hrh & Hinv). unfold runCycle. rewrite Hf.
  set (δ := ComputeDiff _ _) in *. rewrite Ew in Hrh. destruct (IsEmpty δ) eqn:Ee.
  - split_and!; [done| |by right]. apply IsEmpty_true in Ee as (E1 & E2 & E3 & _).
    revert Hrh. unfold ReconcileHandler. rewrite E1, E2, E3. cbn. by rewrite Ew.
  - destruct (invokeHandlers r d δ w1) as [b w2]. cbn in Hok, Hinv. subst b w2.
    pose proof (Hreport (BuildDriftReport now δ) (s', w1.2)) as Hr.
    destruct (ReportDrift _ _ _ _) as [e w3]. cbn in Hr. cbn. split_and!; [done|by rewrite Hr|left; by rewrite !copyPeers_id].
Qed.

Definition latest (ds : list StateResponse) : list Peer := default [] (st_Peers <$> last ds).

Lemma cycles_index x0 ds x : rc_handlers x0.1 = [wg_handler] -> sn_peers (rc_snapshot x0.1) = [] ->
  mg_peers x0.2.1.1 = ∅ -> cycles x0 ds x -> Forall wf_state ds ->
  rc_handlers x.1 = [wg_handler] /\ mg_peers x.2.1.1 = desired_index (latest ds) /\
  desired_index (st_Peers (Get (rc_snapshot x.1))) = desired_index (latest ds).
Proof using Hfetch Hreport.
  intros Hh Hp Hm Hc. induction Hc as [|ds r w now e w1 Hc IH Hf|ds r w now d w1 Hc IH Hf Hok].
  - intros _. assert (E : desired_index (latest []) = ∅) by apply fmap_empty. rewrite E.
    split_and!; [done|done|]. cbn. rewrite copyPeers_id, Hp. apply fmap_empty.
  - intros Hw. destruct (IH Hw) as (? & ? & ?). pose proof (Hfetch w) as Ew. unfold runCycle. rewrite Hf in *. cbn in *.
    by rewrite Ew.
  - intros [Hw [Hd _]%Forall_cons]%Forall_app. destruct (IH Hw) as (Hh' & Hm' & Hs'). cbn [fst snd] in *.
    pose proof (runCycle_wg r w now d w1 Hh' Hf Hok) as Hr. destruct (runCycle client r nodeID now w) as [r' w'].
    destruct Hr as (? & Hrh & Hsn). assert (El : latest (ds ++ [d]) = st_Peers d) by (unfold latest; by rewrite last_snoc).
    rewrite El. cbn [fst snd].
    assert (Hi : mg_peers w'.1.1 = desired_index (st_Peers d)) 
      by (refine (handler_index_desired d (Get (rc_snapshot r)) w.1 w'.1 Hd _ Hrh); congruence).
    split_and!; [done|done|]. destruct Hsn as [E|[-> Ew]]; [by rewrite E|]. rewrite <- Hi, Ew. congruence.
Qed.

Lemma cycles_consistent x0 ds x K : rc_handlers x0.1 = [wg_handler] -> sn_peers (rc_snapshot x0.1) = [] ->
  mg_peers x0.2.1.1 = ∅ -> consistent x0.2.1 -> cycles x0 ds x -> Forall wf_state ds ->
  keys_injective K -> Forall (fun d => desired_index (st_Peers d) ⊆ K) ds -> consistent x.2.1.
Proof using Hfetch Hreport.
  intros Hh Hp Hm Hc0 Hc. induction Hc as [|ds r w now e w1 Hc IH Hf|ds r w now d w1 Hc IH Hf Hok]; intros Hw Hinj HK.
  - done.
  - pose proof (Hfetch w) as Ew. unfold runCycle. rewrite Hf in *. cbn in *. rewrite Ew. by apply IH.
  - apply Forall_app in Hw as [Hw [Hd _]%Forall_cons], HK as [HK [HKd _]%Forall_cons].
    destruct (cycles_index x0 ds (r, w) Hh Hp Hm Hc Hw) as (Hh' & Hm' & Hs'). cbn [fst snd] in *.
    pose proof (runCycle_wg r w now d w1 Hh' Hf Hok) as Hr. destruct (runCycle client r nodeID now w) as [r' w'].
    destruct Hr as (_ & Hrh & _). cbn [fst snd].
    assert (HKc : desired_index (st_Peers (Get (rc_snapshot r))) ⊆ K).
    { rewrite Hs'. unfold latest. destruct (last ds) as [c|] eqn:El; cbn [default fmap option_fmap option_map].
      2: { assert (E : desired_index [] = ∅) by apply fmap_empty. rewrite E. apply map_empty_subseteq. }
      rewrite Forall_forall in HK. apply HK. by apply last_Some_elem_of. }
    eapply ReconcileHandler_consistent; [done|by apply IH|by rewrite Hs'|exact Hrh|by eapply keys_injective_subseteq|].
    intros id b b' Hb Hb'. apply (lookup_weaken _ _ _ _ Hb) in HKc. apply (lookup_weaken _ _ _ _ Hb') in HKd. congruence.
Qed.

(** C6. The WireGuard handler in the reconcile loop.  Start with a new manager
    on an interface without peers and a new reconciler that runs this handler,
    and let any number of cycles run, fetches failing at will, as long as the
    handler reports no error and nothing but the loop (no event handler, no
    other component) works on the manager: if the IDs of each fetched state are
    distinct, the index always holds exactly the peers of the state fetched
    last; if moreover peer IDs and keys correspond one to one over all the
    fetched states (no key is changed or shared), the interface has exactly
    their keys. *)
Theorem cycles_apply rcfg cfg dev n ds x :
  device_keys (iface (NewManager cfg)) dev = ∅ ->
  cycles (wg_start rcfg cfg dev n) ds x -> Forall wf_state ds ->
  mg_peers x.2.1.1 = desired_index (latest ds) /\
  (forall K, keys_injective K -> Forall (fun d => desired_index (st_Peers d) ⊆ K) ds ->
   device_keys (iface x.2.1.1) x.2.1.2 = index_keys (desired_index (latest ds))).
Proof using Hfetch Hreport.
  intros Hdev Hc Hw.
  destruct (cycles_index (wg_start rcfg cfg dev n) ds x eq_refl eq_refl eq_refl Hc Hw) as (_ & Hi & _).
  split; [done|]. intros K Hinj HK. rewrite <- Hi. apply con_device.
  by apply (cycles_consistent (wg_start rcfg cfg dev n) ds x K eq_refl eq_refl eq_refl).
Qed.

End cycles.

(** A key change delivered as an update leaves the old key on the
    interface, while the index forgets it: no later removal by ID can reach
    it. *)
Theorem UpdatePeer_keeps_old_key peer s s' b k :
  consistent s -> mg_peers s.1 !! peer_ID peer = Some b -> DecodeString b = Some k ->
  DecodeString (peer_PublicKey peer) <> Some k ->
  UpdatePeer peer s = (None, s') ->
  k ∈ device_keys (iface s'.1) s'.2 /\ k ∉ index_keys (mg_peers s'.1).
Proof.
  intros [Hdec Hinj Hdev] Hb Hk Hne Hu. rewrite UpdatePeer_AddPeer in Hu.
  apply AddPeer_inv in Hu as (cfg & _ & Hk' & Ha & Em). rewrite Em. simpl. split.
  - rewrite (AddPeer_ok _ _ _ _ Ha). unfold iface in *. rewrite Hdev.
    apply elem_of_union_r, elem_of_index_keys. eauto.
  - intros (id & b' & Hi & Hd')%elem_of_index_keys. rewrite lookup_insert in Hi.
    case_decide as E; simplify_eq. apply E. by eapply Hinj.
Qed.

(** The key-rotation event handler, by contrast, replaces the key: when the
    removal and the addition succeed, the old key is gone, the new one is
    configured, and index and interface still agree. *)
Theorem HandlePeerKeyRotated_replaces peer s s' b k k' :
  consistent s -> mg_peers s.1 !! peer_ID peer = Some b -> DecodeString b = Some k ->
  DecodeString (peer_PublicKey peer) = Some k' -> k' ∉ index_keys (mg_peers s.1) ->
  (RemovePeerByID (peer_ID peer) s).1 = None ->
  HandlePeerKeyRotated (Some peer) s = (None, s') ->
  consistent s' /\ device_keys (iface s'.1) s'.2 = {[ k' ]} ∪ (index_keys (mg_peers s.1) ∖ {[ k ]}).
Proof.
  intros Hc Hb Hk Hk' Hnew Hr Hh. unfold HandlePeerKeyRotated in Hh.
  destruct (RemovePeerByID (peer_ID peer) s) as [err s1] eqn:Er. simpl in Hr. subst.
  assert (Hc1 := RemovePeerByID_consistent _ _ _ Hc Er).
  apply RemovePeerByID_inv in Er as (b0 & k0 & Hb0 & Hk0 & Hr & Em). simplify_eq.
  assert (Hi1 : mg_peers s1.1 = delete (peer_ID peer) (mg_peers s.1)) by by rewrite Em.
  destruct (AddPeer_consistent (<[peer_ID peer := peer_PublicKey peer]> (mg_peers s1.1)) peer s1 s')
    as [Hc2 _]; try done.
  - rewrite Hi1. apply insert_subseteq. apply lookup_delete_eq.
  - intros i1 i2 b1 b2 k0 H1 H2 D1 D2. rewrite Hi1 in H1, H2.
    assert (Hd : forall i bi, delete (peer_ID peer) (mg_peers s.1) !! i = Some bi ->
      DecodeString bi = Some k' -> False).
    { intros i bi [_ Hi]%lookup_delete_Some Di. apply Hnew, elem_of_index_keys. eauto. }
    apply lookup_insert_Some in H1 as [[<- <-]|[? H1]], H2 as [[<- <-]|[? H2]]; simplify_eq; try done.
    + by destruct (Hd _ _ H2 D2).
    + by destruct (Hd _ _ H1 D1).
    + apply lookup_delete_Some in H1 as [_ H1], H2 as [_ H2]. by eapply (con_inj s Hc).
  - by rewrite lookup_insert_eq.
  - split; [done|]. rewrite (con_device _ Hc2). apply AddPeer_inv in Hh as (cfg & _ & _ & _ & ->). simpl.
    rewrite Hi1, (index_keys_insert _ _ _ k'); [|done|by rewrite lookup_delete_eq].
    by rewrite (index_keys_delete _ _ b k); [|apply con_inj|..].
Qed.

Lemma collect_preserves {X} (P : Manager * D -> Prop) (f : X -> op (D := D)) l errs s :
  (forall x s, x ∈ l -> P s -> P (f x s).2) -> P s -> P (collect f l (errs, s)).2.
Proof.
  revert errs s. induction l as [|x l IH]; intros errs s Hf Hs; [done|].
  unfold collect in *. simpl. specialize (Hf x s ltac:(set_solver) Hs) as Hx.
  destruct (f x s) as [err s1]. apply IH; [set_solver|done].
Qed.

Lemma collect_error {X} (P : Manager * D -> Prop) (f : X -> op (D := D)) l errs s x :
  (forall x s, x ∈ l -> P s -> P (f x s).2) -> P s -> x ∈ l ->
  (forall s, P s -> is_Some (f x s).1) -> (collect f l (errs, s)).1 <> [].
Proof.
  revert errs s. induction l as [|y l IH]; intros errs s Hf Hs Hx Herr; [set_solver|].
  specialize (Hf y s ltac:(set_solver) Hs) as Hy.
  unfold collect in *. simpl. apply elem_of_cons in Hx as [->|Hx].
  - specialize (Herr s Hs). destruct (f y s) as [[e|] s1]; [|by destruct Herr].
    destruct (collect_prefix f l (errs ++ [e]) s1) as [es Hes]. unfold collect in Hes.
    rewrite Hes. by destruct errs.
  - destruct (f y s) as [err s1]. apply IH; set_solver.
Qed.

Lemma RemovePeerByID_index id s : mg_peers (RemovePeerByID id s).2.1 ⊆ mg_peers s.1.
Proof.
  destruct (RemovePeerByID id s) as [[e|] s'] eqn:E; simpl.
  - apply RemovePeerByID_failed in E as [-> _]. done.
  - apply RemovePeerByID_inv in E as (b & k & _ & _ & _ & ->). simpl. apply delete_subseteq.
Qed.

Lemma AddPeer_index_other id peer s :
  id <> peer_ID peer -> mg_peers s.1 !! id = None -> mg_peers (AddPeer peer s).2.1 !! id = None.
Proof.
  intros Hne Hs. destruct (AddPeer peer s) as [[e|] s'] eqn:E; simpl.
  - by apply AddPeer_failed in E as [-> _].
  - apply AddPeer_inv in E as (cfg & _ & _ & _ & ->). simpl. by rewrite lookup_insert_ne.
Qed.

(** The handler fails, and goes on failing, when it has to remove a peer that
    the index no longer knows. *)
Lemma ReconcileHandler_unknown id d δ s :
  id ∈ PeersToRemove δ -> id ∉ peer_ID <$> PeersToUpdate δ -> id ∉ peer_ID <$> PeersToAdd δ ->
  mg_peers s.1 !! id = None ->
  exists errs s', ReconcileHandler d δ s = (HReturns (Some errs), s') /\ mg_peers s'.1 !! id = None.
Proof.
  intros Hr Hu Ha Hs. set (P := fun s : Manager * D => mg_peers s.1 !! id = None).
  assert (PR : forall x s, P s -> P (RemovePeerByID x s).2).
  { intros x s0 H0'. unfold P. by eapply lookup_weaken_None, RemovePeerByID_index. }
  assert (PA : forall (l : list Peer) x s, id ∉ peer_ID <$> l -> x ∈ l -> P s -> P (AddPeer x s).2).
  { intros l x s0 Hl Hx. apply AddPeer_index_other. intros ->. by apply Hl, list_elem_of_fmap_2. }
  unfold ReconcileHandler.
  pose proof (collect_preserves P RemovePeerByID (PeersToRemove δ) [] s ltac:(eauto) Hs) as P1.
  pose proof (collect_error P RemovePeerByID (PeersToRemove δ) [] s id ltac:(eauto) Hs Hr) as E1.
  destruct (collect RemovePeerByID (PeersToRemove δ) ([], s)) as [e1 s1].
  pose proof (collect_preserves P UpdatePeer (PeersToUpdate δ) e1 s1
    ltac:(intros ? ? ?; rewrite UpdatePeer_AddPeer; eauto) P1) as P2.
  destruct (collect_prefix UpdatePeer (PeersToUpdate δ) e1 s1) as [es2 E2].
  destruct (collect UpdatePeer (PeersToUpdate δ) (e1, s1)) as [e2 s2].
  pose proof (collect_preserves P AddPeer (PeersToAdd δ) e2 s2 ltac:(eauto) P2) as P3.
  destruct (collect_prefix AddPeer (PeersToAdd δ) e2 s2) as [es3 E3].
  destruct (collect AddPeer (PeersToAdd δ) (e2, s2)) as [e3 s3]. simpl in *. subst.
  rewrite decide_False; [eauto|]. intros [[-> _]%app_nil _]%app_nil. apply E1; [|done].
  intros [m0 d0] H0'. unfold RemovePeerByID, Lookup, P in *. simpl in *. rewrite H0'. eauto.
Qed.

(** A peer removed by a [peer_removed] event and then dropped by the
    control plane blocks reconciliation for good: the handler cannot remove it
    again, so that no cycle, however many run, ever advances the snapshot. *)
Theorem removed_peer_blocks_reconcile `{HO : MapOrder}
    (client : StateFetcher (W := Manager * D) (E := list error)) r nodeID d id s nows :
  (forall s, exists s', FetchState client nodeID s = (Ok (Some d), s') /\ s'.1 = s.1) ->
  (forall rep s, (ReportDrift client nodeID rep s).2.1 = s.1) ->
  rc_handlers r = [ReconcileHandler] ->
  id ∈ peer_ID <$> sn_peers (rc_snapshot r) -> id ∉ peer_ID <$> st_Peers d ->
  mg_peers s.1 !! id = None ->
  let '(r', s') := foldl (fun '(r, s) now => runCycle client r nodeID now s) (r, s) nows in
  r' = r /\ mg_peers s'.1 !! id = None.
Proof.
  intros Hf Hrep Hh Hid Hnid. revert s. induction nows as [|now nows IH]; intros s Hs; simpl; [done|].
  assert (Hrun : exists s', runCycle client r nodeID now s = (r, s') /\ mg_peers s'.1 !! id = None).
  { destruct (Hf s) as (s1 & Hf1 & Hs1). rewrite <- Hs1 in Hs. unfold runCycle. rewrite Hf1.
    set (δ := ComputeDiff _ _). destruct (IsEmpty δ); [eauto|].
    destruct (ComputeDiff_fields d (Get (rc_snapshot r))) as (EA & ER & EU & _). fold δ in EA, ER, EU.
    destruct (ReconcileHandler_unknown id d δ s1) as (errs & s2 & Hrh & Hs2); [..|done|].
    - rewrite ER. simpl. rewrite copyPeers_id. apply list_elem_of_fmap in Hid as (p & -> & Hp).
      apply list_elem_of_fmap_2, list_elem_of_filter. split; [|done]. by apply build_map_None.
    - rewrite EU. intros (p & -> & [_ ?]%list_elem_of_filter)%list_elem_of_fmap.
      by apply Hnid, list_elem_of_fmap_2.
    - rewrite EA. intros (p & -> & [_ ?]%list_elem_of_filter)%list_elem_of_fmap.
      by apply Hnid, list_elem_of_fmap_2.
    - unfold invokeHandlers, safeInvoke. rewrite Hh. simpl. rewrite Hrh.
      pose proof (Hrep (BuildDriftReport now δ) s2) as Hr2.
      destruct (ReportDrift client nodeID (BuildDriftReport now δ) s2) as [e s3]. simpl in Hr2.
      exists s3. by rewrite Hr2. }
  destruct Hrun as (s' & -> & Hs'). by apply IH.
Qed.

End theorems.

(** ** A simulated device: per interface the set of configured keys. *)

#[global] Instance sim_controller : WGController (gmap string (gset (list Z))) := {|
  ctrl_CreateInterface := fun i _ _ d => (None, <[i := ∅]> d);
  ctrl_DeleteInterface := fun i d => (None, delete i d);
  ctrl_ConfigureAddress := fun _ _ d => (None, d);
  ctrl_SetInterfaceUp := fun _ d => (None, d);
  ctrl_SetMTU := fun _ _ d => (None, d);
  ctrl_AddPeer := fun i cfg d =>
    match d !! i with
    | Some ks => (None, <[i := {[ pc_PublicKey cfg ]} ∪ ks]> d)
    | None => (Some "no such interface", d)
    end;
  ctrl_RemovePeer := fun i k d =>
    match d !! i with
    | Some ks => (None, <[i := ks ∖ {[ k ]}]> d)
    | None => (Some "no such interface", d)
    end
|}.

#[global] Instance sim_laws : WGLaws (gmap string (gset (list Z))).
Proof.
  refine {| device_keys := fun i d => default ∅ (d !! i) |}; simpl; intros; case_match; by simplify_map_eq.
Defined.

Definition ex_manager : Manager := NewManager (mkConfig "" 0 0).
Definition ex_peer1 (key : string) : Peer := mkPeer "p1" key "10.0.0.2" "" ["10.0.0.2/32"] "".
Definition ex_peer2 : Peer := mkPeer "p2" "BBBB" "10.0.0.3" "" [] "".
Definition ex_state (ps : list Peer) : StateResponse :=
  mkStateResponse ps [] None ∅ None None None None None [] [].

(** The manager after [Setup] and the addition of a peer with key "AAAA". *)
Definition ex_world : Manager * gmap string (gset (list Z)) :=
  (AddPeer (ex_peer1 "AAAA") (Setup [] "10.0.0.1" (ex_manager, ∅)).2).2.

Lemma ex_world_consistent : consistent ex_world.
Proof.
  split.
  - intros id b Hb. vm_compute in Hb. 
    change (({[ "p1" := "AAAA" ]} : gmap string string) !! id = Some b) in Hb.
    apply lookup_singleton_Some in Hb as [<- <-]. eexists. vm_compute. reflexivity.
  - intros i1 i2 b1 b2 k H1 H2 _ _.
    change (({[ "p1" := "AAAA" ]} : gmap string string) !! i1 = Some b1) in H1.
    change (({[ "p1" := "AAAA" ]} : gmap string string) !! i2 = Some b2) in H2.
    apply lookup_singleton_Some in H1 as [<- _], H2 as [<- _]. done.
  - vm_compute. reflexivity.
Qed.

(** A control plane that has p1 first and p2 instead of it later. *)
Definition ex_loop_client : StateFetcher (W := (Manager * gmap string (gset (list Z))) * nat) (E := list error) :=
  mkStateFetcher (fun _ w => (Ok (Some (ex_state (if decide (w.2 = 0%nat) then [ex_peer1 "AAAA"] else [ex_peer2]))), (w.1, S w.2)))
    (fun _ _ w => (None, w)).

Definition ex_loop_start := wg_start ex_loop_client (Reconcile.mkConfig second) (mkConfig "" 0 0)
  ({[ "plexd0" := ∅ ]} : gmap string (gset (list Z))) 0%nat.
Definition ex_loop_end :=
  let '(r, w) := runCycle (H := id_order) ex_loop_client ex_loop_start.1 "n" 0 ex_loop_start.2 in
  runCycle (H := id_order) ex_loop_client r "n" 0 w.

Lemma cycles_apply_witness :
  mg_peers ex_loop_end.2.1.1 = desired_index [ex_peer2] /\
  device_keys (iface ex_loop_end.2.1.1) ex_loop_end.2.1.2 = index_keys (desired_index [ex_peer2]).
Proof.
  assert (Hc : cycles (HO := id_order) ex_loop_client "n" ex_loop_start ([ex_state [ex_peer1 "AAAA"]] ++ [ex_state [ex_peer2]])
    ex_loop_end).
  { unfold ex_loop_end. assert (H1 : cycles (HO := id_order) ex_loop_client "n" ex_loop_start ([] ++ [ex_state [ex_peer1 "AAAA"]])
      (runCycle (H := id_order) ex_loop_client ex_loop_start.1 "n" 0 ex_loop_start.2)).
    { apply (cycles_fetched _ _ _ [] _ _ 0 _ (ex_loop_start.2.1, 1%nat) (cycles_start _ _ _)); by vm_compute. }
    destruct (runCycle (H := id_order) ex_loop_client ex_loop_start.1 "n" 0 ex_loop_start.2) as [r w] eqn:E.
    assert (Hn : w.2 = 1%nat) by (apply (f_equal (fun x => x.2.2)) in E; by vm_compute in E).
    eapply (cycles_fetched _ _ _ [ex_state [ex_peer1 "AAAA"]] r w 0 (ex_state [ex_peer2]) (w.1, 2%nat) H1).
    - unfold ex_loop_client. cbn [FetchState]. by rewrite Hn.
    - apply (f_equal (fun x => (invokeHandlers x.1 (ex_state [ex_peer2])
        (ComputeDiff (H := id_order) (Some (ex_state [ex_peer2])) (Some (Get (H := id_order) (rc_snapshot x.1)))) (x.2.1, 2%nat)).1)) in E.
      cbn [fst snd] in E. rewrite <- E. by vm_compute. }
  destruct (cycles_apply (HO := id_order) ex_loop_client "n" ltac:(done) ltac:(done) (Reconcile.mkConfig second) (mkConfig "" 0 0)
    ({[ "plexd0" := ∅ ]} : gmap string (gset (list Z))) 0%nat
    ([ex_state [ex_peer1 "AAAA"]] ++ [ex_state [ex_peer2]]) ex_loop_end ltac:(by vm_compute) Hc) as [Hi Hd].
  { unfold wf_state. repeat constructor; by_compute. }
  split; [exact Hi|]. apply (Hd (<["p1" := "AAAA"]> {[ "p2" := "BBBB" ]})).
  - intros i1 i2 b1 b2 k H1 H2. rewrite lookup_insert_Some, lookup_singleton_Some in H1, H2.
    destruct H1 as [[<- <-]|[_ [<- <-]]], H2 as [[<- <-]|[_ [<- <-]]]; intros E1 E2; try done;
      vm_compute in E1, E2; congruence.
  - repeat constructor; unfold desired_index; cbn.
    + change (({[ "p1" := "AAAA" ]} : gmap string string) ⊆ <["p1" := "AAAA"]> {[ "p2" := "BBBB" ]}).
      apply map_singleton_subseteq_l. by rewrite lookup_insert_eq.
    + change (({[ "p2" := "BBBB" ]} : gmap string string) ⊆ <["p1" := "AAAA"]> {[ "p2" := "BBBB" ]}).
      apply map_singleton_subseteq_l. by vm_compute.
Defined.

Lemma UpdatePeer_keeps_old_key_witness :
  let s' := (UpdatePeer (ex_peer1 "CCCC") ex_world).2 in
  [0; 0; 0] ∈ device_keys (iface s'.1) s'.2 /\ [0; 0; 0] ∉ index_keys (mg_peers s'.1).
Proof.
  refine (UpdatePeer_keeps_old_key (ex_peer1 "CCCC") ex_world (UpdatePeer (ex_peer1 "CCCC") ex_world).2
    "AAAA" [0; 0; 0] ex_world_consistent _ _ _ _).
  - vm_compute. reflexivity.
  - vm_compute. reflexivity.
  - vm_compute. discriminate.
  - vm_compute. reflexivity.
Defined.

Lemma HandlePeerKeyRotated_replaces_witness :
  let s' := (HandlePeerKeyRotated (Some (ex_peer1 "CCCC")) ex_world).2 in
  device_keys (iface s'.1) s'.2 = {[ [8; 32; 130] ]} ∪ (index_keys (mg_peers ex_world.1) ∖ {[ [0; 0; 0] ]}).
Proof.
  refine (proj2 (HandlePeerKeyRotated_replaces (ex_peer1 "CCCC") ex_world
    (HandlePeerKeyRotated (Some (ex_peer1 "CCCC")) ex_world).2 "AAAA" [0; 0; 0]
    [8; 32; 130] ex_world_consistent _ _ _ _ _ _)).
  - vm_compute. reflexivity.
  - vm_compute. reflexivity.
  - vm_compute. reflexivity.
  - by_compute.
  - vm_compute. reflexivity.
  - vm_compute. reflexivity.
Defined.

(** The event removes peer p1, the control plane drops it, two cycles run. *)
Definition ex_wg_client : StateFetcher (W := Manager * gmap string (gset (list Z))) (E := list error) :=
  mkStateFetcher (fun _ s => (Ok (Some (ex_state [])), s)) (fun _ _ s => (None, s)).

Definition ex_wg_reconciler : Reconciler :=
  mkReconciler (Some ex_wg_client) (Reconcile.mkConfig second)
    (mkSnapshot [ex_peer1 "AAAA"] [] None ∅ [] []) [ReconcileHandler] false.

Lemma removed_peer_blocks_reconcile_witness :
  let s := (HandlePeerRemoved (Some "p1") ex_world).2 in
  let '(r', s') := foldl (fun '(r, s) now => runCycle (H := id_order) ex_wg_client r "n" now s)
    (ex_wg_reconciler, s) [1; 2] in
  r' = ex_wg_reconciler /\ mg_peers s'.1 !! "p1" = None.
Proof.
  apply (removed_peer_blocks_reconcile (HO := id_order) ex_wg_client ex_wg_reconciler "n" (ex_state [])).
  - intros s. exists s. done.
  - done.
  - reflexivity.
  - by_compute.
  - by_compute.
  - vm_compute. reflexivity.
Defined.
