(* ===== verification/Policy.v ===== *)
(** * Network policy (src/internal/policy: engine.go, enforcer.go, firewall.go,
    handler.go, config.go)

    Which peers the node may talk to, which firewall rules express the
    policies, and the reconcile handler that applies both.  The theorems give
    the declarative meaning of the filter, the shape of the rule list, and
    what a run of the handler does to the WireGuard index. *)

From stdpp Require Import base strings gmap list.
From S2P Require Import Prelude Types Diff Reconcile WireGuard.

(** ** Configuration *)

Record Config := mkConfig { Enabled : bool; ChainName : string }.

Definition DefaultChainName : string := "plexd-mesh".

Definition ApplyDefaults (c : Config) : Config :=
  if decide (ChainName c = "") then mkConfig true DefaultChainName else c.

Inductive config_error := ChainNameEmpty.

Definition Validate (c : Config) : option config_error :=
  if negb (Enabled c) then None
  else if decide (ChainName c = "") then Some ChainNameEmpty
  else None.

(** ** Firewall rules *)

Record FirewallRule := mkFirewallRule {
  fr_Interface : string;
  fr_SrcIP : string;
  fr_DstIP : string;
  fr_Port : Z;
  fr_Protocol : string;
  fr_Action : string
}.
#[global] Instance FirewallRule_eq_dec : EqDecision FirewallRule.
Proof. solve_decision. Defined.

Inductive rule_error := InvalidAction | InvalidPort | InvalidProtocol | PortNeedsProtocol.

Definition FirewallRule_Validate (r : FirewallRule) : option rule_error :=
  if decide (fr_Action r <> "allow" /\ fr_Action r <> "deny") then Some InvalidAction
  else if decide (fr_Port r < 0 \/ fr_Port r > 65535) then Some InvalidPort
  else if decide (fr_Protocol r <> "" /\ fr_Protocol r <> "tcp" /\ fr_Protocol r <> "udp")
  then Some InvalidProtocol
  else if decide (fr_Port r > 0 /\ fr_Protocol r = "") then Some PortNeedsProtocol
  else None.

(** The firewall backend: an error message or nil and the new system. *)
Class FirewallController (F : Type) := {
  fw_EnsureChain : string -> F -> option string * F;
  fw_ApplyRules : string -> list FirewallRule -> F -> option string * F;
  fw_FlushChain : string -> F -> option string * F;
  fw_DeleteChain : string -> F -> option string * F
}.

(** ** The engine *)

Definition isValidProtocol (proto : string) : bool :=
  bool_decide (proto = "") || bool_decide (proto = "tcp") || bool_decide (proto = "udp").

(** A missing key of a Go map reads as the zero value. *)
Definition map_get (m : gmap string string) (k : string) : string := default "" (m !! k).

Definition resolveIP (id : string) (peersByID : gmap string string) : string :=
  if decide (id = "*") then "0.0.0.0/0" else map_get peersByID id.

Definition resolveWildcard (id fallback : string) : string :=
  if decide (id = "*") then "0.0.0.0/0" else fallback.

(** [r.Src == id || r.Src == "*"]. *)
Definition matches_id (field id : string) : bool := bool_decide (field = id) || bool_decide (field = "*").

(** The body of the loop over the rules of one policy: [true] returns. *)
Definition rule_allows (peerID localNodeID : string) (r : PolicyRule) : bool :=
  if decide (pr_Action r <> "allow") then false
  else
    let srcMatchesLocal := matches_id (pr_Src r) localNodeID in
    let dstMatchesPeer := matches_id (pr_Dst r) peerID in
    if srcMatchesLocal && dstMatchesPeer then true
    else
      let srcMatchesPeer := matches_id (pr_Src r) peerID in
      let dstMatchesLocal := matches_id (pr_Dst r) localNodeID in
      srcMatchesPeer && dstMatchesLocal.

Definition peerAllowed (peerID localNodeID : string) (policies : list Policy) : bool :=
  existsb (fun pol => existsb (rule_allows peerID localNodeID) (pol_Rules pol)) policies.

Definition FilterPeers (peers : list Peer) (policies : list Policy) (localNodeID : string)
    : list Peer :=
  if decide (length policies = 0%nat) then []
  else
    foldl (fun allowed p =>
      if decide (peer_ID p = localNodeID) then allowed
      else if peerAllowed (peer_ID p) localNodeID policies then allowed ++ [p]
      else allowed) [] peers.

(** The firewall rule of one policy rule, if it concerns the local node. *)
Definition build_rule (localNodeID iface : string) (peersByID : gmap string string) (r : PolicyRule)
    : option FirewallRule :=
  let localIP := map_get peersByID localNodeID in
  if negb (isValidProtocol (pr_Protocol r)) then None
  else
    let srcMatchesLocal := matches_id (pr_Src r) localNodeID in
    let dstMatchesLocal := matches_id (pr_Dst r) localNodeID in
    if negb srcMatchesLocal && negb dstMatchesLocal then None
    else
      let '(srcIP, dstIP) :=
        if srcMatchesLocal && negb dstMatchesLocal then (localIP, resolveIP (pr_Dst r) peersByID)
        else if dstMatchesLocal && negb srcMatchesLocal then (resolveIP (pr_Src r) peersByID, localIP)
        else (resolveWildcard (pr_Src r) localIP, resolveWildcard (pr_Dst r) localIP) in
      Some (mkFirewallRule iface srcIP dstIP (pr_Port r) (pr_Protocol r) (pr_Action r)).

Definition default_deny (iface : string) : FirewallRule :=
  mkFirewallRule iface "0.0.0.0/0" "0.0.0.0/0" 0 "" "deny".

Definition BuildFirewallRules (policies : list Policy) (localNodeID iface : string)
    (peersByID : gmap string string) : list FirewallRule :=
  let rules :=
    foldl (fun rules pol =>
      foldl (fun rules r =>
        match build_rule localNodeID iface peersByID r with
        | None => rules
        | Some fr => rules ++ [fr]
        end) rules (pol_Rules pol)) [] policies in
  rules ++ [default_deny iface].

(** ** The enforcer *)

Record Enforcer := mkEnforcer { ef_firewall : bool; (* a backend is present *) ef_cfg : Config }.

Definition NewEnforcer (firewall : bool) (cfg : Config) : Enforcer :=
  mkEnforcer firewall (ApplyDefaults cfg).

Definition Enforcer_FilterPeers (e : Enforcer) (peers : list Peer) (policies : list Policy)
    (localNodeID : string) : list Peer :=
  if negb (Enabled (ef_cfg e)) then peers else FilterPeers peers policies localNodeID.

Inductive error := FirewallError (msg : string) | WGError (e : WireGuard.error).

Section enforcer.
Context {F : Type} `{FirewallController F}.

Definition ApplyFirewallRules (e : Enforcer) (policies : list Policy) (localNodeID iface : string)
    (peersByID : gmap string string) (f : F) : option error * F :=
  if negb (Enabled (ef_cfg e)) then (None, f)
  else if negb (ef_firewall e) then (None, f)
  else
    let rules := BuildFirewallRules policies localNodeID iface peersByID in
    match fw_EnsureChain (ChainName (ef_cfg e)) f with
    | (Some msg, f) => (Some (FirewallError msg), f)
    | (None, f) =>
        match fw_ApplyRules (ChainName (ef_cfg e)) rules f with
        | (Some msg, f) => (Some (FirewallError msg), f)
        | (None, f) => (None, f)
        end
    end.

Definition Teardown (e : Enforcer) (f : F) : option error * F :=
  if negb (ef_firewall e) then (None, f)
  else
    match fw_FlushChain (ChainName (ef_cfg e)) f with
    | (Some msg, f) => (Some (FirewallError msg), f)
    | (None, f) =>
        match fw_DeleteChain (ChainName (ef_cfg e)) f with
        | (Some msg, f) => (Some (FirewallError msg), f)
        | (None, f) => (None, f)
        end
    end.

(** ** The reconcile handler

    The closure's variable [allowedPeers] is part of the state, beside the
    WireGuard manager with its device and the firewall. *)

Definition hasPolicyOrPeerChanges (diff : StateDiff) : bool :=
  (0 <? length (PoliciesToAdd diff))%nat || (0 <? length (PoliciesToRemove diff))%nat ||
  (0 <? length (PeersToAdd diff))%nat || (0 <? length (PeersToRemove diff))%nat ||
  (0 <? length (PeersToUpdate diff))%nat.

Context {D : Type} `{WGController D} `{MapOrder}.

Record world := mkWorld {
  w_allowed : gmap string unit;
  w_wg : Manager * D;
  w_fw : F
}.

Definition peers_ips (localNodeID localMeshIP : string) (peers : list Peer) : gmap string string :=
  foldl (fun m p => <[peer_ID p := peer_MeshIP p]> m) {[ localNodeID := localMeshIP ]} peers.

Definition ReconcileHandler (e : Enforcer) (localNodeID localMeshIP iface : string)
    : Reconcile.ReconcileHandler (W := world) (E := list error) := fun desired diff w =>
  if negb (hasPolicyOrPeerChanges diff) then (HReturns None, w)
  else
    let filtered := Enforcer_FilterPeers e (st_Peers desired) (st_Policies desired) localNodeID in
    let peersByID := peers_ips localNodeID localMeshIP (st_Peers desired) in
    let '(err, f) :=
      ApplyFirewallRules e (st_Policies desired) localNodeID iface peersByID (w_fw w) in
    let errs := match err with Some e => [e] | None => [] end in
    let newAllowed := build_map peer_ID (fun _ => tt) filtered in
    let filteredByID := build_map peer_ID id filtered in
    let '(errs1, wg) :=
      collect (fun peerID =>
        if decide (newAllowed !! peerID = None) then RemovePeerByID peerID
        else fun s => (None, s)) (range_keys (w_allowed w)) ([], w_wg w) in
    let '(errs2, wg) :=
      collect (fun '(peerID, peer) =>
        if decide (w_allowed w !! peerID = None) then AddPeer peer
        else fun s => (None, s)) (range_map filteredByID) (errs1, wg) in
    let errs := errs ++ (WGError <$> errs2) in
    (HReturns (if decide (errs = []) then None else Some errs), mkWorld newAllowed wg f).

End enforcer.

(** [HandlePolicyUpdated]: any policy event triggers a cycle. *)
Definition HandlePolicyUpdated {W E} (r : Reconciler (W := W) (E := E)) : Reconciler :=
  TriggerReconcile r.

(** ** Meaning of the filter *)

(** The policies let [peerID] and [localNodeID] talk, in one direction. *)
Definition names (field id : string) : Prop := field = id \/ field = "*".

Definition allowed_pair (peerID localNodeID : string) (policies : list Policy) : Prop :=
  exists pol r, pol ∈ policies /\ r ∈ pol_Rules pol /\ pr_Action r = "allow" /\
    ((names (pr_Src r) localNodeID /\ names (pr_Dst r) peerID) \/
     (names (pr_Src r) peerID /\ names (pr_Dst r) localNodeID)).

Lemma matches_id_true f i : matches_id f i = true <-> names f i.
Proof. unfold matches_id, names. by rewrite orb_true_iff, !bool_decide_eq_true. Qed.

Lemma rule_allows_true p l r :
  rule_allows p l r = true <->
  pr_Action r = "allow" /\ ((names (pr_Src r) l /\ names (pr_Dst r) p) \/
                            (names (pr_Src r) p /\ names (pr_Dst r) l)).
Proof.
  unfold rule_allows. case_decide as E; [naive_solver|].
  rewrite <- !matches_id_true.
  destruct (matches_id (pr_Src r) l), (matches_id (pr_Dst r) p), (matches_id (pr_Src r) p),
    (matches_id (pr_Dst r) l); naive_solver.
Qed.

Lemma peerAllowed_true p l pols : peerAllowed p l pols = true <-> allowed_pair p l pols.
Proof.
  unfold peerAllowed, allowed_pair. rewrite existsb_true. setoid_rewrite existsb_true.
  setoid_rewrite rule_allows_true. naive_solver.
Qed.

Lemma FilterPeers_filter peers pols l :
  FilterPeers peers pols l =
  filter (fun p => peer_ID p <> l /\ peerAllowed (peer_ID p) l pols = true) peers.
Proof.
  unfold FilterPeers. case_decide as E.
  - destruct pols; [|done]. symmetry. apply filter_nil_iff. intros p _ [_ ?]. done.
  - assert (G : forall acc, foldl (fun allowed p =>
      if decide (peer_ID p = l) then allowed
      else if peerAllowed (peer_ID p) l pols then allowed ++ [p] else allowed) acc peers =
      acc ++ filter (fun p => peer_ID p <> l /\ peerAllowed (peer_ID p) l pols = true) peers);
      [|by rewrite G].
    induction peers as [|p peers IH]; intros acc; simpl; [by rewrite app_nil_r|].
    rewrite IH, filter_cons. destruct (decide (peer_ID p = l)); [by rewrite decide_False by naive_solver|].
    destruct (peerAllowed (peer_ID p) l pols).
    + rewrite decide_True by done. by rewrite <- app_assoc.
    + by rewrite decide_False by naive_solver.
Qed.

(** C7. [FilterPeers] returns, in their order, exactly the peers other than the
    local node that an allow rule of some policy connects with it in either
    direction; without policies it returns none. *)
Theorem FilterPeers_spec peers pols l :
  FilterPeers peers pols l `sublist_of` peers /\
  (forall p, p ∈ FilterPeers peers pols l <->
    p ∈ peers /\ peer_ID p <> l /\ allowed_pair (peer_ID p) l pols) /\
  FilterPeers peers [] l = [].
Proof.
  split_and!.
  - rewrite FilterPeers_filter. apply sublist_filter.
  - intros p. rewrite FilterPeers_filter, list_elem_of_filter, peerAllowed_true. tauto.
  - done.
Qed.

Lemma BuildFirewallRules_omap pols l iface ips :
  BuildFirewallRules pols l iface ips =
  omap (build_rule l iface ips) (concat (pol_Rules <$> pols)) ++ [default_deny iface].
Proof.
  unfold BuildFirewallRules. f_equal.
  assert (G1 : forall rs acc, foldl (fun rules r =>
    match build_rule l iface ips r with None => rules | Some fr => rules ++ [fr] end) acc rs =
    acc ++ omap (build_rule l iface ips) rs).
  { induction rs as [|r rs IH]; intros acc; simpl; [by rewrite app_nil_r|].
    rewrite IH. destruct (build_rule l iface ips r); [by rewrite <- app_assoc|done]. }
  assert (G2 : forall acc, foldl (fun rules pol => foldl (fun rules r =>
    match build_rule l iface ips r with None => rules | Some fr => rules ++ [fr] end)
    rules (pol_Rules pol)) acc pols = acc ++ omap (build_rule l iface ips) (concat (pol_Rules <$> pols)));
    [|by rewrite G2].
  induction pols as [|pol pols IH]; intros acc; simpl; [by rewrite app_nil_r|].
  by rewrite IH, G1, omap_app, app_assoc.
Qed.

(** What a generated rule says about the policy rule it comes from. *)
Lemma build_rule_Some l iface ips r fr :
  build_rule l iface ips r = Some fr ->
  isValidProtocol (pr_Protocol r) = true /\ (names (pr_Src r) l \/ names (pr_Dst r) l) /\
  fr_Interface fr = iface /\ fr_Port fr = pr_Port r /\ fr_Protocol fr = pr_Protocol r /\
  fr_Action fr = pr_Action r /\
  (fr_SrcIP fr = resolveIP (pr_Src r) ips \/ (pr_Src r = "*" /\ fr_SrcIP fr = map_get ips l)) /\
  (fr_DstIP fr = resolveIP (pr_Dst r) ips \/ (pr_Dst r = "*" /\ fr_DstIP fr = map_get ips l)).
Proof.
  unfold build_rule. destruct (isValidProtocol (pr_Protocol r)); [|done]. simpl.
  assert (Hw : forall f, names f l -> resolveWildcard f (map_get ips l) = resolveIP f ips).
  { unfold resolveWildcard, resolveIP. intros f [->| ->]; case_decide; done. }
  assert (Hl : forall f, names f l ->
    map_get ips l = resolveIP f ips \/ (f = "*" /\ map_get ips l = map_get ips l)).
  { unfold resolveIP. intros f [->| ->]; [case_decide|]; auto. }
  destruct (matches_id (pr_Src r) l) eqn:Es, (matches_id (pr_Dst r) l) eqn:Ed; simpl;
    intros; simplify_eq/=; rewrite ?matches_id_true in *; split_and!; eauto.
Qed.

(** ** What the handler does to the WireGuard index *)

Section handler.
Context {F D : Type} `{FirewallController F} `{WGLaws D} `{HO : MapOrder}.

(** The two loops of the handler. *)
Definition prune (newAllowed : gmap string unit) (peerID : string) : op (D := D) :=
  if decide (newAllowed !! peerID = None) then RemovePeerByID peerID else fun s => (None, s).

Definition permit_peer (allowed : gmap string unit) (x : string * Peer) : op (D := D) :=
  let '(peerID, peer) := x in
  if decide (allowed !! peerID = None) then AddPeer peer else fun s => (None, s).

Lemma prune_index m l s s' i :
  succeeds (prune m) l s s' ->
  mg_peers s'.1 !! i = if decide (i ∈ l /\ m !! i = None) then None else mg_peers s.1 !! i.
Proof.
  revert s. induction l as [|x l IH]; intros s; cbn [succeeds].
  - intros ->. rewrite decide_False; [done|set_solver].
  - intros (s1 & Hx & Hs). rewrite (IH s1 Hs). unfold prune in Hx. case_decide as E.
    + apply RemovePeerByID_inv in Hx as (b & k & _ & _ & _ & ->). simpl. rewrite lookup_delete.
      repeat case_decide; set_solver.
    + simplify_eq. repeat case_decide; set_solver.
Qed.

Lemma permit_index a l s s' i :
  (forall id p, (id, p) ∈ l -> peer_ID p = id) ->
  succeeds (permit_peer a) l s s' ->
  is_Some (mg_peers s'.1 !! i) <-> is_Some (mg_peers s.1 !! i) \/ (i ∈ l.*1 /\ a !! i = None).
Proof.
  intros Hid. revert s. induction l as [|[id p] l IH]; intros s; cbn [succeeds].
  - intros ->. set_solver.
  - intros (s1 & Hx & Hs). rewrite (IH ltac:(set_solver) s1 Hs). unfold permit_peer in Hx.
    case_decide as E.
    + apply AddPeer_inv in Hx as (cfg & _ & _ & _ & ->). simpl.
      rewrite (Hid id p) by set_solver. rewrite lookup_insert. case_decide; set_solver.
    + simplify_eq. set_solver.
Qed.

Lemma handler_permits e l lip iface d δ w w' i :
  hasPolicyOrPeerChanges δ = true ->
  (forall id, is_Some (mg_peers (w_wg w).1 !! id) <-> is_Some (w_allowed w !! id)) ->
  ReconcileHandler e l lip iface d δ w = (HReturns None, w') ->
  let ids := peer_ID <$> Enforcer_FilterPeers e (st_Peers d) (st_Policies d) l in
  (is_Some (w_allowed w' !! i) <-> i ∈ ids) /\ (is_Some (mg_peers (w_wg w').1 !! i) <-> i ∈ ids).
Proof.
  intros Hch Hsync. unfold ReconcileHandler. rewrite Hch. simpl.
  set (fs := Enforcer_FilterPeers e (st_Peers d) (st_Policies d) l).
  destruct (ApplyFirewallRules _ _ _ _ _ _) as [err f].
  set (m := build_map peer_ID (fun _ => tt) fs). fold (prune m).
  destruct (collect _ (range_keys (w_allowed w)) ([], w_wg w)) as [e1 s1] eqn:E1.
  destruct (collect _ (range_map (build_map peer_ID id fs)) (e1, s1)) as [e2 s2] eqn:E2.
  case_decide as He; [|done]. intros [= <-]. simpl.
  apply app_nil in He as [_ He]. apply fmap_nil_inv in He. subst e2.
  apply collect_succeeds in E2 as [-> S2]. apply collect_succeeds in E1 as [_ S1].
  assert (Hm : is_Some (m !! i) <-> i ∈ peer_ID <$> fs) by apply build_map_is_Some.
  split; [done|]. fold (permit_peer (w_allowed w)) in S2.
  rewrite (permit_index (w_allowed w) (range_map (build_map peer_ID id fs)) s1 s2 i); [| |exact S2].
  - rewrite (prune_index m _ _ s1 i S1).
    change ((range_map (build_map peer_ID id fs)).*1) with (range_keys (build_map peer_ID id fs)).
    specialize (Hsync i). pose proof (eq_None_not_Some (m !! i)) as Nm.
    pose proof (eq_None_not_Some (w_allowed w !! i)) as Na.
    pose proof (@is_Some_None string) as Nn.
    case_decide as E; rewrite elem_of_range_keys in E;
      rewrite elem_of_range_keys, build_map_is_Some, <- Hm;
      destruct (decide (is_Some (m !! i))), (decide (is_Some (w_allowed w !! i))); tauto.
  - intros id p (q & _ & ? & <-)%elem_of_range_map%build_map_Some_inv. done.
Qed.

(** Runs of the handler one after the other, all without error. *)
Inductive permit_runs (e : Enforcer) (l lip iface : string) (w0 : world)
    : list (StateResponse * StateDiff) -> world -> Prop :=
| permit_start : permit_runs e l lip iface w0 [] w0
| permit_next runs w d δ w' : permit_runs e l lip iface w0 runs w ->
    ReconcileHandler e l lip iface d δ w = (HReturns None, w') ->
    permit_runs e l lip iface w0 (runs ++ [(d, δ)]) w'.

(** What the policies allow in the last run that had something to do. *)
Definition permitted (e : Enforcer) (l : string) (runs : list (StateResponse * StateDiff)) : list string :=
  match last (filter (fun x => hasPolicyOrPeerChanges x.2 = true) runs) with
  | Some (d, _) => peer_ID <$> Enforcer_FilterPeers e (st_Peers d) (st_Policies d) l
  | None => []
  end.

(** C10. Deny by default, on the mesh, for a policy handler that is the only one
    to work on its WireGuard manager: start with a new manager and let the
    handler run any number of times, always without error; then the index and
    the tracked set hold exactly the peers that the policies allow in the last
    run whose difference had policies or peers in it.  Next to the WireGuard
    handler, as the documentation registers it, the handler does not achieve
    this: [denied_peer_stays]. *)
Theorem runs_permit e l lip iface cfg dev (f : F) runs w i :
  permit_runs e l lip iface (mkWorld ∅ (NewManager cfg, dev) f) runs w ->
  (is_Some (w_allowed w !! i) <-> i ∈ permitted e l runs) /\
  (is_Some (mg_peers (w_wg w).1 !! i) <-> i ∈ permitted e l runs).
Proof.
  intros Hr. revert i. induction Hr as [|runs w d δ w' Hr IH Hh]; intros i; unfold permitted.
  - cbn. rewrite !lookup_empty. split; (split; [by intros [? ?]|by intros ?%not_elem_of_nil]).
  - rewrite filter_app. destruct (hasPolicyOrPeerChanges δ) eqn:Hc.
    + rewrite filter_cons_True, filter_nil, last_snoc by done. apply (handler_permits e l lip iface d δ w w' i Hc); [|done].
      intros id. destruct (IH id) as [-> ->]. done.
    + rewrite filter_cons_False, filter_nil, app_nil_r by (cbn; congruence).
      unfold ReconcileHandler in Hh. rewrite Hc in Hh. cbn in Hh. injection Hh as <-. apply IH.
Qed.

(** An ID that is neither tracked nor allowed is left alone. *)
Lemma handler_untracked e l lip iface d δ w i :
  w_allowed w !! i = None ->
  i ∉ peer_ID <$> Enforcer_FilterPeers e (st_Peers d) (st_Policies d) l ->
  let w' := (ReconcileHandler e l lip iface d δ w).2 in
  w_allowed w' !! i = None /\ mg_peers (w_wg w').1 !! i = mg_peers (w_wg w).1 !! i.
Proof.
  intros Ha Hi. unfold ReconcileHandler. destruct (hasPolicyOrPeerChanges δ); [simpl|done].
  set (fs := Enforcer_FilterPeers e (st_Peers d) (st_Policies d) l) in *.
  destruct (ApplyFirewallRules _ _ _ _ _ _) as [err f].
  set (m := build_map peer_ID (fun _ => tt) fs). fold (prune m).
  set (P := fun s : Manager * D => mg_peers s.1 !! i = mg_peers (w_wg w).1 !! i).
  pose proof (collect_preserves P (prune m) (range_keys (w_allowed w)) [] (w_wg w)) as P1.
  destruct (collect (prune m) (range_keys (w_allowed w)) ([], w_wg w)) as [e1 s1]. simpl in P1.
  fold (permit_peer (w_allowed w)).
  pose proof (collect_preserves P (permit_peer (w_allowed w)) (range_map (build_map peer_ID id fs)) e1 s1) as P2.
  destruct (collect (permit_peer (w_allowed w)) _ (e1, s1)) as [e2 s2]. simpl in *.
  split; [by apply build_map_None|]. apply P2; [|apply P1; [|done]].
  - intros [pid p] s Hp Hs. unfold permit_peer, P. case_decide; [|done].
    apply elem_of_range_map, build_map_Some_inv in Hp as (q & Hq & Hid & Hpq). unfold id in Hpq. subst q.
    assert (i <> peer_ID p) by (intros ->; by apply Hi, list_elem_of_fmap_2).
    destruct (AddPeer p s) as [[er|] s'] eqn:E; simpl.
    + apply AddPeer_failed in E as [-> _]. done.
    + apply AddPeer_inv in E as (cfg & _ & _ & _ & ->). simpl. by rewrite lookup_insert_ne.
  - intros id s Hid Hs. unfold prune, P. case_decide; [|done].
    assert (i <> id) by (intros ->; apply elem_of_range_keys in Hid as [? ?]; congruence).
    destruct (RemovePeerByID id s) as [[er|] s'] eqn:E; simpl.
    + apply RemovePeerByID_failed in E as [-> _]. done.
    + apply RemovePeerByID_inv in E as (b & k & _ & _ & _ & ->). simpl. by rewrite lookup_delete_ne.
Qed.

(** A removal that failed once is never retried: after a run that had to
    drop peer [i], the index entry of [i] (still present if the removal
    failed) is not touched by any later run of the handler, as long as the
    policies go on excluding [i]. *)
Theorem failed_removal_forgotten e l lip iface d δ w i runs :
  hasPolicyOrPeerChanges δ = true ->
  i ∉ peer_ID <$> Enforcer_FilterPeers e (st_Peers d) (st_Policies d) l ->
  (forall d' δ', (d', δ') ∈ runs ->
    i ∉ peer_ID <$> Enforcer_FilterPeers e (st_Peers d') (st_Policies d') l) ->
  let w1 := (ReconcileHandler e l lip iface d δ w).2 in
  mg_peers (w_wg (foldl (fun w '(d', δ') => (ReconcileHandler e l lip iface d' δ' w).2) w1 runs)).1 !! i =
  mg_peers (w_wg w1).1 !! i.
Proof.
  intros Hch Hi Hruns w1. assert (Ha : w_allowed w1 !! i = None).
  { subst w1. unfold ReconcileHandler. rewrite Hch. simpl.
    destruct (ApplyFirewallRules _ _ _ _ _ _), (collect _ (range_keys _) _) as [e1 s1].
    destruct (collect _ (range_map _) (e1, s1)). simpl. by apply build_map_None. }
  clearbody w1. revert w1 Ha. induction runs as [|[d' δ'] runs IH]; intros w1 Ha; simpl; [done|].
  destruct (handler_untracked e l lip iface d' δ' w1 i Ha) as [Ha' Hw']; [set_solver|].
  rewrite IH; [done|set_solver|done].
Qed.

(** The WireGuard handler on the world of the policy handler. *)
Definition wg_part : Reconcile.ReconcileHandler (W := world (F := F) (D := D)) (E := list error) := fun d δ w =>
  let '(o, s) := WireGuard.ReconcileHandler d δ (w_wg w) in
  (match o with
   | HReturns None => HReturns None
   | HReturns (Some es) => HReturns (Some (WGError <$> es))
   | HPanics => HPanics
   end, mkWorld (w_allowed w) s (w_fw w)).

(** With the handlers registered as docs/reference/backend/network-policy.md
    says, first WireGuard's and then the policies', a desired peer that the
    policies deny is put on the interface by the first and not taken off by the
    second, which removes only peers it has allowed before. *)
Theorem denied_peer_stays e l lip iface r c d w p :
  rc_handlers r = [wg_part; ReconcileHandler e l lip iface] -> wf_state d ->
  mg_peers (w_wg w).1 = desired_index (st_Peers c) ->
  (WireGuard.ReconcileHandler d (ComputeDiff (Some d) (Some c)) (w_wg w)).1 = HReturns None ->
  p ∈ st_Peers d -> peer_ID p ∉ peer_ID <$> Enforcer_FilterPeers e (st_Peers d) (st_Policies d) l ->
  w_allowed w !! peer_ID p = None ->
  mg_peers (w_wg (invokeHandlers r d (ComputeDiff (Some d) (Some c)) w).2).1 !! peer_ID p = Some (peer_PublicKey p).
Proof.
  intros Hh Hd Hm Ho Hp Hn Ha. rewrite invokeHandlers_run_all, Hh. cbn [run_all]. unfold safeInvoke, wg_part.
  set (δ := ComputeDiff _ _) in *. pose proof (handler_index_desired d c (w_wg w)) as Hi.
  destruct (WireGuard.ReconcileHandler d δ (w_wg w)) as [o s] eqn:E. cbn in Ho. subst o.
  specialize (Hi s Hd Hm E). clearbody δ. cbn.
  destruct (handler_untracked e l lip iface d δ (mkWorld (w_allowed w) s (w_fw w)) (peer_ID p) Ha Hn) as [_ Hu].
  destruct (ReconcileHandler e l lip iface d δ (mkWorld (w_allowed w) s (w_fw w))) as [o w'].
  assert (Hg : mg_peers (w_wg w').1 !! peer_ID p = Some (peer_PublicKey p)).
  { cbn in Hu. rewrite Hu, Hi. unfold desired_index. by rewrite lookup_fmap, peers_by_id_lookup. }
  by destruct o as [[?|]|].
Qed.

End handler.

(** ** Concrete worlds *)

(** A simulated firewall: the rules of each chain. *)
#[global] Instance sim_firewall : FirewallController (gmap string (list FirewallRule)) := {|
  fw_EnsureChain := fun c f => (None, <[c := default [] (f !! c)]> f);
  fw_ApplyRules := fun c rs f => (None, <[c := rs]> f);
  fw_FlushChain := fun c f => (None, <[c := []]> f);
  fw_DeleteChain := fun c f => (None, delete c f)
|}.

Definition ex_enforcer : Enforcer := NewEnforcer true (mkConfig false "").

Definition ex_policy_state : StateResponse :=
  mkStateResponse [ex_peer1 "AAAA"; ex_peer2]
    [mkPolicy "pol" [mkPolicyRule "p1" "self" 22 "tcp" "allow"; mkPolicyRule "p2" "self" 0 "" "deny"]]
    None ∅ None None None None None [] [].

Definition ex_policy_diff : StateDiff :=
  ComputeDiff (H := id_order) (Some ex_policy_state) (Some empty_StateResponse).

Definition ex_policy_world : world (F := gmap string (list FirewallRule)) :=
  mkWorld ∅ (Setup [] "10.0.0.1" (ex_manager, ∅ : gmap string (gset (list Z)))).2 ∅.

Definition ex_permit_world : world :=
  mkWorld ∅ (ex_manager, {[ "plexd0" := ∅ ]} : gmap string (gset (list Z))) (∅ : gmap string (list FirewallRule)).

(** One run that finds both peers new, p1 allowed and p2 denied. *)
Definition ex_permit_runs : list (StateResponse * StateDiff) :=
  [(ex_policy_state, ex_policy_diff)].
Definition ex_permit_end := (ReconcileHandler (H1 := id_order) ex_enforcer "self" "10.0.0.1" "plexd0"
  ex_policy_state ex_policy_diff ex_permit_world).2.

Lemma runs_permit_witness :
  is_Some (mg_peers (w_wg ex_permit_end).1 !! "p1") /\ mg_peers (w_wg ex_permit_end).1 !! "p2" = None.
Proof.
  assert (Hr : permit_runs (HO := id_order) ex_enforcer "self" "10.0.0.1" "plexd0" ex_permit_world ex_permit_runs ex_permit_end).
  { apply (permit_next _ _ _ _ _ [] ex_permit_world); [apply permit_start|].
    assert (E : (ReconcileHandler (H1 := id_order) ex_enforcer "self" "10.0.0.1" "plexd0"
      ex_policy_state ex_policy_diff ex_permit_world).1 = HReturns None) by by vm_compute.
    unfold ex_permit_end. destruct (ReconcileHandler _ _ _ _ _ _ _) as [o w]. cbn in *. by subst. }
  pose proof (fun i => runs_permit (HO := id_order) ex_enforcer "self" "10.0.0.1" "plexd0" (WireGuard.mkConfig "" 0 0)
    ({[ "plexd0" := ∅ ]} : gmap string (gset (list Z))) (∅ : gmap string (list FirewallRule))
    ex_permit_runs ex_permit_end i Hr) as P.
  split.
  - apply (proj2 (P "p1")). by_compute.
  - apply eq_None_not_Some. intros Hx. apply (proj2 (P "p2")) in Hx. revert Hx. by_compute.
Defined.

(** p2 is denied and on the interface. *)
Lemma denied_peer_stays_witness :
  let r := RegisterHandler (RegisterHandler (NewReconciler None (Reconcile.mkConfig second)) wg_part)
    (ReconcileHandler (H1 := id_order) ex_enforcer "self" "10.0.0.1" "plexd0") in
  mg_peers (w_wg (invokeHandlers r ex_policy_state ex_policy_diff ex_permit_world).2).1 !! "p2" = Some "BBBB".
Proof.
  intros r. refine (denied_peer_stays (HO := id_order) ex_enforcer "self" "10.0.0.1" "plexd0" r empty_StateResponse
    ex_policy_state ex_permit_world ex_peer2 eq_refl _ _ _ _ _ _); try by vm_compute.
  - unfold wf_state. by_compute.
  - by_compute.
  - by_compute.
Defined.

(** A tracked peer on a device that refuses the removal. *)
Definition ex_stuck_world : world (F := gmap string (list FirewallRule)) :=
  mkWorld {[ "p1" := tt ]}
    (set_peers ex_manager {[ "p1" := "AAAA" ]}, ∅ : gmap string (gset (list Z))) ∅.

Definition ex_no_policies : StateResponse := ex_state [ex_peer1 "AAAA"].

Lemma failed_removal_forgotten_witness :
  let run := fun w => (ReconcileHandler (H1 := id_order) ex_enforcer "self" "10.0.0.1" "plexd0"
    ex_no_policies ex_policy_diff w).2 in
  mg_peers (w_wg (run (run ex_stuck_world))).1 !! "p1" = Some "AAAA".
Proof.
  pose proof (failed_removal_forgotten (HO := id_order) ex_enforcer "self" "10.0.0.1" "plexd0"
    ex_no_policies ex_policy_diff ex_stuck_world "p1" [(ex_no_policies, ex_policy_diff)]) as P.
  etrans; [apply P|].
  - vm_compute. reflexivity.
  - by_compute.
  - intros d' δ' [= -> ->]%list_elem_of_singleton. by_compute.
  - vm_compute. reflexivity.
Defined.
