(* ===== verification/Nftables.v ===== *)
(** * The nftables backend (src/internal/policy/nftables_linux.go)

    Firewall rules are compiled to nftables expressions and installed in one
    batch.  The nftables library and the kernel are outside the repository:
    [NftSemantics] states what the expressions used here do to a packet, and
    [NftConn] what a flushed batch does to the chains of the plexd table.  The
    theorems: the compiled chain decides every packet as the list of firewall
    rules says, first match first; with the policy engine's rules nothing is
    accepted on the mesh interface that no policy rule allows; the rules of a
    chain are replaced atomically. *)

From stdpp Require Import base strings gmap list.
From S2P Require Import Prelude Base64 Net Types Policy.

(** ** Expressions *)

Inductive meta_key := MetaKeyIIFNAME | MetaKeyL4PROTO.
Inductive payload_base := PayloadBaseNetworkHeader | PayloadBaseTransportHeader.
Inductive verdict := VerdictAccept | VerdictDrop.

(** The comparison is always [CmpOpEq]. *)
Inductive expr :=
| Meta (key : meta_key) (register : Z)
| Cmp (register : Z) (data : list Z)
| Payload (dest : Z) (base : payload_base) (offset len : nat)
| Bitwise (source dest : Z) (len : nat) (mask xor : list Z)
| Counter
| Verdict (kind : verdict).

Inductive error := InvalidIP | NonIPv4 | NonIPv4CIDR | UnsupportedProtocol | UnsupportedAction.
#[global] Instance error_eq_dec : EqDecision error.
Proof. solve_decision. Defined.

(** [buf[:len(name)+1]] of a 16-byte buffer: out of range panics. *)
Definition ifaceNameBytes (name : string) : outcome (list Z) :=
  let n := bytes_of_string name in
  let buf := take 16 n ++ replicate (16 - length (take 16 n)) 0 in
  if decide (length n + 1 <= 16)%nat then Returns (take (length n + 1) buf) else Panics.

(** [byte(port >> 8), byte(port)] of [uint16(port)]. *)
Definition portBytes (port : Z) : list Z := [Z.shiftr port 8 mod 256; port mod 256].

Definition protocolNumber (proto : string) : result error Z :=
  if decide (proto = "tcp") then Ok 6
  else if decide (proto = "udp") then Ok 17
  else Err UnsupportedProtocol.

Definition buildIPMatchExprs (addr : string) (offset : nat) : result error (list expr) :=
  match (match ParseCIDR addr with
         | None =>
             match ParseIP addr with
             | None => Err InvalidIP
             | Some parsed =>
                 match To4 parsed with
                 | None => Err NonIPv4
                 | Some ip => Ok (Some ip, mkIPNet ip (CIDRMask 32 32) 32)
                 end
             end
         | Some (ip, ipNet) => Ok (To4 ip, ipNet)
         end) with
  | Err e => Err e
  | Ok (ip, ipNet) =>
      let '(ones, bits) := Mask_Size ipNet in
      if decide (bits <> 32%nat) then Err NonIPv4CIDR
      else
        let payload := Payload 1 PayloadBaseNetworkHeader offset 4 in
        if decide (ones = 32%nat) then Ok [payload; Cmp 1 (default [] ip)]
        else Ok [payload; Bitwise 1 1 4 (net_Mask ipNet) [0; 0; 0; 0];
                 Cmp 1 (default [] (To4 (net_IP ipNet)))]
  end.

(** The part of [buildRuleExprs] after the interface match. *)
Definition ip_exprs (addr : string) (offset : nat) : result error (list expr) :=
  if decide (addr <> "" /\ addr <> "0.0.0.0/0") then buildIPMatchExprs addr offset else Ok [].

Definition buildRuleExprs (rule : FirewallRule) : outcome (result error (list expr)) :=
  match (if decide (fr_Interface rule <> "") then
           match ifaceNameBytes (fr_Interface rule) with
           | Panics => Panics
           | Returns d => Returns [Meta MetaKeyIIFNAME 1; Cmp 1 d]
           end
         else Returns []) with
  | Panics => Panics
  | Returns ifaceExprs =>
      Returns (
        srcExprs ← ip_exprs (fr_SrcIP rule) 12;
        dstExprs ← ip_exprs (fr_DstIP rule) 16;
        protoExprs ← (if decide (fr_Protocol rule <> "") then
                        proto ← protocolNumber (fr_Protocol rule);
                        Ok [Meta MetaKeyL4PROTO 1; Cmp 1 [proto]]
                      else Ok []);
        let portExprs :=
          if decide (fr_Port rule > 0) then
            [Payload 1 PayloadBaseTransportHeader 2 2; Cmp 1 (portBytes (wrap_u 16 (fr_Port rule)))]
          else [] in
        verdictExprs ← (if decide (fr_Action rule = "allow") then Ok [Verdict VerdictAccept]
                        else if decide (fr_Action rule = "deny") then Ok [Verdict VerdictDrop]
                        else Err UnsupportedAction);
        Ok (ifaceExprs ++ srcExprs ++ dstExprs ++ protoExprs ++ portExprs ++ [Counter] ++ verdictExprs))
  end.

(** ** The controller

    A batch is a list of commands; [conn.Flush] sends it. *)

Inductive command :=
| CmdAddTable
| CmdAddChain (chain : string)
| CmdFlushChain (chain : string)
| CmdAddRule (chain : string) (exprs : list expr)
| CmdDelChain (chain : string).

(** The effect of a command on the chains of the table. *)
Definition apply_command (t : gmap string (list (list expr))) (c : command)
    : gmap string (list (list expr)) :=
  match c with
  | CmdAddTable => t
  | CmdAddChain n => <[n := default [] (t !! n)]> t
  | CmdFlushChain n => <[n := []]> t
  | CmdAddRule n es => <[n := default [] (t !! n) ++ [es]]> t
  | CmdDelChain n => delete n t
  end.

Class NftConn (K : Type) := {
  nft_New : K -> option string;
  nft_Flush : list command -> K -> option string * K;
  nft_ListChains : K -> result string (list string);
  (** the chains of table plexd with their rules *)
  nft_table : K -> gmap string (list (list expr));
  (** a batch is a transaction: it takes effect as a whole or not at all *)
  nft_Flush_ok : forall b k k', nft_Flush b k = (None, k') ->
    nft_table k' = foldl apply_command (nft_table k) b;
  nft_Flush_err : forall b k e k', nft_Flush b k = (Some e, k') -> nft_table k' = nft_table k;
  nft_ListChains_ok : forall k l, nft_ListChains k = Ok l ->
    forall n, n ∈ l <-> is_Some (nft_table k !! n)
}.

Inductive ctl_error := ConnError (msg : string) | BuildError (e : error).

Section controller.
Context {K : Type} `{NftConn K}.

Definition EnsureChain (chain : string) (k : K) : option ctl_error * K :=
  match nft_New k with
  | Some e => (Some (ConnError e), k)
  | None =>
      let '(err, k) := nft_Flush [CmdAddTable; CmdAddChain chain] k in (ConnError <$> err, k)
  end.

(** The loop that queues a rule per firewall rule; an error or a panic leaves
    the batch unsent. *)
Fixpoint queue_rules (chain : string) (rules : list FirewallRule) : outcome (result error (list command)) :=
  match rules with
  | [] => Returns (Ok [])
  | rule :: rules =>
      match buildRuleExprs rule with
      | Panics => Panics
      | Returns (Err e) => Returns (Err e)
      | Returns (Ok exprs) =>
          match queue_rules chain rules with
          | Returns (Ok cmds) => Returns (Ok (CmdAddRule chain exprs :: cmds))
          | r => r
          end
      end
  end.

Definition ApplyRules (chain : string) (rules : list FirewallRule) (k : K)
    : outcome (option ctl_error) * K :=
  match nft_New k with
  | Some e => (Returns (Some (ConnError e)), k)
  | None =>
      match queue_rules chain rules with
      | Panics => (Panics, k)
      | Returns (Err e) => (Returns (Some (BuildError e)), k)
      | Returns (Ok cmds) =>
          let '(err, k) :=
            nft_Flush ([CmdAddTable; CmdAddChain chain; CmdFlushChain chain] ++ cmds) k in
          (Returns (ConnError <$> err), k)
      end
  end.

Definition FlushChain (chain : string) (k : K) : option ctl_error * K :=
  match nft_New k with
  | Some e => (Some (ConnError e), k)
  | None =>
      let '(err, k) := nft_Flush [CmdAddTable; CmdFlushChain chain] k in (ConnError <$> err, k)
  end.

(** [chains] are those of the plexd table. *)
Definition DeleteChain (chain : string) (k : K) : option ctl_error * K :=
  match nft_New k with
  | Some e => (Some (ConnError e), k)
  | None =>
      match nft_ListChains k with
      | Err e => (Some (ConnError e), k)
      | Ok chains =>
          if decide (chain ∈ chains) then
            let '(err, k) := nft_Flush [CmdDelChain chain] k in (ConnError <$> err, k)
          else (None, k)
      end
  end.

End controller.

(** ** What the expressions mean

    Registers hold byte strings.  An expression that does not match ends the
    rule without a verdict. *)

Definition set_reg (regs : Z -> list Z) (r : Z) (d : list Z) : Z -> list Z :=
  fun r' => if decide (r' = r) then d else regs r'.

(** An interface name as the kernel has it: at most 15 bytes, no NUL. *)
Definition valid_iface (name : string) : Prop :=
  (length (bytes_of_string name) < 16)%nat /\ 0 ∉ bytes_of_string name.

Definition pad16 (l : list Z) : list Z := l ++ replicate (16 - length l) 0.

Class NftSemantics (packet : Type) := {
  pkt_iif : packet -> string;
  pkt_l4proto : packet -> Z;
  pkt_payload : payload_base -> nat -> nat -> packet -> option (list Z);
  nft_run : list expr -> (Z -> list Z) -> packet -> option verdict;
  pkt_iif_valid : forall p, valid_iface (pkt_iif p);
  pkt_payload_ok : forall b o n p d, pkt_payload b o n p = Some d -> length d = n /\ Forall byte_ok d;
  run_meta_iif : forall r es regs p,
    nft_run (Meta MetaKeyIIFNAME r :: es) regs p =
    nft_run es (set_reg regs r (pad16 (bytes_of_string (pkt_iif p)))) p;
  run_meta_l4 : forall r es regs p,
    nft_run (Meta MetaKeyL4PROTO r :: es) regs p = nft_run es (set_reg regs r [pkt_l4proto p]) p;
  run_payload : forall r b o n es regs p,
    nft_run (Payload r b o n :: es) regs p =
    match pkt_payload b o n p with Some d => nft_run es (set_reg regs r d) p | None => None end;
  run_bitwise : forall s r n m x es regs p,
    nft_run (Bitwise s r n m x :: es) regs p =
    nft_run es (set_reg regs r (zip_with Z.lxor (zip_with Z.land (take n (regs s)) m) x)) p;
  run_cmp : forall r d es regs p,
    nft_run (Cmp r d :: es) regs p =
    if decide (take (length d) (regs r) = d) then nft_run es regs p else None;
  run_counter : forall es regs p, nft_run (Counter :: es) regs p = nft_run es regs p;
  run_verdict : forall v es regs p, nft_run (Verdict v :: es) regs p = Some v
}.

(** ** What a firewall rule means *)

(** The IPv4 prefix an address field denotes. *)
Definition cidr_of (s : string) : option (list Z * nat) :=
  match ParseCIDR s with
  | Some (ip, n) => b ← To4 ip; Some (b, net_ones n)
  | None => ip ← ParseIP s; b ← To4 ip; Some (b, 32%nat)
  end.

Definition addr_matches (s : string) (payload : option (list Z)) : bool :=
  if decide (s = "" \/ s = "0.0.0.0/0") then true
  else
    match cidr_of s, payload with
    | Some (base, ones), Some d => in_prefix ones base d
    | _, _ => false
    end.

Definition port_matches (port : Z) (payload : option (list Z)) : bool :=
  if decide (port <= 0) then true
  else match payload with Some d => bool_decide (be32 d = port mod 65536) | None => false end.

Section meaning.
Context {packet : Type} `{NftSemantics packet}.

Definition rule_matches (r : FirewallRule) (p : packet) : bool :=
  (bool_decide (fr_Interface r = "") || bool_decide (pkt_iif p = fr_Interface r)) &&
  addr_matches (fr_SrcIP r) (pkt_payload PayloadBaseNetworkHeader 12 4 p) &&
  addr_matches (fr_DstIP r) (pkt_payload PayloadBaseNetworkHeader 16 4 p) &&
  (bool_decide (fr_Protocol r = "") ||
   bool_decide (protocolNumber (fr_Protocol r) = Ok (pkt_l4proto p))) &&
  port_matches (fr_Port r) (pkt_payload PayloadBaseTransportHeader 2 2 p).

Definition rule_verdict (r : FirewallRule) : verdict :=
  if decide (fr_Action r = "allow") then VerdictAccept else VerdictDrop.

(** The first matching rule decides. *)
Fixpoint first_match (rules : list FirewallRule) (p : packet) : option verdict :=
  match rules with
  | [] => None
  | r :: rules => if rule_matches r p then Some (rule_verdict r) else first_match rules p
  end.

(** The kernel runs the rules of a chain in order until one has a verdict. *)
Fixpoint chain_verdict (rules : list (list expr)) (p : packet) : option verdict :=
  match rules with
  | [] => None
  | es :: rules =>
      match nft_run es (fun _ => []) p with Some v => Some v | None => chain_verdict rules p end
  end.
End meaning.

(** ** Lemmas *)


Lemma set_reg_eq regs r d : set_reg regs r d r = d.
Proof. unfold set_reg. by rewrite decide_True. Qed.

(** The prefix the match expressions of an address test for. *)
Lemma buildIPMatchExprs_Ok s off es :
  buildIPMatchExprs s off = Ok es ->
  exists base ones, cidr_of s = Some (base, ones) /\ length base = 4%nat /\ Forall byte_ok base /\
    (ones <= 32)%nat /\
    (ones = 32%nat /\ es = [Payload 1 PayloadBaseNetworkHeader off 4; Cmp 1 base] \/
     es = [Payload 1 PayloadBaseNetworkHeader off 4;
           Bitwise 1 1 4 (CIDRMask ones 32) [0; 0; 0; 0];
           Cmp 1 (zip_with Z.land base (CIDRMask ones 32))]).
Proof.
  unfold buildIPMatchExprs, cidr_of. destruct (ParseCIDR s) as [[ip n]|] eqn:Ec.
  - destruct (Mask_Size n) as [ones bits] eqn:Em. case_decide as Hb; [done|].
    subst bits.
    destruct (ParseCIDR_v4 s ip n Ec) as (b & Hl & Hok & -> & Ho & Hm & Hn); [by rewrite Em|].
    assert (E4 : To4 (v4InV6Prefix ++ b) = Some b).
    { unfold To4. rewrite !length_app, Hl. simpl. done. }
    rewrite E4. simpl. injection Em as <- _. intros Hes. exists b, (net_ones n).
    split_and!; try done. case_decide as H32; simplify_eq; [by left|right].
    rewrite Hn, Hm. assert (length (zip_with Z.land b (CIDRMask (net_ones n) 32)) = 4%nat) as Hz.
    { by rewrite length_zip_with, CIDRMask_length, Hl. }
    unfold To4. rewrite decide_True by done. done.
  - destruct (ParseIP s) as [ip|] eqn:Ei; [|done]. simpl.
    destruct (To4 ip) as [b|] eqn:E4; [|done]. simpl. intros [= <-]. exists b, 32%nat.
    split_and!; try done; [by eapply To4_length|eapply To4_ok; [by eapply ParseIP_ok|done]|by left].
Qed.

Lemma padded_eq (i n : list Z) k :
  0 ∉ i -> 0 ∉ n -> (length n < length i + k)%nat ->
  take (length n + 1) (i ++ replicate k 0) = n ++ [0] -> i = n.
Proof.
  intros Hi Hn Hk E.
  assert (Hj : forall j, (j <= length n)%nat -> (i ++ replicate k 0) !! j = (n ++ [0]) !! j).
  { intros j Hj. rewrite <- E, lookup_take_lt by lia. done. }
  destruct (Nat.lt_trichotomy (length i) (length n)) as [Hlt|[Heq|Hgt]].
  - exfalso. specialize (Hj (length i) ltac:(lia)).
    rewrite lookup_app_r, Nat.sub_diag, lookup_app_l in Hj by lia. destruct k; [lia|]. simpl in Hj.
    symmetry in Hj. by apply list_elem_of_lookup_2 in Hj.
  - rewrite <- Heq in E. rewrite take_app_add in E. by apply app_inj_1 in E as [-> _].
  - exfalso. specialize (Hj (length n) ltac:(lia)).
    rewrite lookup_app_l, lookup_app_r, Nat.sub_diag in Hj by lia. simpl in Hj.
    by apply list_elem_of_lookup_2 in Hj.
Qed.

(** The bytes of a name compare equal to a padded interface name exactly when
    the names are equal. *)
Lemma ifaceNameBytes_match name d o :
  valid_iface name -> valid_iface o -> ifaceNameBytes name = Returns d ->
  take (length d) (pad16 (bytes_of_string o)) = d <-> o = name.
Proof.
  intros [Hn1 Hn0] [Hi1 Hi0]. unfold ifaceNameBytes. rewrite decide_True by lia. intros [= <-].
  set (n := bytes_of_string name) in *.
  set (i := bytes_of_string o) in *. rewrite (take_ge n) by lia.
  assert (Hd : take (length n + 1) (n ++ replicate (16 - length n) 0) = n ++ [0]).
  { replace (16 - length n)%nat with (S (15 - length n)) by lia. simpl.
    rewrite take_app_add. simpl. by rewrite take_0. }
  rewrite Hd, length_app. simpl. unfold pad16. split.
  - intros E. rewrite <- (string_of_bytes_of_string o), <- (string_of_bytes_of_string name).
    fold n i. f_equal. apply (padded_eq i n (16 - length i)); [done|done|lia|exact E].
  - intros E. assert (i = n) as -> by (subst i n; by rewrite E). done.
Qed.

Section refinement.
Context {packet : Type} `{NftSemantics packet}.
Implicit Types (p : packet).

(** Expressions [es] in front of a continuation that ignores the registers
    let it run exactly when [b] holds. *)
Definition seg p (es : list expr) (b : bool) : Prop :=
  forall rest out, (forall regs, nft_run rest regs p = out) ->
  forall regs, nft_run (es ++ rest) regs p = if b then out else None.

Lemma seg_nil p : seg p [] true.
Proof. intros rest out Hr regs. apply Hr. Qed.

Lemma seg_app p es1 b1 es2 b2 : seg p es1 b1 -> seg p es2 b2 -> seg p (es1 ++ es2) (b1 && b2).
Proof.
  intros H1 H2 rest out Hr regs. rewrite <- app_assoc.
  rewrite (H1 _ (if b2 then out else None)); [by destruct b1, b2|]. intros regs'. by apply H2.
Qed.

Lemma seg_cmp_meta p k d v b :
  (forall es regs, nft_run (Meta k 1 :: es) regs p = nft_run es (set_reg regs 1 v) p) ->
  bool_decide (take (length d) v = d) = b -> seg p [Meta k 1; Cmp 1 d] b.
Proof.
  intros Hk Hb rest out Hr regs. simpl. rewrite Hk, run_cmp, set_reg_eq. subst b.
  case_bool_decide; case_decide; done || apply Hr.
Qed.

Lemma iface_bytes name d p :
  valid_iface name -> ifaceNameBytes name = Returns d ->
  bool_decide (take (length d) (pad16 (bytes_of_string (pkt_iif p))) = d) =
  bool_decide (pkt_iif p = name).
Proof.
  intros Hn Hd. apply bool_decide_ext. by apply ifaceNameBytes_match; [|apply pkt_iif_valid|].
Qed.

Lemma byte_pair_eq port d :
  0 <= port < 65536 -> length d = 2%nat -> Forall byte_ok d ->
  bool_decide (take (length (portBytes port)) d = portBytes port) = bool_decide (be32 d = port).
Proof.
  intros Hp Hl Hd. destruct d as [|x [|y [|]]]; try done. rewrite !Forall_cons in Hd.
  destruct Hd as (Hx & Hy & _). unfold byte_ok, be32, portBytes in *. cbn [length take foldl].
  rewrite Z.shiftr_div_pow2 by done. change (2 ^ 8) with 256. apply bool_decide_ext. split.
  - intros [= -> ->]. rewrite (Z.mod_small (port / 256)).
    + pose proof (Z.div_mod port 256 ltac:(lia)). lia.
    + split; [apply Z.div_pos|apply Z.div_lt_upper_bound]; lia.
  - intros <-. f_equal; [|f_equal].
    + rewrite Z.div_add_l, (Z.div_small y), Z.add_0_r, Z.mod_small by lia. lia.
    + rewrite (Z.add_comm _ y), Z.mod_add, Z.mod_small by lia. lia.
Qed.

Lemma seg_port port p :
  seg p (if decide (port > 0) then
           [Payload 1 PayloadBaseTransportHeader 2 2; Cmp 1 (portBytes (wrap_u 16 port))] else [])
    (port_matches port (pkt_payload PayloadBaseTransportHeader 2 2 p)).
Proof.
  unfold port_matches. repeat case_decide; try lia; [|apply seg_nil].
  intros rest out Hr regs. simpl. rewrite run_payload.
  destruct (pkt_payload _ 2 2 p) as [d|] eqn:Ed; [|done]. apply pkt_payload_ok in Ed as [Hl Hd].
  rewrite run_cmp, set_reg_eq. unfold wrap_u. change (2 ^ 16) with 65536.
  assert (Hp : 0 <= port mod 65536 < 65536) by (by apply Z.mod_pos_bound).
  pose proof (byte_pair_eq (port mod 65536) d Hp Hl Hd) as E.
  case_bool_decide; case_bool_decide; case_decide; done || apply Hr.
Qed.

Lemma seg_ip s off p es :
  ip_exprs s off = Ok es ->
  seg p es (addr_matches s (pkt_payload PayloadBaseNetworkHeader off 4 p)).
Proof.
  unfold ip_exprs, addr_matches. case_decide as Hs.
  2: { intros [= <-]. rewrite decide_True by (apply dec_stable; tauto). apply seg_nil. }
  rewrite decide_False by tauto.
  intros (base & ones & -> & Hl & Hok & Ho & Hes)%buildIPMatchExprs_Ok.
  destruct (pkt_payload _ off 4 p) as [d|] eqn:Ed.
  2: { intros rest out Hr regs. destruct Hes as [[_ ->]| ->]; simpl; by rewrite run_payload, Ed. }
  destruct (pkt_payload_ok _ _ _ _ _ Ed) as [Hdl Hdok].
  pose proof (prefix_test ones base d Hl Hok Hdl Hdok Ho) as Ht.
  intros rest out Hr regs. destruct Hes as [[-> ->]| ->]; simpl; rewrite run_payload, Ed.
  - rewrite run_cmp, set_reg_eq, Hl. rewrite take_ge by lia.
    pose proof (prefix_32 base d Hl Hok Hdl Hdok) as H32. 
    case_decide as E; [rewrite (proj2 H32 E)|destruct (in_prefix 32 base d); [by destruct E; apply H32|done]].
    apply Hr.
  - rewrite run_bitwise, run_cmp, !set_reg_eq.
    assert (Hz : zip_with Z.lxor (zip_with Z.land (take 4 d) (CIDRMask ones 32)) [0; 0; 0; 0] =
      zip_with Z.land d (CIDRMask ones 32)) by (by apply xor_zeros).
    rewrite Hz. rewrite take_ge by (rewrite !length_zip_with, CIDRMask_length, Hl, Hdl; done).
    case_decide as E; [rewrite (proj1 Ht E)|destruct (in_prefix ones base d); [by destruct E; apply Ht|done]].
    apply Hr.
Qed.

Lemma seg_proto proto p es :
  (if decide (proto <> "") then
     n ← protocolNumber proto; Ok [Meta MetaKeyL4PROTO 1; Cmp 1 [n]] else Ok []) = Ok es ->
  seg p es (bool_decide (proto = "") || bool_decide (protocolNumber proto = Ok (pkt_l4proto p))).
Proof.
  case_decide as E.
  - rewrite bool_decide_eq_false_2 by done. simpl.
    destruct (protocolNumber proto) as [n|] eqn:En; [|done]. intros [= <-].
    apply seg_cmp_meta with [pkt_l4proto p]; [intros; apply run_meta_l4|].
    apply bool_decide_ext. simpl. split; [by intros [= ->]|by intros [= ->]].
  - intros [= <-]. rewrite bool_decide_eq_true_2 by done. apply seg_nil.
Qed.

Lemma seg_iface name p es :
  name = "" \/ valid_iface name ->
  (if decide (name <> "") then
     match ifaceNameBytes name with
     | Panics => Panics
     | Returns d => Returns [Meta MetaKeyIIFNAME 1; Cmp 1 d]
     end
   else Returns []) = Returns es ->
  seg p es (bool_decide (name = "") || bool_decide (pkt_iif p = name)).
Proof.
  intros Hv. case_decide as E.
  - rewrite bool_decide_eq_false_2 by done. simpl.
    destruct (ifaceNameBytes name) as [d|] eqn:Ed; [|done]. intros [= <-].
    apply seg_cmp_meta with (pad16 (bytes_of_string (pkt_iif p))); [intros; apply run_meta_iif|].
    apply iface_bytes; [|done]. by destruct Hv.
  - intros [= <-]. rewrite bool_decide_eq_true_2 by done. apply seg_nil.
Qed.

(** One compiled rule decides a packet as the firewall rule says. *)
Lemma rule_refines r es p regs :
  fr_Interface r = "" \/ valid_iface (fr_Interface r) ->
  buildRuleExprs r = Returns (Ok es) ->
  nft_run es regs p = if rule_matches r p then Some (rule_verdict r) else None.
Proof.
  intros Hv Hb. unfold buildRuleExprs in Hb.
  destruct (if decide (fr_Interface r <> "") then _ else _) as [e1|] eqn:E1; [|done].
  apply (seg_iface _ p) in E1; [|done]. injection Hb as Hb.
  destruct (ip_exprs (fr_SrcIP r) 12) as [e2|] eqn:E2; [|done]. apply (seg_ip _ _ p) in E2. simpl in Hb.
  destruct (ip_exprs (fr_DstIP r) 16) as [e3|] eqn:E3; [|done]. apply (seg_ip _ _ p) in E3. simpl in Hb.
  destruct (if decide (fr_Protocol r <> "") then _ else _) as [e4|] eqn:E4; [|done].
  apply (seg_proto _ p) in E4. simpl in Hb. pose proof (seg_port (fr_Port r) p) as E5.
  assert (Ev : exists es', es = e1 ++ e2 ++ e3 ++ e4 ++
    (if decide (fr_Port r > 0) then
       [Payload 1 PayloadBaseTransportHeader 2 2; Cmp 1 (portBytes (wrap_u 16 (fr_Port r)))] else []) ++
    [Counter; Verdict (rule_verdict r)] ++ es').
  { unfold rule_verdict. exists []. repeat case_decide; simpl in *; by simplify_eq. }
  destruct Ev as [es' ->].
  pose proof (seg_app _ _ _ _ _ E1 (seg_app _ _ _ _ _ E2 (seg_app _ _ _ _ _ E3 (seg_app _ _ _ _ _ E4 E5)))) as Hs.
  specialize (Hs ([Counter; Verdict (rule_verdict r)] ++ es') (Some (rule_verdict r))).
  rewrite <- !app_assoc in Hs. rewrite Hs.
  - unfold rule_matches. by rewrite !andb_assoc.
  - intros regs'. simpl. by rewrite run_counter, run_verdict.
Qed.

Lemma chain_refines rules ess p :
  (forall r, r ∈ rules -> fr_Interface r = "" \/ valid_iface (fr_Interface r)) ->
  Forall2 (fun r es => buildRuleExprs r = Returns (Ok es)) rules ess ->
  chain_verdict ess p = first_match rules p.
Proof.
  intros Hv Hf. induction Hf as [|r es rules ess Hr Hf IH]; simpl; [done|].
  rewrite (rule_refines r es p) by (done || apply Hv; set_solver).
  destruct (rule_matches r p); [done|]. apply IH. set_solver.
Qed.
End refinement.

Lemma queue_rules_Ok chain rules cmds :
  queue_rules chain rules = Returns (Ok cmds) ->
  exists ess, cmds = CmdAddRule chain <$> ess /\
    Forall2 (fun r es => buildRuleExprs r = Returns (Ok es)) rules ess.
Proof.
  revert cmds. induction rules as [|r rules IH]; intros cmds; simpl.
  - intros [= <-]. exists []. split; [done|constructor].
  - destruct (buildRuleExprs r) as [[es|]|] eqn:Er; [|done..].
    destruct (queue_rules chain rules) as [[cs|]|]; [|done..].
    intros [= <-]. destruct (IH cs eq_refl) as (ess & -> & Hf). exists (es :: ess). split; [done|].
    by constructor.
Qed.

Lemma apply_batch chain ess t :
  foldl apply_command t
    (CmdAddTable :: CmdAddChain chain :: CmdFlushChain chain :: (CmdAddRule chain <$> ess)) =
  <[chain := ess]> t.
Proof.
  simpl. rewrite insert_insert_eq.
  rewrite <- (app_nil_l ess) at 2. generalize (@nil (list expr)) as l0.
  induction ess as [|es ess IH]; intros l0; simpl; [by rewrite app_nil_r|].
  rewrite lookup_insert_eq, insert_insert_eq. simpl. rewrite IH. by rewrite <- app_assoc.
Qed.

Section theorems.
Context {K packet : Type} `{NftConn K} `{NftSemantics packet}.

(** C8. [ApplyRules] refines the rule list: when it returns nil, the kernel
    chain gives every packet the verdict of the first firewall rule that
    matches it (interface, address prefixes, protocol and destination port),
    and none when no rule matches. *)
Theorem ApplyRules_refines chain rules (k k' : K) (p : packet) :
  (forall r, r ∈ rules -> fr_Interface r = "" \/ valid_iface (fr_Interface r)) ->
  ApplyRules chain rules k = (Returns None, k') ->
  exists ess, nft_table k' !! chain = Some ess /\ chain_verdict ess p = first_match rules p.
Proof.
  intros Hv Ha. unfold ApplyRules in Ha. destruct (nft_New k); [done|].
  destruct (queue_rules chain rules) as [[cmds|]|] eqn:Eq; [|done..].
  apply queue_rules_Ok in Eq as (ess & -> & Hf).
  destruct (nft_Flush _ k) as [[e|] k1] eqn:Ef; simplify_eq/=.
  exists ess. rewrite (nft_Flush_ok _ _ _ Ef), apply_batch, lookup_insert_eq. split; [done|].
  by apply chain_refines.
Qed.

(** The replacement is atomic: the other chains never change, and whenever
    [ApplyRules] fails (no connection, a rule that does not compile, a refused
    batch) or panics, the chain keeps its rules too. *)
Theorem ApplyRules_atomic chain rules (k k' : K) out :
  ApplyRules chain rules k = (out, k') ->
  (forall c, c <> chain -> nft_table k' !! c = nft_table k !! c) /\
  (out <> Returns None -> nft_table k' = nft_table k) /\
  (out = Returns None -> exists ess, nft_table k' !! chain = Some ess /\ length ess = length rules).
Proof.
  unfold ApplyRules. destruct (nft_New k); [by intros; simplify_eq|].
  destruct (queue_rules chain rules) as [[cmds|]|] eqn:Eq; [|by intros; simplify_eq..].
  apply queue_rules_Ok in Eq as (ess & -> & Hf).
  destruct (nft_Flush _ k) as [[e|] k1] eqn:Ef; intros Ha; simplify_eq/=.
  - rewrite (nft_Flush_err _ _ _ _ Ef). done.
  - rewrite (nft_Flush_ok _ _ _ Ef), apply_batch. split_and!; [|done|].
    + intros c Hc. by rewrite lookup_insert_ne.
    + intros _. exists ess. rewrite lookup_insert_eq. split; [done|]. by apply Forall2_length in Hf.
Qed.

Lemma first_match_Some rules (p : packet) v :
  first_match rules p = Some v -> exists r, r ∈ rules /\ rule_matches r p = true /\ rule_verdict r = v.
Proof.
  induction rules as [|r rules IH]; simpl; [done|]. destruct (rule_matches r p) eqn:E.
  - intros [= <-]. exists r. set_solver.
  - intros (r' & ? & ?)%IH. exists r'. set_solver.
Qed.

Lemma first_match_default rules d (p : packet) :
  rule_matches d p = true -> is_Some (first_match (rules ++ [d]) p).
Proof.
  intros Hd. induction rules as [|r rules IH]; simpl; [rewrite Hd; eauto|].
  destruct (rule_matches r p); eauto.
Qed.

(** C9. Deny by default, in the firewall: with the rules of the policy engine
    every packet that arrives on the mesh interface gets a verdict, and it is
    accepted only if some policy has an allow rule that concerns the local
    node, agrees with the packet's protocol and destination port, and whose
    source and destination each are the wildcard, a peer the node has no address
    for, or a peer with the packet's address.  The second case is no slip of the
    statement: such a rule matches every address
    ([unresolved_peer_matches_any]). *)
Theorem policy_rules_default_deny pols l iface ips (p : packet) :
  pkt_iif p = iface ->
  let rules := BuildFirewallRules pols l iface ips in
  is_Some (first_match rules p) /\
  (first_match rules p = Some VerdictAccept ->
   exists pol r, pol ∈ pols /\ r ∈ pol_Rules pol /\ pr_Action r = "allow" /\
     (names (pr_Src r) l \/ names (pr_Dst r) l) /\
     (pr_Protocol r = "" \/ protocolNumber (pr_Protocol r) = Ok (pkt_l4proto p)) /\
     port_matches (pr_Port r) (pkt_payload PayloadBaseTransportHeader 2 2 p) = true /\
     (pr_Src r = "*" \/ map_get ips (pr_Src r) = "" \/
        addr_matches (map_get ips (pr_Src r)) (pkt_payload PayloadBaseNetworkHeader 12 4 p) = true) /\
     (pr_Dst r = "*" \/ map_get ips (pr_Dst r) = "" \/
        addr_matches (map_get ips (pr_Dst r)) (pkt_payload PayloadBaseNetworkHeader 16 4 p) = true)).
Proof.
  intros Hif rules. subst rules. rewrite BuildFirewallRules_omap. split.
  - apply first_match_default. unfold rule_matches, default_deny. simpl.
    rewrite Hif, (bool_decide_eq_true_2 (iface = iface)) by done. by rewrite orb_true_r.
  - intros (fr & Hin & Hm & Hv)%first_match_Some.
    apply elem_of_app in Hin as [Hin|Hin].
    2: { apply list_elem_of_singleton in Hin as ->. done. }
    apply list_elem_of_omap in Hin as (r & Hr & Hb).
    apply list_elem_of_In, in_concat in Hr as (rs & Hrs & Hr).
    apply list_elem_of_In in Hrs, Hr. apply list_elem_of_fmap in Hrs as (pol & -> & Hpol).
    apply build_rule_Some in Hb as (_ & Hl & _ & Ep & Epr & Ea & Hs & Hd).
    unfold rule_matches in Hm. rewrite !andb_true_iff, orb_true_iff, !bool_decide_eq_true in Hm.
    destruct Hm as ((((_ & Ms) & Md) & Mp) & Mport).
    assert (Hres : forall f a b, a = resolveIP f ips \/ (f = "*" /\ a = map_get ips l) -> addr_matches a b = true ->
      f = "*" \/ map_get ips f = "" \/ addr_matches (map_get ips f) b = true).
    { intros f a b [->|[-> _]] Ha; [|by left]. unfold resolveIP in Ha. case_decide; auto. }
    exists pol, r. unfold rule_verdict in Hv. rewrite Ea in Hv. case_decide; [|done].
    rewrite Ep in Mport. rewrite Epr, orb_true_iff, !bool_decide_eq_true in Mp.
    split_and!; eauto.
Qed.

(** The proviso on known addresses matters: an allow rule from a peer the
    node has no address for compiles to a rule without a source match, so
    that it lets every source through. *)
Theorem unresolved_peer_matches_any l iface ips r fr payload :
  pr_Src r <> "*" -> pr_Src r <> l -> pr_Dst r = l -> ips !! pr_Src r = None ->
  build_rule l iface ips r = Some fr -> addr_matches (fr_SrcIP fr) payload = true.
Proof.
  intros Hw Hl Hd Hn Hb. apply build_rule_Some in Hb as (_ & _ & _ & _ & _ & _ & [Hs|[? _]] & _); [|done].
  rewrite Hs. unfold resolveIP, map_get. rewrite decide_False, Hn by done. done.
Qed.
End theorems.

(** Building the expressions of a rule panics exactly when its interface
    name has sixteen bytes or more. *)
Theorem buildRuleExprs_panics r :
  buildRuleExprs r = Panics <-> (16 <= length (bytes_of_string (fr_Interface r)))%nat.
Proof.
  unfold buildRuleExprs, ifaceNameBytes. destruct (decide (fr_Interface r <> "")) as [E|E].
  - case_decide; split; try done; lia.
  - apply dec_stable in E. rewrite E. simpl. split; [done|lia].
Qed.

(** ** A concrete kernel *)

Record packet := mkPacket {
  p_iif : { name : string | bool_decide (valid_iface name) };
  p_proto : Z;
  p_network : list Z;
  p_transport : list Z
}.

Definition sim_payload (b : payload_base) (o n : nat) (p : packet) : option (list Z) :=
  let hdr := match b with PayloadBaseNetworkHeader => p_network p
                        | PayloadBaseTransportHeader => p_transport p end in
  let d := take n (drop o hdr) in
  if decide (length d = n /\ Forall byte_ok d) then Some d else None.

Fixpoint sim_run (es : list expr) (regs : Z -> list Z) (p : packet) : option verdict :=
  match es with
  | [] => None
  | Meta MetaKeyIIFNAME r :: es => sim_run es (set_reg regs r (pad16 (bytes_of_string (proj1_sig (p_iif p))))) p
  | Meta MetaKeyL4PROTO r :: es => sim_run es (set_reg regs r [p_proto p]) p
  | Payload r b o n :: es =>
      match sim_payload b o n p with Some d => sim_run es (set_reg regs r d) p | None => None end
  | Bitwise s r n m x :: es =>
      sim_run es (set_reg regs r (zip_with Z.lxor (zip_with Z.land (take n (regs s)) m) x)) p
  | Cmp r d :: es => if decide (take (length d) (regs r) = d) then sim_run es regs p else None
  | Counter :: es => sim_run es regs p
  | Verdict v :: _ => Some v
  end.

#[global] Instance sim_semantics : NftSemantics packet.
Proof.
  refine {| pkt_iif := fun p => proj1_sig (p_iif p); pkt_l4proto := p_proto; pkt_payload := sim_payload;
            nft_run := sim_run |}; try done.
  - intros p. exact (bool_decide_unpack _ (proj2_sig (p_iif p))).
  - intros b o n p d. unfold sim_payload. case_decide; [|done]. by intros [= <-].
Defined.

#[global] Instance sim_conn : NftConn (gmap string (list (list expr))).
Proof.
  refine {| nft_New := fun _ => None;
            nft_Flush := fun b t => (None, foldl apply_command t b);
            nft_ListChains := fun t => Ok (map_to_list t).*1;
            nft_table := id |}; unfold id.
  - by intros b k k' [= <-].
  - done.
  - intros k l [= <-] n. rewrite list_elem_of_fmap. split.
    + intros ([n' v] & -> & ?%elem_of_map_to_list). eauto.
    + intros [v ?]. exists (n, v). by rewrite elem_of_map_to_list.
Defined.

Definition ex_iface : { name : string | bool_decide (valid_iface name) } := exist _ "plexd0" I.

(** SSH from 10.0.0.2 to the local node at 10.0.0.1. *)
Definition ex_packet (src : list Z) : packet :=
  mkPacket ex_iface 6 (replicate 12 0 ++ src ++ [10; 0; 0; 1]) [4; 210; 0; 22].

Definition ex_policies : list Policy := [mkPolicy "pol" [mkPolicyRule "p1" "self" 22 "tcp" "allow"]].
Definition ex_ips : gmap string string := <["p1" := "10.0.0.2"]> {[ "self" := "10.0.0.1" ]}.
Definition ex_rules : list FirewallRule := BuildFirewallRules ex_policies "self" "plexd0" ex_ips.

Definition ex_kernel : gmap string (list (list expr)) := (ApplyRules "plexd-mesh" ex_rules ∅).2.

Lemma ApplyRules_refines_witness :
  exists ess, ex_kernel !! "plexd-mesh" = Some ess /\
    chain_verdict ess (ex_packet [10; 0; 0; 2]) = Some VerdictAccept /\
    chain_verdict ess (ex_packet [10; 0; 0; 3]) = Some VerdictDrop.
Proof.
  assert (Hv : forall r, r ∈ ex_rules -> fr_Interface r = "" \/ valid_iface (fr_Interface r)).
  { intros r Hr. right. vm_compute in Hr.
    repeat (apply elem_of_cons in Hr as [->|Hr]; [by_compute|]). by apply not_elem_of_nil in Hr. }
  assert (Ha : ApplyRules "plexd-mesh" ex_rules ∅ = (Returns None, ex_kernel)) by (vm_compute; reflexivity).
  destruct (ApplyRules_refines "plexd-mesh" ex_rules ∅ ex_kernel (ex_packet [10; 0; 0; 2]) Hv Ha)
    as (ess & He & H1).
  exists ess. split; [exact He|]. split; [rewrite H1; vm_compute; reflexivity|].
  vm_compute in He. injection He as <-. vm_compute. reflexivity.
Defined.

Lemma ApplyRules_atomic_witness :
  let k := ({[ "c" := [] ]} : gmap string (list (list expr))) in
  let bad := [mkFirewallRule "plexd0" "nonsense" "" 0 "" "allow"] in
  nft_table (ApplyRules "c" bad k).2 = nft_table k.
Proof.
  refine (proj1 (proj2 (ApplyRules_atomic "c" [mkFirewallRule "plexd0" "nonsense" "" 0 "" "allow"]
    ({[ "c" := [] ]} : gmap string (list (list expr))) _ _ eq_refl)) _).
  vm_compute. discriminate.
Defined.

Lemma policy_rules_default_deny_witness :
  is_Some (first_match ex_rules (ex_packet [10; 0; 0; 3])) /\
  exists pol r, pol ∈ ex_policies /\ r ∈ pol_Rules pol /\ pr_Action r = "allow".
Proof.
  split; [exact (proj1 (policy_rules_default_deny ex_policies "self" "plexd0" ex_ips (ex_packet [10; 0; 0; 3]) eq_refl))|].
  assert (Hif : pkt_iif (ex_packet [10; 0; 0; 2]) = "plexd0") by done.
  assert (Ha : first_match (BuildFirewallRules ex_policies "self" "plexd0" ex_ips) (ex_packet [10; 0; 0; 2])
    = Some VerdictAccept) by by vm_compute.
  destruct (policy_rules_default_deny ex_policies "self" "plexd0" ex_ips _ Hif) as [_ Hacc].
  destruct (Hacc Ha) as (pol & r & H1 & H2 & H3 & _). by exists pol, r.
Defined.

Lemma unresolved_peer_matches_any_witness :
  let r := mkPolicyRule "gone" "self" 22 "tcp" "allow" in
  exists fr, build_rule "self" "plexd0" ex_ips r = Some fr /\
    addr_matches (fr_SrcIP fr) (Some [203; 0; 113; 7]) = true.
Proof.
  exists (mkFirewallRule "plexd0" "" "10.0.0.1" 22 "tcp" "allow"). split; [vm_compute; reflexivity|].
  apply (unresolved_peer_matches_any "self" "plexd0" ex_ips (mkPolicyRule "gone" "self" 22 "tcp" "allow")).
  - discriminate.
  - discriminate.
  - reflexivity.
  - vm_compute. reflexivity.
  - vm_compute. reflexivity.
Defined.
