(* ===== verification/Verifier.v ===== *)
(** * Signed events (src/internal/api: envelope.go, verifier.go, dispatcher.go)

    Verification of the envelopes the control plane pushes, the store of seen
    nonces, and the dispatch of verified events to handlers.  The theorems:
    what an accepted envelope guarantees, that forged envelopes leave no
    trace, and that no envelope is accepted twice.

    The Ed25519 check and the canonical JSON encoding are arguments.  The
    clock is read several times during a call; every reading is an argument,
    so that the theorems speak about time passing inside a call. *)

From stdpp Require Import base strings gmap list.
From S2P Require Import Prelude Base64 Types.

(** ** Event types *)

Inductive event_type :=
| EventPeerAdded | EventPeerRemoved | EventPeerKeyRotated | EventPeerEndpointChanged | EventPolicyUpdated
| EventActionRequest | EventSessionRevoked | EventSSHSessionSetup | EventRotateKeys | EventSigningKeyRotated
| EventNodeStateUpdated | EventNodeSecretsUpdated | EventBridgeConfigUpdated | EventRelaySessionAssigned
| EventRelaySessionRevoked | EventUserAccessConfigUpdated | EventUserAccessPeerAssigned
| EventUserAccessPeerRevoked | EventIngressConfigUpdated | EventIngressRuleAssigned | EventIngressRuleRevoked
| EventSiteToSiteConfigUpdated | EventSiteToSiteTunnelAssigned | EventSiteToSiteTunnelRevoked.

#[global] Instance event_type_eq_dec : EqDecision event_type.
Proof. solve_decision. Defined.

Definition event_name (t : event_type) : string :=
  match t with
  | EventPeerAdded => "peer_added"
  | EventPeerRemoved => "peer_removed"
  | EventPeerKeyRotated => "peer_key_rotated"
  | EventPeerEndpointChanged => "peer_endpoint_changed"
  | EventPolicyUpdated => "policy_updated"
  | EventActionRequest => "action_request"
  | EventSessionRevoked => "session_revoked"
  | EventSSHSessionSetup => "ssh_session_setup"
  | EventRotateKeys => "rotate_keys"
  | EventSigningKeyRotated => "signing_key_rotated"
  | EventNodeStateUpdated => "node_state_updated"
  | EventNodeSecretsUpdated => "node_secrets_updated"
  | EventBridgeConfigUpdated => "bridge_config_updated"
  | EventRelaySessionAssigned => "relay_session_assigned"
  | EventRelaySessionRevoked => "relay_session_revoked"
  | EventUserAccessConfigUpdated => "user_access_config_updated"
  | EventUserAccessPeerAssigned => "user_access_peer_assigned"
  | EventUserAccessPeerRevoked => "user_access_peer_revoked"
  | EventIngressConfigUpdated => "ingress_config_updated"
  | EventIngressRuleAssigned => "ingress_rule_assigned"
  | EventIngressRuleRevoked => "ingress_rule_revoked"
  | EventSiteToSiteConfigUpdated => "site_to_site_config_updated"
  | EventSiteToSiteTunnelAssigned => "site_to_site_tunnel_assigned"
  | EventSiteToSiteTunnelRevoked => "site_to_site_tunnel_revoked"
  end.

#[global] Instance event_name_inj : Inj (=) (=) event_name.
Proof. intros [] [] E; try reflexivity; vm_compute in E; discriminate E. Qed.

(** ** Envelopes *)

Record SignedEnvelope := mkEnvelope {
  ev_EventType : string;
  ev_EventID : string;
  ev_IssuedAt : Z;
  ev_Nonce : string;
  ev_Payload : string;
  ev_Signature : string
}.

Inductive envelope_error := UnmarshalError | MissingEventType | MissingEventID.

(** [json] is what [json.Unmarshal] made of the data. *)
Definition ParseEnvelope (json : option SignedEnvelope) : result envelope_error SignedEnvelope :=
  match json with
  | None => Err UnmarshalError
  | Some env =>
      if decide (ev_EventType env = "") then Err MissingEventType
      else if decide (ev_EventID env = "") then Err MissingEventID
      else Ok env
  end.

(** ** The nonce store *)

Definition DefaultStalenessWindow : Z := 5 * minute.
Definition nonceTTL : Z := 5 * minute.
Definition nonceCleanupInterval : Z := 60 * second.

Record NonceStore := mkNonceStore { ns_seen : gmap string Z; ns_lastCleanup : Z }.

Definition NewNonceStore (now : Z) : NonceStore := mkNonceStore ∅ now.

(** The clock readings of one call, in the order the code takes them. *)
Record readings := mkReadings {
  t_since : Z; (* time.Since(envelope.IssuedAt) *)
  t_future : Z; (* time.Now().Add(DefaultStalenessWindow) *)
  t_transition : Z; (* time.Now().Before(transitionExpires) *)
  t_check : Z; (* time.Since(s.lastCleanup) *)
  t_cutoff : Z; (* cutoff := time.Now().Add(-nonceTTL) *)
  t_cleaned : Z (* s.lastCleanup = time.Now() *)
}.

Definition cleanup (s : NonceStore) (c : readings) : NonceStore :=
  let cutoff := t_cutoff c - nonceTTL in
  mkNonceStore (filter (fun '(_, v) => time_before v cutoff = false) (ns_seen s)) (t_cleaned c).

Inductive verify_error :=
| MissingSignature
| MissingNonce
| MissingIssuedAt
| StaleEvent
| FutureEvent
| SignatureFailed
| DuplicateNonce.

Definition Add (s : NonceStore) (nonce : string) (issuedAt : Z) (c : readings)
    : option verify_error * NonceStore :=
  let s := if decide (time_sub (t_check c) (ns_lastCleanup s) >= nonceCleanupInterval)
           then cleanup s c else s in
  match ns_seen s !! nonce with
  | Some _ => (Some DuplicateNonce, s)
  | None => (None, mkNonceStore (<[nonce := issuedAt]> (ns_seen s)) (ns_lastCleanup s))
  end.

(** ** The verifier *)

Record Ed25519Verifier := mkVerifier {
  vf_currentKey : list Z;
  vf_previousKey : list Z;
  vf_transitionExpires : Z;
  vf_nonces : NonceStore
}.

Definition NewEd25519Verifier (currentKey : list Z) (now : Z) : Ed25519Verifier :=
  mkVerifier currentKey [] 0 (NewNonceStore now).

Definition SetKeys (v : Ed25519Verifier) (current previous : list Z) (transitionExpires : Z)
    : Ed25519Verifier :=
  mkVerifier current previous transitionExpires (vf_nonces v).

Record canonicalEnvelope := mkCanonical {
  ce_EventType : string;
  ce_EventID : string;
  ce_IssuedAt : Z;
  ce_Nonce : string;
  ce_Payload : string
}.

Definition canonical_of (e : SignedEnvelope) : canonicalEnvelope :=
  mkCanonical (ev_EventType e) (ev_EventID e) (ev_IssuedAt e) (ev_Nonce e) (ev_Payload e).

(** The signature scheme and the encoder.  [ed25519.Verify] panics on a public
    key that does not have 32 bytes; encoding fails on a payload that is not
    JSON. *)
Class SigScheme := {
  sig_ok : list Z -> list Z -> list Z -> bool;
  json_Marshal : canonicalEnvelope -> option (list Z)
}.

Section verifier.
Context `{SigScheme}.

Definition ed25519_Verify (key msg sig : list Z) : outcome bool :=
  if decide (length key = 32%nat) then Returns (sig_ok key msg sig) else Panics.

Definition Verify (v : Ed25519Verifier) (envelope : SignedEnvelope) (c : readings)
    : outcome (option verify_error) * Ed25519Verifier :=
  if decide (ev_Signature envelope = "") then (Returns (Some MissingSignature), v)
  else if decide (ev_Nonce envelope = "") then (Returns (Some MissingNonce), v)
  else if is_zero_time (ev_IssuedAt envelope) then (Returns (Some MissingIssuedAt), v)
  else if decide (time_sub (t_since c) (ev_IssuedAt envelope) > DefaultStalenessWindow)
  then (Returns (Some StaleEvent), v)
  else if time_after (ev_IssuedAt envelope) (t_future c + DefaultStalenessWindow)
  then (Returns (Some FutureEvent), v)
  else
    match DecodeString (ev_Signature envelope) with
    | None => (Returns (Some SignatureFailed), v)
    | Some sigBytes =>
        match json_Marshal (canonical_of envelope) with
        | None => (Returns (Some SignatureFailed), v)
        | Some canonical =>
            match ed25519_Verify (vf_currentKey v) canonical sigBytes with
            | Panics => (Panics, v)
            | Returns verified =>
                match (if negb verified && negb (bool_decide (vf_previousKey v = [])) &&
                          time_before (t_transition c) (vf_transitionExpires v)
                       then ed25519_Verify (vf_previousKey v) canonical sigBytes
                       else Returns verified) with
                | Panics => (Panics, v)
                | Returns verified =>
                    if negb verified then (Returns (Some SignatureFailed), v)
                    else
                      let '(err, nonces) :=
                        Add (vf_nonces v) (ev_Nonce envelope) (ev_IssuedAt envelope) c in
                      (Returns err, mkVerifier (vf_currentKey v) (vf_previousKey v)
                                      (vf_transitionExpires v) nonces)
                end
            end
        end
    end.

End verifier.

(** ** The dispatcher *)

Section dispatcher.
Context {W E : Type}.

Definition EventHandler : Type := SignedEnvelope -> W -> option E * W.

Record EventDispatcher := mkDispatcher { dp_handlers : gmap string (list EventHandler) }.

Definition NewEventDispatcher : EventDispatcher := mkDispatcher ∅.

Definition Register (d : EventDispatcher) (eventType : string) (h : EventHandler) : EventDispatcher :=
  mkDispatcher (<[eventType := default [] (dp_handlers d !! eventType) ++ [h]]> (dp_handlers d)).

Definition Dispatch (d : EventDispatcher) (envelope : SignedEnvelope) (w : W) : W :=
  match dp_handlers d !! ev_EventType envelope with
  | None => w
  | Some handlers => foldl (fun w h => (h envelope w).2) w handlers
  end.

End dispatcher.

(** ** Lemmas *)

Section theorems.
Context `{SigScheme}.

(** [msg] is signed for the verifier at the time of the call: by the current
    key, or by the previous one while the transition lasts. *)
Definition signed (v : Ed25519Verifier) (c : readings) (msg sig : list Z) : Prop :=
  (length (vf_currentKey v) = 32%nat /\ sig_ok (vf_currentKey v) msg sig = true) \/
  (vf_previousKey v <> [] /\ t_transition c < vf_transitionExpires v /\
   length (vf_previousKey v) = 32%nat /\ sig_ok (vf_previousKey v) msg sig = true).

Local Ltac rejected := left; eexists; split; [|reflexivity]; done.

(** Past the cheap checks, the outcome is decided by signature and nonce. *)
Lemma Verify_cases v e c :
  (exists err, err <> None /\ Verify v e c = (Returns err, v)) \/
  (Verify v e c = (Panics, v)) \/
  (exists sig msg, ev_Nonce e <> "" /\ ev_IssuedAt e <> 0 /\
     t_since c - ev_IssuedAt e <= DefaultStalenessWindow /\
     ev_IssuedAt e <= t_future c + DefaultStalenessWindow /\
     DecodeString (ev_Signature e) = Some sig /\ json_Marshal (canonical_of e) = Some msg /\
     signed v c msg sig /\
     let '(err, n) := Add (vf_nonces v) (ev_Nonce e) (ev_IssuedAt e) c in
     Verify v e c = (Returns err, mkVerifier (vf_currentKey v) (vf_previousKey v)
                                    (vf_transitionExpires v) n)).
Proof.
  unfold Verify. case_decide; [rejected|]. case_decide; [rejected|].
  unfold is_zero_time. case_bool_decide; [rejected|].
  case_decide as Hs; [rejected|]. unfold time_after. case_bool_decide as Hf; [rejected|].
  destruct (DecodeString _) as [sig|] eqn:Ed; [|rejected].
  destruct (json_Marshal _) as [msg|] eqn:Ej; [|rejected].
  unfold ed25519_Verify. case_decide as Hk; [|right; left; done].
  assert (Hsince : t_since c - ev_IssuedAt e <= DefaultStalenessWindow).
  { apply Z.nlt_ge. rewrite <- (time_sub_gt (t_since c)); [lia|]. done. }
  destruct (sig_ok (vf_currentKey v) msg sig) eqn:Ec; simpl.
  - right; right. exists sig, msg. split_and!; try done; [lia|by left|].
    by destruct (Add _ _ _ _).
  - case_bool_decide as Hp; simpl; [rejected|].
    unfold time_before. case_bool_decide as Ht; [|rejected].
    case_decide as Hk2; [|right; left; done].
    destruct (sig_ok (vf_previousKey v) msg sig) eqn:Ep; simpl; [|rejected].
    right; right. exists sig, msg. split_and!; try done; [lia|by right|].
    by destruct (Add _ _ _ _).
Qed.

Lemma Add_ok s n i c s' :
  Add s n i c = (None, s') -> ns_seen s' !! n = Some i.
Proof.
  unfold Add. case_decide; (case_match; [done|]); intros [= <-]; simpl; by rewrite lookup_insert_eq.
Qed.

(** A recorded nonce that is not yet due survives the call, and blocks a
    second use. *)
Lemma Add_keeps s n d c n' i :
  ns_seen s !! n = Some d -> t_cutoff c <= d + nonceTTL ->
  ns_seen (Add s n' i c).2 !! n = Some d /\ (n' = n -> (Add s n' i c).1 = Some DuplicateNonce).
Proof.
  intros Hn Hc. unfold Add.
  set (s1 := if decide _ then cleanup s c else s).
  assert (Hs1 : ns_seen s1 !! n = Some d).
  { subst s1. case_decide; [|done]. unfold cleanup. simpl. apply map_lookup_filter_Some.
    split; [done|]. unfold time_before. apply bool_decide_eq_false. lia. }
  destruct (ns_seen s1 !! n') eqn:E; simpl; [done|]. split; [|by intros ->; simplify_eq].
  rewrite lookup_insert_ne; [done|]. intros ->. simplify_eq.
Qed.

Lemma Verify_sound_nonce v e c v' :
  Verify v e c = (Returns None, v') -> ns_seen (vf_nonces v') !! ev_Nonce e = Some (ev_IssuedAt e).
Proof.
  intros Hv. destruct (Verify_cases v e c) as [(err & Hne & Hr)|[Hr|Hr]]; [congruence..|].
  destruct Hr as (sig & msg & _ & _ & _ & _ & _ & _ & _ & Hr).
  destruct (Add _ _ _ _) as [err n] eqn:Ea. rewrite Hr in Hv. simplify_eq. by apply Add_ok in Ea.
Qed.

(** C12. Soundness of [Verify]: an accepted envelope has a nonce and an issue
    time within five minutes of the clock, its canonical encoding is signed by
    the current key or, before the transition ends, by the previous one, and
    its nonce is on record afterwards. *)
Theorem Verify_sound v e c v' :
  Verify v e c = (Returns None, v') ->
  exists sig msg,
    DecodeString (ev_Signature e) = Some sig /\ json_Marshal (canonical_of e) = Some msg /\
    signed v c msg sig /\ ev_Nonce e <> "" /\ ev_IssuedAt e <> 0 /\
    t_since c - ev_IssuedAt e <= DefaultStalenessWindow /\
    ev_IssuedAt e - t_future c <= DefaultStalenessWindow /\
    ns_seen (vf_nonces v') !! ev_Nonce e = Some (ev_IssuedAt e).
Proof.
  intros Hv. destruct (Verify_cases v e c) as [(err & Hne & Hr)|[Hr|Hr]]; [congruence..|].
  destruct Hr as (sig & msg & ? & ? & ? & ? & ? & ? & Hsig & Hr). exists sig, msg.
  destruct (Add _ _ _ _) as [err n] eqn:Ea. rewrite Hr in Hv. simplify_eq.
  apply Add_ok in Ea. split_and!; try done. lia.
Qed.

(** Forged envelopes leave no trace: if the envelope is not signed for the
    verifier, [Verify] does not accept it and changes nothing; in particular no
    nonce is recorded. *)
Theorem Verify_forged v e c :
  (forall sig msg, DecodeString (ev_Signature e) = Some sig ->
     json_Marshal (canonical_of e) = Some msg -> ~ signed v c msg sig) ->
  (Verify v e c).1 <> Returns None /\ (Verify v e c).2 = v.
Proof.
  intros Hf. destruct (Verify_cases v e c) as [(err & Hne & ->)|[->|Hr]]; [split; [|done]; naive_solver|done|].
  destruct Hr as (sig & msg & _ & _ & _ & _ & Hd & Hj & Hs & _). by destruct (Hf sig msg Hd Hj).
Qed.

(** ** Replays

    What happens to a verifier over time: calls of [Verify] and [SetKeys]. *)
Inductive call := CVerify (e : SignedEnvelope) (c : readings)
                | CSetKeys (current previous : list Z) (expires : Z).

Definition exec (v : Ed25519Verifier) (x : call) : Ed25519Verifier :=
  match x with
  | CVerify e c => (Verify v e c).2
  | CSetKeys k p t => SetKeys v k p t
  end.

(** The readings of a call do not go backwards. *)
Definition ordered (c : readings) : Prop :=
  t_since c <= t_future c /\ t_future c <= t_transition c /\ t_transition c <= t_check c /\
  t_check c <= t_cutoff c /\ t_cutoff c <= t_cleaned c.

(** The readings of a sequence of calls that starts at time [now], up to time
    [later]. *)
Fixpoint clock_runs (now : Z) (l : list call) (later : Z) : Prop :=
  match l with
  | [] => now <= later
  | CSetKeys _ _ _ :: l => clock_runs now l later
  | CVerify _ c :: l => now <= t_since c /\ ordered c /\ clock_runs (t_cleaned c) l later
  end.

(** The nonce [n] of an envelope issued at [d] cannot be used again at or after
    time [now]: it is on record, or the envelope is stale. *)
Definition spent (n : string) (d now : Z) (v : Ed25519Verifier) : Prop :=
  ns_seen (vf_nonces v) !! n = Some d \/ d + DefaultStalenessWindow < now.

Lemma spent_mono n d t t' v : t <= t' -> spent n d t v -> spent n d t' v.
Proof. unfold spent. intros ? [?|?]; [by left|right; lia]. Qed.

Lemma Verify_spent n d now v e c :
  now <= t_since c -> ordered c -> spent n d now v -> spent n d (t_cleaned c) (Verify v e c).2.
Proof.
  intros Hnow Ho [Hs|Hs]; unfold ordered in Ho.
  2: { right. lia. }
  destruct (Verify_cases v e c) as [(err & Hne & ->)|[->|Hr]]; [by left|by left|].
  destruct Hr as (sig & msg & _ & _ & _ & _ & _ & _ & _ & Hr).
  destruct (decide (t_cutoff c <= d + nonceTTL)) as [Hc|Hc].
  - pose proof (Add_keeps _ n d c (ev_Nonce e) (ev_IssuedAt e) Hs Hc) as [Hk _].
    destruct (Add _ _ _ _) as [err s']. rewrite Hr. by left.
  - right. unfold DefaultStalenessWindow, nonceTTL in *. lia.
Qed.

Lemma exec_spent n d now l later v :
  clock_runs now l later -> spent n d now v -> spent n d later (foldl exec v l).
Proof.
  revert now v. induction l as [|[e c|k p t] l IH]; intros now v Hr Hs; simpl in *.
  - by eapply spent_mono.
  - destruct Hr as (Hn & Ho & Hr). eapply IH; [exact Hr|]. by eapply Verify_spent.
  - by eapply IH.
Qed.

(** A spent envelope is not accepted again. *)
Lemma replay_rejected v e c v1 l e' c' :
  Verify v e c = (Returns None, v1) -> ordered c ->
  clock_runs (t_cleaned c) l (t_since c') -> ordered c' ->
  ev_Nonce e' = ev_Nonce e -> ev_IssuedAt e' = ev_IssuedAt e ->
  ~ (t_since c' <= ev_IssuedAt e + DefaultStalenessWindow < t_cutoff c') ->
  (Verify (foldl exec v1 l) e' c').1 <> Returns None.
Proof.
  intros Hv Ho Hr Ho' En Ei Hx. apply Verify_sound_nonce in Hv.
  assert (Hs : spent (ev_Nonce e) (ev_IssuedAt e) (t_since c') (foldl exec v1 l)).
  { eapply exec_spent; [exact Hr|]. by left. }
  destruct (Verify_cases (foldl exec v1 l) e' c') as [(err & Hne & ->)|[->|Hc]]; [naive_solver|done|].
  destruct Hc as (sig & msg & _ & _ & Hst & _ & _ & _ & _ & Hc).
  destruct Hs as [Hs|Hs]; [|lia].
  pose proof (Add_keeps _ _ _ c' (ev_Nonce e') (ev_IssuedAt e') Hs) as [_ Hd].
  { unfold DefaultStalenessWindow, nonceTTL in *. lia. }
  destruct (Add _ _ _ _) as [err s']. rewrite Hc. simpl in *. by rewrite Hd.
Qed.

(** C13. No replay: once an envelope has been accepted, any envelope with the
    same nonce and issue time is rejected in every later call, whatever calls
    and key rotations lie between, provided that the five-minute limit is not
    crossed between the first and the last clock reading of that later call. *)
Theorem Verify_no_replay v e c v1 l e' c' :
  Verify v e c = (Returns None, v1) -> ordered c ->
  clock_runs (t_cleaned c) l (t_since c') -> ordered c' ->
  ev_Nonce e' = ev_Nonce e -> ev_IssuedAt e' = ev_IssuedAt e ->
  ~ (t_since c' <= ev_IssuedAt e + DefaultStalenessWindow < t_cutoff c') ->
  (Verify (foldl exec v1 l) e' c').1 <> Returns None.
Proof. apply replay_rejected. Qed.

(** The race the proviso excludes is real: the staleness check passes, then the
    cleanup of the same call forgets the nonce. *)
Lemma Verify_replay_race n d seen c :
  seen !! n = Some d -> d + nonceTTL < t_cutoff c ->
  time_sub (t_check c) (ns_lastCleanup (mkNonceStore seen 0)) >= nonceCleanupInterval ->
  (Add (mkNonceStore seen 0) n d c).1 = None.
Proof.
  intros Hn Hc Ht. unfold Add. rewrite decide_True by done. unfold cleanup. simpl.
  rewrite (proj2 (map_lookup_filter_None _ seen n)); [done|]. right. intros d' Hd'. simplify_eq.
  unfold time_before. rewrite bool_decide_eq_true_2 by lia. done.
Qed.

End theorems.

(** ** A concrete scheme: the signature repeats key and nonce length. *)

Definition ex_scheme : SigScheme := {|
  sig_ok := fun key msg sig => bool_decide (sig = take 1 key ++ msg);
  json_Marshal := fun ce => Some [Z.of_nat (String.length (ce_Nonce ce)); 9]
|}.

Definition ex_key : list Z := replicate 32 7.
Definition ex_issued : Z := 1000 * minute.
Definition at_time (t : Z) : readings := mkReadings t t t t t t.

(** "BwEJ" is the encoding of 7, 1, 9. *)
Definition ex_envelope : SignedEnvelope :=
  mkEnvelope "peer_added" "e1" ex_issued "n" "{}" "BwEJ".
Definition ex_forged : SignedEnvelope :=
  mkEnvelope "peer_added" "e1" ex_issued "n" "{}" "AAAA".
Definition ex_verifier : Ed25519Verifier := NewEd25519Verifier ex_key ex_issued.

Lemma Verify_sound_witness :
  exists sig msg, json_Marshal (SigScheme := ex_scheme) (canonical_of ex_envelope) = Some msg /\
    signed (H := ex_scheme) ex_verifier (at_time ex_issued) msg sig.
Proof.
  destruct (Verify_sound (H := ex_scheme) ex_verifier ex_envelope (at_time ex_issued)
    (Verify (H := ex_scheme) ex_verifier ex_envelope (at_time ex_issued)).2) as (sig & msg & _ & Hm & Hs & _).
  - vm_compute. reflexivity.
  - exists sig, msg. split; assumption.
Defined.

Lemma Verify_forged_witness :
  (Verify (H := ex_scheme) ex_verifier ex_forged (at_time ex_issued)).2 = ex_verifier.
Proof.
  refine (proj2 (Verify_forged (H := ex_scheme) ex_verifier ex_forged (at_time ex_issued) _)).
  intros sig msg Hd Hj [[_ Hs]|[Hp _]]; [|by apply Hp].
  vm_compute in Hd. vm_compute in Hj. simplify_eq.
Defined.

(** Accepted at its issue time, replayed four minutes later after a rotation. *)
Lemma Verify_no_replay_witness :
  let v1 := (Verify (H := ex_scheme) ex_verifier ex_envelope (at_time ex_issued)).2 in
  let l := [CSetKeys ex_key ex_key 0; CVerify ex_envelope (at_time (ex_issued + 2 * minute))] in
  (Verify (H := ex_scheme) (foldl (exec (H := ex_scheme)) v1 l) ex_envelope
     (at_time (ex_issued + 4 * minute))).1 <> Returns None.
Proof.
  apply (Verify_no_replay (H := ex_scheme) ex_verifier ex_envelope (at_time ex_issued)).
  - vm_compute. reflexivity.
  - repeat split; vm_compute; discriminate.
  - repeat split; vm_compute; discriminate.
  - repeat split; vm_compute; discriminate.
  - reflexivity.
  - reflexivity.
  - intros [_ Hlt]. vm_compute in Hlt. discriminate Hlt.
Defined.
