(* ===== verification/Sse.v ===== *)
(** * The event stream (src/internal/api/sse.go)

    The line scanner and the server-sent-events parser, and [Connect], which
    verifies what the parser yields and dispatches it.  The theorems: parsing
    inverts rendering, and only verified envelopes reach a handler. *)

From Stdlib Require Import Ascii.
From stdpp Require Import base strings list gmap.
From S2P Require Import Prelude Base64 Types Verifier.

(** ** Strings *)

Definition LF : ascii := "010"%char.
Definition CR : ascii := "013"%char.

(** Prefix with a character. *)
Abbreviation scons := String.String (only parsing).

(** [strings.Cut(s, sep)] at a single byte: the whole string and an empty rest
    when the byte does not occur. *)
Fixpoint cut_at (c : ascii) (s : string) : string * string :=
  match s with
  | String.EmptyString => ("", "")
  | String.String x s =>
      if decide (x = c) then ("", s)
      else let '(a, b) := cut_at c s in (scons x a, b)
  end.

(** [strings.TrimPrefix(s, " ")]. *)
Definition trim_space_prefix (s : string) : string :=
  match s with
  | String.String x s' => if decide (x = " "%char) then s' else s
  | _ => s
  end.

Definition has_prefix_colon (s : string) : bool :=
  match s with String.String x _ => bool_decide (x = ":"%char) | _ => false end.

(** [strings.Join]. *)
Fixpoint join (sep : string) (l : list string) : string :=
  match l with
  | [] => ""
  | [x] => x
  | x :: l => x +:+ sep +:+ join sep l
  end.

(** [strconv.Atoi]: optional sign, at least one digit, in the range of int. *)
Fixpoint digits_value (s : string) (acc : Z) : option Z :=
  match s with
  | String.EmptyString => Some acc
  | String.String c s =>
      let d := ascii_code c - 48 in
      if decide (0 <= d <= 9) then digits_value s (acc * 10 + d) else None
  end.

Definition Atoi (s : string) : option Z :=
  let '(neg, ds) :=
    match s with
    | String.String c s' =>
        if decide (c = "-"%char) then (true, s')
        else if decide (c = "+"%char) then (false, s')
        else (false, s)
    | String.EmptyString => (false, s)
    end in
  if decide (ds = "") then None
  else
    match digits_value ds 0 with
    | None => None
    | Some n =>
        let n := if neg : bool then - n else n in
        if decide (min_int64 <= n <= max_int64) then Some n else None
    end.

(** ** The scanner

    [bufio.Scanner] with [ScanLines]: lines end at a newline or at the end of
    input, one trailing carriage return is dropped, and a line that does not
    fit the 64 KiB buffer ends the scan. *)

Fixpoint lines_of (s : string) : list string :=
  match s with
  | String.EmptyString => []
  | String.String c s =>
      if decide (c = LF) then "" :: lines_of s
      else match lines_of s with
           | [] => [scons c ""]
           | l :: ls => scons c l :: ls
           end
  end.

Fixpoint drop_cr (s : string) : string :=
  match s with
  | String.EmptyString => ""
  | String.String c s' => if decide (c = CR /\ s' = "") then "" else scons c (drop_cr s')
  end.

Definition MaxScanTokenSize : Z := 65536.

(** The tokens up to the first line that is too long. *)
Fixpoint scan (lines : list string) : list string :=
  match lines with
  | [] => []
  | l :: ls => if decide (Z.of_nat (String.length l) < MaxScanTokenSize) then drop_cr l :: scan ls else []
  end.

Definition scan_lines (stream : string) : list string := scan (lines_of stream).

(** ** The parser *)

Record SSEEvent := mkSSEEvent { sse_Type : string; sse_Data : string; sse_ID : string }.

(** The parser: unread tokens, last event ID, and the calls made to the retry
    callback, if one is set. *)
Record SSEParser := mkParser {
  ps_lines : list string;
  ps_lastEventID : string;
  ps_callback : bool;
  ps_retries : list Z
}.

Definition NewSSEParser (stream : string) : SSEParser := mkParser (scan_lines stream) "" false [].

Definition SetRetryCallback (p : SSEParser) : SSEParser :=
  mkParser (ps_lines p) (ps_lastEventID p) true (ps_retries p).

Fixpoint Next_loop (lines : list string) (eventType : string) (data : list string) (id : string)
    (lastID : string) (cb : bool) (retries : list Z) : option SSEEvent * SSEParser :=
  match lines with
  | [] => (None, mkParser [] lastID cb retries)
  | line :: lines =>
      if decide (line = "") then
        match data with
        | [] => Next_loop lines "" [] "" lastID cb retries
        | _ =>
            let eventType := if decide (eventType = "") then "message" else eventType in
            let lastID := if decide (id = "") then lastID else id in
            (Some (mkSSEEvent eventType (join (scons LF "") data) id),
             mkParser lines lastID cb retries)
        end
      else if has_prefix_colon line then Next_loop lines eventType data id lastID cb retries
      else
        let '(field, value) := cut_at ":"%char line in
        let value := trim_space_prefix value in
        if decide (field = "event") then Next_loop lines value data id lastID cb retries
        else if decide (field = "data") then Next_loop lines eventType (data ++ [value]) id lastID cb retries
        else if decide (field = "id") then Next_loop lines eventType data value lastID cb retries
        else if decide (field = "retry") then
          match Atoi value with
          | Some ms =>
              if cb then Next_loop lines eventType data id lastID cb
                           (retries ++ [wrap_int (ms * millisecond)])
              else Next_loop lines eventType data id lastID cb retries
          | None => Next_loop lines eventType data id lastID cb retries
          end
        else Next_loop lines eventType data id lastID cb retries
  end.

Definition Next (p : SSEParser) : option SSEEvent * SSEParser :=
  Next_loop (ps_lines p) "" [] "" (ps_lastEventID p) (ps_callback p) (ps_retries p).

(** All events of a stream: [Next] until it reports the end.  Every event
    consumes at least one token, so the number of tokens bounds the calls. *)
Fixpoint next_all (fuel : nat) (p : SSEParser) : list SSEEvent * SSEParser :=
  match fuel with
  | O => ([], p)
  | S fuel =>
      match Next p with
      | (None, p) => ([], p)
      | (Some e, p) => let '(es, p) := next_all fuel p in (e :: es, p)
      end
  end.

Definition parse_stream (stream : string) : list SSEEvent * SSEParser :=
  let p := NewSSEParser stream in next_all (S (length (ps_lines p))) p.

(** ** Rendering, the inverse *)

(** An event as a server writes it: type, the lines of its data, ID. *)
Record out_event := mkOut { oe_type : string; oe_data : list string; oe_id : string }.

Definition render_lines (e : out_event) : list string :=
  ("event: " +:+ oe_type e) :: ("id: " +:+ oe_id e) ::
  ((fun l => "data: " +:+ l) <$> oe_data e) ++ [""].

Definition unlines (ls : list string) : string := foldr (fun l s => l +:+ scons LF s) "" ls.

Definition render (es : list out_event) : string := unlines (concat (render_lines <$> es)).

Definition event_of (e : out_event) : SSEEvent :=
  mkSSEEvent (oe_type e) (join (scons LF "") (oe_data e)) (oe_id e).

(** Text without line breaks that fits the scanner's buffer with its field
    name. *)
Definition text_ok (s : string) : Prop :=
  Forall (fun c => c <> LF /\ c <> CR) (String.list_ascii_of_string s) /\
  Z.of_nat (String.length s) + 7 < MaxScanTokenSize.

Definition out_ok (e : out_event) : Prop :=
  oe_type e <> "" /\ oe_data e <> [] /\ text_ok (oe_type e) /\ text_ok (oe_id e) /\
  Forall text_ok (oe_data e).

(** ** Lemmas *)

Lemma lines_of_app l s :
  Forall (fun c => c <> LF) (String.list_ascii_of_string l) ->
  lines_of (l +:+ scons LF s) = l :: lines_of s.
Proof.
  induction l as [|c l IH]; simpl; intros Hl.
  - done.
  - apply Forall_cons in Hl as [Hc Hl]. rewrite decide_False by done. by rewrite IH.
Qed.

Lemma drop_cr_id s : Forall (fun c => c <> CR) (String.list_ascii_of_string s) -> drop_cr s = s.
Proof.
  induction s as [|c s IH]; simpl; [done|]. intros [Hc Hs]%Forall_cons.
  rewrite decide_False by naive_solver. by rewrite IH.
Qed.

Definition line_ok (s : string) : Prop :=
  Forall (fun c => c <> LF /\ c <> CR) (String.list_ascii_of_string s) /\
  Z.of_nat (String.length s) < MaxScanTokenSize.

Lemma scan_unlines ls : Forall line_ok ls -> scan_lines (unlines ls) = ls.
Proof.
  unfold scan_lines. induction 1 as [|l ls [Hl Hn] Hls IH]; simpl; [done|].
  rewrite lines_of_app by (eapply Forall_impl; [exact Hl|naive_solver]). simpl.
  rewrite decide_True by done. rewrite drop_cr_id by (eapply Forall_impl; [exact Hl|naive_solver]).
  by rewrite IH.
Qed.

Lemma field_line_ok pre s :
  Forall (fun c => c <> LF /\ c <> CR) (String.list_ascii_of_string pre) ->
  Z.of_nat (String.length pre) <= 7 -> text_ok s -> line_ok (pre +:+ s).
Proof.
  intros Hp Hn [Hs Hl]. split.
  - assert (E : String.list_ascii_of_string (pre +:+ s) =
      String.list_ascii_of_string pre ++ String.list_ascii_of_string s).
    { clear. induction pre as [|c pre IH]; simpl; [done|]. by f_equal. }
    rewrite E. by apply Forall_app.
  - assert (E : String.length (pre +:+ s) = (String.length pre + String.length s)%nat).
    { clear. induction pre as [|c pre IH]; simpl; [done|]. by f_equal. }
    rewrite E. lia.
Qed.

Lemma render_lines_ok e : out_ok e -> Forall line_ok (render_lines e).
Proof.
  intros (_ & _ & Ht & Hi & Hd). unfold render_lines. constructor; [|constructor].
  - apply field_line_ok; [|simpl; lia|done]. by repeat (constructor; [split; discriminate|]).
  - apply field_line_ok; [|simpl; lia|done]. by repeat (constructor; [split; discriminate|]).
  - apply Forall_app. split.
    + apply Forall_fmap. eapply Forall_impl; [exact Hd|]. intros s Hs. simpl.
      apply (field_line_ok "data: "); [|simpl; lia|done]. by repeat (constructor; [split; discriminate|]).
    + repeat constructor.
Qed.

Lemma Next_data ds rest et data id last cb rs :
  Next_loop (((fun l => "data: " +:+ l) <$> ds) ++ rest) et data id last cb rs =
  Next_loop rest et (data ++ ds) id last cb rs.
Proof.
  revert data. induction ds as [|d ds IH]; intros data; [by rewrite app_nil_r|].
  transitivity (Next_loop (((fun l => "data: " +:+ l) <$> ds) ++ rest) et (data ++ [d]) id last cb rs).
  { reflexivity. }
  rewrite IH. by rewrite <- app_assoc.
Qed.

Lemma Next_render e rest last cb rs :
  out_ok e ->
  Next (mkParser (render_lines e ++ rest) last cb rs) =
  (Some (event_of e), mkParser rest (if decide (oe_id e = "") then last else oe_id e) cb rs).
Proof.
  intros (Ht & Hd & _). unfold Next, render_lines. cbn [ps_lines ps_lastEventID ps_callback ps_retries].
  transitivity (Next_loop ((((fun l => "data: " +:+ l) <$> oe_data e) ++ [""]) ++ rest)
    (oe_type e) [] (oe_id e) last cb rs).
  { reflexivity. }
  rewrite <- app_assoc, Next_data. simpl. destruct (oe_data e) as [|d ds] eqn:E; [done|].
  rewrite <- E. unfold event_of. by rewrite decide_False.
Qed.

Lemma next_all_render es fuel last cb rs :
  Forall out_ok es -> (length es < fuel)%nat ->
  next_all fuel (mkParser (concat (render_lines <$> es)) last cb rs) =
  (event_of <$> es, mkParser [] (foldl (fun last e => if decide (oe_id e = "") then last else oe_id e) last es) cb rs).
Proof.
  intros Hes. revert fuel last. induction Hes as [|e es He Hes IH]; intros fuel last Hf; simpl in Hf.
  - destruct fuel; [lia|]. done.
  - destruct fuel as [|fuel]; [lia|]. cbn [next_all fmap list_fmap concat].
    rewrite Next_render by done. rewrite IH by lia. done.
Qed.

(** C18. Parsing inverts rendering: for well-formed events (non-empty type, at
    least one data line, no line breaks inside fields, lines within the
    scanner's buffer) the parser yields exactly the events that were written,
    in order, and remembers the last non-empty ID. *)
Theorem parse_render es :
  Forall out_ok es ->
  (parse_stream (render es)).1 = event_of <$> es /\
  ps_lastEventID (parse_stream (render es)).2 =
    foldl (fun last e => if decide (oe_id e = "") then last else oe_id e) "" es.
Proof.
  intros Hes. unfold parse_stream, NewSSEParser, render.
  rewrite scan_unlines.
  2: { induction Hes as [|e es He Hes IH]; [constructor|]. apply Forall_app. split; [|done].
       by apply render_lines_ok. }
  rewrite next_all_render; [done..|]. cbn [ps_lines]. clear Hes.
  induction es as [|e es IH]; [simpl; lia|]. cbn [fmap list_fmap concat length] in *. rewrite length_app. simpl in *. lia.
Qed.

(** ** The idle timeout

    [idleTimeoutReader]: the timer callback records the error and closes the
    underlying reader, unless the reader was stopped. *)

Record idleTimeoutReader := mkIdle {
  ir_timeout : Z;
  ir_err : bool; (* ErrSSEIdleTimeout recorded *)
  ir_stopped : bool;
  ir_closed : bool
}.

Definition newIdleTimeoutReader (timeout : Z) : idleTimeoutReader := mkIdle timeout false false false.

Inductive read_result := ReadIdle | ReadData (n : Z) (eof : bool).

(** [n] and [eof] are what the underlying reader returned; the second component
    says that the timer was reset. *)
Definition Read (r : idleTimeoutReader) (n : Z) (eof : bool) : read_result * bool :=
  if ir_err r then (ReadIdle, false)
  else (ReadData n eof, bool_decide (n > 0 /\ ir_timeout r > 0)).

Definition Stop (r : idleTimeoutReader) : idleTimeoutReader :=
  mkIdle (ir_timeout r) (ir_err r) true (ir_closed r).

Definition onTimeout (r : idleTimeoutReader) : idleTimeoutReader :=
  if ir_stopped r then r else mkIdle (ir_timeout r) true (ir_stopped r) true.

(** ** The stream

    Handlers may replace the verifier's keys, so the verifier is part of the
    world the handlers act on. *)

Class HasVerifier (W : Type) := {
  get_verifier : W -> Ed25519Verifier;
  set_verifier : Ed25519Verifier -> W -> W;
  get_set_verifier : forall v w, get_verifier (set_verifier v w) = v
}.

(** What a connection delivers: the text received before the end of the body,
    and whether the idle timer ended it. *)
Record sse_response := mkResponse { rp_body : string; rp_idle : bool }.

Inductive connect_result (E : Type) :=
| ConnectFailed (e : E)
| ContextDone
| IdleTimeout
| CleanClose
| VerifyPanicked
| OutOfFuel.
Arguments ConnectFailed {E} _.
Arguments ContextDone {E}.
Arguments IdleTimeout {E}.
Arguments CleanClose {E}.
Arguments VerifyPanicked {E}.
Arguments OutOfFuel {E}.

Section stream.
Context {W E X : Type} `{HasVerifier W} `{SigScheme}.
Variable unmarshal : string -> option SignedEnvelope.
Variable dispatcher : EventDispatcher (W := W) (E := X).

(** One round per event; [ctx_done] and [clock] are the context and the clock
    readings of each round, [lastID] the stream's last event ID. *)
Fixpoint Connect_loop (fuel : nat) (resp : sse_response) (p : SSEParser) (lastID : string)
    (ctx_done : nat -> bool) (clock : nat -> readings) (w : W)
    : connect_result E * string * W :=
  match fuel with
  | O => (OutOfFuel, lastID, w)
  | S fuel =>
      if ctx_done fuel then (ContextDone, lastID, w)
      else
        match Next p with
        | (None, _) => (if rp_idle resp then IdleTimeout else CleanClose, lastID, w)
        | (Some evt, p) =>
            let lastID := if decide (sse_ID evt = "") then lastID else sse_ID evt in
            match ParseEnvelope (unmarshal (sse_Data evt)) with
            | Err _ => Connect_loop fuel resp p lastID ctx_done clock w
            | Ok envelope =>
                match Verify (get_verifier w) envelope (clock fuel) with
                | (Panics, v) => (VerifyPanicked, lastID, set_verifier v w)
                | (Returns (Some _), v) =>
                    Connect_loop fuel resp p lastID ctx_done clock (set_verifier v w)
                | (Returns None, v) =>
                    Connect_loop fuel resp p lastID ctx_done clock
                      (Dispatch dispatcher envelope (set_verifier v w))
                end
            end
        end
  end.

(** [conn] is the result of [client.ConnectSSE]. *)
Definition Connect (conn : result E sse_response) (lastID : string) (ctx_done : nat -> bool)
    (clock : nat -> readings) (w : W) : connect_result E * string * W :=
  match conn with
  | Err e => (ConnectFailed e, lastID, w)
  | Ok resp =>
      let p := NewSSEParser (rp_body resp) in
      Connect_loop (S (length (ps_lines p))) resp p lastID ctx_done clock w
  end.

(** What may happen to the world while a connection lasts: envelopes are
    verified one after the other, and an envelope reaches the handlers only
    right after its verification succeeded.  Rounds count down: each
    verification reads the clock of a round below [k]. *)
Inductive delivery (clock : nat -> readings) : nat -> W -> W -> Prop :=
| delivery_end k w : delivery clock k w w
| delivery_reject k i w e w' : (i < k)%nat ->
    (Verify (get_verifier w) e (clock i)).1 <> Returns None ->
    delivery clock i (set_verifier (Verify (get_verifier w) e (clock i)).2 w) w' -> delivery clock k w w'
| delivery_accept k i w e v w' : (i < k)%nat ->
    Verify (get_verifier w) e (clock i) = (Returns None, v) ->
    delivery clock i (Dispatch dispatcher e (set_verifier v w)) w' -> delivery clock k w w'.

Lemma delivery_le clock k k' w w' : delivery clock k w w' -> (k <= k')%nat -> delivery clock k' w w'.
Proof.
  destruct 1 as [k w|k i w e w' Hi Hv Hd|k i w e v w' Hi Hv Hd]; intros Hk; [constructor|..].
  - apply delivery_reject with i e; (done || lia).
  - apply delivery_accept with i e v; (done || lia).
Qed.

Lemma Next_loop_consumes lines et data id last cb rs e p :
  Next_loop lines et data id last cb rs = (Some e, p) -> (length (ps_lines p) < length lines)%nat.
Proof.
  revert et data id last rs. induction lines as [|line lines IH]; intros et data id last rs; simpl; [done|].
  case_decide; [destruct data|].
  - intros Hn%IH. lia.
  - intros [= _ <-]. simpl. lia.
  - destruct (has_prefix_colon line); [intros Hn%IH; lia|].
    destruct (cut_at ":"%char line) as [field value].
    repeat case_decide; try (intros Hn%IH; lia).
    destruct (Atoi _); [destruct cb|]; intros Hn%IH; lia.
Qed.

Lemma Connect_loop_delivery fuel resp p lastID ctx_done clock w :
  (length (ps_lines p) < fuel)%nat ->
  let '(r, _, w') := Connect_loop fuel resp p lastID ctx_done clock w in
  r <> OutOfFuel /\ delivery clock fuel w w'.
Proof.
  revert p lastID w. induction fuel as [|fuel IH]; intros p lastID w Hf; simpl; [lia|].
  destruct (ctx_done fuel); [split; [done|constructor]|].
  destruct (Next p) as [[evt|] p'] eqn:En.
  2: { split; [by destruct (rp_idle resp)|constructor]. }
  unfold Next in En. apply Next_loop_consumes in En.
  destruct (ParseEnvelope _) as [env|].
  2: { pose proof (IH p' (if decide (sse_ID evt = "") then lastID else sse_ID evt) w) as Hi.
       destruct (Connect_loop _ _ _ _ _ _ _) as [[r l] w']. destruct Hi as [Hr Hd]; [lia|].
       split; [done|]. eapply delivery_le; [exact Hd|lia]. }
  destruct (Verify (get_verifier w) env (clock fuel)) as [[[err|]|] v] eqn:Ev.
  - pose proof (IH p' (if decide (sse_ID evt = "") then lastID else sse_ID evt) (set_verifier v w)) as Hi.
    destruct (Connect_loop _ _ _ _ _ _ _) as [[r l] w']. destruct Hi as [Hr Hd]; [lia|].
    split; [done|]. apply delivery_reject with fuel env; rewrite ?Ev; (done || lia).
  - pose proof (IH p' (if decide (sse_ID evt = "") then lastID else sse_ID evt)
      (Dispatch dispatcher env (set_verifier v w))) as Hi.
    destruct (Connect_loop _ _ _ _ _ _ _) as [[r l] w']. destruct Hi as [Hr Hd]; [lia|].
    split; [done|]. apply delivery_accept with fuel env v; (done || lia).
  - split; [done|]. apply delivery_reject with fuel env; rewrite ?Ev; [lia|done|constructor].
Qed.

Lemma Connect_delivery conn lastID ctx_done clock w :
  let '(r, _, w') := Connect conn lastID ctx_done clock w in
  r <> OutOfFuel /\ exists k, delivery clock k w w'.
Proof.
  unfold Connect. destruct conn as [resp|e]; [|split; [done|exists 0%nat; constructor]].
  set (p := NewSSEParser _).
  pose proof (Connect_loop_delivery (S (length (ps_lines p))) resp p lastID ctx_done clock w ltac:(lia)) as Hd.
  destruct (Connect_loop _ _ _ _ _ _ _) as [[r l] w']. destruct Hd. eauto.
Qed.

(** Only verified events are dispatched: a connection always ends (with an
    error, the context, the idle timeout or the end of the stream), and its
    effect on the world is a sequence of verifications in which the handlers
    of an envelope run only directly after [Verify] accepted it. *)
Theorem Connect_delivers conn lastID ctx_done clock w :
  let '(r, _, w') := Connect conn lastID ctx_done clock w in
  r <> OutOfFuel /\ exists k, delivery clock k w w'.
Proof. apply Connect_delivery. Qed.

End stream.

(** ** A concrete stream *)

Definition ex_events : list out_event :=
  [mkOut "peer_added" ["{"; " 1:2"; "}"] "7"; mkOut "message" [""] ""].

Lemma parse_render_witness :
  (parse_stream (render ex_events)).1 = event_of <$> ex_events /\
  ps_lastEventID (parse_stream (render ex_events)).2 = "7".
Proof.
  destruct (parse_render ex_events) as [H1 H2].
  - unfold ex_events, out_ok, text_ok.
    repeat (constructor; simpl); try discriminate.
  - split; [exact H1|]. rewrite H2. reflexivity.
Defined.
