(* ===== verification/Reconnect.v ===== *)
(** * API errors and the reconnect engine (src/internal/api: errors.go,
    config.go, reconnect.go, manager.go)

    Classification of errors, exponential backoff with jitter, the polling
    fallback, and the loop that drives them.  The environment (context, clock,
    random numbers, the connect and poll functions, waiting) is a class of
    operations on a world, so that every interleaving of failures,
    cancellations and clock readings is covered. *)

From Stdlib Require Import Ascii.
From stdpp Require Import base strings list.
From S2P Require Import Prelude Base64 Sse.

(** ** Errors *)

Record APIError := mkAPIError { ae_StatusCode : Z; ae_Message : string; ae_RetryAfter : Z }.

(** A Go error as the code inspects it: an API error, a wrapper, the context's
    error, or anything else (network failures, idle timeouts). *)
Inductive go_error :=
| EAPI (e : APIError)
| EWrap (prefix : string) (e : go_error)
| EContext
| EOther (msg : string).

(** The method [Is] of [APIError], for an API-error target with status [t]. *)
Definition APIError_Is (e : APIError) (t : Z) : bool :=
  if decide (t = 500 /\ ae_StatusCode e >= 500 /\ ae_StatusCode e < 600) then true
  else bool_decide (ae_StatusCode e = t).

Definition ErrUnauthorized : Z := 401.
Definition ErrForbidden : Z := 403.
Definition ErrNotFound : Z := 404.
Definition ErrRateLimit : Z := 429.
Definition ErrServer : Z := 500.

(** [errors.As] and [errors.Is] walk the chain of wrapped errors. *)
Fixpoint errors_As (e : go_error) : option APIError :=
  match e with EAPI a => Some a | EWrap _ e => errors_As e | _ => None end.

Definition errors_Is (e : go_error) (t : Z) : bool :=
  match errors_As e with Some a => APIError_Is a t | None => false end.

Definition maxErrorBody : nat := Z.to_nat 4096.

(** [retryAfter] is the header's value, empty when absent. *)
Definition errorFromResponse (status : Z) (body retryAfter : string) : go_error :=
  let msg := string_of_bytes (take maxErrorBody (bytes_of_string body)) in
  let ra := if decide (status = 429) then
              if decide (retryAfter = "") then 0
              else match Atoi retryAfter with
                   | Some seconds => wrap_int (seconds * second)
                   | None => 0
                   end
            else 0 in
  EAPI (mkAPIError status msg ra).

Inductive FailureAction := RetryTransient | RetryAuth | RespectServer | PermanentFailure.
#[global] Instance FailureAction_eq_dec : EqDecision FailureAction.
Proof. solve_decision. Defined.

Definition ClassifyError (err : go_error) : FailureAction :=
  match errors_As err with
  | None => RetryTransient
  | Some _ =>
      if errors_Is err ErrUnauthorized then RetryAuth
      else if errors_Is err ErrRateLimit then RespectServer
      else if errors_Is err ErrForbidden || errors_Is err ErrNotFound then PermanentFailure
      else if errors_Is err ErrServer then RetryTransient
      else RetryTransient
  end.

(** ** Configuration of the client *)

Record Config := mkConfig {
  BaseURL : string;
  TLSInsecureSkipVerify : bool;
  ConnectTimeout : Z;
  RequestTimeout : Z;
  SSEIdleTimeout : Z
}.

Definition DefaultConnectTimeout : Z := 10 * second.
Definition DefaultRequestTimeout : Z := 30 * second.
Definition DefaultSSEIdleTimeout : Z := 90 * second.

Definition or_default (x d : Z) : Z := if decide (x = 0) then d else x.

Definition ApplyDefaults (c : Config) : Config :=
  mkConfig (BaseURL c) (TLSInsecureSkipVerify c)
    (or_default (ConnectTimeout c) DefaultConnectTimeout)
    (or_default (RequestTimeout c) DefaultRequestTimeout)
    (or_default (SSEIdleTimeout c) DefaultSSEIdleTimeout).

Definition Validate (c : Config) : option string :=
  if decide (BaseURL c = "") then Some "api: config: BaseURL is required" else None.

(** ** The engine *)

Record ReconnectEngine := mkEngine {
  re_baseInterval : Z;
  re_maxInterval : Z;
  re_pollingFallback : Z;
  re_pollInterval : Z;
  re_onAuthFailure : bool; (* a callback is set *)
  re_currentInterval : Z;
  re_failingSince : Z
}.

Definition NewReconnectEngine : ReconnectEngine :=
  mkEngine second (60 * second) (5 * minute) (60 * second) false second 0.

Definition SetOnAuthFailure (r : ReconnectEngine) : ReconnectEngine :=
  mkEngine (re_baseInterval r) (re_maxInterval r) (re_pollingFallback r) (re_pollInterval r)
    true (re_currentInterval r) (re_failingSince r).

Definition SetBaseInterval (r : ReconnectEngine) (d : Z) : ReconnectEngine :=
  mkEngine d (re_maxInterval r) (re_pollingFallback r) (re_pollInterval r)
    (re_onAuthFailure r) (re_currentInterval r) (re_failingSince r).

Definition SetPollInterval (r : ReconnectEngine) (d : Z) : ReconnectEngine :=
  mkEngine (re_baseInterval r) (re_maxInterval r) (re_pollingFallback r) d
    (re_onAuthFailure r) (re_currentInterval r) (re_failingSince r).

Definition SetIntervals (r : ReconnectEngine) (base max : Z) : ReconnectEngine :=
  mkEngine base max (re_pollingFallback r) (re_pollInterval r)
    (re_onAuthFailure r) base (re_failingSince r).

Definition SetPollingFallbackConfig (r : ReconnectEngine) (fallbackAfter pollInterval : Z)
    : ReconnectEngine :=
  mkEngine (re_baseInterval r) (re_maxInterval r) fallbackAfter pollInterval
    (re_onAuthFailure r) (re_currentInterval r) (re_failingSince r).

Definition resetBackoff (r : ReconnectEngine) : ReconnectEngine :=
  mkEngine (re_baseInterval r) (re_maxInterval r) (re_pollingFallback r) (re_pollInterval r)
    (re_onAuthFailure r) (re_baseInterval r) 0.

(** The multiplier is 2.0: below 2^53 nanoseconds (104 days) doubling and the
    minimum are exact in float64. *)
Definition incrementInterval (r : ReconnectEngine) : ReconnectEngine :=
  mkEngine (re_baseInterval r) (re_maxInterval r) (re_pollingFallback r) (re_pollInterval r)
    (re_onAuthFailure r) (Z.min (re_currentInterval r * 2) (re_maxInterval r)) (re_failingSince r).

Definition set_failingSince (r : ReconnectEngine) (t : Z) : ReconnectEngine :=
  mkEngine (re_baseInterval r) (re_maxInterval r) (re_pollingFallback r) (re_pollInterval r)
    (re_onAuthFailure r) (re_currentInterval r) t.

(** [rand.Float64()] is [k / 2^53] with [0 <= k < 2^53]; the jitter fraction is
    1/4.  The sum is computed exactly and truncated, where the code rounds to
    float64 on the way. *)
Definition rand_max : Z := 2 ^ 53.
Definition jitter (d k : Z) : Z :=
  Z.quot (d * (4 * rand_max) + (2 * k - rand_max) * d) (4 * rand_max).

(** The environment of [Run]. *)
Class Env (W : Type) := {
  env_ctxErr : W -> bool * W; (* ctx.Err() != nil *)
  env_connect : W -> option go_error * W;
  env_poll : W -> option go_error * W;
  env_now : W -> Z * W;
  env_rand : W -> Z * W;
  env_wait : Z -> W -> bool * W; (* true: the context ended the wait *)
  env_onAuthFailure : W -> W
}.

Section run.
Context {W : Type} `{Env W}.

(** What a step of the loop comes back with: [None] continues, [Some e] stops
    with error [e]. *)

Definition wait (d : Z) (w : W) : option go_error * W :=
  let '(c, w) := env_wait d w in ((if c : bool then Some EContext else None), w).

Definition handleAuthFailure (r : ReconnectEngine) (err : go_error) (w : W) : option go_error * W :=
  (Some err, if re_onAuthFailure r then env_onAuthFailure w else w).

Definition handleRateLimit (r : ReconnectEngine) (err : go_error) (w : W) : option go_error * W :=
  let delay := match errors_As err with
               | Some a => if decide (ae_RetryAfter a > 0) then ae_RetryAfter a else re_currentInterval r
               | None => re_currentInterval r
               end in
  wait delay w.

(** The polling loop; [None] in the first component: out of fuel. *)
Fixpoint runPollingFallback (fuel : nat) (r : ReconnectEngine) (w : W)
    : option (option go_error) * W :=
  match fuel with
  | O => (None, w)
  | S fuel =>
      let '(c, w) := env_ctxErr w in
      if c : bool then (Some (Some EContext), w)
      else
        let '(perr, w) := env_poll w in
        let '(c, w) := match perr with Some _ => env_ctxErr w | None => (false, w) end in
        if c : bool then (Some (Some EContext), w)
        else
          let '(c, w) := env_wait (re_pollInterval r) w in
          if c : bool then (Some (Some EContext), w)
          else
            let '(sseErr, w) := env_connect w in
            match sseErr with
            | None => (Some None, w)
            | Some e =>
                let '(c, w) := env_ctxErr w in
                if c : bool then (Some (Some EContext), w)
                else if decide (ClassifyError e = PermanentFailure \/ ClassifyError e = RetryAuth)
                then (Some (Some e), w)
                else runPollingFallback fuel r w
            end
  end.

Definition handleTransientError (fuel : nat) (r : ReconnectEngine) (err : go_error) (w : W)
    : option (option go_error) * ReconnectEngine * W :=
  let '(r, w) := if is_zero_time (re_failingSince r)
                 then let '(t, w) := env_now w in (set_failingSince r t, w) else (r, w) in
  let '(t, w) := env_now w in
  if decide (time_sub t (re_failingSince r) >= re_pollingFallback r) then
    match runPollingFallback fuel r w with
    | (Some None, w) => (Some None, resetBackoff r, w)
    | (res, w) => (res, r, w)
    end
  else
    let '(k, w) := env_rand w in
    let delay := jitter (re_currentInterval r) k in
    match wait delay w with
    | (Some e, w) => (Some (Some e), r, w)
    | (None, w) => (Some None, incrementInterval r, w)
    end.

Definition handleConnectError (fuel : nat) (r : ReconnectEngine) (err : go_error) (w : W)
    : option (option go_error) * ReconnectEngine * W :=
  match ClassifyError err with
  | PermanentFailure => (Some (Some err), r, w)
  | RetryAuth => let '(res, w) := handleAuthFailure r err w in (Some res, r, w)
  | RespectServer => let '(res, w) := handleRateLimit r err w in (Some res, r, w)
  | RetryTransient => handleTransientError fuel r err w
  end.

(** The loop of [Run] after its initial [resetBackoff]; [None]: still running
    after [fuel] rounds. *)
Fixpoint Run_loop (fuel : nat) (r : ReconnectEngine) (w : W)
    : option go_error * ReconnectEngine * W :=
  match fuel with
  | O => (None, r, w)
  | S fuel =>
      let '(c, w) := env_ctxErr w in
      if c : bool then (Some EContext, r, w)
      else
        let '(err, w) := env_connect w in
        match err with
        | None => Run_loop fuel (resetBackoff r) w
        | Some err =>
            let '(c, w) := env_ctxErr w in
            if c : bool then (Some EContext, r, w)
            else
              match handleConnectError fuel r err w with
              | (Some None, r, w) => Run_loop fuel r w
              | (Some (Some e), r, w) => (Some e, r, w)
              | (None, r, w) => (None, r, w)
              end
        end
  end.

Definition Run (fuel : nat) (r : ReconnectEngine) (w : W) : option go_error * ReconnectEngine * W :=
  Run_loop fuel (resetBackoff r) w.

(** ** Lemmas *)

(** Errors that end the loop: the context's, and those that retrying cannot
    cure. *)
Definition stops (e : go_error) : Prop :=
  e = EContext \/ ClassifyError e = RetryAuth \/ ClassifyError e = PermanentFailure.

Lemma wait_stops d w e w' : wait d w = (Some e, w') -> e = EContext.
Proof. unfold wait. destruct (env_wait d w) as [[] ?]; intros; by simplify_eq. Qed.

Lemma polling_stops fuel r w e w' :
  runPollingFallback fuel r w = (Some (Some e), w') -> stops e.
Proof.
  revert w. induction fuel as [|fuel IH]; intros w; simpl; [done|].
  destruct (env_ctxErr w) as [[] w1]; [intros; simplify_eq; by left|].
  destruct (env_poll w1) as [perr w2].
  destruct (match perr with Some _ => _ | None => _ end) as [[] w3]; [intros; simplify_eq; by left|].
  destruct (env_wait _ w3) as [[] w4]; [intros; simplify_eq; by left|].
  destruct (env_connect w4) as [[e'|] w5]; [|done].
  destruct (env_ctxErr w5) as [[] w6]; [intros; simplify_eq; by left|].
  case_decide as Hc; [|apply IH]. intros; simplify_eq. right. tauto.
Qed.

Lemma handleTransientError_stops fuel r err w e r' w' :
  handleTransientError fuel r err w = (Some (Some e), r', w') -> stops e.
Proof.
  unfold handleTransientError.
  destruct (if is_zero_time _ then _ else _) as [r1 w1]. destruct (env_now w1) as [t w2].
  case_decide.
  - destruct (runPollingFallback fuel r1 w2) as [[[e'|]|] w3] eqn:E; intros; simplify_eq.
    by eapply polling_stops.
  - destruct (env_rand w2) as [k w3]. destruct (wait _ w3) as [[e'|] w4] eqn:E; intros; simplify_eq.
    left. by eapply wait_stops.
Qed.

Lemma Run_loop_stops fuel r w e r' w' : Run_loop fuel r w = (Some e, r', w') -> stops e.
Proof.
  revert r w. induction fuel as [|fuel IH]; intros r w; simpl; [done|].
  destruct (env_ctxErr w) as [[] w1]; [intros; simplify_eq; by left|].
  destruct (env_connect w1) as [[err|] w2]; [|apply IH].
  destruct (env_ctxErr w2) as [[] w3]; [intros; simplify_eq; by left|].
  destruct (handleConnectError fuel r err w3) as [[[[e'|]|] r1] w4] eqn:Eh; [|apply IH|done].
  intros; simplify_eq. unfold handleConnectError in Eh. destruct (ClassifyError err) eqn:Ec.
  - by eapply handleTransientError_stops.
  - unfold handleAuthFailure in Eh. simplify_eq/=. right. by left.
  - unfold handleRateLimit in Eh. destruct (wait _ w3) as [[e2|] w5] eqn:Ew; simplify_eq.
    left. by eapply wait_stops.
  - simplify_eq. right. by right.
Qed.

(** The engine gives up only for a reason: when [Run] returns, the error is
    the context's or one that classifies as an authentication or permanent
    failure; network errors, server errors and rate limits never end it. *)
Theorem Run_stops_only fuel r w e r' w' :
  Run fuel r w = (Some e, r', w') -> stops e.
Proof. apply Run_loop_stops. Qed.

End run.

Lemma APIError_Is_exact a t : t <> 500 -> APIError_Is a t = bool_decide (ae_StatusCode a = t).
Proof. intros Ht. unfold APIError_Is. by rewrite decide_False by naive_solver. Qed.

Lemma ClassifyError_API err a :
  errors_As err = Some a ->
  ClassifyError err =
    if decide (ae_StatusCode a = 401) then RetryAuth
    else if decide (ae_StatusCode a = 429) then RespectServer
    else if decide (ae_StatusCode a = 403 \/ ae_StatusCode a = 404) then PermanentFailure
    else RetryTransient.
Proof.
  intros Ha. unfold ClassifyError, errors_Is. rewrite Ha.
  rewrite !(APIError_Is_exact a ErrUnauthorized), !(APIError_Is_exact a ErrRateLimit),
    !(APIError_Is_exact a ErrForbidden), !(APIError_Is_exact a ErrNotFound) by done.
  unfold ErrUnauthorized, ErrRateLimit, ErrForbidden, ErrNotFound.
  case_bool_decide; [by rewrite decide_True|rewrite decide_False by done].
  case_bool_decide; [by rewrite decide_True|rewrite decide_False by done].
  destruct (APIError_Is a ErrServer); repeat case_bool_decide; simpl; case_decide; done || lia.
Qed.

(** The classification by status code, through any number of wrappings:
    401 is an authentication failure, 429 is left to the server, 403 and 404
    are permanent, everything else is transient. *)
Theorem ClassifyError_spec err :
  (ClassifyError err = RetryAuth <-> exists a, errors_As err = Some a /\ ae_StatusCode a = 401) /\
  (ClassifyError err = RespectServer <-> exists a, errors_As err = Some a /\ ae_StatusCode a = 429) /\
  (ClassifyError err = PermanentFailure <->
     exists a, errors_As err = Some a /\ (ae_StatusCode a = 403 \/ ae_StatusCode a = 404)) /\
  (forall p, ClassifyError (EWrap p err) = ClassifyError err).
Proof.
  assert (Hw : forall p, ClassifyError (EWrap p err) = ClassifyError err) by done.
  destruct (errors_As err) as [a|] eqn:Ha.
  - rewrite (ClassifyError_API err a Ha) in *. split_and!; [..|exact Hw].
    all: split; [|intros (? & [= <-] & ?)]; repeat case_decide; try done; try lia.
    all: intros _; exists a; split; [done|lia].
  - assert (E : ClassifyError err = RetryTransient) by (unfold ClassifyError; by rewrite Ha).
    rewrite E in *. split_and!; [..|exact Hw]; (split; [done|naive_solver]).
Qed.

(** ** Waiting times *)

Lemma jitter_bounds d k : 0 <= d -> 0 <= k < rand_max ->
  3 * d - 3 <= 4 * jitter d k /\ 4 * jitter d k <= 5 * d.
Proof.
  unfold rand_max. intros Hd Hk. unfold jitter, rand_max. change (2 ^ 53) with 9007199254740992 in *.
  rewrite Z.quot_div_nonneg by nia.
  assert (Hlo : 3 * 9007199254740992 * d <= d * (4 * 9007199254740992) + (2 * k - 9007199254740992) * d) by nia.
  assert (Hhi : d * (4 * 9007199254740992) + (2 * k - 9007199254740992) * d <= 5 * 9007199254740992 * d) by nia.
  set (n := d * (4 * 9007199254740992) + (2 * k - 9007199254740992) * d) in *. clearbody n.
  Z.to_euclidean_division_equations. lia.
Qed.

(** An environment that also logs the durations it is asked to wait for. *)
#[export] Instance log_env {W} `{Env W} : Env (list Z * W) := {|
  env_ctxErr := fun '(l, w) => let '(c, w) := env_ctxErr w in (c, (l, w));
  env_connect := fun '(l, w) => let '(e, w) := env_connect w in (e, (l, w));
  env_poll := fun '(l, w) => let '(e, w) := env_poll w in (e, (l, w));
  env_now := fun '(l, w) => let '(t, w) := env_now w in (t, (l, w));
  env_rand := fun '(l, w) => let '(k, w) := env_rand w in (k, (l, w));
  env_wait := fun d '(l, w) => let '(c, w) := env_wait d w in (c, (l ++ [d], w));
  env_onAuthFailure := fun '(l, w) => (l, env_onAuthFailure w)
|}.

Section waits.
Context {W : Type} `{Env W}.
Variable B : Z.
Hypothesis connect_bounded : forall w e w' a,
  env_connect w = (Some e, w') -> errors_As e = Some a -> ae_RetryAfter a <= B.
Hypothesis rand_ok : forall w, 0 <= (env_rand w).1 < rand_max.

(** Durations in order, and small enough for the bound. *)
Record engine_ok (r : ReconnectEngine) : Prop := mkEngineOk {
  ok_base : 0 <= re_baseInterval r <= re_currentInterval r;
  ok_cur : re_currentInterval r <= re_maxInterval r;
  ok_max : 5 * re_maxInterval r <= 4 * B;
  ok_poll : re_pollInterval r <= B
}.

Definition bounded (s : list Z * W) : Prop := Forall (fun d => d <= B) s.1.

Lemma resetBackoff_ok r : engine_ok r -> engine_ok (resetBackoff r).
Proof. intros []. split; simpl; lia. Qed.

Lemma incrementInterval_ok r : engine_ok r -> engine_ok (incrementInterval r).
Proof. intros []. split; simpl; lia. Qed.

Lemma wait_bounded d s : d <= B -> bounded s -> bounded (wait d s).2.
Proof.
  destruct s as [l w]. unfold wait, bounded. simpl. intros Hd Hb.
  destruct (env_wait d w) as [c w']. simpl. apply Forall_app. eauto.
Qed.

Lemma polling_bounded fuel r s : engine_ok r -> bounded s -> bounded (runPollingFallback fuel r s).2.
Proof.
  intros Hr. revert s. induction fuel as [|fuel IH]; intros [l w] Hb; simpl; [done|].
  destruct (env_ctxErr w) as [[] w1]; [done|]. destruct (env_poll w1) as [perr w2].
  assert (Hc : exists c w3, match perr with Some _ => let '(c, w0) := env_ctxErr w2 in (c, (l, w0))
    | None => (false, (l, w2)) end = (c, (l, w3))).
  { destruct perr; [destruct (env_ctxErr w2)|]; eauto. }
  destruct Hc as (c & w3 & ->). destruct c; [done|].
  destruct (env_wait (re_pollInterval r) w3) as [c w4].
  assert (Hb' : forall w', bounded (l ++ [re_pollInterval r], w')).
  { intros w'. unfold bounded in *. simpl in *. apply Forall_app. split; [done|].
    constructor; [apply Hr|constructor]. }
  destruct c; [apply Hb'|]. destruct (env_connect w4) as [[e|] w5]; [|apply Hb'].
  destruct (env_ctxErr w5) as [[] w6]; [apply Hb'|]. case_decide; [apply Hb'|]. apply IH, Hb'.
Qed.

Lemma handle_bounded fuel r err s :
  (forall a, errors_As err = Some a -> ae_RetryAfter a <= B) ->
  engine_ok r -> bounded s ->
  let '(_, r', s') := handleConnectError fuel r err s in engine_ok r' /\ bounded s'.
Proof.
  intros He Hr Hb. unfold handleConnectError. destruct (ClassifyError err); [| |idtac|done].
  - unfold handleTransientError.
    assert (H1 : exists r1 w1, (if is_zero_time (re_failingSince r)
      then let '(t, s) := env_now s in (set_failingSince r t, s) else (r, s)) = (r1, (s.1, w1)) /\
      engine_ok r1 /\ re_currentInterval r1 = re_currentInterval r).
    { destruct s as [l w]. destruct (is_zero_time _); [|eauto]. simpl. destruct (env_now w) as [t w'].
      eexists _, _. split; [done|]. split; [|done]. destruct Hr. split; simpl; lia. }
    destruct H1 as (r1 & w1 & -> & Hr1 & _). simpl. destruct (env_now w1) as [t w2]. case_decide.
    + pose proof (polling_bounded fuel r1 (s.1, w2) Hr1 Hb) as Hp.
      destruct (runPollingFallback fuel r1 (s.1, w2)) as [[[e|]|] s']; simpl in Hp; split; try done.
      by apply resetBackoff_ok.
    + pose proof (rand_ok w2) as Hk. destruct (env_rand w2) as [k w3]. simpl in Hk.
      destruct (jitter_bounds (re_currentInterval r1) k) as [_ Hj]; [destruct Hr1; lia|done|].
      pose proof (wait_bounded (jitter (re_currentInterval r1) k) (s.1, w3)) as Hw.
      destruct (wait _ (s.1, w3)) as [[e|] s'].
      * split; [done|]. apply Hw; [destruct Hr1; lia|done].
      * split; [by apply incrementInterval_ok|]. apply Hw; [destruct Hr1; lia|done].
  - unfold handleAuthFailure. destruct s as [l w]. split; [done|]. by destruct (re_onAuthFailure r).
  - unfold handleRateLimit. destruct (errors_As err) as [a|] eqn:Ea.
    + pose proof (wait_bounded (if decide (ae_RetryAfter a > 0) then ae_RetryAfter a else re_currentInterval r) s) as Hw.
      destruct (wait _ s) as [res s']. split; [done|]. apply Hw; [|done].
      specialize (He a eq_refl). destruct Hr. case_decide; lia.
    + pose proof (wait_bounded (re_currentInterval r) s) as Hw.
      destruct (wait _ s) as [res s']. split; [done|]. apply Hw; [destruct Hr; lia|done].
Qed.

Lemma Run_loop_bounded fuel r s :
  engine_ok r -> bounded s ->
  let '(_, r', s') := Run_loop fuel r s in engine_ok r' /\ bounded s'.
Proof.
  revert r s. induction fuel as [|fuel IH]; intros r [l w] Hr Hb; simpl; [done|].
  destruct (env_ctxErr w) as [[] w1]; [done|].
  destruct (env_connect w1) as [[err|] w2] eqn:Ec.
  2: { apply IH; [by apply resetBackoff_ok|done]. }
  destruct (env_ctxErr w2) as [[] w3]; [done|].
  pose proof (handle_bounded fuel r err (l, w3)) as Hh.
  destruct (handleConnectError fuel r err (l, w3)) as [[[[e|]|] r'] s'];
    destruct Hh as [Hr' Hb']; try done; try (intros a; by eapply connect_bounded).
  by apply IH.
Qed.

(** C23. Backoff stays bounded: with the base interval below the maximum, every
    duration the engine waits for is at most [B], as long as 5/4 of the maximal
    interval, the poll interval and the delays servers ask for are, and the
    current interval stays between base and maximum. *)
Theorem Run_waits_bounded fuel r w :
  0 <= re_baseInterval r <= re_maxInterval r -> 5 * re_maxInterval r <= 4 * B ->
  re_pollInterval r <= B ->
  let '(_, r', (log, _)) := Run fuel r ([], w) in
  Forall (fun d => d <= B) log /\
  re_baseInterval r' <= re_currentInterval r' <= re_maxInterval r'.
Proof.
  intros Hb Hm Hp. unfold Run.
  pose proof (Run_loop_bounded fuel (resetBackoff r) ([], w)) as Hl.
  destruct (Run_loop fuel (resetBackoff r) ([], w)) as [[e r'] [log w']].
  destruct Hl as [[] Hlog]; [split; simpl; lia|constructor|]. split; [exact Hlog|lia].
Qed.

End waits.

(** Exponential growth up to the cap: after a reset, [n] transient failures
    in a row leave the interval at [min (base * 2^n) max]. *)
Theorem backoff_closed_form r n :
  0 <= re_baseInterval r <= re_maxInterval r ->
  re_currentInterval (Nat.iter n incrementInterval (resetBackoff r)) =
  Z.min (re_baseInterval r * 2 ^ Z.of_nat n) (re_maxInterval r).
Proof.
  intros Hb. induction n as [|n IH].
  - simpl. lia.
  - assert (Hm : re_maxInterval (Nat.iter n incrementInterval (resetBackoff r)) = re_maxInterval r).
    { clear. by induction n. }
    change (Nat.iter (S n) incrementInterval (resetBackoff r))
      with (incrementInterval (Nat.iter n incrementInterval (resetBackoff r))).
    set (r1 := Nat.iter n incrementInterval (resetBackoff r)) in *. simpl. rewrite IH, Hm.
    rewrite Nat2Z.inj_succ, Z.pow_succ_r by lia.
    assert (0 < 2 ^ Z.of_nat n) by (apply Z.pow_pos_nonneg; lia). nia.
Qed.

(** ** A scripted environment: the connection attempts that are left; the
    context ends with the script. *)

#[export] Instance script_env : Env (list (option go_error)) := {|
  env_ctxErr := fun w => (bool_decide (w = []), w);
  env_connect := fun w => (match w with x :: _ => x | [] => None end, tail w);
  env_poll := fun w => (None, w);
  env_now := fun w => (1, w);
  env_rand := fun w => (rand_max / 2, w);
  env_wait := fun _ w => (false, w);
  env_onAuthFailure := fun w => w
|}.

Definition ex_script : list (option go_error) :=
  [Some (EOther "refused"); None; Some (errorFromResponse 429 "" "7");
   Some (EWrap "sse" (errorFromResponse 503 "down" "")); Some (errorFromResponse 403 "" ""); None].

Lemma Run_stops_only_witness : stops (errorFromResponse 403 "" "").
Proof.
  apply (Run_stops_only 10 NewReconnectEngine ex_script (errorFromResponse 403 "" "")
    (Run 10 NewReconnectEngine ex_script).1.2 (Run 10 NewReconnectEngine ex_script).2).
  vm_compute. reflexivity.
Defined.

(** The same with network failures only. *)
Definition quiet_env : Env (list bool) := {|
  env_ctxErr := fun w => (bool_decide (w = []), w);
  env_connect := fun w => (match w with true :: _ => Some (EOther "refused") | _ => None end, tail w);
  env_poll := fun w => (None, w);
  env_now := fun w => (1, w);
  env_rand := fun w => (rand_max / 2, w);
  env_wait := fun _ w => (false, w);
  env_onAuthFailure := fun w => w
|}.

Lemma Run_waits_bounded_witness :
  let '(_, _, (log, _)) := Run (H := log_env (H := quiet_env)) 10 NewReconnectEngine ([], [true; true; false; true]) in
  log = [second; 2 * second] /\ Forall (fun d => d <= 75 * second) log.
Proof.
  assert (Hc : forall w e w' a, env_connect (Env := quiet_env) w = (Some e, w') ->
    errors_As e = Some a -> ae_RetryAfter a <= 75 * second).
  { intros [|[] w] e w' a He Ha; simpl in He; inversion He; subst; discriminate Ha. }
  assert (Hr : forall w, 0 <= (env_rand (Env := quiet_env) w).1 < rand_max).
  { intros w. vm_compute. split; [discriminate|reflexivity]. }
  pose proof (Run_waits_bounded (H := quiet_env) (75 * second) Hc Hr 10 NewReconnectEngine
    [true; true; false; true]) as P.
  specialize (P ltac:(vm_compute; split; discriminate) ltac:(vm_compute; discriminate)
    ltac:(vm_compute; discriminate)).
  assert (Elog : (Run (H := log_env (H := quiet_env)) 10 NewReconnectEngine ([], [true; true; false; true])).2.1 =
    [second; 2 * second]) by (vm_compute; reflexivity).
  destruct (Run (H := log_env (H := quiet_env)) 10 NewReconnectEngine ([], [true; true; false; true]))
    as [[e r'] [log w']]. split; [exact Elog|exact (proj1 P)].
Defined.

Lemma backoff_closed_form_witness :
  re_currentInterval (Nat.iter 7 incrementInterval (resetBackoff NewReconnectEngine)) = 60 * second.
Proof.
  rewrite (backoff_closed_form NewReconnectEngine 7).
  - vm_compute. reflexivity.
  - vm_compute. split; discriminate.
Defined.
