(* ===== verification/SseManager.v ===== *)
(** * The event stream over its whole life (src/internal/api/manager.go)

    The manager gives the stream's connections to the reconnect engine.  The
    network, context and clock are an interface; the theorem follows events
    through all connections, reconnects and key rotations. *)

From Stdlib Require Import Ascii String.
From stdpp Require Import base strings list gmap relations.
From S2P Require Import Prelude Types Verifier Sse Reconnect.

(** ** The manager *)

(** What a connection is given: the response and, for its rounds, the state of
    the context and the clock readings. *)
Record connection := mkConnection {
  cn_resp : sse_response;
  cn_ctx : nat -> bool;
  cn_clock : nat -> readings
}.

Class Net (N : Type) := {
  net_ctxErr : N -> bool * N;
  net_ConnectSSE : string -> string -> N -> result go_error connection * N;
  net_FetchState : string -> N -> option go_error * N;
  net_now : N -> Z * N;
  net_rand : N -> Z * N;
  net_wait : Z -> N -> bool * N
}.

(** The system's clock does not go back: there is a time of the network's state
    that no operation decreases, and a connection reads the clock in the order
    of its rounds, which count down, between the times before and after it. *)
Class NetClock (N : Type) `{Net N} := {
  net_time : N -> Z;
  time_ctxErr n : net_time n <= net_time (net_ctxErr n).2;
  time_ConnectSSE id last n : net_time n <= net_time (net_ConnectSSE id last n).2;
  time_FetchState id n : net_time n <= net_time (net_FetchState id n).2;
  time_now n : net_time n <= net_time (net_now n).2;
  time_rand n : net_time n <= net_time (net_rand n).2;
  time_wait d n : net_time n <= net_time (net_wait d n).2;
  time_readings id last n c n' i : net_ConnectSSE id last n = (Ok c, n') ->
    ordered (cn_clock c i) /\ net_time n <= t_since (cn_clock c i) /\ t_cleaned (cn_clock c i) <= net_time n' /\
    forall j, (j < i)%nat -> t_cleaned (cn_clock c i) <= t_since (cn_clock c j)
}.

Section manager.
Context {W X N : Type} `{HasVerifier W} `{SigScheme} `{Net N}.
Context (unmarshal : string -> option SignedEnvelope).

(** [m_reconnect] and [m_dispatcher] as the constructor makes them; [m_poll]
    is the poll function, if one was set. *)
Record SSEManager := mkManager {
  m_dispatcher : EventDispatcher (W := W) (E := X);
  m_reconnect : ReconnectEngine;
  m_poll : option (N -> option go_error * N)
}.

Definition NewSSEManager : SSEManager := mkManager NewEventDispatcher NewReconnectEngine None.

Definition RegisterHandler (eventType : string) (h : EventHandler) (m : SSEManager) : SSEManager :=
  mkManager (Verifier.Register (m_dispatcher m) eventType h) (m_reconnect m) (m_poll m).
Definition SetReconnectIntervals (base max : Z) (m : SSEManager) : SSEManager :=
  mkManager (m_dispatcher m) (SetIntervals (m_reconnect m) base max) (m_poll m).
Definition SetPollingFallback (fallbackAfter pollInterval : Z) (m : SSEManager) : SSEManager :=
  mkManager (m_dispatcher m) (SetPollingFallbackConfig (m_reconnect m) fallbackAfter pollInterval) (m_poll m).
Definition SetPollFunc (fn : N -> option go_error * N) (m : SSEManager) : SSEManager :=
  mkManager (m_dispatcher m) (m_reconnect m) (Some fn).

(** The running stream: the network, the last event ID, whether a panic has
    ended the process, and the world of the handlers. *)
Record running := mkRunning { rn_net : N; rn_lastID : string; rn_crashed : bool; rn_world : W }.

Definition on_net {A} (f : N -> A * N) (s : running) : A * running :=
  let '(a, n) := f (rn_net s) in (a, mkRunning n (rn_lastID s) (rn_crashed s) (rn_world s)).

(** The error a connection ends with; a clean close is nil. *)
Definition connect_error (r : connect_result go_error) : option go_error :=
  match r with
  | ConnectFailed e => Some e
  | ContextDone | VerifyPanicked => Some EContext
  | IdleTimeout => Some (EOther "api: SSE idle timeout")
  | CleanClose => None
  | OutOfFuel => Some (EOther "")
  end.

Definition connectFn (m : SSEManager) (nodeID : string) (s : running) : option go_error * running :=
  if rn_crashed s then (Some EContext, s)
  else
    let '(conn, n) := net_ConnectSSE nodeID (rn_lastID s) (rn_net s) in
    match conn with
    | Err e => (Some e, mkRunning n (rn_lastID s) false (rn_world s))
    | Ok c =>
        let '(r, lastID, w) := Connect (E := go_error) unmarshal (m_dispatcher m) (Ok (cn_resp c)) (rn_lastID s)
                                 (cn_ctx c) (cn_clock c) (rn_world s) in
        (connect_error r, mkRunning n lastID (match r with VerifyPanicked => true | _ => false end) w)
    end.

(** The default poll function fetches the state and drops it. *)
Definition pollFn (m : SSEManager) (nodeID : string) (s : running) : option go_error * running :=
  on_net (match m_poll m with Some fn => fn | None => net_FetchState nodeID end) s.

(** Nothing runs after a panic. *)
Definition manager_env (m : SSEManager) (nodeID : string) : Env running := {|
  env_ctxErr := fun s => if rn_crashed s then (true, s) else on_net net_ctxErr s;
  env_connect := connectFn m nodeID;
  env_poll := pollFn m nodeID;
  env_now := on_net net_now;
  env_rand := on_net net_rand;
  env_wait := fun d => on_net (net_wait d);
  env_onAuthFailure := fun s => s
|}.

(** [None]: still running after [fuel] rounds. *)
Definition Start (fuel : nat) (m : SSEManager) (nodeID : string) (n : N) (w : W)
    : outcome (option go_error) * running :=
  let '(err, _, s) := Run (H := manager_env m nodeID) fuel (m_reconnect m) (mkRunning n "" false w) in
  (if rn_crashed s then Panics else Returns err, s).

(** ** Traces *)

(** Every envelope that was verified, with its readings and whether it was
    accepted; the handlers run for the accepted ones only. *)
Record verified := mkVerified { vd_env : SignedEnvelope; vd_clock : readings; vd_accepted : bool }.

Inductive trace (d : EventDispatcher (W := W) (E := X)) : W -> list verified -> W -> Prop :=
| trace_end w : trace d w [] w
| trace_reject w e c l w' :
    (Verify (get_verifier w) e c).1 <> Returns None ->
    trace d (set_verifier (Verify (get_verifier w) e c).2 w) l w' ->
    trace d w (mkVerified e c false :: l) w'
| trace_accept w e c v l w' :
    Verify (get_verifier w) e c = (Returns None, v) ->
    trace d (Dispatch d e (set_verifier v w)) l w' ->
    trace d w (mkVerified e c true :: l) w'.

(** Handlers touch the verifier only by replacing its keys. *)
Definition rotates (d : EventDispatcher (W := W) (E := X)) : Prop := forall et hs h e w,
  dp_handlers d !! et = Some hs -> h ∈ hs ->
  get_verifier (h e w).2 = get_verifier w \/
  exists k p t, get_verifier (h e w).2 = SetKeys (get_verifier w) k p t.

(** The readings of one verification after the other do not go back. *)
Fixpoint forward (now : Z) (l : list verified) : Prop :=
  match l with
  | [] => True
  | x :: l => now <= t_since (vd_clock x) /\ ordered (vd_clock x) /\ forward (t_cleaned (vd_clock x)) l
  end.

Fixpoint end_of (now : Z) (l : list verified) : Z :=
  match l with [] => now | x :: l => end_of (t_cleaned (vd_clock x)) l end.

(** The end of the envelope's five minutes falls between two readings of the
    clock in its verification. *)
Definition straddles (x : verified) : Prop :=
  t_since (vd_clock x) <= ev_IssuedAt (vd_env x) + DefaultStalenessWindow < t_cutoff (vd_clock x).

Definition dispatched (l : list verified) : list SignedEnvelope :=
  vd_env <$> filter (fun x => vd_accepted x = true) l.

(** A log of the handlers: it grows with every dispatch and with nothing else. *)
Definition logs (d : EventDispatcher (W := W) (E := X)) (log : W -> list SignedEnvelope) : Prop :=
  (forall e w, log (Dispatch d e w) = log w ++ [e]) /\ (forall v w, log (set_verifier v w) = log w).

End manager.

(** ** The engine does nothing to the world but connect *)

Section related.
Context {V : Type} {env : Env V} (R : relation V) `{!PreOrder R}.
Hypothesis (Hctx : forall w, R w (env_ctxErr w).2) (Hconn : forall w, R w (env_connect w).2)
  (Hpoll : forall w, R w (env_poll w).2) (Hnow : forall w, R w (env_now w).2)
  (Hrand : forall w, R w (env_rand w).2) (Hwait : forall d w, R w (env_wait d w).2)
  (Hauth : forall w, R w (env_onAuthFailure w)).

(** Split the next call of the environment and record that its result is
    related to what was before. *)
Ltac call op w x w' H :=
  pose proof (op w) as H; match type of H with R _ ?t.2 => destruct t as [x w'] end; cbn [snd] in H.

Lemma polling_related fuel r w : R w (runPollingFallback fuel r w).2.
Proof.
  revert w. induction fuel as [|fuel IH]; intros w; cbn [runPollingFallback]; [done|].
  call Hctx w c w1 H1. destruct c; [done|].
  call Hpoll w1 perr w2 H2.
  assert (H3 : R w2 (match perr with Some _ => env_ctxErr w2 | None => (false, w2) end).2) by (by destruct perr).
  destruct (match perr with Some _ => _ | None => _ end) as [c w3]. cbn in H3.
  destruct c; [by repeat (etransitivity; [eassumption|])|].
  pose proof (Hwait (re_pollInterval r) w3) as H4. destruct (env_wait _ w3) as [c w4]. cbn in H4.
  assert (R w w4) by (repeat (etransitivity; [eassumption|]); done).
  destruct c; [done|]. call Hconn w4 e w5 H5. destruct e as [e|]; [|by transitivity w4].
  call Hctx w5 c w6 H6. assert (R w w6) by (transitivity w4; [done|by transitivity w5]).
  destruct c; [done|]. case_decide; [done|]. by transitivity w6.
Qed.

Lemma wait_related d w : R w (wait d w).2.
Proof. unfold wait. pose proof (Hwait d w) as H'. by destruct (env_wait d w). Qed.

Lemma connectError_related fuel r err w : R w (handleConnectError fuel r err w).2.
Proof.
  unfold handleConnectError. destruct (ClassifyError err).
  - unfold handleTransientError.
    assert (H1 : R w (if is_zero_time (re_failingSince r)
      then let '(t, w) := env_now w in (set_failingSince r t, w) else (r, w)).2).
    { destruct (is_zero_time _); [|done]. pose proof (Hnow w). by destruct (env_now w). }
    destruct (if is_zero_time _ then _ else _) as [r1 w1]. cbn in H1.
    call Hnow w1 t w2 H2. assert (R w w2) by (by transitivity w1). case_decide.
    + pose proof (polling_related fuel r1 w2) as H3.
      destruct (runPollingFallback fuel r1 w2) as [[[?|]|] w3]; cbn in *; by transitivity w2.
    + call Hrand w2 k w3 H3. pose proof (wait_related (jitter (re_currentInterval r1) k) w3) as H4.
      assert (R w w3) by (by transitivity w2).
      destruct (wait _ w3) as [[?|] w4]; cbn in *; by transitivity w3.
  - unfold handleAuthFailure. cbn. by destruct (re_onAuthFailure r).
  - unfold handleRateLimit. match goal with |- context [wait ?d w] => pose proof (wait_related d w) as H' end.
    by destruct (wait _ w).
  - done.
Qed.

Lemma Run_related fuel r w : R w (Run fuel r w).2.
Proof.
  unfold Run. generalize (resetBackoff r) as eng. revert w.
  induction fuel as [|fuel IH]; intros w eng; cbn [Run_loop]; [done|].
  call Hctx w c w1 H1. destruct c; [done|]. call Hconn w1 e w2 H2.
  assert (R w w2) by (by transitivity w1). destruct e as [e|]; [|by transitivity w2].
  call Hctx w2 c w3 H3. assert (R w w3) by (by transitivity w2). destruct c; [done|].
  pose proof (connectError_related fuel eng e w3) as H4.
  destruct (handleConnectError fuel eng e w3) as [[[[?|]|] r'] w4]; cbn in *; (by transitivity w3) ||
    (transitivity w4; [by transitivity w3|done]).
Qed.

End related.

(** ** No event twice *)

Section theorems.
Context {W X N : Type} `{HasVerifier W} `{SigScheme} `{Net N}.
Context (unmarshal : string -> option SignedEnvelope).

Lemma trace_app (d : EventDispatcher (W := W) (E := X)) w l w' l' w'' : trace d w l w' -> trace d w' l' w'' -> trace d w (l ++ l') w''.
Proof. induction 1; cbn; eauto using trace. Qed.

Lemma delivery_trace (d : EventDispatcher (W := W) (E := X)) clock k w w' lo hi : delivery d clock k w w' ->
  (forall i, (i < k)%nat -> ordered (clock i) /\ t_cleaned (clock i) <= hi /\
     forall j, (j < i)%nat -> t_cleaned (clock i) <= t_since (clock j)) ->
  (forall i, (i < k)%nat -> lo <= t_since (clock i)) -> lo <= hi ->
  exists l, trace d w l w' /\ forward lo l /\ end_of lo l <= hi.
Proof.
  intros Hd. revert lo. induction Hd as [k w|k i w e w' Hi Hv _ IH|k i w e v w' Hi Hv _ IH]; intros lo Hc Hlo Hh.
  { exists []. split_and!; [constructor|done|done]. }
  all: destruct (Hc i Hi) as (Ho & Hhi & Hj); (destruct (IH (t_cleaned (clock i))) as (l & Ht & Hf & He);
    [intros j ?; apply Hc; lia|done|done|]).
  - exists (mkVerified e (clock i) false :: l). split_and!; [by constructor| |done]. cbn. auto.
  - exists (mkVerified e (clock i) true :: l). split_and!; [by eapply trace_accept| |done]. cbn. auto.
Qed.

Lemma trace_split (d : EventDispatcher (W := W) (E := X)) l : forall w l' w', trace d w (l ++ l') w' ->
  exists w1, trace d w l w1 /\ trace d w1 l' w'.
Proof.
  induction l as [|x l IH]; intros w l' w' Ht; [eauto using trace|]. cbn in Ht.
  inversion Ht as [|? e c ? ? Hv Hr|? e c v ? ? Hv Hr]; subst; apply IH in Hr as (w1 & Hl & Hr); eauto using trace.
Qed.

(** The calls of the verifier that a key rotation makes. *)
Definition rotations (ks : list (list Z * list Z * Z)) : list Verifier.call :=
  (fun '(k, p, t) => CSetKeys k p t) <$> ks.

Lemma clock_runs_rotations now ks l later : clock_runs now (rotations ks ++ l) later <-> clock_runs now l later.
Proof. by induction ks as [|[[k p] t] ks IH]. Qed.

Lemma Dispatch_verifier (d : EventDispatcher (W := W) (E := X)) e w : rotates d ->
  exists ks, get_verifier (Dispatch d e w) = foldl exec (get_verifier w) (rotations ks).
Proof.
  intros Hr. unfold Dispatch. destruct (dp_handlers d !! _) as [hs|] eqn:Eh; [|by exists []].
  assert (Hin : forall h, h ∈ hs -> h ∈ hs) by done. revert Hin.
  generalize hs at 1 3 as l. intros l. revert w. induction l as [|h l IH]; intros w Hl; [by exists []|]. cbn [foldl].
  destruct (IH (h e w).2) as [ks Hks]; [intros h' ?; apply Hl; by right|]. rewrite Hks.
  destruct (Hr _ hs h e w Eh) as [->|(k & p & t & ->)]; [apply Hl; left|by exists ks|by exists ((k, p, t) :: ks)].
Qed.

(** Along a trace the verifier sees the verifications and rotations, with the
    clock of the trace. *)
Lemma trace_calls (d : EventDispatcher (W := W) (E := X)) w l w' : rotates d -> trace d w l w' ->
  forall now, forward now l -> exists calls, get_verifier w' = foldl exec (get_verifier w) calls /\
    forall later, end_of now l <= later -> clock_runs now calls later.
Proof.
  intros Hr. induction 1 as [w|w e c l w' Hv _ IH|w e c v l w' Hv _ IH]; intros now; cbn [forward end_of vd_clock].
  - intros _. by exists [].
  - intros (Hn & Ho & Hf). destruct (IH _ Hf) as (calls & Hg & Hc). exists (CVerify e c :: calls).
    rewrite get_set_verifier in Hg. split; [done|]. intros later Hl. cbn. eauto.
  - intros (Hn & Ho & Hf). destruct (IH _ Hf) as (calls & Hg & Hc).
    destruct (Dispatch_verifier d e (set_verifier v w) Hr) as [ks Hks]. rewrite get_set_verifier in Hks.
    exists (CVerify e c :: rotations ks ++ calls). cbn [foldl exec]. rewrite Hv. cbn [snd]. rewrite foldl_app, <- Hks. split; [done|].
    intros later Hl. cbn. split_and!; [done|done|]. apply clock_runs_rotations. eauto.
Qed.

Lemma forward_app now l l' : forward now (l ++ l') <-> forward now l /\ forward (end_of now l) l'.
Proof. revert now. induction l as [|x l IH]; intros now; cbn; [tauto|]. rewrite IH. tauto. Qed.

Lemma forward_le now now' l : now <= now' -> forward now' l -> forward now l.
Proof. destruct l; cbn; [done|]. intros ? (? & ? & ?). split_and!; [lia|done|done]. Qed.

Lemma end_of_le now now' l : now <= now' -> end_of now l <= end_of now' l.
Proof. intros. by destruct l; cbn. Qed.

(** What has been dispatched is accepted later in the trace only as its five
    minutes end. *)
Lemma trace_fresh (d : EventDispatcher (W := W) (E := X)) w e c v l w' x : rotates d ->
  Verify (get_verifier w) e c = (Returns None, v) -> trace d (Dispatch d e (set_verifier v w)) l w' ->
  ordered c -> forward (t_cleaned c) l -> x ∈ l -> vd_accepted x = true ->
  ev_Nonce (vd_env x) = ev_Nonce e -> ev_IssuedAt (vd_env x) = ev_IssuedAt e -> straddles x.
Proof.
  intros Hr Hv Ht Ho Hf (l1 & l2 & ->)%list_elem_of_split Ha Hn Hi.
  apply trace_split in Ht as (wm & Ht1 & Ht2). apply forward_app in Hf as (Hf1 & Hf2).
  destruct (trace_calls d _ l1 wm Hr Ht1 _ Hf1) as (calls & Hg & Hc).
  destruct (Dispatch_verifier d e (set_verifier v w) Hr) as [ks Hks]. rewrite get_set_verifier in Hks.
  rewrite Hks, <- foldl_app in Hg.
  destruct x as [e' c' a]. cbn in *. subst a. destruct Hf2 as (Hlast & Ho' & _).
  inversion Ht2 as [|? ? ? ? ? Hv' _|? ? ? v' ? ? Hv' _]; subst.
  unfold straddles. cbn [vd_clock vd_env].
  destruct (decide (t_since c' <= ev_IssuedAt e' + DefaultStalenessWindow /\ ev_IssuedAt e' + DefaultStalenessWindow < t_cutoff c'))
    as [?|Hs]; [done|]. exfalso.
  refine (replay_rejected _ e c v (rotations ks ++ calls) e' c' Hv Ho _ Ho' Hn Hi _ _).
  - apply clock_runs_rotations. by apply Hc.
  - rewrite <- Hi. tauto.
  - by rewrite <- Hg, Hv'.
Qed.

Lemma trace_once (d : EventDispatcher (W := W) (E := X)) w l w' : rotates d -> trace d w l w' ->
  forall now, forward now l -> forall i j x y, (i < j)%nat -> l !! i = Some x -> l !! j = Some y ->
  vd_accepted x = true -> vd_accepted y = true ->
  ev_Nonce (vd_env y) = ev_Nonce (vd_env x) -> ev_IssuedAt (vd_env y) = ev_IssuedAt (vd_env x) -> straddles y.
Proof.
  intros Hr. induction 1 as [w|w e c l w' Hv _ IH|w e c v l w' Hv Ht IH]; intros now; cbn [forward vd_clock]; [done|..];
    intros (_ & Ho & Hf) [|i] [|j] x y Hij Hx Hy Ax Ay Hn Hi; try lia; cbn in Hx, Hy.
  - by injection Hx as <-.
  - apply (IH _ Hf i j x y); (done || lia).
  - injection Hx as <-. eapply (trace_fresh d w e c v l w' y); eauto using list_elem_of_lookup_2.
  - apply (IH _ Hf i j x y); (done || lia).
Qed.

Lemma trace_log (d : EventDispatcher (W := W) (E := X)) log w l w' : logs d log -> trace d w l w' ->
  log w' = log w ++ dispatched l.
Proof.
  intros [Hd Hs]. induction 1 as [w|w e c l w' Hv _ IH|w e c v l w' Hv Ht IH]; unfold dispatched.
  - by rewrite app_nil_r.
  - rewrite filter_cons_False by done. by rewrite IH, Hs.
  - rewrite filter_cons_True by done. rewrite IH, Hd, Hs, <- app_assoc. done.
Qed.

(** What a part of the run does: the verifications and dispatches of a trace
    whose readings lie between the times before and after it. *)
Definition advances `{!NetClock N} (d : EventDispatcher (W := W) (E := X)) (s s' : running (W := W) (N := N)) : Prop :=
  exists l, trace d (rn_world s) l (rn_world s') /\ forward (net_time (rn_net s)) l /\
    end_of (net_time (rn_net s)) l <= net_time (rn_net s').

Context `{!NetClock N}.

#[local] Instance advances_preorder d : PreOrder (advances d).
Proof.
  split.
  - intros s. exists []. split_and!; [constructor|done|done].
  - intros s1 s2 s3 (l1 & Ht1 & Hf1 & He1) (l2 & Ht2 & Hf2 & He2). exists (l1 ++ l2). split_and!; [by eapply trace_app|..].
    + apply forward_app. split; [done|]. by eapply forward_le.
    + assert (E : forall now, end_of now (l1 ++ l2) = end_of (end_of now l1) l2)
        by (clear; induction l1 as [|x l1 IH]; intros now; cbn; [done|apply IH]).
      rewrite E. etransitivity; [by apply end_of_le|done].
Qed.

Lemma on_net_advances {A} d (f : N -> A * N) s : (forall n, net_time n <= net_time (f n).2) -> advances d s (on_net f s).2.
Proof.
  intros Hf. specialize (Hf (rn_net s)). unfold on_net. destruct (f (rn_net s)). exists [].
  split_and!; [constructor|done|done].
Qed.

Lemma connectFn_advances (m : SSEManager (W := W) (X := X) (N := N)) nodeID s :
  advances (m_dispatcher m) s (connectFn unmarshal m nodeID s).2.
Proof.
  unfold connectFn. destruct (rn_crashed s); [done|].
  pose proof (time_ConnectSSE nodeID (rn_lastID s) (rn_net s)) as Hm.
  pose proof (fun c n' i => time_readings nodeID (rn_lastID s) (rn_net s) c n' i) as Hc.
  destruct (net_ConnectSSE _ _ _) as [[c|e] n]; [|exists []; split_and!; [constructor|done|done]].
  pose proof (Connect_delivery (E := go_error) unmarshal (m_dispatcher m) (Ok (cn_resp c)) (rn_lastID s)
    (cn_ctx c) (cn_clock c) (rn_world s)) as Hd.
  destruct (Connect _ _ _ _ _ _ _) as [[r id] w]. destruct Hd as [_ [k Hd]].
  eapply delivery_trace; [exact Hd|..]; cbn.
  - intros i _. destruct (Hc c n i eq_refl) as (? & _ & ? & ?). done.
  - intros i _. by destruct (Hc c n i eq_refl) as (_ & ? & _).
  - done.
Qed.

(** ** Theorems *)

(** C14. Over the whole life of the stream, through reconnects, polling and key
    rotations, the handlers run only for envelopes that were verified just
    before, in the order of the verifications, and for none of them twice, with
    one exception: an envelope that is sent again exactly as it becomes five
    minutes old, between two readings of the clock.  Whatever log the handlers
    keep shows just these envelopes.  The system's clock does not go back
    ([NetClock]) and handlers touch the verifier only to replace its keys, as
    those of [plexd up] do. *)
Theorem Start_dispatches_once fuel m nodeID n w : rotates (m_dispatcher m) ->
  (forall fn n, m_poll m = Some fn -> net_time n <= net_time (fn n).2) ->
  exists l, trace (m_dispatcher m) w l (rn_world (Start (X := X) unmarshal fuel m nodeID n w).2) /\
    forward (net_time n) l /\
    (forall log, logs (m_dispatcher m) log ->
       log (rn_world (Start unmarshal fuel m nodeID n w).2) = log w ++ dispatched l) /\
    forall i j x y, (i < j)%nat -> l !! i = Some x -> l !! j = Some y -> vd_accepted x = true -> vd_accepted y = true ->
      ev_Nonce (vd_env y) = ev_Nonce (vd_env x) -> ev_IssuedAt (vd_env y) = ev_IssuedAt (vd_env x) -> straddles y.
Proof.
  intros Hr Hpoll.
  assert (HR : advances (m_dispatcher m) (mkRunning n "" false w) (Start unmarshal fuel m nodeID n w).2).
  { unfold Start. pose proof (Run_related (env := manager_env unmarshal m nodeID) (advances (m_dispatcher m))) as Hrun.
    specialize (Hrun ltac:(intros s; cbn; destruct (rn_crashed s); [done|apply on_net_advances, time_ctxErr])).
    specialize (Hrun ltac:(intros s; apply connectFn_advances)).
    specialize (Hrun ltac:(intros s; apply on_net_advances; destruct (m_poll m); [eauto|apply time_FetchState])).
    specialize (Hrun ltac:(intros; apply on_net_advances, time_now) ltac:(intros; apply on_net_advances, time_rand)
      ltac:(intros; apply on_net_advances, time_wait) ltac:(done) fuel (m_reconnect m) (mkRunning n "" false w)).
    by destruct (Run _ _ _) as [[err r] s]. }
  destruct HR as (l & Hl & Hf & _). exists l. split_and!; [exact Hl|exact Hf| |].
  - intros log Hlog. by eapply trace_log.
  - by eapply trace_once.
Qed.

End theorems.

(** ** Witness: two connections deliver the same event *)

Definition log_world : Type := Ed25519Verifier * list string.
#[local] Instance log_verifier : HasVerifier log_world := {|
  get_verifier := fst; set_verifier := fun v w => (v, w.2); get_set_verifier := fun _ _ => eq_refl |}.
#[local] Existing Instance ex_scheme.

Definition ex_unmarshal (s : string) : option SignedEnvelope := if decide (s = "E") then Some ex_envelope else None.
Definition ex_log_handler : EventHandler (W := log_world) (E := string) := fun e w => (None, (w.1, ev_EventID e :: w.2)).

(** The network: connections left. *)
Definition ex_body : string := String.append "data: E" (String "010"%char (String "010"%char "")).
#[local] Instance ex_net : Net nat := {|
  net_ctxErr := fun n => (bool_decide (n = 0%nat), n);
  net_ConnectSSE := fun _ _ n => (Ok (mkConnection (mkResponse ex_body false) (fun _ => false)
    (fun _ => at_time (ex_issued + second))), Nat.pred n);
  net_FetchState := fun _ n => (None, n);
  net_now := fun n => (0, n);
  net_rand := fun n => (0, n);
  net_wait := fun _ n => (false, n)
|}.

Definition ex_manager : SSEManager (W := log_world) (X := string) (N := nat) :=
  RegisterHandler (ev_EventType ex_envelope) ex_log_handler NewSSEManager.

Lemma ex_rotates : rotates (m_dispatcher ex_manager).
Proof.
  intros et hs h e w Hl Hh. left. unfold ex_manager in Hl. cbn in Hl.
  apply lookup_insert_Some in Hl as [[_ <-]|[_ Hl]]; [|by rewrite lookup_empty in Hl].
  rewrite lookup_empty in Hh. cbn in Hh. by apply list_elem_of_singleton in Hh as ->.
Qed.

#[local] Instance ex_net_clock : NetClock nat.
Proof.
  refine {| net_time := fun _ => ex_issued + second |}; try done.
  intros id last n c n' i [= <- <-]. cbn. unfold ordered. cbn. split_and!; try done.
Defined.

(** The same event arrives on two connections; its handler runs once. *)
Lemma Start_dispatches_once_witness :
  (Start ex_unmarshal 5 ex_manager "n1" 2%nat (ex_verifier, [])).1 = Returns (Some EContext) /\
  (rn_world (Start ex_unmarshal 5 ex_manager "n1" 2%nat (ex_verifier, [])).2).2 = [ev_EventID ex_envelope] /\
  exists l, trace (m_dispatcher ex_manager) (ex_verifier, []) l
    (rn_world (Start ex_unmarshal 5 ex_manager "n1" 2%nat (ex_verifier, [])).2) /\ forward (net_time 2%nat) l.
Proof.
  split_and!; [by vm_compute|by vm_compute|].
  destruct (Start_dispatches_once (N := nat) ex_unmarshal 5 ex_manager "n1" 2%nat (ex_verifier, []) ex_rotates
    ltac:(done)) as (l & Ht & Hf & _).
  by exists l.
Defined.
