(* ===== verification/Stun.v ===== *)
(** * STUN messages (src/internal/nat/stun.go)

    The binding request and the parser of binding responses, on byte lists.
    The theorems: the parser inverts the encoding of RFC 5389 responses, it
    accepts nothing that does not answer the request, and exactly how its
    slicing can panic. *)

From stdpp Require Import base strings list.
From S2P Require Import Prelude Base64.

Record MappedAddress := mkMapped { ma_IP : list Z; ma_Port : Z }.
#[global] Instance MappedAddress_eq_dec : EqDecision MappedAddress.
Proof. solve_decision. Defined.

Inductive NATType := NATNone | NATFullCone | NATSymmetric | NATUnknown.
#[global] Instance NATType_eq_dec : EqDecision NATType.
Proof. solve_decision. Defined.

Definition NATType_string (t : NATType) : string :=
  match t with
  | NATNone => "none"
  | NATFullCone => "full_cone"
  | NATSymmetric => "symmetric"
  | NATUnknown => "unknown"
  end.

(** 0x2112A442, 0x0001, 0x0101, 0x0001, 0x0020, 0x01. *)
Definition stunMagicCookie : Z := 554869826.
Definition stunBindingRequest : Z := 1.
Definition stunBindingSuccessResponse : Z := 257.
Definition stunAttrMappedAddress : Z := 1.
Definition stunAttrXORMappedAddress : Z := 32.
Definition stunFamilyIPv4 : Z := 1.

(** ** Big-endian fields and slices *)

Definition PutUint16 (v : Z) : list Z := [v / 256 mod 256; v mod 256].
Definition PutUint32 (v : Z) : list Z :=
  [v / 16777216 mod 256; v / 65536 mod 256; v / 256 mod 256; v mod 256].

Definition byte_at (l : list Z) (i : nat) : Z := default 0 (l !! i).
Definition Uint16 (l : list Z) : Z := byte_at l 0 * 256 + byte_at l 1.
Definition Uint32 (l : list Z) : Z :=
  byte_at l 0 * 16777216 + byte_at l 1 * 65536 + byte_at l 2 * 256 + byte_at l 3.

(** [l[lo:hi]] and [l[lo:]]: out-of-range bounds panic. *)
Definition slice (l : list Z) (lo hi : Z) : outcome (list Z) :=
  if decide (0 <= lo <= hi /\ hi <= Z.of_nat (length l))
  then Returns (take (Z.to_nat (hi - lo)) (drop (Z.to_nat lo) l)) else Panics.
Definition slice_from (l : list Z) (lo : Z) : outcome (list Z) := slice l lo (Z.of_nat (length l)).

(** ** The request *)

Definition buildBindingRequest (transactionID : list Z) : list Z :=
  PutUint16 stunBindingRequest ++ PutUint16 0 ++ PutUint32 stunMagicCookie ++ take 12 transactionID.

(** ** The response *)

Inductive error :=
| ResponseTooShort
| InvalidCookie (cookie : Z)
| TransactionMismatch
| UnexpectedType (t : Z)
| BodyTooShort
| XORAddressTooShort
| MappedAddressTooShort
| UnsupportedFamily (f : Z)
| NoAddress.

Definition parseXORMappedAddress (val : list Z) : result error MappedAddress :=
  if decide (length val < 8)%nat then Err XORAddressTooShort
  else
    let family := byte_at val 1 in
    if decide (family <> stunFamilyIPv4) then Err (UnsupportedFamily family)
    else
      let xorPort := Uint16 (drop 2 val) in
      let port := Z.lxor xorPort (Z.shiftr stunMagicCookie 16) in
      let ip := zip_with Z.lxor (take 4 (drop 4 val)) (PutUint32 stunMagicCookie) in
      Ok (mkMapped ip port).

Definition parseMappedAddress (val : list Z) : result error MappedAddress :=
  if decide (length val < 8)%nat then Err MappedAddressTooShort
  else
    let family := byte_at val 1 in
    if decide (family <> stunFamilyIPv4) then Err (UnsupportedFamily family)
    else Ok (mkMapped (take 4 (drop 4 val)) (Uint16 (drop 2 val))).

(** Length of an attribute value with its padding. *)
Definition padded (attrLen : Z) : Z :=
  if decide (attrLen mod 4 <> 0) then attrLen + (4 - attrLen mod 4) else attrLen.

(** The attribute loop.  [None]: out of fuel; each round drops at least four
    bytes, so the number of bytes is enough. *)
Fixpoint parse_attrs (fuel : nat) (attrs : list Z) (mapped : option MappedAddress)
    : option (outcome (result error MappedAddress)) :=
  match fuel with
  | O => None
  | S fuel =>
      let finish := Some (Returns (match mapped with Some m => Ok m | None => Err NoAddress end)) in
      if decide (length attrs < 4)%nat then finish
      else
        let attrType := Uint16 attrs in
        let attrLen := Uint16 (drop 2 attrs) in
        if decide (attrLen > Z.of_nat (length attrs) - 4) then finish
        else
          match slice attrs 4 (wrap_u 16 (4 + attrLen)) with
          | Panics => Some Panics
          | Returns attrVal =>
              let next := fun mapped =>
                match slice_from attrs (4 + padded attrLen) with
                | Panics => Some Panics
                | Returns attrs => parse_attrs fuel attrs mapped
                end in
              if decide (attrType = stunAttrXORMappedAddress) then
                Some (Returns (parseXORMappedAddress attrVal))
              else if decide (attrType = stunAttrMappedAddress) then
                match parseMappedAddress attrVal with
                | Err e => Some (Returns (Err e))
                | Ok addr => next (Some addr)
                end
              else next mapped
          end
  end.

Definition parseBindingResponse (data transactionID : list Z)
    : option (outcome (result error MappedAddress)) :=
  if decide (length data < 20)%nat then Some (Returns (Err ResponseTooShort))
  else
    let msgType := Uint16 data in
    let msgLen := Uint16 (drop 2 data) in
    let cookie := Uint32 (drop 4 data) in
    if decide (cookie <> stunMagicCookie) then Some (Returns (Err (InvalidCookie cookie)))
    else if decide (take 12 (drop 8 data) <> transactionID) then
      Some (Returns (Err TransactionMismatch))
    else if decide (msgType <> stunBindingSuccessResponse) then
      Some (Returns (Err (UnexpectedType msgType)))
    else
      let attrs := drop 20 data in
      if decide (msgLen > Z.of_nat (length attrs)) then Some (Returns (Err BodyTooShort))
      else
        let attrs := take (Z.to_nat msgLen) attrs in
        parse_attrs (S (length attrs)) attrs None.

(** ** Encoding a response (RFC 5389) *)

(** Type-length-value with zero padding to a multiple of four. *)
Definition encode_attr (t : Z) (v : list Z) : list Z :=
  PutUint16 t ++ PutUint16 (Z.of_nat (length v)) ++ v ++
  replicate (Z.to_nat (padded (Z.of_nat (length v)) - Z.of_nat (length v))) 0.

Definition encode_xor_address (a : MappedAddress) : list Z :=
  encode_attr stunAttrXORMappedAddress
    ([0; stunFamilyIPv4] ++ PutUint16 (Z.lxor (ma_Port a) (Z.shiftr stunMagicCookie 16)) ++
     zip_with Z.lxor (ma_IP a) (PutUint32 stunMagicCookie)).

Definition encode_response (tx attrs : list Z) : list Z :=
  PutUint16 stunBindingSuccessResponse ++ PutUint16 (Z.of_nat (length attrs)) ++
  PutUint32 stunMagicCookie ++ tx ++ attrs.

(** A list of attributes other than the two address ones. *)
Definition other_attrs (l : list (Z * list Z)) : Prop :=
  Forall (fun a => 0 <= a.1 < 65536 /\ a.1 <> stunAttrXORMappedAddress /\
                   a.1 <> stunAttrMappedAddress) l.
Definition encode_attrs (l : list (Z * list Z)) : list Z :=
  l ≫= (fun a => encode_attr a.1 a.2).

(** ** Lemmas *)

Lemma Uint16_Put v l : 0 <= v < 65536 -> Uint16 (PutUint16 v ++ l) = v.
Proof.
  intros Hv. unfold Uint16, PutUint16, byte_at. simpl.
  rewrite (Z.mod_small (v / 256)) by (split; [apply Z.div_pos|apply Z.div_lt_upper_bound]; lia).
  pose proof (Z.div_mod v 256 ltac:(lia)). lia.
Qed.

Lemma padded_bounds n : 0 <= n -> n <= padded n < n + 4 /\ padded n mod 4 = 0.
Proof. intros Hn. unfold padded. case_decide; Z.to_euclidean_division_equations; lia. Qed.

Lemma Uint16_range l : Forall byte_ok l -> 0 <= Uint16 l < 65536.
Proof.
  intros Hl. unfold Uint16, byte_at.
  assert (Hb : forall i, 0 <= default 0 (l !! i) < 256).
  { intros i. destruct (l !! i) as [b|] eqn:E; simpl; [|lia]. exact (Forall_lookup_1 _ _ _ _ Hl E). }
  pose proof (Hb 0%nat). pose proof (Hb 1%nat). lia.
Qed.

(** One round of the loop never overflows the 16-bit sum of a slice bound. *)
Lemma attr_slice attrs n :
  (Z.of_nat (length attrs) < 65536) -> 0 <= n <= Z.of_nat (length attrs) - 4 ->
  slice attrs 4 (wrap_u 16 (4 + n)) = Returns (take (Z.to_nat n) (drop 4 attrs)).
Proof.
  intros Hl Hn. unfold slice. rewrite wrap_u_id by (change (2 ^ 16) with 65536; lia).
  rewrite decide_True by lia. replace (4 + n - 4) with n by lia. done.
Qed.

Lemma attr_slice_from attrs n :
  0 <= n <= Z.of_nat (length attrs) ->
  slice_from attrs n = Returns (drop (Z.to_nat n) attrs).
Proof.
  intros Hn. unfold slice_from, slice. rewrite decide_True by lia. f_equal.
  apply take_ge. rewrite length_drop. lia.
Qed.

Lemma slice_from_Returns l n r :
  slice_from l n = Returns r -> 0 <= n <= Z.of_nat (length l) /\ r = drop (Z.to_nat n) l.
Proof.
  unfold slice_from, slice. case_decide as Hd; [|done]. intros [= <-].
  split; [lia|]. apply take_ge. rewrite length_drop. lia.
Qed.

(** The number of bytes left is enough fuel. *)
Lemma parse_attrs_total fuel : forall attrs m,
  Forall byte_ok attrs -> (length attrs < fuel)%nat -> is_Some (parse_attrs fuel attrs m).
Proof.
  induction fuel as [|fuel IH]; intros attrs m Hb Hf; [lia|]. cbn [parse_attrs].
  case_decide as H4; [eauto|]. case_decide as Hlen; [eauto|].
  destruct (slice _ _ _) as [v|]; [|eauto].
  assert (Hnext : forall m', is_Some (match slice_from attrs (4 + padded (Uint16 (drop 2 attrs))) with
     | Panics => Some Panics | Returns a => parse_attrs fuel a m' end)).
  { intros m'. destruct (slice_from _ _) as [r|] eqn:E; [|eauto].
    apply slice_from_Returns in E as [Hn ->].
    pose proof (Uint16_range (drop 2 attrs) (Forall_drop _ _ _ Hb)) as Hr.
    destruct (padded_bounds _ (proj1 Hr)) as [Hp _].
    apply IH; [by apply Forall_drop|]. rewrite length_drop. lia. }
  case_decide; [eauto|]. case_decide; [destruct (parseMappedAddress v); eauto|eauto].
Qed.

(** On a body whose length is a multiple of four no slice is out of range. *)
Lemma parse_attrs_aligned fuel : forall attrs m,
  Forall byte_ok attrs -> Z.of_nat (length attrs) < 65536 ->
  Z.of_nat (length attrs) mod 4 = 0 -> parse_attrs fuel attrs m <> Some Panics.
Proof.
  induction fuel as [|fuel IH]; intros attrs m Hb Hl Ha; [done|]. cbn [parse_attrs].
  case_decide as H4; [done|]. case_decide as Hlen; [done|].
  pose proof (Uint16_range (drop 2 attrs) (Forall_drop _ _ _ Hb)) as Hr.
  destruct (padded_bounds _ (proj1 Hr)) as [Hp Hp4].
  rewrite attr_slice by lia. set (n := padded _) in *.
  assert (Hn : 4 + n <= Z.of_nat (length attrs)) by (Z.to_euclidean_division_equations; lia).
  rewrite attr_slice_from by lia.
  assert (Hnext : forall m', parse_attrs fuel (drop (Z.to_nat (4 + n)) attrs) m' <> Some Panics).
  { intros m'. apply IH; [by apply Forall_drop|rewrite length_drop; lia|].
    rewrite length_drop, Nat2Z.inj_sub, Z2Nat.id by lia. Z.to_euclidean_division_equations; lia. }
  repeat case_decide; [done| |by apply Hnext].
  destruct (parseMappedAddress _); [by apply Hnext|done].
Qed.

Lemma length_encode_attr t v :
  Z.of_nat (length (encode_attr t v)) = 4 + padded (Z.of_nat (length v)).
Proof.
  pose proof (padded_bounds (Z.of_nat (length v)) ltac:(lia)).
  unfold encode_attr. rewrite !length_app, length_replicate. simpl. lia.
Qed.

Lemma encode_attr_fields t v rest :
  0 <= t < 65536 -> Z.of_nat (length v) < 65536 ->
  Uint16 (encode_attr t v ++ rest) = t /\
  Uint16 (drop 2 (encode_attr t v ++ rest)) = Z.of_nat (length v) /\
  take (length v) (drop 4 (encode_attr t v ++ rest)) = v /\
  drop (Z.to_nat (4 + padded (Z.of_nat (length v)))) (encode_attr t v ++ rest) = rest.
Proof.
  intros Ht Hv. pose proof (length_encode_attr t v) as Hlen.
  repeat split.
  - unfold encode_attr. rewrite <- app_assoc. by apply Uint16_Put.
  - unfold encode_attr. rewrite <- !app_assoc.
    change (drop 2 (PutUint16 t ++ ?l)) with l. apply Uint16_Put. lia.
  - unfold encode_attr. rewrite <- !app_assoc.
    change (drop 4 (PutUint16 t ++ PutUint16 ?n ++ ?l)) with l.
    by rewrite take_app_length.
  - rewrite <- Hlen, Nat2Z.id. apply drop_app_length.
Qed.

(** An attribute of another type is skipped. *)
Lemma parse_attrs_skip fuel t v rest m :
  0 <= t < 65536 -> t <> stunAttrXORMappedAddress -> t <> stunAttrMappedAddress ->
  Z.of_nat (length (encode_attr t v ++ rest)) < 65536 ->
  parse_attrs (S fuel) (encode_attr t v ++ rest) m = parse_attrs fuel rest m.
Proof.
  intros Ht Hx Hm Hl. pose proof (length_encode_attr t v) as Hlen.
  pose proof (padded_bounds (Z.of_nat (length v)) ltac:(lia)) as [Hp _].
  rewrite length_app in Hl.
  destruct (encode_attr_fields t v rest Ht ltac:(lia)) as (E1 & E2 & E3 & E4).
  cbn [parse_attrs]. rewrite E1, E2.
  rewrite decide_False by (rewrite length_app; lia).
  rewrite decide_False by (rewrite length_app; lia).
  rewrite attr_slice by (rewrite length_app; lia).
  rewrite !decide_False by done.
  by rewrite attr_slice_from, E4 by (rewrite length_app; lia).
Qed.

(** An XOR-MAPPED-ADDRESS attribute ends the loop. *)
Lemma parse_attrs_xor fuel v rest m :
  Z.of_nat (length (encode_attr stunAttrXORMappedAddress v ++ rest)) < 65536 ->
  parse_attrs (S fuel) (encode_attr stunAttrXORMappedAddress v ++ rest) m =
  Some (Returns (parseXORMappedAddress v)).
Proof.
  intros Hl. pose proof (length_encode_attr stunAttrXORMappedAddress v) as Hlen.
  pose proof (padded_bounds (Z.of_nat (length v)) ltac:(lia)) as [Hp _].
  rewrite length_app in Hl.
  destruct (encode_attr_fields stunAttrXORMappedAddress v rest ltac:(done) ltac:(lia))
    as (E1 & E2 & E3 & _).
  cbn [parse_attrs]. rewrite E1, E2.
  rewrite decide_False by (rewrite length_app; lia).
  rewrite decide_False by (rewrite length_app; lia).
  rewrite attr_slice by (rewrite length_app; lia).
  rewrite decide_True by done. by rewrite Nat2Z.id, E3.
Qed.

Lemma lxor_cancel a b : Z.lxor (Z.lxor a b) b = a.
Proof. by rewrite Z.lxor_assoc, Z.lxor_nilpotent, Z.lxor_0_r. Qed.

Lemma lxor_u16 a b : 0 <= a < 65536 -> 0 <= b < 65536 -> 0 <= Z.lxor a b < 65536.
Proof.
  intros Ha Hb. change 65536 with (2 ^ 16) in *. split.
  { apply Z.lxor_nonneg. lia. }
  destruct (decide (Z.lxor a b = 0)) as [->|Hz]; [lia|].
  assert (0 <= Z.lxor a b) by (apply Z.lxor_nonneg; lia).
  apply Z.log2_lt_pow2; [lia|].
  eapply Z.le_lt_trans; [apply Z.log2_lxor; lia|].
  apply Z.max_lub_lt; (destruct (decide (a = 0)) as [->|]; destruct (decide (b = 0)) as [->|];
    try (simpl; lia); apply Z.log2_lt_pow2; lia).
Qed.

Lemma parse_xor_value a :
  length (ma_IP a) = 4%nat -> 0 <= ma_Port a < 65536 ->
  parseXORMappedAddress ([0; stunFamilyIPv4] ++
     PutUint16 (Z.lxor (ma_Port a) (Z.shiftr stunMagicCookie 16)) ++
     zip_with Z.lxor (ma_IP a) (PutUint32 stunMagicCookie)) = Ok a.
Proof.
  intros Hip Hport. destruct a as [ip port]. simpl in Hip, Hport.
  destruct ip as [|i0 [|i1 [|i2 [|i3 [|]]]]]; try done.
  set (k := Z.shiftr stunMagicCookie 16). cbn [ma_IP ma_Port].
  set (x := Z.lxor port k).
  assert (Hx : 0 <= x < 65536) by (apply lxor_u16; [done|by subst k]).
  unfold parseXORMappedAddress. rewrite decide_False by (simpl; lia).
  rewrite decide_False by (intros H; by apply H).
  change (drop 2 ([0; stunFamilyIPv4] ++ ?l)) with l. rewrite Uint16_Put by done.
  subst x. fold k. rewrite lxor_cancel.
  change (drop 4 ([0; stunFamilyIPv4] ++ PutUint16 ?x ++ ?l)) with l.
  cbn [zip_with take PutUint32]. by rewrite !lxor_cancel.
Qed.

Lemma encode_response_fields tx attrs :
  length tx = 12%nat -> Z.of_nat (length attrs) < 65536 ->
  parseBindingResponse (encode_response tx attrs) tx = parse_attrs (S (length attrs)) attrs None.
Proof.
  intros Htx Hl. unfold parseBindingResponse, encode_response.
  rewrite decide_False by (rewrite !length_app; simpl; lia).
  change (drop 4 (PutUint16 ?a ++ PutUint16 ?b ++ ?l)) with l.
  rewrite decide_False by (intros H; by apply H).
  change (drop 8 (PutUint16 ?a ++ PutUint16 ?b ++ PutUint32 ?c ++ ?l)) with l.
  rewrite decide_False by (rewrite <- Htx, take_app_length; intros H; by apply H).
  rewrite Uint16_Put by done. rewrite decide_False by (intros H; by apply H).
  change (drop 2 (PutUint16 ?a ++ ?l)) with l. rewrite Uint16_Put by lia.
  replace (drop 20 _) with attrs.
  2:{ change 20%nat with (8 + 12)%nat. rewrite <- drop_drop.
      change (drop 8 (PutUint16 ?a ++ PutUint16 ?b ++ PutUint32 ?c ++ ?l)) with l.
      by rewrite <- Htx, drop_app_length. }
  rewrite decide_False by lia. by rewrite Nat2Z.id, take_ge by lia.
Qed.

Lemma parse_attrs_skips l : forall fuel rest m,
  other_attrs l -> Z.of_nat (length (encode_attrs l ++ rest)) < 65536 ->
  (length l <= fuel)%nat ->
  parse_attrs fuel (encode_attrs l ++ rest) m = parse_attrs (fuel - length l) rest m.
Proof.
  induction l as [|[t v] l IH]; intros fuel rest m Hl Hlen Hf.
  { cbn [length]. by rewrite Nat.sub_0_r. }
  cbn [length] in *. destruct fuel as [|fuel]; [lia|].
  change (encode_attrs ((t, v) :: l)) with (encode_attr t v ++ encode_attrs l) in *.
  inversion_clear Hl as [|?? (Ht & Hx & Hm) Hl'].
  rewrite <- app_assoc in Hlen |- *. rewrite parse_attrs_skip by done.
  change (S fuel - S (length l))%nat with (fuel - length l)%nat. apply IH; [done| |lia].
  revert Hlen. rewrite (length_app (encode_attr t v)). lia.
Qed.

Lemma length_encode_attrs l : (length l <= length (encode_attrs l))%nat.
Proof.
  induction l as [|[t v] l IH]; [simpl; lia|].
  change (encode_attrs ((t, v) :: l)) with (encode_attr t v ++ encode_attrs l).
  rewrite length_app. cbn [length].
  pose proof (length_encode_attr t v). pose proof (padded_bounds (Z.of_nat (length v)) ltac:(lia)).
  lia.
Qed.

Lemma length_encode_xor a :
  length (ma_IP a) = 4%nat -> length (encode_xor_address a) = 12%nat.
Proof.
  intros Hip. apply Nat2Z.inj. unfold encode_xor_address. rewrite length_encode_attr.
  by rewrite !length_app, length_zip_with, Hip.
Qed.

(** ** Theorems *)

(** C38. Round trip of STUN binding responses: a success response with the
    transaction id of the request, any attributes the client does not know
    (padded as the RFC asks), and an XOR-MAPPED-ADDRESS is parsed to exactly
    the address that was encoded, whatever follows it.  In particular the
    fuel of the loop is enough and no slice panics. *)
Theorem parse_encode_response tx known a rest :
  length tx = 12%nat -> other_attrs known ->
  length (ma_IP a) = 4%nat -> 0 <= ma_Port a < 65536 ->
  Z.of_nat (length (encode_attrs known ++ encode_xor_address a ++ rest)) < 65536 ->
  parseBindingResponse
    (encode_response tx (encode_attrs known ++ encode_xor_address a ++ rest)) tx =
  Some (Returns (Ok a)).
Proof.
  intros Htx Hk Hip Hport Hlen. rewrite encode_response_fields by done.
  pose proof (length_encode_attrs known). pose proof (length_encode_xor a Hip) as Hx.
  rewrite !length_app in *. rewrite parse_attrs_skips; [|done|rewrite !length_app; lia|lia].
  destruct (_ - length known)%nat as [|fuel] eqn:E; [lia|].
  unfold encode_xor_address in *. rewrite parse_attrs_xor by (rewrite length_app; lia).
  by rewrite parse_xor_value.
Qed.

Lemma parse_encode_response_witness :
  parseBindingResponse
    (encode_response [1;2;3;4;5;6;7;8;9;10;11;12]
       (encode_attrs [(32802, [97;98;99])] ++
        encode_xor_address (mkMapped [203;0;113;7] 51820) ++ [])) [1;2;3;4;5;6;7;8;9;10;11;12] =
  Some (Returns (Ok (mkMapped [203;0;113;7] 51820))).
Proof.
  apply (parse_encode_response [1;2;3;4;5;6;7;8;9;10;11;12] [(32802, [97;98;99])]
           (mkMapped [203;0;113;7] 51820) []).
  - reflexivity.
  - constructor; [|constructor]. vm_compute. repeat split; discriminate.
  - reflexivity.
  - vm_compute. split; [discriminate|reflexivity].
  - vm_compute. reflexivity.
Defined.

(** Only an answer to the request is accepted: when the parser returns an
    address, the message is at least a header long, is a binding success
    response, carries the magic cookie and the transaction id of the
    request, and its declared length fits the datagram. *)
Theorem parse_response_authentic data tx a :
  parseBindingResponse data tx = Some (Returns (Ok a)) ->
  (20 <= length data)%nat /\ Uint16 data = stunBindingSuccessResponse /\
  Uint32 (drop 4 data) = stunMagicCookie /\ take 12 (drop 8 data) = tx /\
  20 + Uint16 (drop 2 data) <= Z.of_nat (length data).
Proof.
  unfold parseBindingResponse. repeat (case_decide; [done|]). intros _.
  pose proof (length_drop data 20).
  split_and!; try done; lia.
Qed.

Lemma parse_response_authentic_witness :
  take 12 (drop 8 (encode_response [1;2;3;4;5;6;7;8;9;10;11;12]
       (encode_xor_address (mkMapped [203;0;113;7] 51820)))) = [1;2;3;4;5;6;7;8;9;10;11;12].
Proof.
  apply (parse_response_authentic _ [1;2;3;4;5;6;7;8;9;10;11;12] (mkMapped [203;0;113;7] 51820)).
  vm_compute. reflexivity.
Defined.

(** The parser always returns; it does not panic on a message whose
    length field is a multiple of four, as the RFC prescribes.  A response
    that ends in an unpadded attribute of another type, however, makes the
    slice past its padding panic (the caller has no recover). *)
Theorem parse_response_panics :
  (forall data tx, Forall byte_ok data ->
     exists r, parseBindingResponse data tx = Some r /\
       (Uint16 (drop 2 data) mod 4 = 0 -> r <> Panics)) /\
  (forall tx, length tx = 12%nat ->
     parseBindingResponse (encode_response tx [128; 34; 0; 1; 97]) tx = Some Panics).
Proof.
  split.
  - intros data tx Hb. unfold parseBindingResponse.
    repeat (case_decide; [eexists; split; [reflexivity|done]|]).
    set (body := take _ _).
    assert (Hbody : Forall byte_ok body) by (by apply Forall_take, Forall_drop).
    pose proof (Uint16_range _ (Forall_drop _ 2 _ Hb)) as Hr.
    assert (Hlen : Z.of_nat (length body) = Uint16 (drop 2 data)).
    { subst body. rewrite length_take. lia. }
    destruct (parse_attrs_total (S (length body)) body None Hbody ltac:(lia)) as [r Hres].
    exists r. split; [done|]. intros Ha ->.
    by apply (parse_attrs_aligned (S (length body)) body None Hbody) in Hres; [|lia|rewrite Hlen].
  - intros tx Htx. by rewrite encode_response_fields.
Qed.
