(* ===== verification/Netlink.v ===== *)
(** * The Linux implementation of the WireGuard controller
    (src/internal/wireguard/controller_linux.go)

    netlink, wgctrl and name resolution are parameters ([WGNet]), what the
    code relies on of them is [WGNetLaws].  The controller built on them is an
    instance of the interface the manager of WireGuard.v is proved against. *)

From stdpp Require Import base strings list gmap.
From S2P Require Import Prelude Base64 Net Types WireGuard.

(** ** wgctrl's configuration types *)

Record UDPAddr := mkUDPAddr { ua_IP : list Z; ua_Port : Z }.

(** [wgtypes.PeerConfig]; a nil pointer leaves the field of the device as it is. *)
Record WGPeerConfig := mkWGPeer {
  wp_PublicKey : list Z;
  wp_Remove : bool;
  wp_Endpoint : option UDPAddr;
  wp_ReplaceAllowedIPs : bool;
  wp_AllowedIPs : list IPNet;
  wp_PresharedKey : option (list Z);
  wp_PersistentKeepaliveInterval : option Z
}.

(** [wgtypes.Config]. *)
Record WGConfig := mkWGConfig {
  wc_PrivateKey : option (list Z);
  wc_ListenPort : option Z;
  wc_Peers : list WGPeerConfig
}.

(** What [netlink.LinkByName] returns: a link, a [LinkNotFoundError], another error. *)
Inductive link_result := LinkFound (index : Z) | LinkNotFound (msg : string) | LinkFailed (msg : string).

Class WGNet (W : Type) := {
  LinkAdd : string -> string -> W -> option string * W;
  LinkByName : string -> W -> link_result;
  LinkDel : Z -> W -> option string * W;
  LinkSetUp : Z -> W -> option string * W;
  LinkSetMTU : Z -> Z -> W -> option string * W;
  nl_ParseAddr : string -> result string IPNet;
  AddrAdd : Z -> IPNet -> W -> option string * W;
  wgctrl_New : W -> option string;
  NewKey : list Z -> result string (list Z);
  ResolveUDPAddr : string -> W -> result string UDPAddr;
  ConfigureDevice : string -> WGConfig -> W -> option string * W
}.

(** ** The controller

    An error message keeps the prefix the source gives it; what [%q] quotes is
    appended as it is. *)

Section controller.
Context {W : Type} `{WGNet W}.

Definition NL_CreateInterface (name : string) (privateKey : list Z) (listenPort : Z) (w : W)
    : option string * W :=
  match LinkAdd name "wireguard" w with
  | (Some e, w) => (Some (String.append "wireguard: create interface: " e), w)
  | (None, w) =>
      match wgctrl_New w with
      | Some e => (Some (String.append "wireguard: create interface: open wgctrl: " e), w)
      | None =>
          match NewKey privateKey with
          | Err e => (Some (String.append "wireguard: create interface: parse private key: " e), w)
          | Ok key =>
              match ConfigureDevice name (mkWGConfig (Some key) (Some listenPort) []) w with
              | (Some e, w) =>
                  (Some (String.append "wireguard: create interface: configure device: " e), w)
              | (None, w) => (None, w)
              end
          end
      end
  end.

Definition NL_DeleteInterface (name : string) (w : W) : option string * W :=
  match LinkByName name w with
  | LinkNotFound _ => (None, w)
  | LinkFailed e => (Some (String.append "wireguard: delete interface: " e), w)
  | LinkFound link =>
      match LinkDel link w with
      | (Some e, w) => (Some (String.append "wireguard: delete interface: " e), w)
      | (None, w) => (None, w)
      end
  end.

(** The link by name, or the prefixed error. *)
Definition with_link (name prefix : string) (w : W) (k : Z -> option string * W) : option string * W :=
  match LinkByName name w with
  | LinkNotFound e | LinkFailed e => (Some (String.append prefix e), w)
  | LinkFound link => k link
  end.

Definition NL_ConfigureAddress (name address : string) (w : W) : option string * W :=
  with_link name "wireguard: configure address: " w (fun link =>
    match nl_ParseAddr address with
    | Err e =>
        (Some (String.append "wireguard: configure address: parse " (String.append address e)), w)
    | Ok addr =>
        match AddrAdd link addr w with
        | (Some e, w) => (Some (String.append "wireguard: configure address: " e), w)
        | (None, w) => (None, w)
        end
    end).

Definition NL_SetInterfaceUp (name : string) (w : W) : option string * W :=
  with_link name "wireguard: set interface up: " w (fun link =>
    match LinkSetUp link w with
    | (Some e, w) => (Some (String.append "wireguard: set interface up: " e), w)
    | (None, w) => (None, w)
    end).

Definition NL_SetMTU (name : string) (mtu : Z) (w : W) : option string * W :=
  with_link name "wireguard: set mtu: " w (fun link =>
    match LinkSetMTU link mtu w with
    | (Some e, w) => (Some (String.append "wireguard: set mtu: " e), w)
    | (None, w) => (None, w)
    end).

(** The loop over [cfg.AllowedIPs]. *)
Fixpoint parse_allowed (cidrs : list string) (acc : list IPNet) : result string (list IPNet) :=
  match cidrs with
  | [] => Ok acc
  | cidr :: cidrs =>
      match ParseCIDR cidr with
      | None => Err (String.append "wireguard: add peer: parse allowed IP " cidr)
      | Some (_, ipNet) => parse_allowed cidrs (acc ++ [ipNet])
      end
  end.

(** The [wgtypes.PeerConfig] that [AddPeer] builds, up to the call of
    [ConfigureDevice]. *)
Definition build_peer (cfg : PeerConfig) (w : W) : result string WGPeerConfig :=
  match NewKey (pc_PublicKey cfg) with
  | Err e => Err (String.append "wireguard: add peer: parse public key: " e)
  | Ok pubKey =>
      let endpoint :=
        if decide (pc_Endpoint cfg <> "") then
          match ResolveUDPAddr (pc_Endpoint cfg) w with
          | Err e => Err (String.append "wireguard: add peer: resolve endpoint: " e)
          | Ok udpAddr => Ok (Some udpAddr)
          end
        else Ok None in
      match endpoint with
      | Err e => Err e
      | Ok endpoint =>
          match parse_allowed (pc_AllowedIPs cfg) [] with
          | Err e => Err e
          | Ok allowed =>
              let psk :=
                if decide (0 < length (default [] (pc_PSK cfg)))%nat then
                  match NewKey (default [] (pc_PSK cfg)) with
                  | Err e => Err (String.append "wireguard: add peer: parse psk: " e)
                  | Ok psk => Ok (Some psk)
                  end
                else Ok None in
              match psk with
              | Err e => Err e
              | Ok psk =>
                  let keepalive :=
                    if decide (pc_PersistentKeepalive cfg > 0)
                    then Some (wrap_int (pc_PersistentKeepalive cfg * second)) else None in
                  Ok (mkWGPeer pubKey false endpoint true allowed psk keepalive)
              end
          end
      end
  end.

Definition NL_AddPeer (iface : string) (cfg : PeerConfig) (w : W) : option string * W :=
  match wgctrl_New w with
  | Some e => (Some (String.append "wireguard: add peer: open wgctrl: " e), w)
  | None =>
      match build_peer cfg w with
      | Err e => (Some e, w)
      | Ok peerCfg =>
          match ConfigureDevice iface (mkWGConfig None None [peerCfg]) w with
          | (Some e, w) => (Some (String.append "wireguard: add peer: configure device: " e), w)
          | (None, w) => (None, w)
          end
      end
  end.

Definition NL_RemovePeer (iface : string) (publicKey : list Z) (w : W) : option string * W :=
  match wgctrl_New w with
  | Some e => (Some (String.append "wireguard: remove peer: open wgctrl: " e), w)
  | None =>
      match NewKey publicKey with
      | Err e => (Some (String.append "wireguard: remove peer: parse public key: " e), w)
      | Ok pubKey =>
          match ConfigureDevice iface
                  (mkWGConfig None None [mkWGPeer pubKey true None false [] None None]) w with
          | (Some e, w) => (Some (String.append "wireguard: remove peer: configure device: " e), w)
          | (None, w) => (None, w)
          end
      end
  end.

#[global] Instance netlink_controller : WGController W := {|
  ctrl_CreateInterface := NL_CreateInterface;
  ctrl_DeleteInterface := NL_DeleteInterface;
  ctrl_ConfigureAddress := NL_ConfigureAddress;
  ctrl_SetInterfaceUp := NL_SetInterfaceUp;
  ctrl_SetMTU := NL_SetMTU;
  ctrl_AddPeer := NL_AddPeer;
  ctrl_RemovePeer := NL_RemovePeer
|}.

End controller.

(** ** What the code relies on *)

(** A peer as the device has it. *)
Record dev_peer := mkDevPeer {
  dp_Endpoint : option UDPAddr;
  dp_AllowedIPs : list IPNet;
  dp_PresharedKey : option (list Z);
  dp_Keepalive : Z
}.

Definition fresh_peer : dev_peer := mkDevPeer None [] None 0.

(** The update of a peer by a [wgtypes.PeerConfig]: a nil field keeps the old value. *)
Definition merge_peer (p : WGPeerConfig) (old : dev_peer) : dev_peer :=
  mkDevPeer
    (match wp_Endpoint p with Some e => Some e | None => dp_Endpoint old end)
    (if wp_ReplaceAllowedIPs p then wp_AllowedIPs p else dp_AllowedIPs old ++ wp_AllowedIPs p)
    (match wp_PresharedKey p with Some k => Some k | None => dp_PresharedKey old end)
    (default (dp_Keepalive old) (wp_PersistentKeepaliveInterval p)).

(** Keys have 32 bytes; a configuration of one peer is all or nothing; it
    upserts or removes that peer and no other.  (The kernel moves an allowed
    IP that another peer had, so nothing is said of the others' fields.) *)
Class WGNetLaws (W : Type) `{WGNet W} := {
  dev : string -> W -> gmap (list Z) dev_peer;
  NewKey_ok : forall b k, NewKey b = Ok k -> k = b /\ length b = 32%nat;
  Configure_err : forall i p w e w',
    ConfigureDevice i (mkWGConfig None None [p]) w = (Some e, w') -> dev i w' = dev i w;
  Configure_add : forall i p w w',
    ConfigureDevice i (mkWGConfig None None [p]) w = (None, w') -> wp_Remove p = false ->
    dev i w' !! wp_PublicKey p =
      Some (merge_peer p (default fresh_peer (dev i w !! wp_PublicKey p))) /\
    dom (dev i w') = {[ wp_PublicKey p ]} ∪ dom (dev i w);
  Configure_remove : forall i p w w',
    ConfigureDevice i (mkWGConfig None None [p]) w = (None, w') -> wp_Remove p = true ->
    dev i w' = delete (wp_PublicKey p) (dev i w)
}.

(** ** Lemmas *)

Lemma parse_allowed_spec cidrs : forall acc r,
  parse_allowed cidrs acc = Ok r -> map Some r = map Some acc ++ map (fun c => snd <$> ParseCIDR c) cidrs.
Proof.
  induction cidrs as [|c cidrs IH]; intros acc r; simpl.
  { intros [= <-]. by rewrite app_nil_r. }
  destruct (ParseCIDR c) as [[ip n]|] eqn:E; [|done]. intros Hr%IH. rewrite Hr, map_app. simpl.
  by rewrite <- app_assoc.
Qed.

Section laws.
Context {W : Type} `{WGNetLaws W}.

(** What a built peer configuration is. *)
Lemma build_peer_ok cfg w p :
  build_peer cfg w = Ok p ->
  wp_PublicKey p = pc_PublicKey cfg /\ length (pc_PublicKey cfg) = 32%nat /\ wp_Remove p = false /\
  wp_ReplaceAllowedIPs p = true /\
  map Some (wp_AllowedIPs p) = map (fun c => snd <$> ParseCIDR c) (pc_AllowedIPs cfg) /\
  wp_PresharedKey p = (if decide (default [] (pc_PSK cfg) = []) then None else pc_PSK cfg) /\
  (if decide (pc_Endpoint cfg = "") then wp_Endpoint p = None
   else exists a, ResolveUDPAddr (pc_Endpoint cfg) w = Ok a /\ wp_Endpoint p = Some a) /\
  (pc_PersistentKeepalive cfg = 0 -> wp_PersistentKeepaliveInterval p = None).
Proof.
  unfold build_peer. destruct (NewKey (pc_PublicKey cfg)) as [k|] eqn:Ek; [|done].
  apply NewKey_ok in Ek as [-> Hlen].
  destruct (if decide (pc_Endpoint cfg <> "") then _ else _) as [ep|] eqn:Ee; [|done].
  destruct (parse_allowed _ _) as [al|] eqn:Ea; [|done]. apply parse_allowed_spec in Ea.
  destruct (if decide (0 < _)%nat then _ else _) as [psk|] eqn:Ep; [|done].
  intros [= <-]. split_and!; try done; simpl.
  - clear Ee Ea. case_decide as Hp; case_decide as Hq.
    + rewrite Hq in Hp. simpl in Hp. lia.
    + destruct (NewKey _) as [k|] eqn:E; [|done]. apply NewKey_ok in E as [-> _].
      injection Ep as <-. by destruct (pc_PSK cfg).
    + by injection Ep as <-.
    + destruct (default [] (pc_PSK cfg)); simpl in *; [done|lia].
  - clear Ep Ea. case_decide as Hp; case_decide as Hq; try done.
    + destruct (ResolveUDPAddr _ w) as [a|]; [|done]. injection Ee as <-. eauto.
    + by injection Ee as <-.
  - intros ->. done.
Qed.

Lemma NL_AddPeer_inv i cfg w w' :
  NL_AddPeer i cfg w = (None, w') ->
  exists p, build_peer cfg w = Ok p /\ ConfigureDevice i (mkWGConfig None None [p]) w = (None, w').
Proof.
  unfold NL_AddPeer. destruct (wgctrl_New w); [done|].
  destruct (build_peer cfg w) as [p|] eqn:Eb; [|done].
  destruct (ConfigureDevice _ _ w) as [[e|] w1] eqn:Ec; [done|]. intros [= <-]. eauto.
Qed.

Lemma NL_AddPeer_error i cfg w e w' : NL_AddPeer i cfg w = (Some e, w') -> dev i w' = dev i w.
Proof.
  unfold NL_AddPeer. destruct (wgctrl_New w); [by intros [= _ <-]|].
  destruct (build_peer cfg w) as [p|]; [|by intros [= _ <-]].
  destruct (ConfigureDevice _ _ w) as [[e'|] w1] eqn:Ec; [|done].
  intros [= _ <-]. by eapply Configure_err.
Qed.

Lemma NL_RemovePeer_inv i k w w' :
  NL_RemovePeer i k w = (None, w') -> dev i w' = delete k (dev i w).
Proof.
  unfold NL_RemovePeer. destruct (wgctrl_New w); [done|].
  destruct (NewKey k) as [k'|] eqn:Ek; [|done]. apply NewKey_ok in Ek as [-> _].
  destruct (ConfigureDevice _ _ w) as [[e'|] w1] eqn:Ec; [done|].
  intros [= <-]. by apply Configure_remove in Ec.
Qed.

Lemma NL_RemovePeer_error i k w e w' : NL_RemovePeer i k w = (Some e, w') -> dev i w' = dev i w.
Proof.
  unfold NL_RemovePeer. destruct (wgctrl_New w); [by intros [= _ <-]|].
  destruct (NewKey k) as [k'|]; [|by intros [= _ <-]].
  destruct (ConfigureDevice _ _ w) as [[e'|] w1] eqn:Ec; [|done].
  intros [= _ <-]. by eapply Configure_err.
Qed.

(** The Linux controller keeps the promises the manager relies on. *)
#[global] Instance netlink_laws : WGLaws W.
Proof.
  refine {| device_keys := fun i w => dom (dev i w) |}; simpl.
  - intros i cfg w w' (p & Hb & Hc)%NL_AddPeer_inv.
    destruct (build_peer_ok _ _ _ Hb) as (Ek & _ & Er & _). rewrite <- Ek.
    by destruct (Configure_add _ _ _ _ Hc Er).
  - intros i cfg w e w' He. by rewrite (NL_AddPeer_error _ _ _ _ _ He).
  - intros i k w w' Hr. by rewrite (NL_RemovePeer_inv _ _ _ _ Hr), dom_delete_L.
  - intros i k w e w' He. by rewrite (NL_RemovePeer_error _ _ _ _ _ He).
Defined.

End laws.

Lemma PeerConfigFromAPI_fields peer cfg :
  PeerConfigFromAPI peer = Ok cfg ->
  pc_Endpoint cfg = peer_Endpoint peer /\ pc_AllowedIPs cfg = peer_AllowedIPs peer /\
  pc_PersistentKeepalive cfg = 0 /\
  pc_PSK cfg = (if decide (peer_PSK peer = "") then None else DecodeString (peer_PSK peer)) /\
  (peer_PSK peer <> "" -> is_Some (DecodeString (peer_PSK peer))).
Proof.
  unfold PeerConfigFromAPI. destruct (DecodeString (peer_PublicKey peer)); [|done].
  case_decide; [by intros [= <-]|]. destruct (DecodeString (peer_PSK peer)) eqn:E; [|done].
  intros [= <-]. eauto 10.
Qed.

(** ** A simulated kernel, for the witnesses *)

Abbreviation sim_kernel := (gmap string (gmap (list Z) dev_peer)).

Definition sim_configure_peer (p : WGPeerConfig) (d : gmap (list Z) dev_peer)
    : gmap (list Z) dev_peer :=
  if wp_Remove p then delete (wp_PublicKey p) d
  else <[wp_PublicKey p := merge_peer p (default fresh_peer (d !! wp_PublicKey p))]> d.

#[global] Instance sim_net : WGNet sim_kernel := {|
  LinkAdd := fun name _ w =>
    if decide (is_Some (w !! name)) then (Some "file exists", w) else (None, <[name := ∅]> w);
  LinkByName := fun name w =>
    if decide (is_Some (w !! name)) then LinkFound 7 else LinkNotFound "Link not found";
  LinkDel := fun _ _ => (None, ∅);
  LinkSetUp := fun _ w => (None, w);
  LinkSetMTU := fun _ _ w => (None, w);
  nl_ParseAddr := fun s => match ParseCIDR s with Some (_, n) => Ok n | None => Err "invalid" end;
  AddrAdd := fun _ _ w => (None, w);
  wgctrl_New := fun _ => None;
  NewKey := fun b => if decide (length b = 32%nat) then Ok b else Err "incorrect key size";
  ResolveUDPAddr := fun s _ => if decide (s = "203.0.113.7:51820")
                               then Ok (mkUDPAddr [203;0;113;7] 51820) else Err "no such host";
  ConfigureDevice := fun i c w =>
    match w !! i with
    | None => (Some "no such device", w)
    | Some d => (None, <[i := foldl (fun d p => sim_configure_peer p d) d (wc_Peers c)]> w)
    end
|}.

#[global] Instance sim_net_laws : WGNetLaws sim_kernel.
Proof.
  refine {| dev := fun i w => default ∅ (w !! i) |}; simpl.
  - intros b k. case_decide; [|done]. by intros [= <-].
  - intros i p w e w'. destruct (w !! i) eqn:E; [done|]. intros [= _ <-]. by rewrite E.
  - intros i p w w'. destruct (w !! i) as [d|] eqn:E; [|done]. intros [= <-] Hr.
    rewrite lookup_insert_eq. simpl. unfold sim_configure_peer. rewrite Hr.
    by rewrite lookup_insert_eq, dom_insert_L.
  - intros i p w w'. destruct (w !! i) as [d|] eqn:E; [|done]. intros [= <-] Hr.
    rewrite lookup_insert_eq. simpl. unfold sim_configure_peer. by rewrite Hr.
Defined.

(** A base64 key of 32 bytes, and a peer with it, a PSK and an endpoint. *)
Definition ex_key : string := EncodeToString (replicate 32 7).
Definition ex_full_peer : Peer :=
  mkPeer "p1" ex_key "10.0.0.2" "203.0.113.7:51820" ["10.0.0.2/32"; "10.1.0.0/16"]
    (EncodeToString (replicate 32 9)).
Definition ex_bare_peer : Peer := mkPeer "p1" ex_key "10.0.0.2" "" ["10.0.0.2/32"] "".
Definition ex_linux : Manager * sim_kernel := (ex_manager, {[ "plexd0" := ∅ ]}).

(** ** Theorems *)

(** What a successful update of a peer programs on a Linux device: the
    peer is there under its decoded 32-byte key, its allowed IPs are exactly
    the networks the control plane sent, in order, and its endpoint and
    preshared key are the ones sent.  But an empty endpoint or an empty
    preshared key is passed as nil and leaves the old value on the device: a
    preshared key that the control plane withdraws stays in force. *)
Theorem UpdatePeer_programs_device {W} `{WGNetLaws W} peer (m m' : Manager) (w w' : W) :
  UpdatePeer peer (m, w) = (None, (m', w')) ->
  exists k q, DecodeString (peer_PublicKey peer) = Some k /\ length k = 32%nat /\
    dev (iface m) w' !! k = Some q /\
    map Some (dp_AllowedIPs q) = map (fun c => snd <$> ParseCIDR c) (peer_AllowedIPs peer) /\
    (let old := default fresh_peer (dev (iface m) w !! k) in
     (if decide (peer_Endpoint peer = "") then dp_Endpoint q = dp_Endpoint old
      else exists a, ResolveUDPAddr (peer_Endpoint peer) w = Ok a /\ dp_Endpoint q = Some a) /\
     (if decide (peer_PSK peer = "") then dp_PresharedKey q = dp_PresharedKey old
      else DecodeString (peer_PSK peer) <> Some [] ->
           dp_PresharedKey q = DecodeString (peer_PSK peer))).
Proof.
  rewrite UpdatePeer_AddPeer. intros (cfg & Hcfg & Hk & Ha & _)%AddPeer_inv. simpl in Ha.
  apply NL_AddPeer_inv in Ha as (p & Hb & Hc).
  destruct (build_peer_ok _ _ _ Hb) as (Ek & Hlen & Er & Erep & Eal & Epsk & Eep & _).
  destruct (PeerConfigFromAPI_fields _ _ Hcfg) as (Fe & Fa & _ & Fp & Fs).
  destruct (Configure_add _ _ _ _ Hc Er) as [Hq _]. rewrite Ek in Hq.
  eexists (pc_PublicKey cfg), _. split_and!; [done|done|exact Hq| |].
  { unfold merge_peer. simpl. by rewrite Erep, Eal, Fa. }
  simpl. split.
  - rewrite Fe in Eep. clear Epsk Fp.
    case_decide; [by rewrite Eep|]. destruct Eep as (a & Ha & ->). eauto.
  - rewrite Epsk, Fp. clear Eep Epsk. destruct (decide (peer_PSK peer = "")); [by rewrite decide_True|].
    intros Hne. destruct Fs as [psk Hs]; [done|]. rewrite Hs in Hne |- *. simpl.
    rewrite decide_False; [done|]. by intros ->.
Qed.

Lemma UpdatePeer_programs_device_witness :
  exists m' w' k q,
    UpdatePeer ex_bare_peer (UpdatePeer ex_full_peer ex_linux).2 = (None, (m', w')) /\
    dev "plexd0" w' !! k = Some q /\ dp_PresharedKey q = Some (replicate 32 9) /\
    dp_Endpoint q = Some (mkUDPAddr [203;0;113;7] 51820).
Proof.
  set (s := (UpdatePeer ex_full_peer ex_linux).2).
  assert (Hs : fst (UpdatePeer ex_bare_peer s) = None) by (vm_compute; reflexivity).
  destruct (UpdatePeer ex_bare_peer s) as [e [m' w']] eqn:E. simpl in Hs. subst e.
  destruct s as [m w] eqn:Es.
  destruct (UpdatePeer_programs_device ex_bare_peer m m' w w' E)
    as (k & q & Hk & _ & Hq & _ & He & Hp).
  exists m', w', k, q. split; [reflexivity|].
  assert (Ek : k = replicate 32 7)
    by (apply (inj Some); rewrite <- Hk; vm_compute; reflexivity).
  assert (Ew : w = (UpdatePeer ex_full_peer ex_linux).2.2) by (fold s; rewrite Es; reflexivity).
  assert (Em : iface m = "plexd0")
    by (replace m with s.1 by (rewrite Es; reflexivity); vm_compute; reflexivity).
  rewrite Em in *. split; [exact Hq|]. subst k w. split.
  - transitivity (dp_PresharedKey (default fresh_peer
      (dev "plexd0" (UpdatePeer ex_full_peer ex_linux).2.2 !! replicate 32 7)));
      [exact Hp|vm_compute; reflexivity].
  - transitivity (dp_Endpoint (default fresh_peer
      (dev "plexd0" (UpdatePeer ex_full_peer ex_linux).2.2 !! replicate 32 7)));
      [exact He|vm_compute; reflexivity].
Defined.
