(* ===== verification/NatTraversal.v ===== *)
(** * NAT traversal (src/internal/nat, src/internal/peerexchange)

    Endpoint discovery over STUN, the report of the endpoint to the control
    plane and the application of the peers' endpoints it answers with.  The
    STUN client, the control plane and the WireGuard controller are
    interfaces; the UDP client is the one of the source over a socket
    parameter. *)

From stdpp Require Import base strings list gmap pretty.
From S2P Require Import Prelude Base64 Net Types WireGuard Stun Netlink.
From S2P Require Json Verifier SseManager.

Module Config.

Definition DefaultRefreshInterval : Z := 60 * second.
Definition DefaultTimeout : Z := 5 * second.
Definition DefaultSTUNServers : list string := ["stun.l.google.com:19302"; "stun.cloudflare.com:3478"].

(** [None] is the nil slice of servers. *)
Record t := mk {
  Enabled : bool;
  STUNServers : option (list string);
  RefreshInterval : Z;
  Timeout : Z
}.

Definition ApplyDefaults (c : t) : t :=
  let enabled := if decide (STUNServers c = None /\ RefreshInterval c = 0 /\ Timeout c = 0)
                 then true else Enabled c in
  mk enabled
    (match STUNServers c with None => Some DefaultSTUNServers | Some l => Some l end)
    (if decide (RefreshInterval c = 0) then DefaultRefreshInterval else RefreshInterval c)
    (if decide (Timeout c = 0) then DefaultTimeout else Timeout c).

Inductive error := NoServers | RefreshTooShort | TimeoutNotPositive.

Definition Validate (c : t) : option error :=
  if negb (Enabled c) then None
  else if decide (default [] (STUNServers c) = []) then Some NoServers
  else if decide (RefreshInterval c < 10 * second) then Some RefreshTooShort
  else if decide (Timeout c <= 0) then Some TimeoutNotPositive
  else None.

End Config.

(** ** Addresses *)

(** [fmt] prints an IPv4 address as a dotted quad; the parser of responses
    returns no other ([parsed_four_bytes]). *)
Definition IP_String (ip : list Z) : string :=
  match ip with
  | [a; b; c; d] => (pretty a +:+ "." +:+ pretty b +:+ "." +:+ pretty c +:+ "." +:+ pretty d)%string
  | _ => "?"
  end.

Definition MappedAddress_String (m : MappedAddress) : string :=
  (IP_String (ma_IP m) +:+ ":" +:+ pretty (ma_Port m))%string.

(** [net.IP.Equal]: a 4-byte address equals its 16-byte form. *)
Definition IP_Equal (ip x : list Z) : bool :=
  if decide (length ip = length x) then bool_decide (ip = x)
  else if decide (length ip = 4%nat /\ length x = 16%nat) then
    bool_decide (take 12 x = v4InV6Prefix /\ ip = drop 12 x)
  else if decide (length ip = 16%nat /\ length x = 4%nat) then
    bool_decide (take 12 ip = v4InV6Prefix /\ drop 12 ip = x)
  else false.

(** ** The UDP client *)

(** A UDP socket exchange: name resolution and dialling, the random
    transaction id, the write of the request and the read of a datagram. *)
Class UDPNet (N : Type) := {
  ctx_err : N -> option string;
  dial : string -> Z -> N -> option string * N;
  set_deadline : Z -> N -> option string * N;
  rand_tx : N -> result string (list Z) * N;
  udp_write : list Z -> N -> option string * N;
  udp_read : N -> result string (list Z) * N
}.

Inductive stun_error :=
| NetError (msg : string)
| ParseError (e : Stun.error).

Section bind.
Context {N : Type} `{UDPNet N}.

(** [None] is a panic of the parser.  The deadline is the earlier one of the
    timeout and the context's; closing the socket has no result. *)
Definition UDP_Bind (now timeout : Z) (ctxDeadline : option Z) (serverAddr : string) (localPort : Z)
    (n : N) : option (result stun_error MappedAddress) * N :=
  let fail e n := (Some (Err (NetError e)), n) in
  match ctx_err n with
  | Some e => fail e n
  | None =>
      match dial serverAddr localPort n with
      | (Some e, n) => fail e n
      | (None, n) =>
          let deadline := now + timeout in
          let deadline := match ctxDeadline with
                          | Some d => if time_before d deadline then d else deadline
                          | None => deadline
                          end in
          match set_deadline deadline n with
          | (Some e, n) => fail e n
          | (None, n) =>
              match rand_tx n with
              | (Err e, n) => fail e n
              | (Ok txID, n) =>
                  match udp_write (buildBindingRequest txID) n with
                  | (Some e, n) => fail e n
                  | (None, n) =>
                      match udp_read n with
                      | (Err e, n) => fail e n
                      | (Ok buf, n) =>
                          match parseBindingResponse (take 1024 buf) txID with
                          | Some (Returns (Ok addr)) => (Some (Ok addr), n)
                          | Some (Returns (Err e)) => (Some (Err (ParseError e)), n)
                          | Some Panics | None => (None, n)
                          end
                      end
                  end
              end
          end
      end
  end.

End bind.

(** ** Discovery *)

(** The STUN client interface: a binding of the local port by a server. *)
Class STUNClient (C : Type) := {
  Bind : string -> Z -> C -> result string MappedAddress * C
}.

Record DiscoveryResult := mkDiscovery { disc_Endpoint : string; disc_NATType : NATType }.
#[global] Instance DiscoveryResult_eq_dec : EqDecision DiscoveryResult.
Proof. solve_decision. Defined.

Record Discoverer := mkDiscoverer {
  di_cfg : Config.t;
  di_localPort : Z;
  di_lastResult : option NATInfo
}.

Definition NewDiscoverer (cfg : Config.t) (localPort : Z) : Discoverer :=
  mkDiscoverer cfg localPort None.

Definition updateLastResult (endpoint : string) (natType : NATType) (d : Discoverer) : Discoverer :=
  mkDiscoverer (di_cfg d) (di_localPort d) (Some (mkNATInfo endpoint (NATType_string natType))).

Definition LastResult (d : Discoverer) : option NATInfo := di_lastResult d.

Section discover.
Context {C : Type} `{STUNClient C}.

(** The first loop: the first server that binds, its index's successor and
    the client's state.  The second loop over the remaining servers is the
    same search. *)
Fixpoint first_binding (localPort : Z) (servers : list string) (c : C)
    : option (MappedAddress * list string) * C :=
  match servers with
  | [] => (None, c)
  | server :: servers =>
      match Bind server localPort c with
      | (Err _, c) => first_binding localPort servers c
      | (Ok addr, c) => (Some (addr, servers), c)
      end
  end.

Definition Discover (d : Discoverer) (c : C) : option DiscoveryResult * (Discoverer * C) :=
  match first_binding (di_localPort d) (default [] (Config.STUNServers (di_cfg d))) c with
  | (None, c) => (None, (d, c))
  | (Some (firstAddr, remaining), c) =>
      let endpoint := MappedAddress_String firstAddr in
      if decide (ma_Port firstAddr = di_localPort d) then
        (Some (mkDiscovery endpoint NATNone), (updateLastResult endpoint NATNone d, c))
      else
        let '(second, c) := first_binding (di_localPort d) remaining c in
        let natType := match second with
                       | None => NATUnknown
                       | Some (secondAddr, _) =>
                           if IP_Equal (ma_IP firstAddr) (ma_IP secondAddr) &&
                              bool_decide (ma_Port firstAddr = ma_Port secondAddr)
                           then NATFullCone else NATSymmetric
                       end in
        (Some (mkDiscovery endpoint natType), (updateLastResult endpoint natType d, c))
  end.

End discover.

(** ** Reporting *)

(** The control plane: an error, nil, or the answer. *)
Class EndpointReporter (R : Type) := {
  ReportEndpoint : string -> EndpointReport -> R -> result string (option EndpointResponse) * R
}.

Section report.
Context {R D : Type} `{EndpointReporter R} `{WGController D}.

(** The loop over the peers' endpoints; a failing update is logged. *)
Definition apply_endpoints (pes : list PeerEndpoint) (s : Manager * D) : Manager * D :=
  foldl (fun s pe =>
    if decide (pe_Endpoint pe = "") then s
    else (UpdatePeer (mkPeer (pe_PeerID pe) "" "" (pe_Endpoint pe) [] "") s).2) s pes.

Definition reportAndApply (nodeID : string) (res : DiscoveryResult) (r : R) (s : Manager * D)
    : option string * (R * (Manager * D)) :=
  match ReportEndpoint nodeID (mkEndpointReport (disc_Endpoint res) (NATType_string (disc_NATType res))) r with
  | (Err e, r) => (Some (String.append "nat: report endpoint: " e), (r, s))
  | (Ok None, r) => (None, (r, s))
  | (Ok (Some resp), r) => (None, (r, apply_endpoints (erp_PeerEndpoints resp) s))
  end.

Context {C : Type} `{STUNClient C}.

(** The state of a run: the discoverer, the client, the control plane, the
    WireGuard manager and the device. *)
Definition run_state : Type := Discoverer * C * R * (Manager * D).

(** A tick of the refresh timer. *)
Definition refresh (nodeID : string) (st : run_state) : run_state :=
  let '(d, c, r, s) := st in
  match Discover d c with
  | (None, (d, c)) => (d, c, r, s)
  | (Some res, (d, c)) => let '(_, (r, s)) := reportAndApply nodeID res r s in (d, c, r, s)
  end.

(** [Run] until the context is cancelled after [ticks] ticks: [false] when the
    initial discovery failed (and [Run] returned).  [time.NewTicker] panics on
    an interval that is not positive. *)
Definition Run (nodeID : string) (ticks : nat) (st : run_state) : outcome bool * run_state :=
  let '(d, c, r, s) := st in
  match Discover d c with
  | (None, (d, c)) => (Returns false, (d, c, r, s))
  | (Some res, (d, c)) =>
      let '(_, (r, s)) := reportAndApply nodeID res r s in
      if decide (Config.RefreshInterval (di_cfg d) <= 0) then (Panics, (d, c, r, s))
      else (Returns true, Nat.iter ticks (refresh nodeID) (d, c, r, s))
  end.

(** ** The exchanger (src/internal/peerexchange/exchanger.go) *)

(** The configuration the exchanger keeps ([NewExchanger]). *)
Definition NewExchanger (cfg : Config.t) : Config.t := Config.ApplyDefaults cfg.

Definition Exchanger_Run (cfg : Config.t) (nodeID : string) (ticks : nat) (st : run_state)
    : outcome bool * run_state :=
  if negb (Config.Enabled cfg) then (Returns true, st) else Run nodeID ticks st.

End report.

(** [Exchanger.LastResult]. *)
Definition Exchanger_LastResult (d : Discoverer) : option NATInfo := LastResult d.

(** [RegisterHandlers] (exchanger.go): the world of the event handlers holds
    the WireGuard manager and its device. *)
Definition RegisterHandlers {W G N : Type} `{WGController G} `{Json.Codec Peer} (get : W -> Manager * G)
    (set : Manager * G -> W -> W) (m : SseManager.SSEManager (W := W) (X := WireGuard.error) (N := N))
    : SseManager.SSEManager :=
  SseManager.RegisterHandler (Verifier.event_name Verifier.EventPeerEndpointChanged)
    (fun env w =>
       let '(e, s) := HandlePeerEndpointChanged (Json.Unmarshal (bytes_of_string (Verifier.ev_Payload env))) (get w) in
       (e, set s w)) m.

(** ** Lemmas *)

(** The parser returns IPv4 addresses only. *)
Lemma parsed_four_bytes data tx a :
  parseBindingResponse data tx = Some (Returns (Ok a)) -> length (ma_IP a) = 4%nat.
Proof.
  assert (Hx : forall v b, parseXORMappedAddress v = Ok b -> length (ma_IP b) = 4%nat).
  { intros v b. unfold parseXORMappedAddress. case_decide; [done|]. case_decide; [done|].
    intros [= <-]. cbn [ma_IP]. rewrite length_zip_with, length_take, length_drop.
    change (length (PutUint32 _)) with 4%nat. lia. }
  assert (Hm : forall v b, parseMappedAddress v = Ok b -> length (ma_IP b) = 4%nat).
  { intros v b. unfold parseMappedAddress. case_decide; [done|]. case_decide; [done|].
    intros [= <-]. cbn [ma_IP]. rewrite length_take, length_drop. lia. }
  assert (Hp : forall fuel attrs m, (forall b, m = Some b -> length (ma_IP b) = 4%nat) ->
    parse_attrs fuel attrs m = Some (Returns (Ok a)) -> length (ma_IP a) = 4%nat).
  { induction fuel as [|fuel IH]; intros attrs m Hb; [done|]. cbn [parse_attrs].
    assert (Hf : Some (Returns (match m with Some m => Ok m | None => Err NoAddress end)) =
                 Some (Returns (Ok a)) -> length (ma_IP a) = 4%nat).
    { destruct m; intros [= ->]; eauto. }
    case_decide; [done|]. case_decide; [done|]. destruct (slice _ _ _); [|done].
    case_decide; [intros [= ?]; eauto|].
    destruct (slice_from _ _) as [rest|]; case_decide; try done; [| |].
    - destruct (parseMappedAddress _) eqn:E; [|done]. apply IH. intros b [= <-]. eauto.
    - by apply IH.
    - by destruct (parseMappedAddress _). }
  unfold parseBindingResponse. repeat (case_decide; [done|]). by apply Hp.
Qed.

Lemma IP_Equal_eq x y : length x = length y -> IP_Equal x y = bool_decide (x = y).
Proof. intros E. unfold IP_Equal. by rewrite decide_True. Qed.

(** What a result of [Bind] binds. *)
Definition bound {E A} (r : result E A) : option A := match r with Ok a => Some a | Err _ => None end.

Section answers.
Context {C : Type} `{STUNClient C} (answer : string -> option MappedAddress).
Context (Hans : forall s p c, bound (Bind s p c).1 = answer s).

Lemma first_binding_omap p servers : forall c,
  match (first_binding p servers c).1 with
  | None => omap answer servers = []
  | Some (a, rest) => omap answer servers = a :: omap answer rest
  end.
Proof using Hans.
  induction servers as [|s servers IH]; intros c; simpl; [done|].
  rewrite <- (Hans s p c). destruct (Bind s p c) as [[a|e] c']; simpl; [done|]. apply IH.
Qed.

End answers.

(** On Linux the update of a peer without a public key changes nothing. *)
Lemma apply_endpoints_id {W} `{WGNetLaws W} pes (s : Manager * W) : apply_endpoints pes s = s.
Proof.
  induction pes as [|pe pes IH] using rev_ind; [done|]. unfold apply_endpoints in *.
  rewrite foldl_app, IH. simpl. case_decide; [done|]. destruct s as [m w].
  unfold UpdatePeer, PeerConfigFromAPI. simpl. unfold NL_AddPeer.
  destruct (wgctrl_New w); [done|]. unfold build_peer. simpl.
  destruct (NewKey []) as [k|] eqn:E; [|done].
  apply NewKey_ok in E as [_ E]. done.
Qed.

Lemma reportAndApply_id {W} `{WGNetLaws W} {R} `{EndpointReporter R} nodeID res (r : R) (s : Manager * W) :
  (reportAndApply nodeID res r s).2.2 = s.
Proof.
  unfold reportAndApply. destruct (ReportEndpoint _ _ r) as [[[resp|]|] r']; try done.
  simpl. apply apply_endpoints_id.
Qed.

Lemma refresh_id {W} `{WGNetLaws W} {R} `{EndpointReporter R} {C} `{STUNClient C} nodeID
    (st : run_state (R := R) (D := W) (C := C)) : (refresh nodeID st).2 = st.2.
Proof.
  destruct st as [[[d c] r] s]. simpl. destruct (Discover d c) as [[res|] [d' c']]; [|done].
  pose proof (reportAndApply_id nodeID res r s) as E.
  destruct (reportAndApply nodeID res r s) as [? [r' s']]. done.
Qed.

(** ** Concrete instances, for the witnesses *)

(** Two servers that see the same mapping, one that is down. *)
#[global] Instance ex_stun : STUNClient unit := {|
  Bind := fun s _ c =>
    (if decide (s = "down:3478") then Err "timeout" else Ok (mkMapped [203;0;113;7] 40001), c)
|}.

#[global] Instance ex_reporter : EndpointReporter (list EndpointReport) := {|
  ReportEndpoint := fun _ req log =>
    (Ok (Some (mkEndpointResponse [mkPeerEndpoint "p1" "203.0.113.7:51820"])), log ++ [req])
|}.

Definition ex_discoverer : Discoverer :=
  NewDiscoverer (Config.mk true (Some ["down:3478"; "a:3478"; "b:3478"]) (60 * second) (5 * second)) 51820.

(** ** Theorems *)

(** Classification of the NAT: when each server answers the same way
    whenever it is asked, [Discover] depends only on the answers that arrive,
    in the order of the configuration.  No answer is an error; otherwise the
    endpoint is the first answer, the type is none when its port is the local
    port, full cone when the second answer is the same address, symmetric
    when it differs, unknown when there is none; and [LastResult] returns
    what was discovered. *)
Theorem Discover_classifies {C} `{STUNClient C} (answer : string -> option MappedAddress) d (c : C) :
  (forall s p c, bound (Bind s p c).1 = answer s) ->
  (forall s a, answer s = Some a -> length (ma_IP a) = 4%nat) ->
  let '(res, (d', _)) := Discover d c in
  match omap answer (default [] (Config.STUNServers (di_cfg d))) with
  | [] => res = None /\ LastResult d' = LastResult d
  | a :: rest =>
      let t := if decide (ma_Port a = di_localPort d) then NATNone
               else match rest with
                    | [] => NATUnknown
                    | b :: _ => if decide (a = b) then NATFullCone else NATSymmetric
                    end in
      res = Some (mkDiscovery (MappedAddress_String a) t) /\
      LastResult d' = Some (mkNATInfo (MappedAddress_String a) (NATType_string t))
  end.
Proof.
  intros Hans Hlen. unfold Discover. set (servers := default [] _).
  pose proof (first_binding_omap answer Hans (di_localPort d) servers c) as H1.
  assert (Ha : forall l a rest, omap answer l = a :: rest -> length (ma_IP a) = 4%nat).
  { intros l a rest E. assert (Hin : a ∈ omap answer l) by (rewrite E; left).
    apply list_elem_of_omap in Hin as (s & _ & Hs). eauto. }
  destruct (first_binding _ servers c) as [[[a rest]|] c1]; simpl in H1; rewrite H1; [|done].
  case_decide as Hp; [done|].
  pose proof (first_binding_omap answer Hans (di_localPort d) rest c1) as H2.
  destruct (first_binding _ rest c1) as [[[b rest']|] c2]; simpl in H2; rewrite H2; [|done].
  rewrite IP_Equal_eq by (rewrite (Ha _ _ _ H1), (Ha _ _ _ H2); done).
  destruct a as [ipa pa], b as [ipb pb]. simpl.
  do 2 case_bool_decide; case_decide; simplify_eq; done.
Qed.

Lemma Discover_classifies_witness :
  (Discover ex_discoverer ()).1 = Some (mkDiscovery "203.0.113.7:40001" NATFullCone).
Proof.
  pose proof (Discover_classifies (C := unit)
    (fun s => if decide (s = "down:3478") then None else Some (mkMapped [203;0;113;7] 40001))
    ex_discoverer ()) as P.
  assert (H1 : forall s p (c : unit), bound (Bind s p c).1 =
     if decide (s = "down:3478") then None else Some (mkMapped [203;0;113;7] 40001))
    by (intros s p c; simpl; case_decide; reflexivity).
  assert (H2 : forall s a, (if decide (s = "down:3478") then None
     else Some (mkMapped [203;0;113;7] 40001)) = Some a -> length (ma_IP a) = 4%nat)
    by (intros s a; case_decide; intros [= <-]; reflexivity).
  specialize (P H1 H2). destruct (Discover ex_discoverer ()) as [res [d' c']].
  exact (proj1 P).
Defined.

(** The endpoints of peers that the control plane returns with an endpoint
    report are never applied on Linux: the update carries a peer with an id
    and an endpoint but no public key, which the controller refuses.  So
    whatever the STUN servers and the control plane answer, a run of the
    endpoint exchange leaves the WireGuard manager and the device as they
    were. *)
Theorem Run_updates_no_peer {W} `{WGNetLaws W} {R} `{EndpointReporter R} {C} `{STUNClient C}
    cfg nodeID ticks (st : run_state (R := R) (D := W) (C := C)) :
  (Exchanger_Run cfg nodeID ticks st).2.2 = st.2.
Proof.
  unfold Exchanger_Run. destruct (negb _); [done|]. destruct st as [[[d c] r] s]. simpl.
  destruct (Discover d c) as [[res|] [d' c']]; [|done].
  pose proof (reportAndApply_id nodeID res r s) as E.
  destruct (reportAndApply nodeID res r s) as [? [r' s']]. simpl in E |- *. subst s'. case_decide; [done|]. simpl.
  induction ticks as [|n IH]; [done|]. simpl. by rewrite refresh_id.
Qed.

(** The report was sent and answered with an endpoint of a known peer; the
    device still has none. *)
Lemma Run_updates_no_peer_witness :
  let st : run_state := (ex_discoverer, (), [], (UpdatePeer ex_bare_peer ex_linux).2) in
  let st' := (Exchanger_Run (di_cfg ex_discoverer) "n1" 1 st).2 in
  length st'.1.2 = 2%nat /\ st'.2 = st.2 /\
  (dp_Endpoint <$> (dev "plexd0" st'.2.2 !! replicate 32 7)) = Some None.
Proof.
  intros st st'. assert (E : st'.2 = st.2) by (exact (Run_updates_no_peer _ "n1" 1 st)).
  split; [vm_compute; reflexivity|]. split; [exact E|]. rewrite E. vm_compute. reflexivity.
Defined.

(** A disabled configuration with no other field set is enabled by its
    defaults: the exchanger then runs. *)
Lemma disabled_exchanger_runs :
  Config.Enabled (NewExchanger (Config.mk false None 0 0)) = true /\
  Config.Enabled (NewExchanger (Config.mk false (Some []) 0 0)) = false.
Proof. by_compute. Qed.
