(* ===== verification/Relay.v ===== *)
(** * The UDP relay (src/internal/bridge/relay.go, relay_handler.go)

    Sessions and timers are shared, mutable objects: the relay's maps hold
    pointers into a store, and a timer that has fired runs its callback later,
    when it gets the lock.  The relay is a state machine whose steps are its
    operations, the expiry of timers and the arrival of packets; its
    invariant is proved by induction on the steps.

    Addresses are the strings [UDPAddr.String] gives, the only form in which
    the code compares them.  [net.ResolveUDPAddr] is an argument. *)

From stdpp Require Import base strings list gmap relations.
From S2P Require Import Prelude Base64 Net Types Diff Reconcile.

(** ** State *)

Record RelaySession := mkSession {
  rs_SessionID : string;
  rs_PeerAAddr : string;
  rs_PeerBAddr : string;
  rs_conn : option nat;
  rs_closed : bool
}.

#[global] Instance RelaySession_eq_dec : EqDecision RelaySession.
Proof. solve_decision. Defined.

(** A [time.AfterFunc] timer: it removes its session; armed until it fires or
    is stopped, and its callback runs some time after it fired. *)
Inductive timer_state := Armed | Fired | Stopped.
Record timer := mkTimer { tm_session : string; tm_when : Z; tm_state : timer_state }.

Record Relay := mkRelay {
  rl_listenPort : Z;
  rl_maxSessions : Z;
  rl_sessionTTL : Z;
  rl_conn : option nat;
  rl_sessions : gmap string nat;
  rl_addrIndex : gmap string nat;
  rl_timers : gmap string nat;
  rl_active : bool
}.

(** What the relay shares with the rest of the process: session objects,
    timers, open sockets, the packets written, the clock. *)
Record World := mkWorld {
  w_heap : list RelaySession;
  w_timers : list timer;
  w_open : gset nat;
  w_sent : list (string * list Z);
  w_clock : Z
}.

Abbreviation state := (Relay * World)%type.

Inductive error :=
| EmptySessionID
| ResolvePeerA (endpoint msg : string)
| ResolvePeerB (endpoint msg : string)
| SameEndpoint (addr : string)
| DuplicateSession (id : string)
| MaxSessions (n : Z)
| ListenFailed (msg : string)
| ParsePayload.

Definition NewRelay (listenPort maxSessions sessionTTL : Z) : Relay :=
  mkRelay listenPort maxSessions sessionTTL None ∅ ∅ ∅ false.

Definition set_heap (w : World) (h : list RelaySession) : World :=
  mkWorld h (w_timers w) (w_open w) (w_sent w) (w_clock w).
Definition set_timers (w : World) (t : list timer) : World :=
  mkWorld (w_heap w) t (w_open w) (w_sent w) (w_clock w).

(** ** Sessions *)

(** [WriteToUDP] on a nil or closed socket is an error, which is logged. *)
Definition WriteToUDP (conn : option nat) (data : list Z) (dst : string) (w : World) : World :=
  match conn with
  | Some c => if decide (c ∈ w_open w)
              then mkWorld (w_heap w) (w_timers w) (w_open w) (w_sent w ++ [(dst, data)]) (w_clock w)
              else w
  | None => w
  end.

Definition Forward (p : nat) (srcAddr : string) (data : list Z) (w : World) : World :=
  match w_heap w !! p with
  | None => w
  | Some s =>
      if rs_closed s then w
      else if decide (srcAddr = rs_PeerAAddr s) then WriteToUDP (rs_conn s) data (rs_PeerBAddr s) w
      else if decide (srcAddr = rs_PeerBAddr s) then WriteToUDP (rs_conn s) data (rs_PeerAAddr s) w
      else w
  end.

Definition close_session (s : RelaySession) : RelaySession :=
  mkSession (rs_SessionID s) (rs_PeerAAddr s) (rs_PeerBAddr s) (rs_conn s) true.

Definition Close (p : nat) (w : World) : World := set_heap w (alter close_session p (w_heap w)).

(** [timer.Stop] prevents an armed timer from firing; a fired one runs. *)
Definition stop_timer (t : timer) : timer :=
  match tm_state t with
  | Armed => mkTimer (tm_session t) (tm_when t) Stopped
  | _ => t
  end.
Definition timer_Stop (t : nat) (w : World) : World := set_timers w (alter stop_timer t (w_timers w)).

(** ** The relay *)

(** The result of [net.ListenUDP] is an argument: a fresh socket or an error. *)
Definition Start (listen : result string nat) (st : state) : option error * state :=
  let '(r, w) := st in
  match listen with
  | Err e => (Some (ListenFailed e), st)
  | Ok conn =>
      (None, (mkRelay (rl_listenPort r) (rl_maxSessions r) (rl_sessionTTL r) (Some conn)
                (rl_sessions r) (rl_addrIndex r) (rl_timers r) true,
              mkWorld (w_heap w) (w_timers w) ({[ conn ]} ∪ w_open w) (w_sent w) (w_clock w)))
  end.

(** One round of the dispatch loop: a datagram read from the socket. *)
Definition dispatch (srcAddr : string) (data : list Z) (st : state) : state :=
  let '(r, w) := st in
  match rl_addrIndex r !! srcAddr with
  | None => st
  | Some session => (r, Forward session srcAddr data w)
  end.

(** The lifetime [AddSession] gives a session. *)
Definition session_ttl (sessionTTL expiresAt now : Z) : Z :=
  if negb (is_zero_time expiresAt) then
    let remaining := time_sub expiresAt now in
    if decide (remaining > 0 /\ remaining < sessionTTL) then remaining else sessionTTL
  else sessionTTL.

Section relay.
Context (resolve : string -> result string string).

Definition AddSession (a : RelaySessionAssignment) (st : state) : option error * state :=
  let '(r, w) := st in
  if decide (rsa_SessionID a = "") then (Some EmptySessionID, st)
  else
    match resolve (rsa_PeerAEndpoint a) with
    | Err e => (Some (ResolvePeerA (rsa_PeerAEndpoint a) e), st)
    | Ok peerA =>
        match resolve (rsa_PeerBEndpoint a) with
        | Err e => (Some (ResolvePeerB (rsa_PeerBEndpoint a) e), st)
        | Ok peerB =>
            if decide (peerA = peerB) then (Some (SameEndpoint peerA), st)
            else if decide (is_Some (rl_sessions r !! rsa_SessionID a)) then
              (Some (DuplicateSession (rsa_SessionID a)), st)
            else if decide (Z.of_nat (size (rl_sessions r)) >= rl_maxSessions r) then
              (Some (MaxSessions (rl_maxSessions r)), st)
            else
              let id := rsa_SessionID a in
              let session := length (w_heap w) in
              let tm := length (w_timers w) in
              let ttl := session_ttl (rl_sessionTTL r) (rsa_ExpiresAt a) (w_clock w) in
              (None,
               (mkRelay (rl_listenPort r) (rl_maxSessions r) (rl_sessionTTL r) (rl_conn r)
                  (<[id := session]> (rl_sessions r))
                  (<[peerB := session]> (<[peerA := session]> (rl_addrIndex r)))
                  (<[id := tm]> (rl_timers r)) (rl_active r),
                mkWorld (w_heap w ++ [mkSession id peerA peerB (rl_conn r) false])
                  (w_timers w ++ [mkTimer id (w_clock w + ttl) Armed])
                  (w_open w) (w_sent w) (w_clock w)))
        end
    end.

End relay.

Definition RemoveSession (sessionID : string) (st : state) : state :=
  let '(r, w) := st in
  match rl_sessions r !! sessionID with
  | None => st
  | Some p =>
      let w := match rl_timers r !! sessionID with Some t => timer_Stop t w | None => w end in
      let '(a, b) := match w_heap w !! p with
                     | Some s => (rs_PeerAAddr s, rs_PeerBAddr s)
                     | None => ("", "")
                     end in
      (mkRelay (rl_listenPort r) (rl_maxSessions r) (rl_sessionTTL r) (rl_conn r)
         (delete sessionID (rl_sessions r)) (delete b (delete a (rl_addrIndex r)))
         (delete sessionID (rl_timers r)) (rl_active r),
       Close p w)
  end.

Definition Stop `{MapOrder} (st : state) : state :=
  let '(r, w) := st in
  if negb (rl_active r) then st
  else
    let w := foldl (fun w t => timer_Stop t w) w (range_map (rl_timers r)).*2 in
    let sessions := (range_map (rl_sessions r)).*2 in
    let r' := mkRelay (rl_listenPort r) (rl_maxSessions r) (rl_sessionTTL r) None ∅ ∅ ∅ false in
    let w := foldl (fun w p => Close p w) w sessions in
    (r', match rl_conn r with
         | Some c => mkWorld (w_heap w) (w_timers w) (w_open w ∖ {[ c ]}) (w_sent w) (w_clock w)
         | None => w
         end).

Definition ActiveCount (st : state) : Z := Z.of_nat (size (rl_sessions st.1)).
Definition SessionIDs `{MapOrder} (st : state) : list string := range_keys (rl_sessions st.1).

(** ** Handlers *)

Section handlers.
Context (resolve : string -> result string string).

Definition HandleRelaySessionAssigned (payload : option RelaySessionAssignment) (st : state)
    : option error * state :=
  match payload with
  | None => (Some ParsePayload, st)
  | Some a => AddSession resolve a st
  end.

Definition HandleRelaySessionRevoked (payload : option string) (st : state) : option error * state :=
  match payload with
  | None => (Some ParsePayload, st)
  | Some id => (None, RemoveSession id st)
  end.

(** The loop that adds missing sessions; errors are collected. *)
Definition add_missing (current : gset string) (l : list (string * RelaySessionAssignment))
    (acc : list error * state) : list error * state :=
  foldl (fun '(errs, st) '(id, a) =>
    if decide (id ∈ current) then (errs, st)
    else match AddSession resolve a st with
         | (Some e, st) => (errs ++ [e], st)
         | (None, st) => (errs, st)
         end) acc l.

Definition remove_stale (desired : gmap string RelaySessionAssignment) (ids : list string)
    (st : state) : state :=
  foldl (fun st id => if decide (is_Some (desired !! id)) then st else RemoveSession id st) st ids.

Definition RelayReconcileHandler `{MapOrder} (desired : option StateResponse) (st : state)
    : handler_outcome (E := list error) * state :=
  match desired ≫= st_RelayConfig with
  | None => (HReturns None, st)
  | Some rc =>
      let desiredSet := build_map rsa_SessionID id (rc_Sessions rc) in
      let currentIDs := SessionIDs st in
      let st := remove_stale desiredSet currentIDs st in
      let '(errs, st) := add_missing (list_to_set currentIDs) (range_map desiredSet) ([], st) in
      (HReturns (if decide (errs = []) then None else Some errs), st)
  end.

End handlers.

(** ** Steps *)

Definition advance (d : Z) (st : state) : state :=
  (st.1, mkWorld (w_heap st.2) (w_timers st.2) (w_open st.2) (w_sent st.2) (w_clock st.2 + d)).

Definition set_timer_state (ts : timer_state) (t : timer) : timer :=
  mkTimer (tm_session t) (tm_when t) ts.

(** The runtime fires timer [t]. *)
Definition fire (t : nat) (st : state) : state :=
  (st.1, set_timers st.2 (alter (set_timer_state Fired) t (w_timers st.2))).

(** The callback of a fired timer gets the lock. *)
Definition run_callback (t : nat) (st : state) : state :=
  match w_timers st.2 !! t with
  | Some tm =>
      let st := RemoveSession (tm_session tm) st in
      (st.1, set_timers st.2 (alter (set_timer_state Stopped) t (w_timers st.2)))
  | None => st
  end.

Definition timer_is (ts : timer_state) (t : nat) (st : state) : Prop :=
  exists tm, w_timers st.2 !! t = Some tm /\ tm_state tm = ts /\
    (ts = Armed -> tm_when tm <= w_clock st.2).

Inductive step : state -> state -> Prop :=
| step_start listen st : step st (Start listen st).2
| step_add resolve a st : step st (AddSession resolve a st).2
| step_remove id st : step st (RemoveSession id st)
| step_stop `{MapOrder} st : step st (Stop st)
| step_packet src data st : step st (dispatch src data st)
| step_time d st : 0 <= d -> step st (advance d st)
| step_fire t st : timer_is Armed t st -> step st (fire t st)
| step_callback t st : timer_is Fired t st -> step st (run_callback t st).

Definition init (listenPort maxSessions sessionTTL now : Z) : state :=
  (NewRelay listenPort maxSessions sessionTTL, mkWorld [] [] ∅ [] now).

Definition reachable (st : state) : Prop :=
  exists port max ttl now, rtc step (init port max ttl now) st.

(** ** The invariant *)

(** A live session: registered, open, between two different addresses. *)
Definition live (st : state) (id : string) (s : RelaySession) : Prop :=
  exists p, rl_sessions st.1 !! id = Some p /\ w_heap st.2 !! p = Some s /\
    rs_SessionID s = id /\ rs_closed s = false /\ rs_PeerAAddr s <> rs_PeerBAddr s.

(** A timer that will still remove session [id], in time. *)
Definition pending (st : state) (id : string) (t : nat) : Prop :=
  exists tm, w_timers st.2 !! t = Some tm /\ tm_session tm = id /\ tm_state tm <> Stopped /\
    tm_when tm <= w_clock st.2 + rl_sessionTTL st.1.

Record Inv (st : state) : Prop := mkInv {
  inv_session : forall id p, rl_sessions st.1 !! id = Some p -> exists s, live st id s;
  inv_index : forall a p, rl_addrIndex st.1 !! a = Some p ->
    exists s, w_heap st.2 !! p = Some s /\ rl_sessions st.1 !! rs_SessionID s = Some p /\
      (a = rs_PeerAAddr s \/ a = rs_PeerBAddr s);
  inv_timers : dom (rl_timers st.1) = dom (rl_sessions st.1);
  inv_pending : forall id t, rl_timers st.1 !! id = Some t -> pending st id t;
  inv_capacity : Z.of_nat (size (rl_sessions st.1)) <= Z.max 0 (rl_maxSessions st.1)
}.

Lemma session_ttl_le ttl e now : session_ttl ttl e now <= ttl.
Proof. unfold session_ttl. destruct (negb _); [|lia]. case_decide; lia. Qed.

Lemma Inv_init port max ttl now : Inv (init port max ttl now).
Proof.
  split; simpl.
  - intros id p. by rewrite lookup_empty.
  - intros a p. by rewrite lookup_empty.
  - done.
  - intros id t. by rewrite lookup_empty.
  - rewrite map_size_empty. lia.
Qed.

(** The invariant depends on the maps, the store, the timers and the clock only. *)
Lemma Inv_ext r w r' w' :
  Inv (r, w) ->
  rl_sessions r' = rl_sessions r -> rl_addrIndex r' = rl_addrIndex r ->
  rl_timers r' = rl_timers r -> rl_maxSessions r' = rl_maxSessions r ->
  rl_sessionTTL r' = rl_sessionTTL r -> w_heap w' = w_heap w ->
  w_timers w' = w_timers w -> w_clock w <= w_clock w' -> Inv (r', w').
Proof.
  intros [H1 H2 H3 H4 H5] E1 E2 E3 E4 E5 E6 E7 Hc. split; unfold live, pending in *; simpl in *;
    rewrite ?E1, ?E2, ?E3, ?E4, ?E5, ?E6, ?E7; try done.
  intros id t Ht. destruct (H4 id t Ht) as (tm & ? & ? & ? & ?). exists tm. split_and!; try done. lia.
Qed.

Lemma Forward_frame p src data w :
  w_heap (Forward p src data w) = w_heap w /\ w_timers (Forward p src data w) = w_timers w /\
  w_clock (Forward p src data w) = w_clock w.
Proof.
  unfold Forward, WriteToUDP. destruct (w_heap w !! p) as [s|]; [|done].
  destruct (rs_closed s); [done|]. destruct (rs_conn s); repeat case_decide; done.
Qed.

Lemma Inv_Start listen st : Inv st -> Inv (Start listen st).2.
Proof.
  destruct st as [r w]. intros Hi. destruct listen as [c|e]; [|done].
  eapply Inv_ext; [exact Hi|..]; done.
Qed.

Lemma Inv_dispatch src data st : Inv st -> Inv (dispatch src data st).
Proof.
  destruct st as [r w]. intros Hi. unfold dispatch.
  destruct (rl_addrIndex r !! src) as [p|]; [|done].
  destruct (Forward_frame p src data w) as (E1 & E2 & E3).
  eapply Inv_ext; [exact Hi|..]; try done. by rewrite E3.
Qed.

Lemma Inv_advance d st : 0 <= d -> Inv st -> Inv (advance d st).
Proof. destruct st as [r w]. intros Hd Hi. eapply Inv_ext; [exact Hi|..]; simpl; try done. lia. Qed.

Lemma Inv_fire t st : Inv st -> Inv (fire t st).
Proof.
  destruct st as [r w]. intros [H1 H2 H3 H4 H5]. split; try done.
  intros id u Hu. destruct (H4 id u Hu) as (tm & Ht & ? & ? & ?). unfold pending in *. simpl in *.
  destruct (decide (u = t)) as [->|Hne].
  - exists (set_timer_state Fired tm). rewrite list_lookup_alter_eq, Ht. done.
  - exists tm. by rewrite list_lookup_alter_ne.
Qed.

(** What a successful [AddSession] did. *)
Lemma AddSession_inv resolve a r w st' :
  AddSession resolve a (r, w) = (None, st') ->
  exists peerA peerB,
    resolve (rsa_PeerAEndpoint a) = Ok peerA /\ resolve (rsa_PeerBEndpoint a) = Ok peerB /\
    rsa_SessionID a <> "" /\ peerA <> peerB /\ rl_sessions r !! rsa_SessionID a = None /\
    Z.of_nat (size (rl_sessions r)) < rl_maxSessions r /\
    st' = (mkRelay (rl_listenPort r) (rl_maxSessions r) (rl_sessionTTL r) (rl_conn r)
             (<[rsa_SessionID a := length (w_heap w)]> (rl_sessions r))
             (<[peerB := length (w_heap w)]> (<[peerA := length (w_heap w)]> (rl_addrIndex r)))
             (<[rsa_SessionID a := length (w_timers w)]> (rl_timers r)) (rl_active r),
           mkWorld (w_heap w ++ [mkSession (rsa_SessionID a) peerA peerB (rl_conn r) false])
             (w_timers w ++ [mkTimer (rsa_SessionID a)
                (w_clock w + session_ttl (rl_sessionTTL r) (rsa_ExpiresAt a) (w_clock w)) Armed])
             (w_open w) (w_sent w) (w_clock w)).
Proof.
  unfold AddSession. case_decide; [done|].
  destruct (resolve (rsa_PeerAEndpoint a)) as [pa|]; [|done].
  destruct (resolve (rsa_PeerBEndpoint a)) as [pb|]; [|done].
  case_decide; [done|]. case_decide as Hs; [done|]. case_decide; [done|].
  intros [= <-]. exists pa, pb. split_and!; try done; [|lia].
  by apply eq_None_not_Some.
Qed.

Lemma AddSession_error resolve a st e st' :
  AddSession resolve a st = (Some e, st') -> st' = st.
Proof. destruct st as [r w]. unfold AddSession. repeat case_match; by intros [= _ <-]. Qed.

(** A live session stays live when the store grows. *)
Lemma live_lookup st id s p :
  Inv st -> rl_sessions st.1 !! id = Some p -> w_heap st.2 !! p = Some s -> live st id s.
Proof.
  intros Hi Hp Hs. destruct (inv_session _ Hi _ _ Hp) as (s' & p' & Hp' & Hs' & ? & ? & ?).
  simplify_eq. exists p. done.
Qed.

Lemma Inv_AddSession resolve a st : Inv st -> Inv (AddSession resolve a st).2.
Proof.
  destruct st as [r w]. intros Hi.
  destruct (AddSession resolve a (r, w)) as [[e|] st'] eqn:E; simpl.
  { by apply AddSession_error in E as ->. }
  apply AddSession_inv in E as (pa & pb & _ & _ & _ & Hne & Hfresh & Hcap & ->).
  set (id := rsa_SessionID a) in *.
  destruct Hi as [H1 H2 H3 H4 H5]. simpl in *. split; simpl.
  - intros i p. rewrite lookup_insert. case_decide as Ei.
    + intros [= <-]. subst i. eexists (mkSession id pa pb (rl_conn r) false), (length (w_heap w)).
      simpl. rewrite lookup_insert_eq, lookup_app_r, Nat.sub_diag by lia. done.
    + intros Hp. destruct (H1 i p Hp) as (s & q & Hq & Hs & Hl). exists s, q. simpl in *.
      rewrite lookup_insert_ne by done. split; [done|]. split; [|done].
      rewrite lookup_app_l; [done|]. by eapply lookup_lt_Some.
  - intros x p Hx. rewrite !lookup_insert in Hx.
    destruct (decide (pb = x)) as [->|Hb]; [|destruct (decide (pa = x)) as [->|Ha]].
    3:{ destruct (H2 x p Hx) as (s & Hs & Hss & Hab). exists s.
        rewrite lookup_app_l by (by eapply lookup_lt_Some). rewrite lookup_insert_ne by congruence. done. }
    all: injection Hx as <-; eexists; rewrite lookup_app_r, Nat.sub_diag by lia; split; [done|];
      simpl; rewrite lookup_insert_eq; auto.
  - by rewrite !dom_insert_L, H3.
  - intros i t. rewrite lookup_insert. unfold pending. simpl. case_decide as Ei.
    + intros [= <-]. subst i. eexists. rewrite lookup_app_r, Nat.sub_diag by lia. split; [done|].
      simpl. split_and!; try done. pose proof (session_ttl_le (rl_sessionTTL r) (rsa_ExpiresAt a) (w_clock w)). lia.
    + intros Ht. destruct (H4 i t Ht) as (tm & Htm & Hl). exists tm. split; [|done].
      rewrite lookup_app_l; [done|]. by eapply lookup_lt_Some.
  - rewrite map_size_insert_None by done. lia.
Qed.

(** What [RemoveSession] did to a registered session. *)
Lemma RemoveSession_live id p s st :
  Inv st -> rl_sessions st.1 !! id = Some p -> w_heap st.2 !! p = Some s ->
  exists t, rl_timers st.1 !! id = Some t /\
  RemoveSession id st =
    (mkRelay (rl_listenPort st.1) (rl_maxSessions st.1) (rl_sessionTTL st.1) (rl_conn st.1)
       (delete id (rl_sessions st.1))
       (delete (rs_PeerBAddr s) (delete (rs_PeerAAddr s) (rl_addrIndex st.1)))
       (delete id (rl_timers st.1)) (rl_active st.1), Close p (timer_Stop t st.2)).
Proof.
  intros Hi Hp Hs. destruct st as [r w]. simpl in *.
  assert (Ht : is_Some (rl_timers r !! id)).
  { apply elem_of_dom. pose proof (inv_timers _ Hi) as E. simpl in E. rewrite E.
    apply elem_of_dom. eauto. }
  destruct Ht as [t Ht]. exists t. split; [done|]. rewrite Hp, Ht.
  change (w_heap (timer_Stop t w)) with (w_heap w). by rewrite Hs.
Qed.

Lemma RemoveSession_unknown id st : rl_sessions st.1 !! id = None -> RemoveSession id st = st.
Proof. destruct st as [r w]. simpl. by intros ->. Qed.

Lemma Inv_RemoveSession id st : Inv st -> Inv (RemoveSession id st).
Proof.
  intros Hi. destruct (rl_sessions st.1 !! id) as [p|] eqn:Hp; [|by rewrite RemoveSession_unknown].
  destruct (inv_session _ Hi _ _ Hp) as (s & p' & Hp' & Hs & Hid & Hcl & Hab). simplify_eq.
  destruct (RemoveSession_live _ _ _ _ Hi Hp Hs) as (t & Ht & ->).
  destruct st as [r w]. destruct Hi as [H1 H2 H3 H4 H5]. simpl in *. split; simpl.
  - intros i q [Hne Hq]%lookup_delete_Some.
    destruct (H1 i q Hq) as (s' & q' & Hq' & Hs' & Hi' & Hl). simpl in *. exists s', q'. simpl.
    rewrite lookup_delete_ne by done. split; [done|]. split; [|done].
    rewrite list_lookup_alter_ne; [done|]. intros ->. simplify_eq.
  - intros x q [Hb [Ha Hx]%lookup_delete_Some]%lookup_delete_Some.
    destruct (H2 x q Hx) as (s' & Hs' & Hss & Hx').
    assert (Hq : q <> p) by (intros ->; simplify_eq; naive_solver).
    exists s'. rewrite list_lookup_alter_ne by done. rewrite lookup_delete_ne; [done|].
    intros E. rewrite E in Hp. simplify_eq.
  - by rewrite !dom_delete_L, H3.
  - intros i u [Hne Hu]%lookup_delete_Some. destruct (H4 i u Hu) as (tm & Htm & Hl).
    destruct (H4 _ t Ht) as (tm' & Htm' & Hl'). exists tm. split; [|done]. simpl.
    rewrite list_lookup_alter_ne; [done|]. intros ->. simpl in *. simplify_eq. naive_solver.
  - rewrite map_size_delete_Some by eauto. lia.
Qed.

Lemma Inv_Stop `{MapOrder} st : Inv st -> Inv (Stop st).
Proof.
  destruct st as [r w]. intros Hi. unfold Stop. destruct (negb _); [done|].
  split; simpl; try (intros ??; by rewrite lookup_empty); [done|].
  rewrite map_size_empty. lia.
Qed.

Lemma RemoveSession_gone id st : rl_sessions (RemoveSession id st).1 !! id = None.
Proof.
  destruct st as [r w]. simpl. destruct (rl_sessions r !! id) eqn:E; [|done].
  case_match; simpl; apply lookup_delete_eq.
Qed.

Lemma RemoveSession_timer id st t tm :
  w_timers (RemoveSession id st).2 !! t = Some tm ->
  exists tm', w_timers st.2 !! t = Some tm' /\ tm_session tm' = tm_session tm.
Proof.
  destruct st as [r w]. simpl. destruct (rl_sessions r !! id) as [p|]; [|eauto].
  destruct (match w_heap _ !! p with Some _ => _ | None => _ end). simpl.
  destruct (rl_timers r !! id) as [u|]; [|eauto]. simpl.
  destruct (decide (t = u)) as [->|Hne].
  - rewrite list_lookup_alter_eq. destruct (w_timers w !! u) as [tm'|]; [|done].
    intros [= <-]. exists tm'. unfold stop_timer. split; [done|]. by destruct (tm_state tm').
  - rewrite list_lookup_alter_ne by done. eauto.
Qed.

Lemma Inv_run_callback t st : Inv st -> Inv (run_callback t st).
Proof.
  intros Hi. unfold run_callback. destruct (w_timers st.2 !! t) as [tm|] eqn:Ht; [|done].
  pose proof (Inv_RemoveSession (tm_session tm) st Hi) as Hi'.
  pose proof (RemoveSession_gone (tm_session tm) st) as Hg.
  pose proof (RemoveSession_timer (tm_session tm) st t) as Htm.
  destruct (RemoveSession (tm_session tm) st) as [r w].
  destruct Hi' as [H1 H2 H3 H4 H5]. split; try done. simpl in *.
  intros i u Hu. destruct (H4 i u Hu) as (tm' & Hu' & Hs & Hl). exists tm'. split; [|done]. simpl in *.
  rewrite list_lookup_alter_ne; [done|]. intros ->.
  destruct (Htm _ Hu') as (tm2 & Ht2 & E). rewrite Ht in Ht2. simplify_eq.
  assert (Hin : tm_session tm' ∈ dom (rl_sessions r)) by (rewrite <- H3; apply elem_of_dom; eauto).
  rewrite <- E in Hin. apply elem_of_dom in Hin as [q Hq]. by rewrite Hg in Hq.
Qed.

Lemma Inv_step st st' : step st st' -> Inv st -> Inv st'.
Proof.
  destruct 1; eauto using Inv_Start, Inv_AddSession, Inv_RemoveSession, Inv_Stop, Inv_dispatch,
    Inv_advance, Inv_fire, Inv_run_callback.
Qed.

Lemma reachable_Inv st : reachable st -> Inv st.
Proof.
  intros (port & max & ttl & now & Hr). pose proof (Inv_init port max ttl now) as Hi.
  induction Hr; eauto using Inv_step.
Qed.

(** A session under reconciliation: the handler's loops. *)
Lemma remove_stale_dom desired ids st :
  dom (rl_sessions (remove_stale desired ids st).1) =
  dom (rl_sessions st.1) ∖ (list_to_set ids ∖ dom desired).
Proof.
  revert st. induction ids as [|i ids IH]; intros st; simpl; [set_solver|]. unfold remove_stale in *.
  simpl. rewrite IH. case_decide as Hd.
  - apply elem_of_dom in Hd. apply set_eq. intros x. set_solver.
  - assert (E : dom (rl_sessions (RemoveSession i st).1) = dom (rl_sessions st.1) ∖ {[ i ]}).
    { destruct st as [r w]. simpl. destruct (rl_sessions r !! i) eqn:E.
      - case_match; simpl; by rewrite dom_delete_L.
      - apply not_elem_of_dom in E. simpl. set_solver. }
    rewrite E. assert (i ∉ dom desired) by (by rewrite elem_of_dom). set_solver.
Qed.

Lemma remove_stale_keep desired ids st id p :
  is_Some (desired !! id) -> rl_sessions st.1 !! id = Some p ->
  rl_sessions (remove_stale desired ids st).1 !! id = Some p.
Proof.
  intros Hd. revert st. induction ids as [|i ids IH]; intros st Hp; [done|].
  unfold remove_stale in *. simpl. apply IH. case_decide as Hi; [done|].
  destruct st as [r w]. simpl in *. destruct (rl_sessions r !! i) eqn:E; [|done].
  case_match. simpl. rewrite lookup_delete_ne; [done|]. by intros ->.
Qed.

Lemma add_missing_errs resolve cur l : forall errs st errs' st',
  add_missing resolve cur l (errs, st) = (errs', st') -> exists new, errs' = errs ++ new.
Proof.
  induction l as [|[i a] l IH]; intros errs st errs' st'; unfold add_missing; simpl.
  { intros [= <- _]. exists []. by rewrite app_nil_r. }
  case_decide; [by apply IH|]. destruct (AddSession resolve a st) as [[e|] st1]; [|by apply IH].
  intros (new & ->)%IH. exists (e :: new). by rewrite <- app_assoc.
Qed.

Lemma add_missing_dom resolve cur l : forall st st',
  Forall (fun '(i, a) => rsa_SessionID a = i) l ->
  add_missing resolve cur l ([], st) = ([], st') ->
  dom (rl_sessions st'.1) = dom (rl_sessions st.1) ∪ (list_to_set l.*1 ∖ cur) /\
  (forall i p, rl_sessions st.1 !! i = Some p -> rl_sessions st'.1 !! i = Some p).
Proof.
  induction l as [|[i a] l IH]; intros st st' Hl; unfold add_missing; simpl.
  { intros [= <-]. split; [set_solver|done]. }
  inversion_clear Hl as [|?? Ha Hl']. case_decide as Hc.
  { intros [E Hk]%IH; [|done]. split; [|done]. rewrite E. set_solver. }
  destruct (AddSession resolve a st) as [[e|] st1] eqn:Ea.
  { intros (new & Hnew)%add_missing_errs. done. }
  intros [E Hk]%IH; [|done]. destruct st as [r w].
  apply AddSession_inv in Ea as (pa & pb & _ & _ & _ & _ & Hf & _ & ->). simpl in *. subst i. split.
  - rewrite E, dom_insert_L. set_solver.
  - intros i p Hp. apply Hk. rewrite lookup_insert_ne; [done|]. congruence.
Qed.

(** The packets a session sends: only from one of its peers to the other. *)
Lemma Forward_sent p src data w :
  w_sent (Forward p src data w) = w_sent w \/
  exists s dst, w_heap w !! p = Some s /\ rs_closed s = false /\
    w_sent (Forward p src data w) = w_sent w ++ [(dst, data)] /\
    ((src = rs_PeerAAddr s /\ dst = rs_PeerBAddr s) \/ (src = rs_PeerBAddr s /\ dst = rs_PeerAAddr s)).
Proof.
  unfold Forward, WriteToUDP. destruct (w_heap w !! p) as [s|]; [|by left].
  destruct (rs_closed s) eqn:Ec; [by left|]. destruct (rs_conn s) as [c|].
  - repeat case_decide; try (by left); right; eexists s, _; split_and!; eauto.
  - repeat case_decide; by left.
Qed.

(** ** Concrete states, for the witnesses *)

Definition ex_resolve (s : string) : result string string :=
  if decide (s = "") then Err "missing address" else Ok s.
Definition ex_assignment (id a b : string) (expires : Z) : RelaySessionAssignment :=
  mkRelaySessionAssignment id "pa" a "pb" b expires.
(** A started relay with one session between "a:1" and "b:1", then a second
    one between "a:1" and "c:1". *)
Definition ex_started : state := (Start (Ok 3%nat) (init 0 2 (60 * second) (1000 * second))).2.
Definition ex_one : state := (AddSession ex_resolve (ex_assignment "s1" "a:1" "b:1" 0) ex_started).2.
Definition ex_two : state := (AddSession ex_resolve (ex_assignment "s2" "a:1" "c:1" 0) ex_one).2.
Definition ex_relay_state : StateResponse :=
  mkStateResponse [] [] None ∅ None
    (Some (mkRelayConfig [ex_assignment "s2" "a:1" "c:1" 0; ex_assignment "s3" "d:1" "e:1" 0])) None None None [] [].

Lemma ex_two_reachable : reachable ex_two.
Proof.
  exists 0, 2, (60 * second), (1000 * second).
  eapply rtc_l; [exact (step_start (Ok 3%nat) _)|]. fold ex_started.
  eapply rtc_l; [exact (step_add ex_resolve (ex_assignment "s1" "a:1" "b:1" 0) _)|]. fold ex_one.
  eapply rtc_l; [exact (step_add ex_resolve (ex_assignment "s2" "a:1" "c:1" 0) _)|]. apply rtc_refl.
Defined.

(** ** Theorems *)

(** C24. The relay never leaks a packet: in every reachable state (whatever the
    order of assignments, revocations, timers, callbacks and stops), a packet
    that arrives is either dropped or sent on unchanged, once, and then from
    one peer of a registered, open session to the other peer of it. *)
Theorem relay_forwards_within_session st src data :
  reachable st ->
  w_sent (dispatch src data st).2 = w_sent st.2 \/
  exists id s dst, live st id s /\ w_sent (dispatch src data st).2 = w_sent st.2 ++ [(dst, data)] /\
    ((src = rs_PeerAAddr s /\ dst = rs_PeerBAddr s) \/ (src = rs_PeerBAddr s /\ dst = rs_PeerAAddr s)).
Proof.
  intros Hi%reachable_Inv. destruct st as [r w]. unfold dispatch.
  destruct (rl_addrIndex r !! src) as [p|] eqn:Ea; [|by left]. simpl.
  destruct (Forward_sent p src data w) as [?|(s & dst & Hs & _ & Hsent & Hd)]; [by left|]. right.
  destruct (inv_index _ Hi _ _ Ea) as (s' & Hs' & Hreg & _). simpl in *. simplify_eq.
  exists (rs_SessionID s), s, dst. split; [|done]. by eapply live_lookup.
Qed.

Lemma relay_forwards_within_session_witness :
  w_sent (dispatch "c:1" [1; 2] ex_two).2 = [("a:1", [1; 2])] /\
  (w_sent (dispatch "c:1" [1; 2] ex_two).2 = w_sent ex_two.2 \/
   exists id s dst, live ex_two id s /\
     w_sent (dispatch "c:1" [1; 2] ex_two).2 = w_sent ex_two.2 ++ [(dst, [1; 2])] /\
     (("c:1" = rs_PeerAAddr s /\ dst = rs_PeerBAddr s) \/ ("c:1" = rs_PeerBAddr s /\ dst = rs_PeerAAddr s))).
Proof.
  split; [vm_compute; reflexivity|].
  exact (relay_forwards_within_session ex_two "c:1" [1; 2] ex_two_reachable).
Defined.

(** Sessions are bounded in number and in time: in every reachable state
    there are at most [maxSessions] of them, and each has a timer that is not
    stopped, is due no later than the session TTL from now, and whose callback
    removes the session. *)
Theorem sessions_bounded st :
  reachable st ->
  ActiveCount st <= Z.max 0 (rl_maxSessions st.1) /\
  forall id p, rl_sessions st.1 !! id = Some p ->
    exists t, pending st id t /\ rl_sessions (run_callback t st).1 !! id = None.
Proof.
  intros Hi%reachable_Inv. split; [apply (inv_capacity _ Hi)|]. intros id p Hp.
  assert (Ht : is_Some (rl_timers st.1 !! id)).
  { apply elem_of_dom. rewrite (inv_timers _ Hi). apply elem_of_dom. eauto. }
  destruct Ht as [t Ht]. pose proof (inv_pending _ Hi _ _ Ht) as Hpend. exists t. split; [done|].
  destruct Hpend as (tm & Htm & <- & _). unfold run_callback. rewrite Htm. apply RemoveSession_gone.
Qed.

Lemma sessions_bounded_witness :
  ActiveCount ex_two = 2 /\ ActiveCount ex_two <= Z.max 0 (rl_maxSessions ex_two.1) /\
  exists t, pending ex_two "s1" t /\ rl_sessions (run_callback t ex_two).1 !! "s1" = None.
Proof.
  destruct (sessions_bounded ex_two ex_two_reachable) as [P1 P2].
  split; [vm_compute; reflexivity|]. split; [exact P1|]. apply (P2 "s1" 0%nat).
  vm_compute. reflexivity.
Defined.

(** Reconciliation: after a run of the relay handler that returns no
    error, the sessions are exactly those the control plane asked for, and
    the ones that were there before are the same objects, for every order in
    which the maps are iterated.  (A session that was kept is not compared
    with its new assignment.) *)
Theorem RelayReconcileHandler_applies `{HO : MapOrder} resolve d rc st st' :
  st_RelayConfig d = Some rc ->
  RelayReconcileHandler resolve (Some d) st = (HReturns None, st') ->
  dom (rl_sessions st'.1) = list_to_set (rsa_SessionID <$> rc_Sessions rc) /\
  (forall id p, rl_sessions st.1 !! id = Some p -> id ∈ rsa_SessionID <$> rc_Sessions rc ->
     rl_sessions st'.1 !! id = Some p).
Proof.
  intros Hd. unfold RelayReconcileHandler. simpl. rewrite Hd.
  set (des := build_map _ _ _). set (st1 := remove_stale _ _ _).
  destruct (add_missing resolve _ _ _) as [errs st2] eqn:E. case_decide as He; [|done].
  intros [= <-]. subst errs. assert (Hdes : dom des = list_to_set (rsa_SessionID <$> rc_Sessions rc))
    by apply dom_build_map.
  apply add_missing_dom in E as [E Hkeep].
  2:{ apply Forall_forall. intros [i a] Hin. apply elem_of_range_map in Hin.
      by apply build_map_Some_inv in Hin as (x & _ & <- & <-). }
  assert (Hdom : dom (rl_sessions st2.1) = list_to_set (rsa_SessionID <$> rc_Sessions rc)).
  { rewrite E. subst st1. rewrite remove_stale_dom, <- Hdes. unfold SessionIDs.
    apply set_eq. intros x. rewrite !elem_of_union, !elem_of_difference, !elem_of_list_to_set.
    fold (range_keys des). rewrite !elem_of_range_keys.
    rewrite !elem_of_dom. destruct (decide (is_Some (des !! x))), (decide (is_Some (rl_sessions st.1 !! x))); tauto. }
  split; [done|]. intros id p Hp Hin. apply Hkeep, remove_stale_keep; [|done].
  apply elem_of_dom. rewrite Hdes. set_solver.
Qed.

Lemma RelayReconcileHandler_applies_witness :
  exists st', RelayReconcileHandler (H := rev_order) ex_resolve (Some ex_relay_state) ex_two =
                (HReturns None, st') /\
    dom (rl_sessions st'.1) = {[ "s2"; "s3" ]} /\ rl_sessions st'.1 !! "s2" = Some 1%nat.
Proof.
  set (res := RelayReconcileHandler (H := rev_order) ex_resolve (Some ex_relay_state) ex_two).
  exists res.2. assert (E : res = (HReturns None, res.2)) by (vm_compute; reflexivity).
  split; [exact E|].
  destruct (RelayReconcileHandler_applies (HO := rev_order) ex_resolve ex_relay_state
    (mkRelayConfig [ex_assignment "s2" "a:1" "c:1" 0; ex_assignment "s3" "d:1" "e:1" 0])
    ex_two res.2 eq_refl E) as [P1 P2].
  split; [rewrite P1; vm_compute; reflexivity|].
  apply P2; [vm_compute; reflexivity|]. by_compute.
Defined.

(** Two sessions that share an address (one node relayed to two peers from
    the same socket) break each other: removing either leaves the other one
    registered and open, but packets from the shared address are then dropped. *)
Theorem shared_endpoint_cuts_session st id1 s1 id2 s2 addr data :
  reachable st -> live st id1 s1 -> live st id2 s2 -> id1 <> id2 ->
  (addr = rs_PeerAAddr s1 \/ addr = rs_PeerBAddr s1) ->
  (addr = rs_PeerAAddr s2 \/ addr = rs_PeerBAddr s2) ->
  let st' := RemoveSession id1 st in
  live st' id2 s2 /\ dispatch addr data st' = st'.
Proof.
  intros Hi%reachable_Inv (p1 & Hp1 & Hs1 & Hid1 & Hl1) (p2 & Hp2 & Hs2 & Hid2 & Hl2) Hne Ha1 Ha2.
  destruct (RemoveSession_live _ _ _ _ Hi Hp1 Hs1) as (t & _ & ->). split.
  - exists p2. simpl. rewrite lookup_delete_ne by done. split; [done|]. split; [|done].
    rewrite list_lookup_alter_ne; [done|]. intros ->. simplify_eq.
  - unfold dispatch. simpl. replace (delete _ _ !! addr) with (@None nat); [done|].
    symmetry. destruct Ha1 as [->| ->]; [|by apply lookup_delete_eq].
    destruct (decide (rs_PeerBAddr s1 = rs_PeerAAddr s1)) as [->|Hd]; [by apply lookup_delete_eq|].
    rewrite lookup_delete_ne by done. apply lookup_delete_eq.
Qed.

Lemma shared_endpoint_cuts_session_witness :
  let st' := RemoveSession "s1" ex_two in
  live st' "s2" (mkSession "s2" "a:1" "c:1" (Some 3%nat) false) /\ dispatch "a:1" [1] st' = st'.
Proof.
  apply (shared_endpoint_cuts_session ex_two "s1" (mkSession "s1" "a:1" "b:1" (Some 3%nat) false) "s2"
           (mkSession "s2" "a:1" "c:1" (Some 3%nat) false) "a:1" [1] ex_two_reachable).
  - exists 0%nat. by_compute.
  - exists 1%nat. by_compute.
  - discriminate.
  - left. reflexivity.
  - left. reflexivity.
Defined.

(** An assignment that has already expired gets the full session TTL. *)
Lemma expired_assignment_full_ttl ttl e now : e <> 0 -> e <= now -> session_ttl ttl e now = ttl.
Proof.
  intros He Hn. unfold session_ttl, is_zero_time. rewrite bool_decide_eq_false_2 by done. simpl.
  rewrite decide_False; [done|]. unfold time_sub, min_int64, max_int64. lia.
Qed.

(** A callback that is already waiting for the lock removes a session that
    was assigned again under the same id in the meantime. *)
Lemma stale_callback_removes_new_session :
  let st := fire 0 (advance (60 * second) ex_one) in
  let st := (AddSession ex_resolve (ex_assignment "s1" "a:1" "b:1" 0) (RemoveSession "s1" st)).2 in
  rl_sessions st.1 !! "s1" = Some 1%nat /\ rl_sessions (run_callback 0 st).1 !! "s1" = None.
Proof. split; vm_compute; reflexivity. Qed.
