(* ===== verification/BridgeCfg.v ===== *)
(** * Configuration of bridge mode (src/internal/bridge/config.go)

    The configuration shared by the bridge manager, the relay, user access,
    ingress and site-to-site components.  Errors are the source's messages;
    what [%q] and [%w] add to them is left out. *)

From stdpp Require Import base strings list gmap.
From S2P Require Import Prelude Base64 Net Types.

Record Config := mkConfig {
  cf_Enabled : bool;
  cf_AccessInterface : string;
  cf_AccessSubnets : list string;
  cf_EnableNAT : option bool;
  cf_RelayEnabled : bool;
  cf_RelayListenPort : Z;
  cf_MaxRelaySessions : Z;
  cf_SessionTTL : Z;
  cf_UserAccessEnabled : bool;
  cf_UserAccessInterfaceName : string;
  cf_UserAccessListenPort : Z;
  cf_MaxAccessPeers : Z;
  cf_IngressEnabled : bool;
  cf_MaxIngressRules : Z;
  cf_IngressDialTimeout : Z;
  cf_SiteToSiteEnabled : bool;
  cf_SiteToSiteInterfacePrefix : string;
  cf_SiteToSiteListenPort : Z;
  cf_MaxSiteToSiteTunnels : Z
}.

#[global] Instance Config_eq_dec : EqDecision Config.
Proof. solve_decision. Defined.

Definition DefaultRelayListenPort : Z := 51821.
Definition DefaultMaxRelaySessions : Z := 100.
Definition DefaultSessionTTL : Z := 5 * minute.
Definition DefaultUserAccessInterfaceName : string := "wg-access".
Definition DefaultUserAccessListenPort : Z := 51822.
Definition DefaultMaxAccessPeers : Z := 50.
Definition DefaultMaxIngressRules : Z := 20.
Definition DefaultIngressDialTimeout : Z := 10 * second.
Definition DefaultSiteToSiteInterfacePrefix : string := "wg-s2s-".
Definition DefaultSiteToSiteListenPort : Z := 51823.
Definition DefaultMaxSiteToSiteTunnels : Z := 10.

Definition natEnabled (c : Config) : bool := default true (cf_EnableNAT c).

(** A zero value is replaced by the default. *)
Definition or_default {A} `{EqDecision A} (zero d x : A) : A := if decide (x = zero) then d else x.

Definition ApplyDefaults (c : Config) : Config :=
  mkConfig (cf_Enabled c) (cf_AccessInterface c) (cf_AccessSubnets c) (cf_EnableNAT c)
    (cf_RelayEnabled c)
    (or_default 0 DefaultRelayListenPort (cf_RelayListenPort c))
    (or_default 0 DefaultMaxRelaySessions (cf_MaxRelaySessions c))
    (or_default 0 DefaultSessionTTL (cf_SessionTTL c))
    (cf_UserAccessEnabled c)
    (or_default "" DefaultUserAccessInterfaceName (cf_UserAccessInterfaceName c))
    (or_default 0 DefaultUserAccessListenPort (cf_UserAccessListenPort c))
    (or_default 0 DefaultMaxAccessPeers (cf_MaxAccessPeers c))
    (cf_IngressEnabled c)
    (or_default 0 DefaultMaxIngressRules (cf_MaxIngressRules c))
    (or_default 0 DefaultIngressDialTimeout (cf_IngressDialTimeout c))
    (cf_SiteToSiteEnabled c)
    (or_default "" DefaultSiteToSiteInterfacePrefix (cf_SiteToSiteInterfacePrefix c))
    (or_default 0 DefaultSiteToSiteListenPort (cf_SiteToSiteListenPort c))
    (or_default 0 DefaultMaxSiteToSiteTunnels (cf_MaxSiteToSiteTunnels c)).

(** A chain of guards: the first that holds gives the error. *)
Fixpoint first_error (checks : list (bool * string)) : option string :=
  match checks with
  | [] => None
  | (bad, msg) :: checks => if bad then Some msg else first_error checks
  end.

Definition bad_port (p : Z) : bool := (p <? 1) || (65535 <? p).

(** The parts of bridge mode need bridge mode. *)
Definition part_checks (c : Config) : list (bool * string) :=
  [ (cf_RelayEnabled c && negb (cf_Enabled c),
      "bridge: config: relay requires bridge mode to be enabled");
    (cf_UserAccessEnabled c && negb (cf_Enabled c),
      "bridge: config: user access requires bridge mode to be enabled");
    (cf_IngressEnabled c && negb (cf_Enabled c),
      "bridge: config: ingress requires bridge mode to be enabled");
    (cf_SiteToSiteEnabled c && negb (cf_Enabled c),
      "bridge: config: site-to-site requires bridge mode to be enabled") ].

Definition access_checks (c : Config) : list (bool * string) :=
  [ (bool_decide (cf_AccessInterface c = ""),
      "bridge: config: AccessInterface is required when enabled");
    (bool_decide (cf_AccessSubnets c = []),
      "bridge: config: at least one AccessSubnet is required when enabled") ] ++
  ((fun s => (bool_decide (ParseCIDR s = None), String.append "bridge: config: invalid CIDR " s))
    <$> cf_AccessSubnets c).

Definition relay_checks (c : Config) : list (bool * string) :=
  if cf_RelayEnabled c then
    [ (bad_port (cf_RelayListenPort c),
        "bridge: config: RelayListenPort must be between 1 and 65535");
      (cf_MaxRelaySessions c <=? 0,
        "bridge: config: MaxRelaySessions must be positive when relay is enabled");
      (cf_SessionTTL c <? 30 * second, "bridge: config: SessionTTL must be at least 30s") ]
  else [].

Definition user_access_checks (c : Config) : list (bool * string) :=
  if cf_UserAccessEnabled c then
    [ (bad_port (cf_UserAccessListenPort c),
        "bridge: config: UserAccessListenPort must be between 1 and 65535");
      (bool_decide (cf_UserAccessInterfaceName c = ""),
        "bridge: config: UserAccessInterfaceName is required when user access is enabled");
      (cf_MaxAccessPeers c <=? 0,
        "bridge: config: MaxAccessPeers must be positive when user access is enabled") ]
  else [].

Definition ingress_checks (c : Config) : list (bool * string) :=
  if cf_IngressEnabled c then
    [ (cf_MaxIngressRules c <=? 0,
        "bridge: config: MaxIngressRules must be positive when ingress is enabled");
      (cf_IngressDialTimeout c <? second,
        "bridge: config: IngressDialTimeout must be at least 1s") ]
  else [].

Definition site_to_site_checks (c : Config) : list (bool * string) :=
  if cf_SiteToSiteEnabled c then
    [ (bad_port (cf_SiteToSiteListenPort c),
        "bridge: config: SiteToSiteListenPort must be between 1 and 65535");
      (bool_decide (cf_SiteToSiteInterfacePrefix c = ""),
        "bridge: config: SiteToSiteInterfacePrefix is required when site-to-site is enabled");
      (cf_MaxSiteToSiteTunnels c <=? 0,
        "bridge: config: MaxSiteToSiteTunnels must be positive when site-to-site is enabled") ]
  else [].

Definition Validate (c : Config) : option string :=
  match first_error (part_checks c) with
  | Some e => Some e
  | None =>
      if negb (cf_Enabled c) then None
      else first_error (access_checks c ++ relay_checks c ++ user_access_checks c ++
                        ingress_checks c ++ site_to_site_checks c)
  end.

(** ** What a valid configuration is *)

Definition port_ok (p : Z) : Prop := 1 <= p <= 65535.

(** The configuration the components are written for. *)
Record wf_config (c : Config) : Prop := mkWfConfig {
  wf_parts : cf_RelayEnabled c || cf_UserAccessEnabled c || cf_IngressEnabled c ||
    cf_SiteToSiteEnabled c = true -> cf_Enabled c = true;
  wf_access : cf_Enabled c = true -> cf_AccessInterface c <> "" /\ cf_AccessSubnets c <> [] /\
    Forall (fun s => is_Some (ParseCIDR s)) (cf_AccessSubnets c);
  wf_relay : cf_RelayEnabled c = true -> port_ok (cf_RelayListenPort c) /\
    0 < cf_MaxRelaySessions c /\ 30 * second <= cf_SessionTTL c;
  wf_user : cf_UserAccessEnabled c = true -> port_ok (cf_UserAccessListenPort c) /\
    cf_UserAccessInterfaceName c <> "" /\ 0 < cf_MaxAccessPeers c;
  wf_ingress : cf_IngressEnabled c = true -> 0 < cf_MaxIngressRules c /\
    second <= cf_IngressDialTimeout c;
  wf_s2s : cf_SiteToSiteEnabled c = true -> port_ok (cf_SiteToSiteListenPort c) /\
    cf_SiteToSiteInterfacePrefix c <> "" /\ 0 < cf_MaxSiteToSiteTunnels c
}.

(** ** Lemmas *)

Lemma first_error_None l : first_error l = None <-> Forall (fun p => p.1 = false) l.
Proof.
  induction l as [|[[] msg] l IH]; simpl.
  - split; [constructor|done].
  - split; [done|]. by intros [? _]%Forall_cons.
  - rewrite IH, Forall_cons. simpl. tauto.
Qed.

Lemma bad_port_false p : bad_port p = false <-> port_ok p.
Proof. unfold bad_port, port_ok. rewrite orb_false_iff, !Z.ltb_ge. lia. Qed.

#[local] Ltac checks :=
  repeat (rewrite Forall_cons; cbn [fst]); rewrite ?Forall_nil;
  rewrite ?bool_decide_eq_false, ?bad_port_false, ?Z.leb_gt, ?Z.ltb_ge.

Lemma access_checks_ok c :
  Forall (fun p => p.1 = false) (access_checks c) <->
  cf_AccessInterface c <> "" /\ cf_AccessSubnets c <> [] /\
  Forall (fun s => is_Some (ParseCIDR s)) (cf_AccessSubnets c).
Proof.
  unfold access_checks. rewrite Forall_app, Forall_fmap. checks.
  assert (forall l, Forall (fun s => bool_decide (ParseCIDR s = None) = false) l <->
    Forall (fun s => is_Some (ParseCIDR s)) l) as ->; [|tauto].
  intros l. apply Forall_proper; [|done]. intros s. rewrite bool_decide_eq_false.
  apply not_eq_None_Some.
Qed.

Lemma relay_checks_ok c :
  Forall (fun p => p.1 = false) (relay_checks c) <->
  (cf_RelayEnabled c = true -> port_ok (cf_RelayListenPort c) /\
    0 < cf_MaxRelaySessions c /\ 30 * second <= cf_SessionTTL c).
Proof. unfold relay_checks. destruct (cf_RelayEnabled c); checks; intuition congruence. Qed.

Lemma user_access_checks_ok c :
  Forall (fun p => p.1 = false) (user_access_checks c) <->
  (cf_UserAccessEnabled c = true -> port_ok (cf_UserAccessListenPort c) /\
    cf_UserAccessInterfaceName c <> "" /\ 0 < cf_MaxAccessPeers c).
Proof. unfold user_access_checks. destruct (cf_UserAccessEnabled c); checks; intuition congruence. Qed.

Lemma ingress_checks_ok c :
  Forall (fun p => p.1 = false) (ingress_checks c) <->
  (cf_IngressEnabled c = true -> 0 < cf_MaxIngressRules c /\ second <= cf_IngressDialTimeout c).
Proof. unfold ingress_checks. destruct (cf_IngressEnabled c); checks; intuition congruence. Qed.

Lemma site_to_site_checks_ok c :
  Forall (fun p => p.1 = false) (site_to_site_checks c) <->
  (cf_SiteToSiteEnabled c = true -> port_ok (cf_SiteToSiteListenPort c) /\
    cf_SiteToSiteInterfacePrefix c <> "" /\ 0 < cf_MaxSiteToSiteTunnels c).
Proof. unfold site_to_site_checks. destruct (cf_SiteToSiteEnabled c); checks; intuition congruence. Qed.

Lemma part_checks_ok c :
  Forall (fun p => p.1 = false) (part_checks c) <->
  (cf_RelayEnabled c || cf_UserAccessEnabled c || cf_IngressEnabled c || cf_SiteToSiteEnabled c = true ->
   cf_Enabled c = true).
Proof.
  unfold part_checks. checks.
  destruct (cf_Enabled c), (cf_RelayEnabled c), (cf_UserAccessEnabled c), (cf_IngressEnabled c),
    (cf_SiteToSiteEnabled c); simpl; intuition congruence.
Qed.

Lemma ApplyDefaults_idemp c : ApplyDefaults (ApplyDefaults c) = ApplyDefaults c.
Proof.
  assert (H : forall A `{EqDecision A} (z d x : A), or_default z d (or_default z d x) = or_default z d x).
  { intros A ? z d x. unfold or_default. repeat case_decide; congruence. }
  unfold ApplyDefaults. cbn. by rewrite !H.
Qed.

(** ** Validation *)

Lemma Validate_wf c : Validate c = None <-> wf_config c.
Proof.
  unfold Validate. destruct (first_error (part_checks c)) as [e|] eqn:E.
  - split; [done|]. intros [Hp _ _ _ _ _]. apply part_checks_ok, first_error_None in Hp. congruence.
  - rewrite first_error_None, part_checks_ok in E. destruct (cf_Enabled c) eqn:En; cbn [negb].
    + rewrite first_error_None, !Forall_app, access_checks_ok, relay_checks_ok,
        user_access_checks_ok, ingress_checks_ok, site_to_site_checks_ok.
      split; [intros (? & ? & ? & ? & ?); by split|]. intros [? Ha ? ? ? ?]. specialize (Ha En). tauto.
    + split; [|done]. intros _.
      assert (cf_RelayEnabled c || cf_UserAccessEnabled c || cf_IngressEnabled c ||
        cf_SiteToSiteEnabled c = false) as Hoff.
      { apply not_true_is_false. intros Hx. by apply E in Hx. }
      apply orb_false_iff in Hoff as [[[? ?]%orb_false_iff ?]%orb_false_iff ?].
      split; [rewrite En; exact E|congruence..].
Qed.

(** Validation accepts exactly the well-formed configurations: when bridge
    mode is off only the flags matter, otherwise every limit of every enabled
    component holds and every subnet parses. *)
Theorem Validate_spec c : Validate c = None <-> wf_config c.
Proof. apply Validate_wf. Qed.

(** The defaults are themselves valid: an enabled configuration that leaves
    every limit at zero and names its access side is accepted. *)
Lemma ApplyDefaults_valid iface subnets nat relay user ingress s2s :
  iface <> "" -> subnets <> [] -> Forall (fun s => is_Some (ParseCIDR s)) subnets ->
  Validate (ApplyDefaults
    (mkConfig true iface subnets nat relay 0 0 0 user "" 0 0 ingress 0 0 s2s "" 0 0)) = None.
Proof.
  intros. apply Validate_wf. split; cbn; try done; intros _; unfold port_ok, second, minute;
    vm_compute; split_and!; done.
Qed.
