(* ===== verification/Routes.v ===== *)
(** * Routes, forwarding and NAT
    (src/internal/bridge/route.go, src/internal/bridge/route_linux.go)

    [RouteController] is the interface the bridge managers are written
    against and [RouteControllerLaws] what it promises: which routes,
    forwarding flags and masquerade rule an operation leaves behind, on
    success and on error.  [RouteControllerBase] is all of it except that a
    removed route is gone.  The Linux controller is built on netlink, sysctl
    files and nftables, which are parameters ([RouteKernel]) with their
    documented behaviour ([RouteKernelLaws]); it is proved to keep
    [RouteControllerBase], and not to remove the routes it adds.  The theorems
    on the managers are about controllers that keep all of it; an in-memory
    one is at the end of the file. *)

From stdpp Require Import base strings list gmap.
From S2P Require Import Prelude Base64 Net Types Policy Nftables.

(** ** The interface *)

(** The network a subnet string denotes: masked address and prefix length. *)
Abbreviation network := (list Z * nat)%type.
Definition subnet_net (s : string) : option network :=
  match ParseCIDR s with
  | Some (_, dst) => Some (net_IP dst, net_ones dst)
  | None => None
  end.

Class RouteController (W : Type) := {
  EnableForwarding : string -> string -> W -> option string * W;
  DisableForwarding : string -> string -> W -> option string * W;
  AddRoute : string -> string -> W -> option string * W;
  RemoveRoute : string -> string -> W -> option string * W;
  AddNATMasquerade : string -> W -> outcome (option string) * W;
  RemoveNATMasquerade : string -> W -> option string * W
}.

(** What can be observed of the system: the routes by network and interface,
    the interfaces that forward, the interfaces on which leaving traffic is
    masqueraded by the agent's table. *)
Class RouteView (W : Type) := {
  routed : W -> network -> string -> Prop;
  forwards : W -> string -> Prop;
  masquerades : W -> string -> Prop
}.

Section view.
Context {W : Type} `{RouteView W}.
Definition same_routes (w w' : W) : Prop := forall n i, routed w' n i <-> routed w n i.
Definition same_forwarding (w w' : W) : Prop := forall i, forwards w' i <-> forwards w i.
Definition same_nat (w w' : W) : Prop := forall i, masquerades w' i <-> masquerades w i.
Definition same_view (w w' : W) : Prop := same_routes w w' /\ same_forwarding w w' /\ same_nat w w'.

(** A subnet string of a list names the network. *)
Definition names (l : list string) (n : network) : Prop := exists s, s ∈ l /\ subnet_net s = Some n.

(** No network of the list is routed over another interface. *)
Definition unclaimed (iface : string) (l : list string) (w : W) : Prop :=
  forall n j, names l n -> routed w n j -> j = iface.
End view.

(** The directories [all] and [default] of the sysctl tree are not interfaces. *)
Definition ordinary (i : string) : Prop := i <> "all" /\ i <> "default".

Class RouteControllerBase (W : Type) `{RouteController W, RouteView W} := {
  EnableForwarding_routes : forall a b w e w', EnableForwarding a b w = (e, w') -> same_routes w w';
  DisableForwarding_routes : forall a b w e w', DisableForwarding a b w = (e, w') -> same_routes w w';
  EnableForwarding_ok : forall a b w w', ordinary a -> ordinary b ->
    EnableForwarding a b w = (None, w') ->
    same_routes w w' /\ same_nat w w' /\
    forall i, forwards w' i <-> i = a \/ i = b \/ forwards w i;
  (** the first interface may have been switched on when the second fails *)
  EnableForwarding_err : forall a b w e w', ordinary a -> ordinary b ->
    EnableForwarding a b w = (Some e, w') ->
    same_routes w w' /\ same_nat w w' /\
    (same_forwarding w w' \/ forall i, forwards w' i <-> i = a \/ forwards w i);
  DisableForwarding_ok : forall a b w w', ordinary a -> ordinary b ->
    DisableForwarding a b w = (None, w') ->
    same_routes w w' /\ same_nat w w' /\
    forall i, forwards w' i <-> i <> a /\ i <> b /\ forwards w i;
  DisableForwarding_err : forall a b w e w', ordinary a -> ordinary b ->
    DisableForwarding a b w = (Some e, w') ->
    same_routes w w' /\ same_nat w w' /\
    (same_forwarding w w' \/ forall i, forwards w' i <-> i <> a /\ forwards w i);
  (** a network that is routed over another interface stays there *)
  AddRoute_ok : forall s i w w', AddRoute s i w = (None, w') ->
    same_forwarding w w' /\ same_nat w w' /\
    exists n, subnet_net s = Some n /\
      ((forall m j, routed w' m j <-> (m = n /\ j = i) \/ routed w m j) \/
       (same_routes w w' /\ exists j, j <> i /\ routed w n j));
  AddRoute_err : forall s i w e w', AddRoute s i w = (Some e, w') -> same_view w w';
  (** nothing but the named route can go *)
  RemoveRoute_frame : forall s i w w', RemoveRoute s i w = (None, w') ->
    same_forwarding w w' /\ same_nat w w' /\
    exists n, subnet_net s = Some n /\
      (forall m j, routed w' m j -> routed w m j) /\
      (forall m j, ~ (m = n /\ j = i) -> routed w m j -> routed w' m j);
  RemoveRoute_err : forall s i w e w', RemoveRoute s i w = (Some e, w') -> same_view w w';
  AddNATMasquerade_ok : forall i w w', AddNATMasquerade i w = (Returns None, w') ->
    same_routes w w' /\ same_forwarding w w' /\
    (valid_iface i -> forall o, valid_iface o -> masquerades w' o <-> o = i);
  AddNATMasquerade_err : forall i w e w',
    AddNATMasquerade i w = (Returns (Some e), w') -> same_view w w';
  AddNATMasquerade_panics : forall i w w',
    AddNATMasquerade i w = (Panics, w') -> ~ valid_iface i /\ w' = w;
  RemoveNATMasquerade_ok : forall i w w', RemoveNATMasquerade i w = (None, w') ->
    same_routes w w' /\ same_forwarding w w' /\ forall o, ~ masquerades w' o;
  RemoveNATMasquerade_err : forall i w e w',
    RemoveNATMasquerade i w = (Some e, w') -> same_view w w'
}.

(** The whole promise: a route that was removed without error is gone. *)
Class RouteControllerLaws (W : Type) `{RouteController W, RouteView W} := {
  route_base :: RouteControllerBase W;
  RemoveRoute_gone : forall s i w w' n, RemoveRoute s i w = (None, w') -> subnet_net s = Some n ->
    ~ routed w' n i
}.

Lemma RemoveRoute_ok `{RouteControllerLaws W} s i (w w' : W) : RemoveRoute s i w = (None, w') ->
  same_forwarding w w' /\ same_nat w w' /\
  exists n, subnet_net s = Some n /\
    forall m j, routed w' m j <-> ~ (m = n /\ j = i) /\ routed w m j.
Proof.
  intros E. destruct (RemoveRoute_frame _ _ _ _ E) as (Hf & Hn & n & En & ? & ?).
  split_and!; [done..|]. exists n. split; [done|]. intros m j. split; [|intros [??]; auto].
  intros Hr. split; [|auto]. intros [-> ->]. by eapply RemoveRoute_gone.
Qed.

(** *** The interface in a larger system

    The other controllers of the bridge act on more state than routes; a route
    controller for one part of it is one for the whole. *)

Definition on_fst {A W X} (f : W -> A * W) (w : W * X) : A * (W * X) :=
  let '(a, w1) := f w.1 in (a, (w1, w.2)).

Lemma on_fst_eq {A W X} (f : W -> A * W) (w w' : W * X) a :
  on_fst f w = (a, w') <-> f w.1 = (a, w'.1) /\ w'.2 = w.2.
Proof.
  unfold on_fst. destruct w as [w x], w' as [w' x']. simpl. destruct (f w) as [a1 w1].
  split; [by intros [= -> -> ->]|]. by intros [[= -> ->] ->].
Qed.

#[global] Instance prod_RouteController {W X} `{RouteController W} : RouteController (W * X) := {
  EnableForwarding a b := on_fst (EnableForwarding a b);
  DisableForwarding a b := on_fst (DisableForwarding a b);
  AddRoute s i := on_fst (AddRoute s i);
  RemoveRoute s i := on_fst (RemoveRoute s i);
  AddNATMasquerade i := on_fst (AddNATMasquerade i);
  RemoveNATMasquerade i := on_fst (RemoveNATMasquerade i)
}.

#[global] Instance prod_RouteView {W X} `{RouteView W} : RouteView (W * X) := {
  routed w := routed w.1;
  forwards w := forwards w.1;
  masquerades w := masquerades w.1
}.

#[global] Instance prod_RouteControllerBase {W X} `{RouteControllerBase W} : RouteControllerBase (W * X).
Proof.
  split; cbn.
  - intros a b w e w' [E _]%on_fst_eq. exact (EnableForwarding_routes a b _ _ _ E).
  - intros a b w e w' [E _]%on_fst_eq. exact (DisableForwarding_routes a b _ _ _ E).
  - intros a b w w' Ha Hb [E _]%on_fst_eq. exact (EnableForwarding_ok a b _ _ Ha Hb E).
  - intros a b w e w' Ha Hb [E _]%on_fst_eq. exact (EnableForwarding_err a b _ _ _ Ha Hb E).
  - intros a b w w' Ha Hb [E _]%on_fst_eq. exact (DisableForwarding_ok a b _ _ Ha Hb E).
  - intros a b w e w' Ha Hb [E _]%on_fst_eq. exact (DisableForwarding_err a b _ _ _ Ha Hb E).
  - intros a b w w' [E _]%on_fst_eq. exact (AddRoute_ok a b _ _ E).
  - intros a b w e w' [E _]%on_fst_eq. exact (AddRoute_err a b _ _ _ E).
  - intros a b w w' [E _]%on_fst_eq. exact (RemoveRoute_frame a b _ _ E).
  - intros a b w e w' [E _]%on_fst_eq. exact (RemoveRoute_err a b _ _ _ E).
  - intros i w w' [E _]%on_fst_eq. exact (AddNATMasquerade_ok i _ _ E).
  - intros i w e w' [E _]%on_fst_eq. exact (AddNATMasquerade_err i _ _ _ E).
  - intros i [w x] [w' x'] [E Ex]%on_fst_eq. cbn in E, Ex. apply AddNATMasquerade_panics in E as [? ->].
    by rewrite Ex.
  - intros i w w' [E _]%on_fst_eq. exact (RemoveNATMasquerade_ok i _ _ E).
  - intros i w e w' [E _]%on_fst_eq. exact (RemoveNATMasquerade_err i _ _ _ E).
Qed.

#[global] Instance prod_RouteControllerLaws {W X} `{RouteControllerLaws W} : RouteControllerLaws (W * X).
Proof.
  split; [apply _|]. intros s i w w' n [E _]%on_fst_eq Hn. exact (RemoveRoute_gone s i _ _ n E Hn).
Qed.

(** ** What the Linux controller calls *)

Record Route := mkRoute { rt_Dst : network; rt_LinkIndex : Z; rt_Scope : Z }.
Definition SCOPE_LINK : Z := 253.
(** The scope of a route that has none set. *)
Definition SCOPE_UNIVERSE : Z := 0.
Definition SCOPE_NOWHERE : Z := 255.

(** The errors the code tells apart. *)
Inductive errno := EEXIST | ESRCH | Errno (msg : string).

Definition errno_string (e : errno) : string :=
  match e with EEXIST => "file exists" | ESRCH => "no such process" | Errno m => m end.

(** The expressions of the masquerade rule; the meta key is [MetaKeyOIFNAME],
    the comparison [CmpOpEq]. *)
Inductive nat_expr := NMeta (register : Z) | NCmp (register : Z) (data : list Z) | NCounter | NMasq.
#[global] Instance nat_expr_eq_dec : EqDecision nat_expr.
Proof. solve_decision. Defined.

(** The commands of a batch for the IPv4 table plexd-nat.  A chain is added
    as a NAT chain at the postrouting hook with source NAT priority. *)
Inductive nat_command :=
| NatAddTable
| NatAddChain (chain : string)
| NatFlushChain (chain : string)
| NatAddRule (chain : string) (exprs : list nat_expr)
| NatDelTable.

Definition natTableName : string := "plexd-nat".
Definition natChainName : string := "postrouting".

Abbreviation nat_table := (option (gmap string (list (list nat_expr)))).

Definition apply_nat (t : nat_table) (c : nat_command) : nat_table :=
  match c with
  | NatAddTable => Some (default ∅ t)
  | NatAddChain n => (fun t => <[n := default [] (t !! n)]> t) <$> t
  | NatFlushChain n => (fun t => <[n := []]> t) <$> t
  | NatAddRule n es => (fun t => <[n := default [] (t !! n) ++ [es]]> t) <$> t
  | NatDelTable => None
  end.

Class RouteKernel (K : Type) := {
  rk_LinkByName : string -> K -> result string Z;
  rk_RouteAdd : Route -> K -> option errno * K;
  rk_RouteDel : Route -> K -> option errno * K;
  rk_WriteFile : string -> string -> K -> option string * K;
  rk_nftNew : K -> option string;
  rk_nftFlush : list nat_command -> K -> option string * K;
  rk_nftListTables : K -> result string (list string);
  (** the routes with a device by destination, link and scope *)
  rk_fib : K -> network -> Z -> Z -> Prop;
  (** the interfaces whose forwarding file reads 1 *)
  rk_conf : K -> string -> Prop;
  rk_nat : K -> nat_table
}.

(** ** The controller *)

Section controller.
Context {K : Type} `{RouteKernel K}.
Implicit Types (k : K).

Definition prohibited (c : Z) : bool := (c =? 47) || (c =? 46) || (c =? 0).

Definition validateIfaceName (name : string) : option string :=
  if existsb prohibited (bytes_of_string name) then
    Some "bridge: invalid interface name: contains prohibited character"
  else if decide (name = "") then Some "bridge: invalid interface name: empty"
  else None.

Definition conf_path (iface : string) : string :=
  String.append "/proc/sys/net/ipv4/conf/" (String.append iface "/forwarding").

Definition setSysctl (iface value : string) k : option string * K :=
  match validateIfaceName iface with
  | Some e => (Some e, k)
  | None =>
      match rk_WriteFile (conf_path iface) value k with
      | (Some e, k) => (Some (String.append "sysctl " e), k)
      | (None, k) => (None, k)
      end
  end.

(** The loop of [EnableForwarding] and [DisableForwarding]. *)
Fixpoint set_forwarding (value prefix : string) (ifaces : list string) k : option string * K :=
  match ifaces with
  | [] => (None, k)
  | iface :: ifaces =>
      match setSysctl iface value k with
      | (Some e, k) => (Some (String.append prefix e), k)
      | (None, k) => set_forwarding value prefix ifaces k
      end
  end.

Definition NL_EnableForwarding (meshIface accessIface : string) k : option string * K :=
  set_forwarding "1" "bridge: enable forwarding: " [meshIface; accessIface] k.

Definition NL_DisableForwarding (meshIface accessIface : string) k : option string * K :=
  set_forwarding "0" "bridge: disable forwarding: " [meshIface; accessIface] k.

Definition NL_AddRoute (subnet iface : string) k : option string * K :=
  match ParseCIDR subnet with
  | None => (Some (String.append "bridge: add route: parse CIDR " subnet), k)
  | Some (_, dst) =>
      match rk_LinkByName iface k with
      | Err e => (Some (String.append "bridge: add route: lookup interface " e), k)
      | Ok link =>
          match rk_RouteAdd (mkRoute (net_IP dst, net_ones dst) link SCOPE_LINK) k with
          | (Some EEXIST, k) => (None, k)
          | (Some e, k) => (Some (String.append "bridge: add route " (errno_string e)), k)
          | (None, k) => (None, k)
          end
      end
  end.

Definition NL_RemoveRoute (subnet iface : string) k : option string * K :=
  match ParseCIDR subnet with
  | None => (Some (String.append "bridge: remove route: parse CIDR " subnet), k)
  | Some (_, dst) =>
      match rk_LinkByName iface k with
      | Err e => (Some (String.append "bridge: remove route: lookup interface " e), k)
      | Ok link =>
          match rk_RouteDel (mkRoute (net_IP dst, net_ones dst) link SCOPE_UNIVERSE) k with
          | (Some ESRCH, k) => (None, k)
          | (Some e, k) => (Some (String.append "bridge: remove route " (errno_string e)), k)
          | (None, k) => (None, k)
          end
      end
  end.

(** [buf[:len(name)+1]] of a 16-byte buffer panics out of range. *)
Definition ifaceNameBytes (name : string) : outcome (list Z) :=
  let n := bytes_of_string name in
  let buf := take 16 n ++ replicate (16 - length (take 16 n)) 0 in
  if decide (length n + 1 <= 16)%nat then Returns (take (length n + 1) buf) else Panics.

Definition masq_rule (ifaceData : list Z) : list nat_expr :=
  [NMeta 1; NCmp 1 ifaceData; NCounter; NMasq].

Definition NL_AddNATMasquerade (iface : string) k : outcome (option string) * K :=
  match rk_nftNew k with
  | Some e => (Returns (Some (String.append "bridge: add NAT masquerade: " e)), k)
  | None =>
      match ifaceNameBytes iface with
      | Panics => (Panics, k)
      | Returns ifaceData =>
          match rk_nftFlush [NatAddTable; NatAddChain natChainName; NatFlushChain natChainName;
                             NatAddRule natChainName (masq_rule ifaceData)] k with
          | (Some e, k) => (Returns (Some (String.append "bridge: add NAT masquerade on " e)), k)
          | (None, k) => (Returns None, k)
          end
      end
  end.

(** The loop over the tables stops at the first one with the name. *)
Definition NL_RemoveNATMasquerade (iface : string) k : option string * K :=
  match rk_nftNew k with
  | Some e => (Some (String.append "bridge: remove NAT masquerade: " e), k)
  | None =>
      match rk_nftListTables k with
      | Err e => (Some (String.append "bridge: remove NAT masquerade: list tables: " e), k)
      | Ok tables =>
          if decide (natTableName ∈ tables) then
            match rk_nftFlush [NatDelTable] k with
            | (Some e, k) => (Some (String.append "bridge: remove NAT masquerade on " e), k)
            | (None, k) => (None, k)
            end
          else (None, k)
      end
  end.

End controller.

#[global] Instance NetlinkRouteController {K} `{RouteKernel K} : RouteController K := {
  EnableForwarding := NL_EnableForwarding;
  DisableForwarding := NL_DisableForwarding;
  AddRoute := NL_AddRoute;
  RemoveRoute := NL_RemoveRoute;
  AddNATMasquerade := NL_AddNATMasquerade;
  RemoveNATMasquerade := NL_RemoveNATMasquerade
}.

(** ** What the code relies on *)

Section kernel_view.
Context {K : Type} `{RouteKernel K}.
Definition same_links (k k' : K) : Prop := forall i, rk_LinkByName i k' = rk_LinkByName i k.
Definition same_fib (k k' : K) : Prop := forall n x c, rk_fib k' n x c <-> rk_fib k n x c.
Definition same_conf (k k' : K) : Prop := forall i, rk_conf k' i <-> rk_conf k i.
End kernel_view.

(** The routes a delete request can take out: only the scope "nowhere" stands
    for any scope. *)
Definition del_matches (r : Route) (n : network) (x c : Z) : Prop :=
  n = rt_Dst r /\ x = rt_LinkIndex r /\ (rt_Scope r = c \/ rt_Scope r = SCOPE_NOWHERE).

(** rtnetlink(7): adding a route to a destination that has one fails with
    EEXIST; a delete request takes out a route that matches it.  ip-sysctl: a
    write to the forwarding file of an interface sets its flag.  nftables: a
    batch is a transaction.  Routes without a device, such as blackholes, are
    not in the table. *)
Class RouteKernelLaws (K : Type) `{RouteKernel K} := {
  LinkByName_inj : forall (k : K) i j x, rk_LinkByName i k = Ok x -> rk_LinkByName j k = Ok x -> i = j;
  fib_link : forall (k : K) n x c, rk_fib k n x c -> exists i, rk_LinkByName i k = Ok x;
  RouteAdd_frame : forall r k e k', rk_RouteAdd r k = (e, k') ->
    same_links k k' /\ same_conf k k' /\ rk_nat k' = rk_nat k;
  RouteAdd_ok : forall r k k', rk_RouteAdd r k = (None, k') ->
    forall n x c, rk_fib k' n x c <->
      (n = rt_Dst r /\ x = rt_LinkIndex r /\ c = rt_Scope r) \/ rk_fib k n x c;
  RouteAdd_err : forall r k e k', rk_RouteAdd r k = (Some e, k') -> same_fib k k';
  RouteAdd_exists : forall r k k', rk_RouteAdd r k = (Some EEXIST, k') -> exists x c, rk_fib k (rt_Dst r) x c;
  RouteDel_frame : forall r k e k', rk_RouteDel r k = (e, k') ->
    same_links k k' /\ same_conf k k' /\ rk_nat k' = rk_nat k;
  RouteDel_ok : forall r k k', rk_RouteDel r k = (None, k') -> forall n x c,
    (rk_fib k' n x c -> rk_fib k n x c) /\ (rk_fib k n x c -> ~ del_matches r n x c -> rk_fib k' n x c);
  RouteDel_err : forall r k e k', rk_RouteDel r k = (Some e, k') -> same_fib k k';
  WriteFile_frame : forall p v k e k', rk_WriteFile p v k = (e, k') ->
    same_links k k' /\ same_fib k k' /\ rk_nat k' = rk_nat k;
  WriteFile_one : forall i k k', ordinary i -> rk_WriteFile (conf_path i) "1" k = (None, k') ->
    forall j, rk_conf k' j <-> j = i \/ rk_conf k j;
  WriteFile_zero : forall i k k', ordinary i -> rk_WriteFile (conf_path i) "0" k = (None, k') ->
    forall j, rk_conf k' j <-> j <> i /\ rk_conf k j;
  WriteFile_err : forall p v k e k', rk_WriteFile p v k = (Some e, k') -> same_conf k k';
  nftFlush_frame : forall b k e k', rk_nftFlush b k = (e, k') ->
    same_links k k' /\ same_fib k k' /\ same_conf k k';
  nftFlush_ok : forall b k k', rk_nftFlush b k = (None, k') -> rk_nat k' = foldl apply_nat (rk_nat k) b;
  nftFlush_err : forall b k e k', rk_nftFlush b k = (Some e, k') -> rk_nat k' = rk_nat k;
  nftListTables_ok : forall (k : K) l, rk_nftListTables k = Ok l ->
    natTableName ∈ l <-> is_Some (rk_nat k)
}.

(** Leaving traffic is masqueraded when a rule of the chain has the name of its
    interface, compared as the kernel pads it. *)
Definition nat_masquerades (t : nat_table) (o : string) : Prop :=
  exists c rules d, t = Some c /\ c !! natChainName = Some rules /\ masq_rule d ∈ rules /\
    take (length d) (pad16 (bytes_of_string o)) = d.

#[global] Instance kernel_route_view {K} `{RouteKernel K} : RouteView K := {
  routed k n i := exists x c, rk_LinkByName i k = Ok x /\ rk_fib k n x c;
  forwards k i := rk_conf k i;
  masquerades k o := nat_masquerades (rk_nat k) o
}.

(** A route of link scope, as [AddRoute] makes them. *)
Definition link_routed {K} `{RouteKernel K} (k : K) (n : network) (i : string) : Prop :=
  exists x, rk_LinkByName i k = Ok x /\ rk_fib k n x SCOPE_LINK.

Section laws.
Context {K : Type} `{RouteKernelLaws K}.
Implicit Types (k : K).

Lemma same_routes_kernel k k' : same_links k k' -> same_fib k k' -> same_routes k k'.
Proof.
  intros Hl Hf n i. simpl. unfold same_links, same_fib in *.
  setoid_rewrite Hf. by rewrite Hl.
Qed.

Lemma same_nat_kernel k k' : rk_nat k' = rk_nat k -> same_nat k k'.
Proof. intros E i. simpl. by rewrite E. Qed.

Lemma setSysctl_frame i v k e k' :
  setSysctl i v k = (e, k') -> same_links k k' /\ same_fib k k' /\ rk_nat k' = rk_nat k.
Proof.
  unfold setSysctl. destruct (validateIfaceName i) as [m|]; [by intros [= <- <-]|].
  destruct (rk_WriteFile _ v k) as [[m|] k1] eqn:E; intros [= <- <-]; by eapply WriteFile_frame.
Qed.

Lemma setSysctl_err i v k e k' : setSysctl i v k = (Some e, k') -> same_conf k k'.
Proof.
  unfold setSysctl. destruct (validateIfaceName i) as [m|]; [by intros [= <- <-]|].
  destruct (rk_WriteFile _ v k) as [[m|] k1] eqn:E; intros [= <- <-]. by eapply WriteFile_err.
Qed.

Lemma setSysctl_ok i v k k' :
  setSysctl i v k = (None, k') -> rk_WriteFile (conf_path i) v k = (None, k').
Proof.
  unfold setSysctl. destruct (validateIfaceName i) as [m|]; [done|].
  by destruct (rk_WriteFile _ v k) as [[m|] k1] eqn:E; intros [= <-].
Qed.

Lemma set_forwarding_frame v p l k e k' :
  set_forwarding v p l k = (e, k') -> same_routes k k' /\ same_nat k k'.
Proof.
  assert (Hk : forall l k, same_links k (set_forwarding v p l k).2 /\
    same_fib k (set_forwarding v p l k).2 /\ rk_nat (set_forwarding v p l k).2 = rk_nat k).
  { clear e k' k l. induction l as [|i l IH]; intros k; cbn [set_forwarding]; [by split_and!|].
    destruct (setSysctl i v k) as [[m|] k1] eqn:E; apply setSysctl_frame in E as (H1 & H2 & H3);
      [by split_and!|]. destruct (IH k1) as (G1 & G2 & G3). unfold same_links, same_fib in *.
    split_and!; [by intros; rewrite G1|by intros; rewrite G2|congruence]. }
  intros E. specialize (Hk l k) as (? & ? & ?). rewrite E in *. simpl in *.
  by split; [apply same_routes_kernel|apply same_nat_kernel].
Qed.

(** Both loops over two interfaces: the effect of a write on the flags is [upd]. *)
Section pair.
Context (v p : string) (upd : string -> Prop -> string -> Prop).
Hypothesis write_ok : forall i k k', ordinary i -> rk_WriteFile (conf_path i) v k = (None, k') ->
  forall j, rk_conf k' j <-> upd i (rk_conf k j) j.

Lemma set_forwarding_ok a b k k' : ordinary a -> ordinary b ->
  set_forwarding v p [a; b] k = (None, k') ->
  exists k1, (forall j, rk_conf k1 j <-> upd a (rk_conf k j) j) /\
    forall j, rk_conf k' j <-> upd b (rk_conf k1 j) j.
Proof.
  intros Ha Hb. cbn [set_forwarding].
  destruct (setSysctl a v k) as [[m|] k1] eqn:E1; [done|].
  destruct (setSysctl b v k1) as [[m|] k2] eqn:E2; [done|]. intros [= <-]. exists k1.
  split; intros j; eapply write_ok; eauto using setSysctl_ok.
Qed.

Lemma set_forwarding_err a b k e k' : ordinary a ->
  set_forwarding v p [a; b] k = (Some e, k') ->
  same_conf k k' \/ forall j, rk_conf k' j <-> upd a (rk_conf k j) j.
Proof.
  intros Ha. cbn [set_forwarding]. destruct (setSysctl a v k) as [[m|] k1] eqn:E1.
  - intros [= <- <-]. left. by eapply setSysctl_err.
  - destruct (setSysctl b v k1) as [[m|] k2] eqn:E2; [|done]. intros [= <- <-]. right. intros j.
    rewrite <- (write_ok a k k1) by eauto using setSysctl_ok. by eapply setSysctl_err.
Qed.
End pair.

Lemma NL_AddRoute_ok s i k k' : NL_AddRoute s i k = (None, k') ->
  same_forwarding k k' /\ same_nat k k' /\
  exists n, subnet_net s = Some n /\
    ((forall m j, routed k' m j <-> (m = n /\ j = i) \/ routed k m j) \/
     (same_routes k k' /\ exists j, j <> i /\ routed k n j)).
Proof.
  unfold NL_AddRoute, subnet_net. destruct (ParseCIDR s) as [[ip dst]|]; [|done].
  set (n := (net_IP dst, net_ones dst)). destruct (rk_LinkByName i k) as [x|] eqn:Ei; [|done].
  destruct (rk_RouteAdd _ k) as [e k1] eqn:Ea. pose proof (RouteAdd_frame _ _ _ _ Ea) as (Hl & Hc & Hn).
  intros E. assert (k1 = k') as -> by (destruct e as [[]|]; congruence).
  split_and!; [done|by apply same_nat_kernel|]. exists n. split; [done|].
  destruct e as [[]|]; try done.
  - pose proof (RouteAdd_err _ _ _ _ Ea) as Hf. apply RouteAdd_exists in Ea as (y & c & Hy).
    pose proof (same_routes_kernel _ _ Hl Hf) as Hr. destruct (fib_link _ _ _ _ Hy) as [j Hj].
    destruct (decide (j = i)) as [->|Hji]; [left|right; split; [done|by exists j; split; [|exists y, c]]].
    intros m j. rewrite (Hr m j). split; [tauto|]. intros [[-> ->]|]; [|done].
    exists x, c. split; [done|]. rewrite Hj in Ei. injection Ei as <-. exact Hy.
  - left. intros m j. simpl. rewrite Hl. split.
    + intros (y & c & Hy & [(-> & -> & ->)|Hf]%(RouteAdd_ok _ _ _ Ea)); [left|right; eauto].
      split; [done|]. by eapply LinkByName_inj.
    + intros [[-> ->]|(y & c & Hy & Hf)]; [exists x, SCOPE_LINK|exists y, c]; split; try done;
        apply (RouteAdd_ok _ _ _ Ea); [by left|by right].
Qed.

(** A route that was not there has link scope. *)
Lemma NL_AddRoute_link s i k k' n : NL_AddRoute s i k = (None, k') -> subnet_net s = Some n ->
  (forall j, ~ routed k n j) -> link_routed k' n i.
Proof.
  unfold NL_AddRoute, subnet_net. destruct (ParseCIDR s) as [[ip dst]|]; [|done].
  intros E [= <-] Hr. destruct (rk_LinkByName i k) as [x|] eqn:Ei; [|done].
  destruct (rk_RouteAdd _ k) as [e k1] eqn:Ea. pose proof (RouteAdd_frame _ _ _ _ Ea) as (Hl & _).
  destruct e as [[]|]; try done.
  - exfalso. apply RouteAdd_exists in Ea as (y & c & Hy). destruct (fib_link _ _ _ _ Hy) as [j Hj].
    apply (Hr j). by exists y, c.
  - injection E as <-. exists x. split; [by rewrite Hl|]. apply (RouteAdd_ok _ _ _ Ea). by left.
Qed.

Lemma NL_AddRoute_err s i k e k' : NL_AddRoute s i k = (Some e, k') -> same_view k k'.
Proof.
  unfold NL_AddRoute. destruct (ParseCIDR s) as [[ip dst]|]; [|by intros [= <- <-]].
  destruct (rk_LinkByName i k) as [x|]; [|by intros [= <- <-]].
  destruct (rk_RouteAdd _ k) as [er k1] eqn:Ea. pose proof (RouteAdd_frame _ _ _ _ Ea) as (Hl & Hc & Hn).
  intros E. assert (k1 = k' /\ is_Some er) as [-> [er' ->]] by (destruct er as [[]|]; naive_solver).
  split_and!; [apply same_routes_kernel; [done|by eapply RouteAdd_err]|done|by apply same_nat_kernel].
Qed.

(** Any successful delete request. *)
Lemma NL_RemoveRoute_inv s i k k' : NL_RemoveRoute s i k = (None, k') ->
  same_links k k' /\ same_conf k k' /\ rk_nat k' = rk_nat k /\
  exists n x, subnet_net s = Some n /\ rk_LinkByName i k = Ok x /\ forall m y c,
    (rk_fib k' m y c -> rk_fib k m y c) /\
    (rk_fib k m y c -> ~ del_matches (mkRoute n x SCOPE_UNIVERSE) m y c -> rk_fib k' m y c).
Proof.
  unfold NL_RemoveRoute, subnet_net. destruct (ParseCIDR s) as [[ip dst]|]; [|done].
  set (n := (net_IP dst, net_ones dst)). destruct (rk_LinkByName i k) as [x|] eqn:Ei; [|done].
  destruct (rk_RouteDel _ k) as [e k1] eqn:Ea. pose proof (RouteDel_frame _ _ _ _ Ea) as (Hl & Hc & Hn).
  intros E. assert (k1 = k') as -> by (destruct e as [[]|]; congruence).
  split_and!; [done..|]. exists n, x. split_and!; [done..|]. intros m y c.
  destruct e as [e|]; [|by eapply RouteDel_ok].
  pose proof (RouteDel_err _ _ _ _ Ea m y c). tauto.
Qed.

Lemma NL_RemoveRoute_frame s i k k' : NL_RemoveRoute s i k = (None, k') ->
  same_forwarding k k' /\ same_nat k k' /\
  exists n, subnet_net s = Some n /\
    (forall m j, routed k' m j -> routed k m j) /\
    (forall m j, ~ (m = n /\ j = i) -> routed k m j -> routed k' m j).
Proof.
  intros (Hl & Hc & Hn & n & x & En & Ei & Hf)%NL_RemoveRoute_inv.
  split_and!; [done|by apply same_nat_kernel|]. exists n. split_and!; [done|..].
  - intros m j (y & c & Hy & Hr). rewrite Hl in Hy. exists y, c. split; [done|]. by apply Hf.
  - intros m j Hne (y & c & Hy & Hr). exists y, c. rewrite Hl. split; [done|]. apply Hf; [done|].
    intros (-> & -> & _). apply Hne. split; [done|]. by eapply LinkByName_inj.
Qed.

(** A request without a scope leaves the routes of link scope. *)
Lemma NL_RemoveRoute_link s i k k' n j : NL_RemoveRoute s i k = (None, k') ->
  link_routed k n j -> link_routed k' n j.
Proof.
  intros (Hl & _ & _ & m & x & _ & _ & Hf)%NL_RemoveRoute_inv (y & Hy & Hr). exists y. rewrite Hl.
  split; [done|]. apply Hf; [done|]. by intros (_ & _ & [? | ?]).
Qed.

Lemma NL_RemoveRoute_err s i k e k' : NL_RemoveRoute s i k = (Some e, k') -> same_view k k'.
Proof.
  unfold NL_RemoveRoute. destruct (ParseCIDR s) as [[ip dst]|]; [|by intros [= <- <-]].
  destruct (rk_LinkByName i k) as [x|]; [|by intros [= <- <-]].
  destruct (rk_RouteDel _ k) as [er k1] eqn:Ea. pose proof (RouteDel_frame _ _ _ _ Ea) as (Hl & Hc & Hn).
  intros E. assert (k1 = k' /\ is_Some er) as [-> [er' ->]] by (destruct er as [[]|]; naive_solver).
  split_and!; [apply same_routes_kernel; [done|by eapply RouteDel_err]|done|by apply same_nat_kernel].
Qed.

Lemma nat_batch t d :
  foldl apply_nat t [NatAddTable; NatAddChain natChainName; NatFlushChain natChainName;
                     NatAddRule natChainName (masq_rule d)] =
  Some (<[natChainName := [masq_rule d]]> (default ∅ t)).
Proof. cbn. by rewrite !insert_insert_eq, lookup_insert_eq. Qed.

Lemma masq_rule_inj d d' : masq_rule d = masq_rule d' -> d = d'.
Proof. by intros [= ->]. Qed.

Lemma NL_AddNATMasquerade_ok i k k' : NL_AddNATMasquerade i k = (Returns None, k') ->
  same_routes k k' /\ same_forwarding k k' /\
  (valid_iface i -> forall o, valid_iface o -> masquerades k' o <-> o = i).
Proof.
  unfold NL_AddNATMasquerade. destruct (rk_nftNew k) as [m|]; [done|].
  destruct (ifaceNameBytes i) as [d|] eqn:Ed; [|done].
  destruct (rk_nftFlush _ k) as [[m|] k1] eqn:Ef; [done|]. intros [= <-].
  pose proof (nftFlush_frame _ _ _ _ Ef) as (Hl & Hf & Hc).
  split_and!; [by apply same_routes_kernel|done|]. intros Hi o Ho. simpl.
  apply nftFlush_ok in Ef. rewrite Ef, nat_batch. unfold nat_masquerades. split.
  - intros (c & rules & d' & [= <-] & Hr & Hin & Hd). rewrite lookup_insert_eq in Hr.
    injection Hr as <-. apply list_elem_of_singleton, masq_rule_inj in Hin as ->.
    by apply (ifaceNameBytes_match i d o).
  - intros ->. eexists _, _, d. split_and!; [done|apply lookup_insert_eq|set_solver|].
    by apply (ifaceNameBytes_match i d i).
Qed.

Lemma NL_AddNATMasquerade_err i k e k' :
  NL_AddNATMasquerade i k = (Returns (Some e), k') -> same_view k k'.
Proof.
  unfold NL_AddNATMasquerade. destruct (rk_nftNew k) as [m|]; [by intros [= <- <-]|].
  destruct (ifaceNameBytes i) as [d|] eqn:Ed; [|done].
  destruct (rk_nftFlush _ k) as [[m|] k1] eqn:Ef; [|done]. intros [= <- <-].
  pose proof (nftFlush_frame _ _ _ _ Ef) as (Hl & Hf & Hc). apply nftFlush_err in Ef.
  by split_and!; [apply same_routes_kernel|..|apply same_nat_kernel].
Qed.

Lemma NL_AddNATMasquerade_panics i k k' :
  NL_AddNATMasquerade i k = (Panics, k') -> ~ valid_iface i /\ k' = k.
Proof.
  unfold NL_AddNATMasquerade, ifaceNameBytes. destruct (rk_nftNew k) as [m|]; [done|]. cbv zeta.
  case_decide as Hd; [by destruct (rk_nftFlush _ k) as [[]]|]. intros [= <-]. split; [|done].
  intros [Hv _]. lia.
Qed.

Lemma NL_RemoveNATMasquerade_ok i k k' : NL_RemoveNATMasquerade i k = (None, k') ->
  same_routes k k' /\ same_forwarding k k' /\ forall o, ~ masquerades k' o.
Proof.
  unfold NL_RemoveNATMasquerade. destruct (rk_nftNew k) as [m|]; [done|].
  destruct (rk_nftListTables k) as [l|] eqn:El; [|done]. case_decide as Hin.
  - destruct (rk_nftFlush _ k) as [[m|] k1] eqn:Ef; [done|]. intros [= <-].
    pose proof (nftFlush_frame _ _ _ _ Ef) as (Hl & Hf & Hc). apply nftFlush_ok in Ef.
    split_and!; [by apply same_routes_kernel|done|]. simpl. rewrite Ef.
    by intros o (c & rules & d & ? & _).
  - intros [= <-]. split_and!; [done..|]. intros o (c & rules & d & Hc & _). apply Hin.
    apply (nftListTables_ok k l El). by rewrite Hc.
Qed.

Lemma NL_RemoveNATMasquerade_err i k e k' :
  NL_RemoveNATMasquerade i k = (Some e, k') -> same_view k k'.
Proof.
  unfold NL_RemoveNATMasquerade. destruct (rk_nftNew k) as [m|]; [by intros [= <- <-]|].
  destruct (rk_nftListTables k) as [l|] eqn:El; [|by intros [= <- <-]]. case_decide; [|done].
  destruct (rk_nftFlush _ k) as [[m|] k1] eqn:Ef; [|done]. intros [= <- <-].
  pose proof (nftFlush_frame _ _ _ _ Ef) as (Hl & Hf & Hc). apply nftFlush_err in Ef.
  by split_and!; [apply same_routes_kernel|..|apply same_nat_kernel].
Qed.

(** The Linux controller keeps this much of the interface. *)
#[global] Instance NetlinkRouteController_base : RouteControllerBase K.
Proof.
  split; [..|exact NL_AddRoute_ok|exact NL_AddRoute_err|exact NL_RemoveRoute_frame|exact NL_RemoveRoute_err
    |exact NL_AddNATMasquerade_ok|exact NL_AddNATMasquerade_err|exact NL_AddNATMasquerade_panics
    |exact NL_RemoveNATMasquerade_ok|exact NL_RemoveNATMasquerade_err].
  - intros a b k e k' E. by destruct (set_forwarding_frame _ _ _ _ _ _ E).
  - intros a b k e k' E. by destruct (set_forwarding_frame _ _ _ _ _ _ E).
  - intros a b k k' Ha Hb E. destruct (set_forwarding_frame _ _ _ _ _ _ E).
    eapply (set_forwarding_ok _ _ (fun i X j => j = i \/ X)) in E as (k1 & E1 & E2);
      [|apply WriteFile_one|done..].
    split_and!; [done..|]. intros i. simpl. rewrite E2, E1. tauto.
  - intros a b k e k' Ha Hb E. destruct (set_forwarding_frame _ _ _ _ _ _ E).
    eapply (set_forwarding_err _ _ (fun i X j => j = i \/ X)) in E; [done|apply WriteFile_one|done].
  - intros a b k k' Ha Hb E. destruct (set_forwarding_frame _ _ _ _ _ _ E).
    eapply (set_forwarding_ok _ _ (fun i X j => j <> i /\ X)) in E as (k1 & E1 & E2);
      [|apply WriteFile_zero|done..].
    split_and!; [done..|]. intros i. simpl. rewrite E2, E1. tauto.
  - intros a b k e k' Ha Hb E. destruct (set_forwarding_frame _ _ _ _ _ _ E).
    eapply (set_forwarding_err _ _ (fun i X j => j <> i /\ X)) in E; [done|apply WriteFile_zero|done].
Qed.
End laws.

(** ** A concrete kernel

    Links are named; the index of a link is the code of its name. *)

Record sim_linux := mkLinux {
  lx_links : list string;
  lx_fib : list (network * string * Z);
  lx_conf : gset string;
  lx_nat : nat_table;
  lx_nft_down : bool
}.

Definition link_index (i : string) : Z := Z.pos (encode i).

Definition lx_LinkByName (i : string) (k : sim_linux) : result string Z :=
  if decide (i ∈ lx_links k) then Ok (link_index i) else Err "Link not found".

Definition lx_link (x : Z) (k : sim_linux) : option string :=
  snd <$> list_find (fun i => link_index i = x) (lx_links k).

Definition with_fib (k : sim_linux) (f : list (network * string * Z)) : sim_linux :=
  mkLinux (lx_links k) f (lx_conf k) (lx_nat k) (lx_nft_down k).
Definition with_conf (k : sim_linux) (c : gset string) : sim_linux :=
  mkLinux (lx_links k) (lx_fib k) c (lx_nat k) (lx_nft_down k).

Definition lx_RouteAdd (r : Route) (k : sim_linux) : option errno * sim_linux :=
  if decide (rt_Dst r ∈ (filter (fun p => p.1.2 ∈ lx_links k) (lx_fib k)).*1.*1) then (Some EEXIST, k)
  else match lx_link (rt_LinkIndex r) k with
       | Some i => (None, with_fib k ((rt_Dst r, i, rt_Scope r) :: lx_fib k))
       | None => (Some (Errno "no such device"), k)
       end.

Definition lx_matches (r : Route) (i : string) (p : network * string * Z) : bool :=
  bool_decide (p.1 = (rt_Dst r, i)) && ((rt_Scope r =? p.2) || (rt_Scope r =? SCOPE_NOWHERE)).

Definition lx_RouteDel (r : Route) (k : sim_linux) : option errno * sim_linux :=
  match lx_link (rt_LinkIndex r) k with
  | Some i =>
      if existsb (lx_matches r i) (lx_fib k)
      then (None, with_fib k (List.filter (fun p => negb (lx_matches r i p)) (lx_fib k)))
      else (Some ESRCH, k)
  | None => (Some (Errno "no such device"), k)
  end.

Definition lx_WriteFile (p v : string) (k : sim_linux) : option string * sim_linux :=
  if decide (p ∈ conf_path <$> lx_links k) then
    if decide (v = "1") then (None, with_conf k ({[ p ]} ∪ lx_conf k))
    else if decide (v = "0") then (None, with_conf k (lx_conf k ∖ {[ p ]}))
    else (Some "invalid argument", k)
  else (Some "no such file or directory", k).

Definition lx_nftFlush (b : list nat_command) (k : sim_linux) : option string * sim_linux :=
  if lx_nft_down k then (Some "operation not permitted", k)
  else (None, mkLinux (lx_links k) (lx_fib k) (lx_conf k) (foldl apply_nat (lx_nat k) b) false).

#[global] Instance lx_route_kernel : RouteKernel sim_linux := {
  rk_LinkByName := lx_LinkByName;
  rk_RouteAdd := lx_RouteAdd;
  rk_RouteDel := lx_RouteDel;
  rk_WriteFile := lx_WriteFile;
  rk_nftNew _ := None;
  rk_nftFlush := lx_nftFlush;
  rk_nftListTables k := Ok (match lx_nat k with Some _ => [natTableName] | None => [] end);
  rk_fib k n x c := exists i, i ∈ lx_links k /\ x = link_index i /\ (n, i, c) ∈ lx_fib k;
  rk_conf k i := conf_path i ∈ lx_conf k;
  rk_nat := lx_nat
}.

Lemma link_index_inj i j : link_index i = link_index j -> i = j.
Proof. unfold link_index. intros [= E]. by apply (inj encode). Qed.

Lemma conf_path_inj i j : conf_path i = conf_path j -> i = j.
Proof. unfold conf_path. intros E%(inj (String.append _)). by apply string_app_inj_r in E. Qed.

Lemma lx_link_spec x k i : lx_link x k = Some i <-> i ∈ lx_links k /\ x = link_index i.
Proof.
  unfold lx_link. rewrite fmap_Some. split.
  - intros ([n j] & (Hj & <- & _)%list_find_Some & ->). split; [|done].
    by eapply list_elem_of_lookup_2.
  - intros [Hi ->]. destruct (list_find_elem_of (fun j => link_index j = link_index i) _ i Hi eq_refl)
      as [[n j] Hj]. exists (n, j). split; [done|].
    apply list_find_Some in Hj as (_ & E & _). symmetry. by apply link_index_inj.
Qed.

Lemma lx_link_of i k x :
  lx_LinkByName i k = Ok x <-> i ∈ lx_links k /\ x = link_index i.
Proof. unfold lx_LinkByName. case_decide; naive_solver. Qed.

Lemma lx_RouteAdd_frame r k e k' : lx_RouteAdd r k = (e, k') ->
  lx_links k' = lx_links k /\ lx_conf k' = lx_conf k /\ lx_nat k' = lx_nat k.
Proof.
  unfold lx_RouteAdd. case_decide; [by intros [= <- <-]|].
  destruct (lx_link _ k); by intros [= <- <-].
Qed.

Lemma lx_RouteDel_frame r k e k' : lx_RouteDel r k = (e, k') ->
  lx_links k' = lx_links k /\ lx_conf k' = lx_conf k /\ lx_nat k' = lx_nat k.
Proof.
  unfold lx_RouteDel. destruct (lx_link _ k); [destruct (existsb _ _)|]; by intros [= <- <-].
Qed.

Lemma lx_WriteFile_frame p v k e k' : lx_WriteFile p v k = (e, k') ->
  lx_links k' = lx_links k /\ lx_fib k' = lx_fib k /\ lx_nat k' = lx_nat k.
Proof. unfold lx_WriteFile. repeat case_decide; by intros [= <- <-]. Qed.

Lemma lx_nftFlush_frame b k e k' : lx_nftFlush b k = (e, k') ->
  lx_links k' = lx_links k /\ lx_fib k' = lx_fib k /\ lx_conf k' = lx_conf k.
Proof. unfold lx_nftFlush. destruct (lx_nft_down k); by intros [= <- <-]. Qed.

Lemma lx_same k k' : lx_links k' = lx_links k -> same_links k k' /\
  (lx_fib k' = lx_fib k -> same_fib k k') /\ (lx_conf k' = lx_conf k -> same_conf k k').
Proof.
  intros El. unfold same_links, same_fib, same_conf. cbn. unfold lx_LinkByName. rewrite El.
  split_and!; [done|by intros ->|by intros ->].
Qed.

Lemma lx_RouteAdd_ok r k k' : lx_RouteAdd r k = (None, k') ->
  forall n x c, rk_fib k' n x c <->
    (n = rt_Dst r /\ x = rt_LinkIndex r /\ c = rt_Scope r) \/ rk_fib k n x c.
Proof.
  unfold lx_RouteAdd. case_decide; [done|]. destruct (lx_link _ k) as [i|] eqn:Ei; [|done].
  apply lx_link_spec in Ei as [Hi Ex]. intros [= <-] n x c. cbn. split.
  - intros (j & Hj & -> & [[= -> -> ->]|Hf]%elem_of_cons); [by left|right; eauto].
  - intros [(-> & -> & ->)|(j & Hj & -> & Hf)]; [exists i|exists j]; split_and!; try done; set_solver.
Qed.

Lemma lx_RouteDel_ok r k k' : lx_RouteDel r k = (None, k') -> forall n x c,
  (rk_fib k' n x c -> rk_fib k n x c) /\ (rk_fib k n x c -> ~ del_matches r n x c -> rk_fib k' n x c).
Proof.
  unfold lx_RouteDel. destruct (lx_link _ k) as [i|] eqn:Ei; [|done].
  apply lx_link_spec in Ei as [Hi Ex]. destruct (existsb _ _); [|done]. intros [= <-] n x c. cbn. split.
  - intros (j & Hj & -> & Hf). exists j. split_and!; [done..|].
    by apply list_elem_of_In, filter_In in Hf as [?%list_elem_of_In _].
  - intros (j & Hj & -> & Hf) Hm. exists j. split_and!; [done..|]. apply list_elem_of_In, filter_In.
    split; [by apply list_elem_of_In|]. unfold lx_matches. cbn. apply negb_true_iff, not_true_iff_false.
    intros [[= -> ->]%bool_decide_eq_true Hc]%andb_true_iff. apply Hm. split_and!; [done..|].
    apply orb_true_iff in Hc as [?%Z.eqb_eq|?%Z.eqb_eq]; auto.
Qed.

#[global] Instance lx_route_kernel_laws : RouteKernelLaws sim_linux.
Proof.
  split.
  - intros k i j x [_ ->]%lx_link_of [_ E]%lx_link_of. by apply link_index_inj.
  - intros k n x c (i & Hi & -> & _). exists i. by apply lx_link_of.
  - intros r k e k' (? & ? & ?)%lx_RouteAdd_frame. destruct (lx_same k k') as (? & ? & ?); auto.
  - apply lx_RouteAdd_ok.
  - intros r k e k' E. pose proof (lx_RouteAdd_frame _ _ _ _ E) as (Hl & _). apply lx_same; [done|].
    revert E. cbn. unfold lx_RouteAdd. case_decide; [by intros [= _ <-]|].
    destruct (lx_link _ k); by intros [= _ <-].
  - intros r k k'. cbn. unfold lx_RouteAdd. case_decide as Hd; [|by destruct (lx_link _ k)]. intros _.
    apply list_elem_of_fmap in Hd as (p1 & -> & Hd).
    apply list_elem_of_fmap in Hd as ([[n i] c] & -> & [Hi Hf]%list_elem_of_filter). simpl in *. eauto 10.
  - intros r k e k' (? & ? & ?)%lx_RouteDel_frame. destruct (lx_same k k') as (? & ? & ?); auto.
  - apply lx_RouteDel_ok.
  - intros r k e k' E. pose proof (lx_RouteDel_frame _ _ _ _ E) as (Hl & _). apply lx_same; [done|].
    revert E. cbn. unfold lx_RouteDel.
    destruct (lx_link _ k); [destruct (existsb _ _)|]; by intros [= _ <-].
  - intros p v k e k' (? & ? & ?)%lx_WriteFile_frame. destruct (lx_same k k') as (? & ? & ?); auto.
  - intros i k k' _ E j. cbn in *. unfold lx_WriteFile in E. case_decide; [|done]. simpl in E.
    injection E as <-. cbn. rewrite elem_of_union, elem_of_singleton.
    split; intros [E|?]; auto; [left; by apply conf_path_inj|left; by rewrite E].
  - intros i k k' _ E j. cbn in *. unfold lx_WriteFile in E. case_decide; [|done]. simpl in E.
    injection E as <-. cbn. rewrite elem_of_difference, elem_of_singleton.
    split; [intros [? Hn]|intros [Hn ?]]; split; try done; intros E; apply Hn; [by rewrite E|by apply conf_path_inj].
  - intros p v k e k'. cbn. unfold lx_WriteFile. repeat case_decide; by intros [= _ <-].
  - intros b k e k' (? & ? & ?)%lx_nftFlush_frame. destruct (lx_same k k') as (? & ? & ?); auto.
  - intros b k k'. cbn. unfold lx_nftFlush. destruct (lx_nft_down k); [done|]. by intros [= <-].
  - intros b k e k'. cbn. unfold lx_nftFlush. by destruct (lx_nft_down k); intros [= _ <-].
  - intros k l. cbn. intros [= <-].
    destruct (lx_nat k); split; intros Hx; [done|set_solver|set_solver|by destruct Hx].
Qed.

(** ** The refinement *)


Definition ex_kernel : sim_linux := mkLinux ["eth1"; "plexd0"] [] ∅ None false.


(** ** An in-memory controller

    It keeps the whole promise; a network has one route. *)

Record sim_router := mkRouter {
  sim_links : list string;
  sim_fib : list (network * string);
  sim_conf : gset string;
  sim_nat : option string;
  sim_nft_down : bool
}.

Definition sim_add (s i : string) (k : sim_router) : option string * sim_router :=
  match subnet_net s with
  | None => (Some "invalid CIDR address", k)
  | Some n =>
      if decide (i ∈ sim_links k) then
        if decide (n ∈ (filter (fun p => p.2 ∈ sim_links k) (sim_fib k)).*1) then (None, k)
        else (None, mkRouter (sim_links k) ((n, i) :: sim_fib k) (sim_conf k) (sim_nat k) (sim_nft_down k))
      else (Some "Link not found", k)
  end.

Definition sim_remove (s i : string) (k : sim_router) : option string * sim_router :=
  match subnet_net s with
  | None => (Some "invalid CIDR address", k)
  | Some n =>
      (None, mkRouter (sim_links k) (filter (fun p => p <> (n, i)) (sim_fib k)) (sim_conf k) (sim_nat k)
         (sim_nft_down k))
  end.

Definition sim_forwarding (f : gset string -> gset string) (a b : string) (k : sim_router)
    : option string * sim_router :=
  if decide (a ∈ sim_links k /\ b ∈ sim_links k)
  then (None, mkRouter (sim_links k) (sim_fib k) (f (sim_conf k)) (sim_nat k) (sim_nft_down k))
  else (Some "no such file or directory", k).

Definition sim_masquerade (n : option string) (k : sim_router) : option string * sim_router :=
  if sim_nft_down k then (Some "operation not permitted", k)
  else (None, mkRouter (sim_links k) (sim_fib k) (sim_conf k) n false).

#[global] Instance sim_route_controller : RouteController sim_router := {
  EnableForwarding a b := sim_forwarding (fun c => {[ a; b ]} ∪ c) a b;
  DisableForwarding a b := sim_forwarding (fun c => c ∖ {[ a; b ]}) a b;
  AddRoute := sim_add;
  RemoveRoute := sim_remove;
  AddNATMasquerade i k := let '(e, k) := sim_masquerade (Some i) k in (Returns e, k);
  RemoveNATMasquerade i := sim_masquerade None
}.

#[global] Instance sim_route_view : RouteView sim_router := {
  routed k n j := j ∈ sim_links k /\ (n, j) ∈ sim_fib k;
  forwards k i := i ∈ sim_conf k;
  masquerades k o := sim_nat k = Some o
}.

Lemma sim_add_ok s i k k' : sim_add s i k = (None, k') ->
  same_forwarding k k' /\ same_nat k k' /\
  exists n, subnet_net s = Some n /\
    ((forall m j, routed k' m j <-> (m = n /\ j = i) \/ routed k m j) \/
     (same_routes k k' /\ exists j, j <> i /\ routed k n j)).
Proof.
  unfold sim_add. destruct (subnet_net s) as [n|]; [|done]. case_decide as Hi; [|done].
  case_decide as Hn; intros [= <-]; (split_and!; [done..|]); exists n; (split; [done|]).
  - apply list_elem_of_fmap in Hn as ([n' j] & -> & [Hj Hf]%list_elem_of_filter). cbn in *.
    destruct (decide (j = i)) as [->|Hne]; [left|right; split; [done|by exists j]].
    intros m j. split; [tauto|]. by intros [[-> ->]|].
  - left. intros m j. cbn. rewrite elem_of_cons. naive_solver.
Qed.

#[global] Instance sim_route_base : RouteControllerBase sim_router.
Proof.
  split; cbn.
  - intros a b k e k'. unfold sim_forwarding. case_decide; by intros [= _ <-].
  - intros a b k e k'. unfold sim_forwarding. case_decide; by intros [= _ <-].
  - intros a b k k' _ _. unfold sim_forwarding. case_decide; [|done]. intros [= <-].
    split_and!; [done..|]. intros i. cbn. set_solver.
  - intros a b k e k' _ _. unfold sim_forwarding. case_decide; [done|]. intros [= _ <-]. split_and!; [done..|by left].
  - intros a b k k' _ _. unfold sim_forwarding. case_decide; [|done]. intros [= <-].
    split_and!; [done..|]. intros i. cbn. set_solver.
  - intros a b k e k' _ _. unfold sim_forwarding. case_decide; [done|]. intros [= _ <-]. split_and!; [done..|by left].
  - apply sim_add_ok.
  - intros s i k e k'. unfold sim_add. destruct (subnet_net s); [|by intros [= _ <-]].
    repeat case_decide; by intros [= _ <-].
  - intros s i k k'. unfold sim_remove. destruct (subnet_net s) as [n|]; [|done]. intros [= <-].
    split_and!; [done..|]. exists n. split_and!; [done|..]; intros m j; cbn; rewrite list_elem_of_filter; naive_solver.
  - intros s i k e k'. unfold sim_remove. destruct (subnet_net s); [done|by intros [= _ <-]].
  - intros i k k'. unfold sim_masquerade. destruct (sim_nft_down k); [done|]. intros [= <-].
    split_and!; [done..|]. intros _ o _. cbn. naive_solver.
  - intros i k e k'. unfold sim_masquerade. destruct (sim_nft_down k); [|done]. by intros [= _ <-].
  - intros i k k'. by destruct (sim_masquerade _ k).
  - intros i k k'. unfold sim_masquerade. destruct (sim_nft_down k); [done|]. by intros [= <-].
  - intros i k e k'. unfold sim_masquerade. destruct (sim_nft_down k); [|done]. by intros [= _ <-].
Qed.

#[global] Instance sim_route_laws : RouteControllerLaws sim_router.
Proof.
  split; [apply _|]. intros s i k k' n. cbn. unfold sim_remove. intros E Hn. rewrite Hn in E.
  injection E as <-. cbn. rewrite list_elem_of_filter. naive_solver.
Qed.

Lemma sim_routed (k : sim_router) n j : routed k n j <-> j ∈ sim_links k /\ (n, j) ∈ sim_fib k.
Proof. done. Qed.

Lemma sim_forwards (k : sim_router) i : forwards k i <-> i ∈ sim_conf k.
Proof. done. Qed.

Lemma unclaimed_sim iface l (k : sim_router) :
  Forall (fun p => Forall (fun s => subnet_net s = Some p.1 -> p.2 = iface) l) (sim_fib k) ->
  unclaimed iface l k.
Proof.
  intros Hf n j (s & Hs & Hn) [_ Hr]. rewrite Forall_forall in Hf.
  specialize (Hf _ Hr). rewrite Forall_forall in Hf. by apply (Hf s).
Qed.

(** Links that come and go. *)
Definition sim_add_link (i : string) (k : sim_router) : sim_router :=
  if decide (i ∈ sim_links k) then k
  else mkRouter (i :: sim_links k) (filter (fun p => p.2 <> i) (sim_fib k)) (sim_conf k) (sim_nat k) (sim_nft_down k).

Definition sim_del_link (i : string) (k : sim_router) : sim_router :=
  mkRouter (filter (fun j => j <> i) (sim_links k)) (filter (fun p => p.2 <> i) (sim_fib k))
    (sim_conf k ∖ {[ i ]}) (sim_nat k) (sim_nft_down k).

Lemma sim_add_link_routed i k n j : routed (sim_add_link i k) n j <-> routed k n j.
Proof.
  unfold sim_add_link. case_decide as Hi; [done|]. cbn.
  rewrite elem_of_cons, list_elem_of_filter. cbn. naive_solver.
Qed.

Lemma sim_del_link_routed i k n j : j <> i -> routed (sim_del_link i k) n j <-> routed k n j.
Proof. intros Hj. cbn. rewrite !list_elem_of_filter. cbn. naive_solver. Qed.

Definition ex_router : sim_router := mkRouter ["eth1"; "plexd0"] [] ∅ None false.
