(* ===== verification/Bridge.v ===== *)
(** * The bridge manager (src/internal/bridge/manager.go, handler.go)

    Bridge mode routes between the mesh and the subnets of an access-side
    interface.  The manager tracks the subnets it has routes for; the system
    itself is behind [RouteController], and the theorems are about controllers
    that keep what the interface promises ([RouteControllerLaws]): a failed
    setup leaves no route behind except those whose removal was logged as
    failed, what an error-free update adds and removes, every tracked subnet has
    its route when networks are spelled in one way and not routed elsewhere,
    and teardown undoes setup. *)

From stdpp Require Import base strings list gmap relations pretty.
From S2P Require Import Prelude Base64 Net Types Diff Reconcile Policy Nftables BridgeCfg Routes.
From S2P Require Relay.

(** ** State *)

Record Manager := mkManager {
  mg_cfg : Config;
  mg_relay : option Relay.Relay;
  mg_active : bool;
  mg_meshIface : string;
  mg_activeRoutes : gmap string unit;
  mg_natConfigured : bool
}.

(** The cleanup calls of [rollbackSetup] that failed, which it logs. *)
Inductive rollback_failure :=
| RollbackRoute (subnet e : string)
| RollbackForwarding (e : string).
#[global] Instance rollback_failure_eq_dec : EqDecision rollback_failure.
Proof. solve_decision. Defined.

Definition NewManager (cfg : Config) : Manager :=
  let cfg := ApplyDefaults cfg in
  mkManager cfg
    (if cf_RelayEnabled cfg
     then Some (Relay.NewRelay (cf_RelayListenPort cfg) (cf_MaxRelaySessions cfg) (cf_SessionTTL cfg))
     else None)
    false "" ∅ false.

Definition set_routes (m : Manager) (r : gmap string unit) : Manager :=
  mkManager (mg_cfg m) (mg_relay m) (mg_active m) (mg_meshIface m) r (mg_natConfigured m).

Definition set_relay (m : Manager) (r : option Relay.Relay) : Manager :=
  mkManager (mg_cfg m) r (mg_active m) (mg_meshIface m) (mg_activeRoutes m) (mg_natConfigured m).

(** [fmt.Errorf] with the source's prefix. *)
Definition wrap (prefix e : string) : string := String.append prefix e.

Definition subnetsFromSet `{MapOrder} (s : gmap string unit) : list string := range_keys s.

(** [errors.Join]: nil when there is no error. *)
Definition errors_Join {E} (errs : list E) : option (list E) :=
  match errs with [] => None | _ => Some errs end.

(** The errors so far, the tracked subnets, the system. *)
Abbreviation update_state W := (list string * gmap string unit * W)%type.

Section manager.
Context {W : Type} `{RouteController W}.
Implicit Types (w : W).

(** ** Setup *)

(** The loop that adds the routes; on an error, those added so far. *)
Fixpoint add_routes (iface : string) (subnets added : list string) w
    : result (string * list string) (list string) * W :=
  match subnets with
  | [] => (Ok added, w)
  | subnet :: subnets =>
      match AddRoute subnet iface w with
      | (Some e, w) => (Err (wrap "bridge: setup: add route: " e, added), w)
      | (None, w) => add_routes iface subnets (added ++ [subnet]) w
      end
  end.

Definition rollback_route (iface : string) (acc : list rollback_failure * W) (subnet : string)
    : list rollback_failure * W :=
  match RemoveRoute subnet iface acc.2 with
  | (Some e, w) => (acc.1 ++ [RollbackRoute subnet e], w)
  | (None, w) => (acc.1, w)
  end.

(** The failures are only logged. *)
Definition rollbackSetup (m : Manager) (subnets : list string) w : list rollback_failure * W :=
  let iface := cf_AccessInterface (mg_cfg m) in
  let '(log, w) := foldl (rollback_route iface) ([], w) (reverse subnets) in
  match DisableForwarding (mg_meshIface m) iface w with
  | (Some e, w) => (log ++ [RollbackForwarding e], w)
  | (None, w) => (log, w)
  end.

Definition track (added : list string) (r : gmap string unit) : gmap string unit :=
  foldl (fun r s => <[s := ()]> r) r added.

(** Besides the error: the rollback failures logged, the manager, the system. *)
Definition Setup `{MapOrder} (meshIface : string) (m : Manager) w
    : outcome (option string) * list rollback_failure * (Manager * W) :=
  let cfg := mg_cfg m in
  let iface := cf_AccessInterface cfg in
  if negb (cf_Enabled cfg) then (Returns None, [], (m, w))
  else
    let m := mkManager cfg (mg_relay m) (mg_active m) meshIface (mg_activeRoutes m)
               (mg_natConfigured m) in
    match EnableForwarding meshIface iface w with
    | (Some e, w) => (Returns (Some (wrap "bridge: setup: enable forwarding: " e)), [], (m, w))
    | (None, w) =>
        match add_routes iface (cf_AccessSubnets cfg) [] w with
        | (Err (e, added), w) =>
            let '(log, w) := rollbackSetup m added w in (Returns (Some e), log, (m, w))
        | (Ok added, w) =>
            let m := set_routes m (track added (mg_activeRoutes m)) in
            let done m w := (Returns None, [],
              (mkManager cfg (mg_relay m) true meshIface (mg_activeRoutes m) (mg_natConfigured m), w)) in
            if natEnabled cfg then
              match AddNATMasquerade iface w with
              | (Panics, w) => (Panics, [], (m, w))
              | (Returns (Some e), w) =>
                  let '(log, w) := rollbackSetup m (subnetsFromSet (mg_activeRoutes m)) w in
                  (Returns (Some (wrap "bridge: setup: add NAT masquerade: " e)), log,
                   (set_routes m ∅, w))
              | (Returns None, w) =>
                  done (mkManager cfg (mg_relay m) (mg_active m) meshIface (mg_activeRoutes m) true) w
              end
            else done m w
        end
    end.

(** ** Teardown *)

Definition remove_all (iface : string) (acc : list string * W) (subnet : string) : list string * W :=
  match RemoveRoute subnet iface acc.2 with
  | (Some e, w) => (acc.1 ++ [e], w)
  | (None, w) => (acc.1, w)
  end.

(** A call whose error is collected. *)
Definition collect (errs : list string) (r : option string * W) : list string * W :=
  match r with
  | (Some e, w) => (errs ++ [e], w)
  | (None, w) => (errs, w)
  end.

(** [relay.Stop] never fails. *)
Definition StopRelay `{MapOrder} (m : Manager) (rw : Relay.World) : Manager * Relay.World :=
  match mg_relay m with
  | None => (m, rw)
  | Some r => let '(r, rw) := Relay.Stop (r, rw) in (set_relay m (Some r), rw)
  end.

Definition StartRelay (listen : result string nat) (m : Manager) (rw : Relay.World)
    : option Relay.error * (Manager * Relay.World) :=
  match mg_relay m with
  | None => (None, (m, rw))
  | Some r =>
      let '(e, (r, rw)) := Relay.Start listen (r, rw) in (e, (set_relay m (Some r), rw))
  end.

Definition Teardown `{MapOrder} (m : Manager) w (rw : Relay.World)
    : option (list string) * (Manager * W * Relay.World) :=
  if negb (mg_active m) then (None, (m, w, rw))
  else
    let iface := cf_AccessInterface (mg_cfg m) in
    let '(errs, w) := foldl (remove_all iface) ([], w) (range_keys (mg_activeRoutes m)) in
    let '(errs, w) :=
      if mg_natConfigured m then collect errs (RemoveNATMasquerade iface w) else (errs, w) in
    let '(errs, w) := collect errs (DisableForwarding (mg_meshIface m) iface w) in
    let '(m, rw) := StopRelay m rw in
    (errors_Join errs,
     (mkManager (mg_cfg m) (mg_relay m) false (mg_meshIface m) ∅ false, w, rw)).

(** ** Updates *)

Definition remove_stale (iface : string) (desired : gmap string unit) (acc : update_state W)
    (subnet : string) : update_state W :=
  let '(errs, act, w) := acc in
  if decide (is_Some (desired !! subnet)) then acc
  else match RemoveRoute subnet iface w with
       | (Some e, w) => (errs ++ [e], act, w)
       | (None, w) => (errs, delete subnet act, w)
       end.

Definition add_new (iface : string) (acc : update_state W) (subnet : string) : update_state W :=
  let '(errs, act, w) := acc in
  if decide (is_Some (act !! subnet)) then acc
  else match AddRoute subnet iface w with
       | (Some e, w) => (errs ++ [e], act, w)
       | (None, w) => (errs, <[subnet := ()]> act, w)
       end.

Definition UpdateRoutes `{MapOrder} (subnets : list string) (m : Manager) w
    : option (list string) * (Manager * W) :=
  let iface := cf_AccessInterface (mg_cfg m) in
  let desired := build_map id (fun _ => ()) subnets in
  let acc := foldl (remove_stale iface desired) ([], mg_activeRoutes m, w)
               (range_keys (mg_activeRoutes m)) in
  let '(errs, act, w) := foldl (add_new iface) acc subnets in
  (errors_Join errs, (set_routes m act, w)).

Definition ReconcileHandler `{MapOrder} (desired : option StateResponse) (m : Manager) w
    : option (list string) * (Manager * W) :=
  match desired ≫= st_BridgeConfig with
  | None => (None, (m, w))
  | Some bc => UpdateRoutes (bc_AccessSubnets bc) m w
  end.

End manager.

(** The payload is ignored: the next cycle fetches the desired state. *)
Definition HandleBridgeConfigUpdated {R E} (r : Reconciler (W := R) (E := E)) : Reconciler :=
  TriggerReconcile r.

(** ** Status *)

Definition BridgeStatus (m : Manager) : option BridgeInfo :=
  if negb (mg_active m) then None
  else Some (mkBridgeInfo true (cf_AccessInterface (mg_cfg m))
               (Z.of_nat (size (mg_activeRoutes m)))
               (match mg_relay m with Some _ => true | None => false end)
               (match mg_relay m with
                | Some r => Z.of_nat (size (Relay.rl_sessions r))
                | None => 0
                end) false 0 false 0).

Definition BridgeCapabilities (m : Manager) : option (gmap string string) :=
  let cfg := mg_cfg m in
  if negb (cf_Enabled cfg) then None
  else
    let caps := <["access_interface" := cf_AccessInterface cfg]> {["bridge" := "true"]} in
    let caps := foldl (fun caps '(i, s) =>
      <[String.append "access_subnet_" (pretty (i : nat)) := s]> caps) caps
      (imap pair (cf_AccessSubnets cfg)) in
    Some (if cf_RelayEnabled cfg then
            <["relay_listen_port" := pretty (cf_RelayListenPort cfg)]> (<["relay" := "true"]> caps)
          else caps).

(** ** Lemmas *)

Section lemmas.
Context {W : Type} `{RouteControllerLaws W}.
Implicit Types (w : W) (act : gmap string unit).

Lemma same_view_refl w : same_view w w.
Proof. by split_and!. Qed.

(** *** The loops of an update *)

(** What the loop over [l] has done when it reaches [acc]: entries that were
    dropped lost their route, nothing else changed. *)
Record removed (iface : string) (desired : gmap string unit) (l : list string)
    (act : gmap string unit) w (acc : update_state W) : Prop := mkRemoved {
  rm_kept : forall s, is_Some (desired !! s) \/ s ∉ l -> acc.1.2 !! s = act !! s;
  rm_sub : acc.1.2 ⊆ act;
  rm_forwarding : same_forwarding w acc.2;
  rm_nat : same_nat w acc.2;
  rm_routes : forall m j, routed acc.2 m j <-> routed w m j /\
    ~ (j = iface /\ exists s, is_Some (act !! s) /\ acc.1.2 !! s = None /\ subnet_net s = Some m);
  rm_all : acc.1.1 = [] -> forall s, s ∈ l -> desired !! s = None -> acc.1.2 !! s = None
}.

Lemma removed_nil iface desired act w : removed iface desired [] act w ([], act, w).
Proof.
  split; simpl; try done; [|set_solver]. intros m j. split; [|tauto]. intros Hr. split; [done|].
  intros (_ & s & [? Hs] & Hn & _). congruence.
Qed.

Lemma removed_step iface desired l act w acc t :
  t ∉ l -> is_Some (act !! t) -> removed iface desired l act w acc ->
  removed iface desired (l ++ [t]) act w (remove_stale iface desired acc t).
Proof.
  destruct acc as [[errs a] v]. intros Ht Hat [Hk Hs Hf Hn Hr Ha]. simpl in *. unfold remove_stale.
  case_decide as Hd.
  { split; simpl; try done; [intros s [?|?]; apply Hk; set_solver|]. intros He s Hs' Hds.
    apply elem_of_app in Hs' as [?|Hs'%list_elem_of_singleton]; [by apply Ha|]. subst s.
    by rewrite Hds in Hd; destruct Hd. }
  destruct (RemoveRoute t iface v) as [[e|] v'] eqn:E.
  { apply RemoveRoute_err in E as (Er & Ef & En). split; simpl; try done.
    - intros s [?|?]; apply Hk; set_solver.
    - intros i. by rewrite (Ef i).
    - intros i. by rewrite (En i).
    - intros m j. by rewrite (Er m j).
    - by destruct errs. }
  apply RemoveRoute_ok in E as (Ef & En & n & Esn & Er). split; simpl.
  - intros s Hs'. rewrite lookup_delete_ne; [apply Hk; set_solver|]. intros ->.
    destruct Hs' as [?|?]; [done|set_solver].
  - etrans; [apply delete_subseteq|done].
  - intros i. by rewrite (Ef i).
  - intros i. by rewrite (En i).
  - intros m j. rewrite Er, Hr. split.
    + intros (Hne & Hrt & Hno). split; [done|]. intros (-> & s & Has & Hds & Hm).
      destruct (decide (s = t)) as [->|Hst]; [apply Hne; split; congruence|].
      rewrite lookup_delete_ne in Hds by done. apply Hno. eauto 6.
    + intros (Hrt & Hno). split_and!; [|done|].
      * intros [-> ->]. apply Hno. split; [done|]. exists t. by rewrite lookup_delete_eq.
      * intros (-> & s & Has & Hds & Hm). apply Hno. split; [done|]. exists s.
        split_and!; [done| |done]. rewrite lookup_delete. by case_decide.
  - intros He s [Hin|Hin%list_elem_of_singleton]%elem_of_app Hds; [|subst s; apply lookup_delete_eq].
    rewrite lookup_delete. case_decide; [done|]. by apply Ha.
Qed.

Lemma removed_loop iface desired act w l :
  NoDup l -> (forall s, s ∈ l -> is_Some (act !! s)) ->
  removed iface desired l act w (foldl (remove_stale iface desired) ([], act, w) l).
Proof.
  induction l as [|t l IH] using rev_ind; intros Hnd Hin; [apply removed_nil|].
  rewrite foldl_app. simpl. apply NoDup_app in Hnd as (Hnd & Hdis & _).
  apply removed_step; [set_solver|apply Hin; set_solver|]. apply IH; [done|]. set_solver.
Qed.

(** The loop that adds: the network of an added entry is routed, over the
    interface unless another one has it. *)
Record added (iface : string) (l : list string) (acc acc' : update_state W) : Prop := mkAdded {
  ad_sub : acc.1.2 ⊆ acc'.1.2;
  ad_new : forall s, is_Some (acc'.1.2 !! s) -> acc.1.2 !! s = None -> s ∈ l /\ is_Some (subnet_net s);
  ad_forwarding : same_forwarding acc.2 acc'.2;
  ad_nat : same_nat acc.2 acc'.2;
  ad_mono : forall m j, routed acc.2 m j -> routed acc'.2 m j;
  ad_back : forall m j, routed acc'.2 m j -> routed acc.2 m j \/
    (j = iface /\ exists s, acc.1.2 !! s = None /\ is_Some (acc'.1.2 !! s) /\ subnet_net s = Some m);
  ad_have : forall s m, acc.1.2 !! s = None -> is_Some (acc'.1.2 !! s) -> subnet_net s = Some m ->
    exists j, routed acc'.2 m j;
  ad_all : acc'.1.1 = [] -> acc.1.1 = [] /\ forall s, s ∈ l -> is_Some (acc'.1.2 !! s)
}.

Lemma added_nil iface acc : added iface [] acc acc.
Proof.
  split; try done.
  - intros s [? Hs] Hn. congruence.
  - intros m j. by left.
  - intros s m Hn [? Hs]. congruence.
  - intros ->. set_solver.
Qed.

Lemma added_routes iface l acc acc' : added iface l acc acc' -> unclaimed iface l acc.2 ->
  forall m j, routed acc'.2 m j <-> routed acc.2 m j \/
    (j = iface /\ exists s, acc.1.2 !! s = None /\ is_Some (acc'.1.2 !! s) /\ subnet_net s = Some m).
Proof.
  intros [_ Hn _ _ Hm Hb Hh _] Hu m j. split; [apply Hb|]. intros [?|(-> & s & G1 & G2 & G3)]; [auto|].
  destruct (Hh s m G1 G2 G3) as [j Hj]. destruct (Hb _ _ Hj) as [Hr|[-> _]]; [|done].
  replace iface with j; [done|]. apply (Hu m); [|done]. exists s. split; [by apply Hn|done].
Qed.

(** The same entries and an unchanged view: one more element of the list. *)
Lemma added_keep iface l t acc errs a v errs' v' :
  added iface l acc (errs, a, v) -> same_view v v' ->
  (errs' = [] -> errs = [] /\ is_Some (a !! t)) -> added iface (l ++ [t]) acc (errs', a, v').
Proof.
  intros [Hs Hn Hf Hna Hm Hb Hh Ha] (Er & Ef & En) He. split; simpl in *.
  - done.
  - intros s Hs' Hs0. destruct (Hn s Hs' Hs0). split; [set_solver|done].
  - intros i. by rewrite (Ef i).
  - intros i. by rewrite (En i).
  - intros m j Hj. apply (Er m j). auto.
  - intros m j Hj%Er. auto.
  - intros s m G1 G2 G3. destruct (Hh s m G1 G2 G3) as [j Hj]. exists j. by apply Er.
  - intros [E Hat]%He. destruct (Ha E) as [? Hall]. split; [done|]. intros s Hin.
    apply elem_of_app in Hin as [?|Hin%list_elem_of_singleton]; [auto|by subst s].
Qed.

Lemma added_step iface l acc acc' t :
  added iface l acc acc' -> added iface (l ++ [t]) acc (add_new iface acc' t).
Proof.
  destruct acc' as [[errs a] v]. intros Had. unfold add_new. case_decide as Hd.
  { eapply added_keep; [done|apply same_view_refl|done]. }
  destruct (AddRoute t iface v) as [[e|] v'] eqn:E.
  { eapply added_keep; [done|by eapply AddRoute_err|by destruct errs]. }
  destruct Had as [Hs Hn Hf Hna Hm Hb Hh Ha]. simpl in *. apply eq_None_not_Some in Hd.
  apply AddRoute_ok in E as (Ef & En & n & Esn & Er). split; simpl.
  - etrans; [done|]. by apply insert_subseteq.
  - intros s Hs' Hs0. destruct (decide (s = t)) as [->|Hst]; [split; [set_solver|by eexists]|].
    rewrite lookup_insert_ne in Hs' by done. destruct (Hn s Hs' Hs0). split; [set_solver|done].
  - intros i. by rewrite (Ef i).
  - intros i. by rewrite (En i).
  - intros m j Hj%Hm. destruct Er as [Er|[Er _]]; apply Er; auto.
  - intros m j Hj. assert ((m = n /\ j = iface) \/ routed v m j) as [[-> ->]|Hv].
    { destruct Er as [Er|[Er _]]; [by apply Er|right; by apply Er]. }
    + right. split; [done|]. exists t. rewrite lookup_insert_eq.
      split_and!; [eapply lookup_weaken_None; done|done..].
    + destruct (Hb _ _ Hv) as [?|(-> & s & G1 & G2 & G3)]; [by left|right]. split; [done|]. exists s.
      split_and!; [done| |done]. by apply lookup_insert_is_Some'; right.
  - intros s m G1 G2 G3. destruct (decide (s = t)) as [->|Hst].
    + rewrite Esn in G3. injection G3 as <-.
      destruct Er as [Er|(Er & j & _ & Hj)]; [exists iface|exists j]; apply Er; auto.
    + rewrite lookup_insert_ne in G2 by done. destruct (Hh s m G1 G2 G3) as [j Hj]. exists j.
      destruct Er as [Er|[Er _]]; apply Er; auto.
  - intros He. destruct (Ha He) as [? Hall]. split; [done|]. intros s Hin.
    rewrite lookup_insert_is_Some'. apply elem_of_app in Hin as [?|Hin%list_elem_of_singleton]; auto.
Qed.

Lemma added_loop iface acc l : added iface l acc (foldl (add_new iface) acc l).
Proof.
  induction l as [|t l IH] using rev_ind; [apply added_nil|]. rewrite foldl_app. by apply added_step.
Qed.

(** *** Setup and teardown *)

Lemma add_routes_spec iface l : forall acc w r w',
  add_routes iface l acc w = (r, w') ->
  exists new, match r with Ok a => a = acc ++ l /\ new = l | Err (_, a) => a = acc ++ new end /\
    (forall s, s ∈ new -> s ∈ l) /\ same_forwarding w w' /\ same_nat w w' /\
    (forall m j, routed w m j -> routed w' m j) /\
    (forall m j, routed w' m j -> routed w m j \/ j = iface /\ names new m) /\
    (unclaimed iface l w -> forall m, names new m -> routed w' m iface) /\
    (forall s, s ∈ new -> is_Some (subnet_net s)).
Proof.
  induction l as [|t l IH]; intros acc w r w' E; cbn [add_routes] in E.
  { injection E as <- <-. exists []. rewrite app_nil_r.
    split_and!; try done; try set_solver. }
  destruct (AddRoute t iface w) as [[e|] w1] eqn:E1.
  { injection E as <- <-. exists []. rewrite app_nil_r. apply AddRoute_err in E1 as (Er & Ef & En).
    split_and!; try done; try set_solver.
    - intros m j. by rewrite (Er m j).
    - intros m j. rewrite (Er m j). tauto. }
  apply AddRoute_ok in E1 as (Ef & En & n & Esn & Er).
  apply IH in E as (new & Hr & Hsub & Hf & Hna & Hmono & Hback & Hhave & Hsn). exists (t :: new).
  split_and!.
  - destruct r as [a|[e a]]; rewrite <- app_assoc in Hr; [destruct Hr; by subst|done].
  - set_solver.
  - intros i. by rewrite (Hf i).
  - intros i. by rewrite (Hna i).
  - intros m j Hm. apply Hmono. destruct Er as [Er|[Er _]]; [rewrite Er; auto|by rewrite (Er m j)].
  - intros m j [Hm|(-> & s & Hin & Hs)]%Hback; [|right; split; [done|exists s; split; [set_solver|done]]].
    destruct Er as [Er|[Er _]]; [|left; by apply Er].
    apply Er in Hm as [[-> ->]|?]; [right; split; [done|exists t; split; [set_solver|done]]|by left].
  - intros Hu. assert (Er' : forall m j, routed w1 m j <-> (m = n /\ j = iface) \/ routed w m j).
    { destruct Er as [Er|(Er & j & Hj & Hrj)]; [done|]. exfalso. apply Hj. apply (Hu n); [|done].
      exists t. split; [set_solver|done]. }
    intros m (s & [->|Hin]%elem_of_cons & Hs).
    + apply Hmono, Er'. left. split; congruence.
    + apply Hhave; [|by exists s]. intros n' j' (s' & Hin' & Hs') [[_ ->]|Hr']%Er'; [done|].
      apply (Hu n'); [|done]. exists s'. split; [set_solver|done].
  - intros s [->|Hin]%elem_of_cons; [by eexists|auto].
Qed.

Lemma rollback_spec iface l : forall log w log' w',
  foldl (rollback_route iface) (log, w) l = (log', w') ->
  (forall x, x ∈ log -> x ∈ log') /\ (forall e, RollbackForwarding e ∈ log' -> RollbackForwarding e ∈ log) /\
  same_forwarding w w' /\ same_nat w w' /\
  (forall m j, routed w' m j -> routed w m j) /\
  (forall m, names l m -> routed w' m iface ->
    exists s e, RollbackRoute s e ∈ log' /\ subnet_net s = Some m).
Proof.
  induction l as [|t l IH]; intros log w log' w' E; cbn [foldl] in E.
  { injection E as <- <-. split_and!; try done. intros m (s & ? & _). set_solver. }
  unfold rollback_route at 2 in E. simpl in E.
  destruct (RemoveRoute t iface w) as [[e|] w1] eqn:E1.
  - apply RemoveRoute_err in E1 as (Er & Ef & En).
    apply IH in E as (Hl & Hfw & Hf & Hna & Hr & Hlog). split_and!.
    + intros x Hx. apply Hl. set_solver.
    + intros e' He%Hfw. set_solver.
    + intros i. by rewrite (Hf i).
    + intros i. by rewrite (Hna i).
    + intros m j Hm%Hr. by apply Er.
    + intros m (s & [->|Hin]%elem_of_cons & Hs) Hm; [|apply Hlog; [by exists s|done]].
      exists t, e. split; [apply Hl; set_solver|done].
  - apply RemoveRoute_ok in E1 as (Ef & En & n & Esn & Er).
    apply IH in E as (Hl & Hfw & Hf & Hna & Hr & Hlog). split_and!; try done.
    + intros i. by rewrite (Hf i).
    + intros i. by rewrite (Hna i).
    + intros m j Hm%Hr. by apply Er.
    + intros m (s & [->|Hin]%elem_of_cons & Hs) Hm; [|apply Hlog; [by exists s|done]].
      exfalso. apply Hr, Er in Hm as [Hm _]. apply Hm. split; congruence.
Qed.

Lemma rollbackSetup_spec m l w log w' :
  ordinary (mg_meshIface m) -> ordinary (cf_AccessInterface (mg_cfg m)) ->
  rollbackSetup m l w = (log, w') ->
  same_nat w w' /\ (forall n j, routed w' n j -> routed w n j) /\
  (forall n, names l n -> routed w' n (cf_AccessInterface (mg_cfg m)) ->
    exists s e, RollbackRoute s e ∈ log /\ subnet_net s = Some n) /\
  ((forall e, RollbackForwarding e ∉ log) -> forall i, forwards w' i <->
    i <> mg_meshIface m /\ i <> cf_AccessInterface (mg_cfg m) /\ forwards w i).
Proof.
  set (iface := cf_AccessInterface (mg_cfg m)). intros Hm Hi. unfold rollbackSetup. fold iface.
  destruct (foldl (rollback_route iface) ([], w) (reverse l)) as [log1 w1] eqn:E.
  apply rollback_spec in E as (_ & Hfw & Hf & Hna & Hr & Hlog).
  assert (Hn : forall n, names l n -> names (reverse l) n).
  { intros n (s & Hin & Hs). exists s. by rewrite elem_of_reverse. }
  destruct (DisableForwarding (mg_meshIface m) iface w1) as [[e|] w2] eqn:Ed; intros [= <- <-].
  - apply DisableForwarding_err in Ed as (Er & En & _); [|done..]. split_and!.
    + intros i. by rewrite (En i).
    + intros n j Hx%Er. auto.
    + intros n Hx%Hn Hy%Er. destruct (Hlog n Hx Hy) as (s & e' & ? & ?). exists s, e'. set_solver.
    + intros Hno. destruct (Hno e). set_solver.
  - apply DisableForwarding_ok in Ed as (Er & En & Ef); [|done..]. split_and!.
    + intros i. by rewrite (En i).
    + intros n j Hx%Er. auto.
    + intros n Hx%Hn Hy%Er. auto.
    + intros _ i. by rewrite Ef, (Hf i).
Qed.

Lemma remove_all_spec iface l : forall errs w errs' w',
  foldl (remove_all iface) (errs, w) l = (errs', w') ->
  same_forwarding w w' /\ same_nat w w' /\
  (forall m j, routed w' m j -> routed w m j) /\
  (forall m j, routed w m j -> ~ (j = iface /\ names l m) -> routed w' m j) /\
  (errs' = [] -> errs = [] /\ forall m, names l m -> ~ routed w' m iface).
Proof.
  induction l as [|t l IH]; intros errs w errs' w' E; cbn [foldl] in E.
  { injection E as <- <-. split_and!; try done. intros ->. split; [done|]. intros m (s & ? & _). set_solver. }
  assert (Hn : forall m, names l m -> names (t :: l) m).
  { intros m (s & ? & ?). exists s. split; [set_solver|done]. }
  unfold remove_all at 2 in E. simpl in E.
  destruct (RemoveRoute t iface w) as [[e|] w1] eqn:E1.
  - apply RemoveRoute_err in E1 as (Er & Ef & En).
    apply IH in E as (Hf & Hna & Hr & Hk & He). split_and!.
    + intros i. by rewrite (Hf i).
    + intros i. by rewrite (Hna i).
    + intros m j Hm%Hr. by apply Er.
    + intros m j Hm Hno. apply Hk; [by apply Er|]. intros [? ?]. apply Hno. auto.
    + intros [E' _]%He. by destruct errs.
  - apply RemoveRoute_ok in E1 as (Ef & En & n & Esn & Er).
    apply IH in E as (Hf & Hna & Hr & Hk & He). split_and!.
    + intros i. by rewrite (Hf i).
    + intros i. by rewrite (Hna i).
    + intros m j Hm%Hr. by apply Er.
    + intros m j Hm Hno. apply Hk; [apply Er; split; [|done]|intros [? ?]; apply Hno; auto].
      intros [-> ->]. apply Hno. split; [done|]. exists t. split; [set_solver|done].
    + intros [-> Hall]%He. split; [done|]. intros m (s & [->|Hin]%elem_of_cons & Hs).
      * intros [Hm _]%Hr%Er. apply Hm. split; congruence.
      * apply Hall. by exists s.
Qed.
End lemmas.

(** ** Theorems *)

(** Every tracked subnet has its route; while active, traffic is forwarded
    between the mesh and the access interface and masqueraded if configured. *)
Record bridge_inv {W} `{RouteView W} (m : Manager) (w : W) : Prop := mkBridgeInv {
  bi_tracked : forall s, is_Some (mg_activeRoutes m !! s) ->
    exists n, subnet_net s = Some n /\ routed w n (cf_AccessInterface (mg_cfg m));
  bi_forwards : mg_active m = true ->
    forwards w (mg_meshIface m) /\ forwards w (cf_AccessInterface (mg_cfg m));
  bi_nat : mg_natConfigured m = true -> valid_iface (cf_AccessInterface (mg_cfg m)) ->
    masquerades w (cf_AccessInterface (mg_cfg m))
}.

(** No two strings of the list name the same network. *)
Definition one_spelling (l : list string) : Prop :=
  forall s t n, s ∈ l -> t ∈ l -> subnet_net s = Some n -> subnet_net t = Some n -> s = t.

Section theorems.
Context {W : Type} `{RouteControllerLaws W} {HO : MapOrder}.
Implicit Types (w : W) (m : Manager).

Lemma UpdateRoutes_loops subnets m w e m' w' :
  UpdateRoutes subnets m w = (e, (m', w')) ->
  let iface := cf_AccessInterface (mg_cfg m) in
  let desired := build_map id (fun _ => ()) subnets in
  exists acc, removed iface desired (range_keys (mg_activeRoutes m)) (mg_activeRoutes m) w acc /\
    exists errs, added iface subnets acc (errs, mg_activeRoutes m', w') /\
    e = errors_Join errs /\ m' = set_routes m (mg_activeRoutes m').
Proof.
  intros E iface desired. unfold UpdateRoutes in E. fold iface desired in E. revert E.
  set (acc := foldl _ _ (range_keys _)). intros E. exists acc. split.
  { apply removed_loop; [apply NoDup_range_keys|]. intros s. apply elem_of_range_keys. }
  pose proof (added_loop iface acc subnets) as Ha.
  destruct (foldl (add_new iface) acc subnets) as [[errs act] w1]. injection E as <- <- <-.
  by exists errs.
Qed.

Lemma errors_Join_None {E} (l : list E) : errors_Join l = None -> l = [].
Proof. by destruct l. Qed.

Lemma desired_lookup (l : list string) s :
  is_Some (build_map id (fun _ => ()) l !! s) <-> s ∈ l.
Proof. by rewrite build_map_is_Some, list_fmap_id. Qed.

(** After an error-free removal loop the entries left are the desired ones. *)
Lemma removed_entries (subnets : list string) (act a : gmap string unit) :
  let desired := build_map id (fun _ => ()) subnets in
  (forall s, is_Some (desired !! s) \/ s ∉ range_keys act -> a !! s = act !! s) -> a ⊆ act ->
  (forall s, s ∈ range_keys act -> desired !! s = None -> a !! s = None) ->
  forall s, is_Some (a !! s) <-> is_Some (act !! s) /\ s ∈ subnets.
Proof.
  cbv zeta. intros Rk Rs Ra s. destruct (decide (s ∈ subnets)) as [Hs|Hs].
  - rewrite Rk by (left; by apply desired_lookup). tauto.
  - split; [|tauto]. intros Hx. exfalso. rewrite <- not_eq_None_Some in Hx. apply Hx.
    apply Ra; [|by apply eq_None_not_Some; rewrite desired_lookup].
    apply elem_of_range_keys. destruct (a !! s) as [u|] eqn:Eu; [|done].
    exists u. by eapply lookup_weaken.
Qed.

(** A tracked subnet that is no longer desired names the network; a desired one
    that is not tracked yet names it. *)
Definition withdrawn (m : Manager) (subnets : list string) (n : network) : Prop :=
  exists s, is_Some (mg_activeRoutes m !! s) /\ (s ∉ subnets) /\ subnet_net s = Some n.
Definition requested (m : Manager) (subnets : list string) (n : network) : Prop :=
  exists s, s ∈ subnets /\ mg_activeRoutes m !! s = None /\ subnet_net s = Some n.

(** C26. What an error-free update does to the routes, over a controller that
    keeps the whole interface.  The tracked subnets become the desired ones.
    From the access interface it takes the networks of tracked subnets that are
    no longer desired, and no other route goes; it adds to the access interface
    at most the networks of desired subnets that were not tracked, and each of
    these is routed afterwards, over the access interface or over one that had
    it before.  Routes the manager does not track stay, and forwarding and NAT
    do not change.  If every tracked subnet had its route before and no
    network is spelled in two ways, every desired network is routed afterwards;
    with two spellings it may not be: [respelled_subnet_loses_route]. *)
Theorem UpdateRoutes_exact subnets m w m' w' :
  UpdateRoutes subnets m w = (None, (m', w')) ->
  let iface := cf_AccessInterface (mg_cfg m) in
  (forall s, is_Some (mg_activeRoutes m' !! s) <-> s ∈ subnets) /\
  same_forwarding w w' /\ same_nat w w' /\
  (forall n j, routed w n j -> ~ (j = iface /\ withdrawn m subnets n) -> routed w' n j) /\
  (forall n j, routed w' n j ->
    (routed w n j /\ ~ (j = iface /\ withdrawn m subnets n)) \/ (j = iface /\ requested m subnets n)) /\
  (forall n, requested m subnets n -> routed w' n iface \/ exists j, j <> iface /\ routed w n j) /\
  (bridge_inv m w -> one_spelling (range_keys (mg_activeRoutes m) ++ subnets) ->
    forall n, names subnets n -> routed w' n iface \/ exists j, j <> iface /\ routed w n j).
Proof.
  intros E iface.
  apply UpdateRoutes_loops in E as ([[er a] v] & [Rk Rs Rf Rn Rr Ra] & errs & Had & He & _).
  symmetry in He. apply errors_Join_None in He as ->. destruct Had as [As An Af Ana Am Ab Ah Aa].
  simpl in *. fold iface in Rr, Ab. destruct (Aa eq_refl) as [-> Hall]. specialize (Ra eq_refl).
  assert (Ha := removed_entries _ _ _ Rk Rs Ra).
  assert (Hg : forall n, (exists s, is_Some (mg_activeRoutes m !! s) /\ a !! s = None /\ subnet_net s = Some n) <->
    withdrawn m subnets n).
  { intros n. split; intros (s & G1 & G2 & G3); exists s; split_and!; try done.
    - intros Hs. rewrite eq_None_not_Some, Ha in G2. tauto.
    - rewrite eq_None_not_Some, Ha. tauto. }
  assert (Hq : forall n, (exists s, a !! s = None /\ is_Some (mg_activeRoutes m' !! s) /\ subnet_net s = Some n) <->
    requested m subnets n).
  { intros n. split; intros (s & G1 & G2 & G3); exists s.
    - destruct (An s G2 G1) as [Hs _]. split_and!; try done. by rewrite <- Rk by (left; by apply desired_lookup).
    - rewrite Rk by (left; by apply desired_lookup). split_and!; auto. }
  assert (Hnew : forall n, requested m subnets n -> routed w' n iface \/ exists j, j <> iface /\ routed w n j).
  { intros n (s & G1 & G2 & G3)%Hq. destruct (Ah s n G1 G2 G3) as [j Hj].
    destruct (decide (j = iface)) as [->|Hji]; [by left|right]. exists j. split; [done|].
    by destruct (Ab _ _ Hj) as [[? _]%Rr|[? _]]. }
  split_and!; try done.
  - intros s. split; [|apply Hall]. intros Hs. destruct (a !! s) eqn:Eu; [|by apply An in Eu as [? _]].
    apply Ha. by rewrite Eu.
  - intros i. by rewrite (Af i).
  - intros i. by rewrite (Ana i).
  - intros n j Hr Hno. apply Am, Rr. by rewrite Hg.
  - intros n j [[? Hno]%Rr|[-> ?]]%Ab; [left; by rewrite <- Hg|right; by rewrite <- Hq].
  - intros [Htr _ _] H1s n (s & Hs & Hn). destruct (mg_activeRoutes m !! s) eqn:Es; [left|apply Hnew; by exists s].
    destruct (Htr s) as (n' & Hn' & Hr); [by rewrite Es|]. rewrite Hn in Hn'. injection Hn' as <-.
    apply Am, Rr. split; [done|]. rewrite Hg. intros (_ & t & Ht & Hts & Htn). apply Hts.
    replace t with s; [done|]. apply (H1s _ _ n); rewrite ?elem_of_app, ?elem_of_range_keys; auto.
Qed.

Lemma track_lookup l r s : is_Some (track l r !! s) <-> s ∈ l \/ is_Some (r !! s).
Proof.
  assert (track l r = build_map id (fun _ => ()) l ∪ r) as -> by apply foldl_insert_union.
  by rewrite lookup_union_is_Some, build_map_is_Some, list_fmap_id.
Qed.

Lemma names_track (l : list string) n : names l n <-> names (range_keys (track l ∅)) n.
Proof.
  split; intros (s & Hs & Hn); exists s; (split; [|done]).
  - apply elem_of_range_keys, track_lookup. by left.
  - by apply elem_of_range_keys, track_lookup in Hs as [?|[? Hx]].
Qed.


(** A successful setup installs the configuration. *)
Lemma Setup_ok mesh m w log m' w' :
  let iface := cf_AccessInterface (mg_cfg m) in
  ordinary mesh -> ordinary iface -> cf_Enabled (mg_cfg m) = true ->
  unclaimed iface (cf_AccessSubnets (mg_cfg m)) w ->
  Setup mesh m w = (Returns None, log, (m', w')) ->
  mg_cfg m' = mg_cfg m /\ mg_active m' = true /\ mg_meshIface m' = mesh /\
  mg_natConfigured m' = (natEnabled (mg_cfg m) || mg_natConfigured m) /\
  (forall s, is_Some (mg_activeRoutes m' !! s) <->
    s ∈ cf_AccessSubnets (mg_cfg m) \/ is_Some (mg_activeRoutes m !! s)) /\
  (forall s, s ∈ cf_AccessSubnets (mg_cfg m) -> is_Some (subnet_net s)) /\
  (forall n j, routed w' n j <-> routed w n j \/ j = iface /\ names (cf_AccessSubnets (mg_cfg m)) n) /\
  (forall i, forwards w' i <-> i = mesh \/ i = iface \/ forwards w i) /\
  (if natEnabled (mg_cfg m) then valid_iface iface -> masquerades w' iface else same_nat w w').
Proof.
  intros iface Hm Hi Hen Hu. unfold Setup. rewrite Hen. fold iface. cbn [negb].
  destruct (EnableForwarding mesh iface w) as [[?|] w1] eqn:E1; [done|].
  apply EnableForwarding_ok in E1 as (R1 & N1 & F1); [|done..].
  destruct (add_routes iface _ [] w1) as [[a|[e0 a]] w2] eqn:E2; [|by destruct (rollbackSetup _ _ _)].
  apply add_routes_spec in E2 as (new & [-> ->] & _ & F2 & N2 & Hmono & Hback & Hhave & Hsn).
  assert (R2 : forall n j, routed w2 n j <-> routed w n j \/ j = iface /\ names (cf_AccessSubnets (mg_cfg m)) n).
  { intros n j. split.
    - intros [Hx|?]%Hback; [left; by apply R1|by right].
    - intros [Hx|[-> Hn]]; [by apply Hmono, R1|]. apply Hhave; [|done].
      intros n' j' Hn' Hr'. apply (Hu n'); [done|]. by apply R1. }
  assert (F2' : forall i, forwards w2 i <-> i = mesh \/ i = iface \/ forwards w i).
  { intros i. by rewrite (F2 i), F1. }
  simpl. destruct (natEnabled (mg_cfg m)) eqn:En.
  - destruct (AddNATMasquerade iface w2) as [[[e0|]|] w3] eqn:E3; [|..|done].
    { by destruct (rollbackSetup _ _ _). }
    apply AddNATMasquerade_ok in E3 as (R3 & F3 & N3). intros [= _ <- <-].
    split_and!; try done; intros; simpl.
    + apply track_lookup.
    + by rewrite (R3 n j).
    + by rewrite (F3 i).
    + by apply N3.
  - intros [= _ <- <-]. split_and!; try done; intros; simpl.
    + apply track_lookup.
    + intros i. by rewrite (N2 i), (N1 i).
Qed.

(** *** Reachable states *)

(** The calls the agent makes: setup on a manager that is not set up, updates
    from the reconcile loop, teardown.  Networks are spelled in one way and are
    not routed over other interfaces. *)
Inductive step : Manager * W -> Manager * W -> Prop :=
| step_setup mesh m w e log st :
    mg_active m = false -> mg_activeRoutes m = ∅ -> mg_natConfigured m = false ->
    ordinary mesh -> ordinary (cf_AccessInterface (mg_cfg m)) ->
    unclaimed (cf_AccessInterface (mg_cfg m)) (cf_AccessSubnets (mg_cfg m)) w ->
    Setup mesh m w = (Returns e, log, st) -> step (m, w) st
| step_update subnets m w : one_spelling (range_keys (mg_activeRoutes m) ++ subnets) ->
    unclaimed (cf_AccessInterface (mg_cfg m)) subnets w ->
    step (m, w) (UpdateRoutes subnets m w).2
| step_teardown rw m w : step (m, w) (Teardown m w rw).2.1.

Definition reachable (cfg : Config) (st : Manager * W) : Prop :=
  exists w, rtc step (NewManager cfg, w) st.

Lemma Setup_err_state mesh m w e log m' w' :
  mg_activeRoutes m = ∅ -> Setup mesh m w = (Returns (Some e), log, (m', w')) ->
  mg_active m' = mg_active m /\ mg_activeRoutes m' = ∅ /\ mg_natConfigured m' = mg_natConfigured m.
Proof.
  intros Hact. unfold Setup. destruct (cf_Enabled (mg_cfg m)); [|done]. cbn [negb].
  destruct (EnableForwarding _ _ w) as [[?|] w1]; [by intros [= _ _ <- _]|].
  destruct (add_routes _ _ [] w1) as [[a|[e0 a]] w2].
  - destruct (natEnabled _); [|done]. destruct (AddNATMasquerade _ w2) as [[[?|]|] w3]; try done.
    destruct (rollbackSetup _ _ w3). by intros [= _ _ <- _].
  - destruct (rollbackSetup _ _ w2). by intros [= _ _ <- _].
Qed.

Lemma bridge_inv_idle m w :
  mg_active m = false -> mg_activeRoutes m = ∅ -> mg_natConfigured m = false -> bridge_inv m w.
Proof.
  intros Ha Hr Hn. split; [|congruence..]. intros s. rewrite Hr, lookup_empty. by intros [? ?].
Qed.

Lemma Setup_inv mesh m w e log m' w' :
  mg_active m = false -> mg_activeRoutes m = ∅ -> mg_natConfigured m = false ->
  ordinary mesh -> ordinary (cf_AccessInterface (mg_cfg m)) ->
  unclaimed (cf_AccessInterface (mg_cfg m)) (cf_AccessSubnets (mg_cfg m)) w ->
  Setup mesh m w = (Returns e, log, (m', w')) -> bridge_inv m' w'.
Proof.
  intros Ha Hr Hn Hm Hi Hu E. destruct e as [e|].
  { apply Setup_err_state in E as (? & ? & ?); [|done]. apply bridge_inv_idle; congruence. }
  destruct (cf_Enabled (mg_cfg m)) eqn:Hen.
  2:{ unfold Setup in E. rewrite Hen in E. injection E as <- <- <-. by apply bridge_inv_idle. }
  apply Setup_ok in E as (Ec & Ea & Em & En & Es & Hsn & R & F & N); [|done..].
  split; rewrite ?Ec, ?Em.
  - intros s [Hin|Hin]%Es; [|rewrite Hr, lookup_empty in Hin; by destruct Hin].
    destruct (Hsn s Hin) as [n Hx]. exists n. split; [done|]. apply R. right. split; [done|]. by exists s.
  - intros _. rewrite !F. tauto.
  - rewrite En, Hn, orb_false_r. intros Hnat Hv. rewrite Hnat in N. by apply N.
Qed.

Lemma UpdateRoutes_inv subnets m w :
  one_spelling (range_keys (mg_activeRoutes m) ++ subnets) ->
  unclaimed (cf_AccessInterface (mg_cfg m)) subnets w ->
  bridge_inv m w -> bridge_inv (UpdateRoutes subnets m w).2.1 (UpdateRoutes subnets m w).2.2.
Proof.
  intros H1s Hu [Htr Hfw Hnat]. destruct (UpdateRoutes subnets m w) as [e [m' w']] eqn:E. simpl.
  apply UpdateRoutes_loops in E as ([[er a] v] & [Rk Rs Rf Rn Rr _] & errs & Had & _ & ->).
  pose proof Had as [As An Af Ana _ _ _ _]. pose proof (added_routes _ _ _ _ Had) as Ar.
  simpl in *. set (act := mg_activeRoutes m') in *. clearbody act.
  remember (cf_AccessInterface (mg_cfg m)) as iface eqn:Eif in *.
  assert (Hv : unclaimed iface subnets v). { intros n j Hn [Hr _]%Rr. by apply (Hu n). }
  specialize (Ar Hv). split; simpl; rewrite <- ?Eif.
  - intros s Hs. destruct (a !! s) as [u|] eqn:Eu.
    + assert (is_Some (mg_activeRoutes m !! s)) as Hms by (eexists; by eapply lookup_weaken).
      destruct (Htr s Hms) as (n & Hn & Hr). exists n. split; [done|]. apply Ar. left. apply Rr.
      split; [exact Hr|]. intros (_ & t & Ht & Htn & Hn'). assert (t = s) as ->; [|congruence].
      apply (H1s _ _ n); rewrite ?elem_of_app, ?elem_of_range_keys; auto.
    + destruct (An s Hs Eu) as [_ [n Hn]]. exists n. split; [done|]. apply Ar. right. eauto 6.
  - intros Ha. destruct (Hfw Ha). by split; apply Af, Rf.
  - intros Ha Hvi. by apply Ana, Rn, Hnat.
Qed.

(** In every state that the calls of [step] can reach, whatever fails on the way:
    each tracked subnet has its route over the access interface, an active
    bridge forwards on both interfaces, and a configured masquerade is in
    place. *)
Theorem reachable_bridge_inv cfg m w : reachable cfg (m, w) -> bridge_inv m w.
Proof.
  intros [w0 Hr]. remember (NewManager cfg, w0) as st0 eqn:E0.
  assert (H0i : bridge_inv st0.1 st0.2) by (subst st0; by apply bridge_inv_idle). clear E0.
  change (bridge_inv (m, w).1 (m, w).2). induction Hr as [st|st st' st'' Hs _ IH]; [done|].
  apply IH. clear IH. destruct Hs as [mesh m0 v e log [m' w'] Ha Hrt Hn Hm Hi Hu E|subnets m0 v|rw m0 v].
  - exact (Setup_inv _ _ _ _ _ _ _ Ha Hrt Hn Hm Hi Hu E).
  - by apply UpdateRoutes_inv.
  - unfold Teardown. destruct (mg_active m0) eqn:Ea; [|done]. cbn [negb].
    repeat case_match; simplify_eq/=; by apply bridge_inv_idle.
Qed.

Lemma collect_nil errs (r : option string * W) w' :
  collect errs r = ([], w') -> errs = [] /\ r = (None, w').
Proof. destruct r as [[e|] v]; simpl; intros [= E <-]; [by destruct errs|by subst]. Qed.

(** An error-free teardown of an active bridge removes what it tracks. *)
Lemma Teardown_ok m w rw m' w' rw' :
  let iface := cf_AccessInterface (mg_cfg m) in
  mg_active m = true -> ordinary (mg_meshIface m) -> ordinary iface ->
  Teardown m w rw = (None, (m', w', rw')) ->
  mg_active m' = false /\ mg_activeRoutes m' = ∅ /\ mg_natConfigured m' = false /\
  (forall n j, routed w' n j <-> routed w n j /\
    ~ (j = iface /\ names (range_keys (mg_activeRoutes m)) n)) /\
  (forall i, forwards w' i <-> i <> mg_meshIface m /\ i <> iface /\ forwards w i) /\
  (if mg_natConfigured m then forall o, ~ masquerades w' o else same_nat w w').
Proof.
  intros iface Ha Hm Hi. unfold Teardown. rewrite Ha. fold iface. cbn [negb].
  destruct (foldl (remove_all iface) ([], w) _) as [errs1 w1] eqn:E1.
  destruct (if mg_natConfigured m then _ else _) as [errs2 w2] eqn:E2.
  destruct (collect errs2 _) as [errs3 w3] eqn:E3. destruct (StopRelay m rw) as [m2 rw2].
  intros [= He <- <- <-]. apply errors_Join_None in He as ->.
  apply collect_nil in E3 as [-> E3]. apply DisableForwarding_ok in E3 as (R3 & N3 & F3); [|done..].
  apply remove_all_spec in E1 as (F1 & N1 & R1 & K1 & A1).
  assert (errs1 = [] /\ same_routes w1 w2 /\ same_forwarding w1 w2 /\
    if mg_natConfigured m then forall o, ~ masquerades w2 o else same_nat w1 w2) as (-> & R2 & F2 & N2).
  { destruct (mg_natConfigured m); [|injection E2 as -> ->; by split_and!].
    apply collect_nil in E2 as [-> E2]. by apply RemoveNATMasquerade_ok in E2 as (? & ? & ?). }
  destruct (A1 eq_refl) as [_ A1']. split_and!; try done.
  - intros n j. rewrite (R3 n j), (R2 n j). split; [intros Hx|intros [Hx Hno]; by apply K1].
    split; [by apply R1|]. intros [-> Hn]. by apply (A1' n).
  - intros i. by rewrite F3, (F2 i), (F1 i).
  - destruct (mg_natConfigured m); intros i.
    + rewrite (N3 i). apply N2.
    + by rewrite (N3 i), (N2 i), (N1 i).
Qed.

(** Teardown undoes setup: when both return without error, the networks
    were not routed before and the two interfaces did not forward, then the
    routing table and the forwarding flags are those from before the setup and
    the manager is idle again. *)
Theorem Setup_Teardown_roundtrip mesh m w log m1 w1 rw m2 w2 rw2 :
  let iface := cf_AccessInterface (mg_cfg m) in
  mg_activeRoutes m = ∅ -> ordinary mesh -> ordinary iface -> cf_Enabled (mg_cfg m) = true ->
  (forall n j, names (cf_AccessSubnets (mg_cfg m)) n -> ~ routed w n j) ->
  ~ forwards w mesh -> ~ forwards w iface ->
  Setup mesh m w = (Returns None, log, (m1, w1)) ->
  Teardown m1 w1 rw = (None, (m2, w2, rw2)) ->
  same_routes w w2 /\ same_forwarding w w2 /\
  mg_active m2 = false /\ mg_activeRoutes m2 = ∅ /\ mg_natConfigured m2 = false.
Proof.
  intros iface Hact Hm Hi Hen Hnone Hfm Hfi E1 E2.
  apply Setup_ok in E1 as (Ec & Ea & Em & _ & Es & _ & R1 & F1 & _); [|done..|].
  2:{ intros n j Hn Hr. by destruct (Hnone n j). }
  apply Teardown_ok in E2 as (? & ? & ? & R2 & F2 & _); rewrite ?Ec, ?Em in *; [|done..].
  fold iface in R2, F2.
  assert (Hn : forall n, names (range_keys (mg_activeRoutes m1)) n <-> names (cf_AccessSubnets (mg_cfg m)) n).
  { intros n. split; intros (s & Hs & Hx); exists s; (split; [|done]).
    - apply elem_of_range_keys, Es in Hs as [?|Hs]; [done|]. rewrite Hact, lookup_empty in Hs. by destruct Hs.
    - apply elem_of_range_keys, Es. by left. }
  split_and!; try done.
  - intros n j. rewrite R2, Hn, R1. split; [tauto|]. intros Hr. split; [by left|].
    intros [-> Hx]. by apply (Hnone n iface).
  - intros i. rewrite F2, F1. split; [tauto|]. intros Hf. split_and!; [by intros ->..|tauto].
Qed.
End theorems.

(** ** At concrete inputs *)

Definition ex_cfg : Config :=
  mkConfig true "eth1" ["10.9.0.0/16"; "192.168.7.0/24"] None false 0 0 0 false "" 0 0 false 0 0 false "" 0 0.
Definition ex_mgr : Manager := NewManager ex_cfg.
Definition ex_up : Manager * sim_router := (Setup (H0 := id_order) "plexd0" ex_mgr ex_router).2.
Definition ex_upd : Manager * sim_router :=
  (UpdateRoutes (H0 := id_order) ["10.9.0.0/16"; "172.20.0.0/14"] ex_up.1 ex_up.2).2.

Lemma one_spelling_check l :
  Forall (fun s => Forall (fun t => subnet_net s = subnet_net t -> s = t \/ subnet_net s = None) l) l ->
  one_spelling l.
Proof.
  intros Hl s t n Hs Ht En Em. rewrite Forall_forall in Hl. specialize (Hl _ Hs).
  rewrite Forall_forall in Hl. destruct (Hl t Ht); congruence.
Qed.

Lemma ex_reachable : reachable (HO := id_order) ex_cfg ex_upd.
Proof.
  exists ex_router. eapply rtc_l.
  - eapply (step_setup "plexd0" ex_mgr ex_router None [] ex_up); try done.
    apply unclaimed_sim; by_compute.
  - apply rtc_once. apply (step_update _ ex_up.1 ex_up.2);
      [apply one_spelling_check; by_compute|apply unclaimed_sim; by_compute].
Qed.

Lemma reachable_bridge_inv_witness :
  bridge_inv ex_upd.1 ex_upd.2 /\ size (mg_activeRoutes ex_upd.1) = 2%nat /\
  sim_fib ex_upd.2 = [(([172; 20; 0; 0], 14%nat), "eth1"); (([10; 9; 0; 0], 16%nat), "eth1")].
Proof.
  split; [exact (reachable_bridge_inv ex_cfg ex_upd.1 ex_upd.2 ex_reachable)|].
  split; vm_compute; reflexivity.
Defined.

Lemma UpdateRoutes_exact_witness :
  (forall s, is_Some (mg_activeRoutes ex_upd.1 !! s) <-> s ∈ ["10.9.0.0/16"; "172.20.0.0/14"]) /\
  routed ex_up.2 ([192; 168; 7; 0], 24%nat) "eth1" /\ ~ routed ex_upd.2 ([192; 168; 7; 0], 24%nat) "eth1" /\
  forall n, names ["10.9.0.0/16"; "172.20.0.0/14"] n -> routed ex_upd.2 n "eth1" \/ exists j, j <> "eth1" /\ routed ex_up.2 n j.
Proof.
  assert (E : UpdateRoutes (H0 := id_order) ["10.9.0.0/16"; "172.20.0.0/14"] ex_up.1 ex_up.2 =
    (None, (ex_upd.1, ex_upd.2))) by (vm_compute; reflexivity).
  destruct (UpdateRoutes_exact (HO := id_order) ["10.9.0.0/16"; "172.20.0.0/14"] ex_up.1 ex_up.2
    ex_upd.1 ex_upd.2 E) as (H1 & _ & _ & _ & _ & _ & H2).
  split; [exact H1|]. rewrite !sim_routed. split; [by_compute|]. split; [by_compute|]. apply H2.
  - refine (Setup_inv (HO := id_order) "plexd0" ex_mgr ex_router None [] ex_up.1 ex_up.2 eq_refl eq_refl eq_refl _ _ _ _).
    + by split.
    + by split.
    + apply unclaimed_sim; by_compute.
    + vm_compute; reflexivity.
  - apply one_spelling_check; by_compute.
Defined.

(** The second subnet does not parse: the first route is taken back. *)
Definition ex_bad_cfg : Config :=
  mkConfig true "eth1" ["10.9.0.0/16"; "10.9.0.0"] None false 0 0 0 false "" 0 0 false 0 0 false "" 0 0.

Definition ex_bad : outcome (option string) * list rollback_failure * (Manager * sim_router) :=
  Setup (H0 := id_order) "plexd0" (NewManager ex_bad_cfg) ex_router.


Definition ex_down : option (list string) * (Manager * sim_router * Relay.World) :=
  Teardown (H0 := id_order) ex_up.1 ex_up.2 (Relay.mkWorld [] [] ∅ [] 0).

Lemma Setup_Teardown_roundtrip_witness :
  same_routes ex_router ex_down.2.1.2 /\ mg_active ex_up.1 = true /\ mg_active ex_down.2.1.1 = false.
Proof.
  refine ((fun T => conj (proj1 T) (conj eq_refl (proj1 (proj2 (proj2 T)))))
    (Setup_Teardown_roundtrip (HO := id_order) "plexd0" ex_mgr ex_router [] ex_up.1 ex_up.2
      (Relay.mkWorld [] [] ∅ [] 0) ex_down.2.1.1 ex_down.2.1.2 ex_down.2.2
      eq_refl _ _ eq_refl _ _ _ _ _)).
  - by split.
  - by split.
  - intros n j _ [_ Hr]%sim_routed. revert Hr. apply not_elem_of_nil.
  - cbn. apply not_elem_of_empty.
  - cbn. apply not_elem_of_empty.
  - vm_compute; reflexivity.
  - vm_compute; reflexivity.
Defined.

(** ** What the manager does not do *)

(** A switch-on that fails at the second interface is not undone: setup
    reports the error and leaves the mesh interface forwarding. *)
Lemma Setup_leaves_forwarding :
  let k := mkLinux ["plexd0"] [] ∅ None false in
  let r := Setup (H0 := id_order) "plexd0" ex_mgr k in
  r.1.1 = Returns (Some "bridge: setup: enable forwarding: bridge: enable forwarding: sysctl no such file or directory") /\
  mg_active r.2.1 = false /\ ~ forwards k "plexd0" /\ forwards r.2.2 "plexd0".
Proof. cbn [forwards kernel_route_view rk_conf lx_route_kernel]. split_and!; [vm_compute; reflexivity..|by_compute|by_compute]. Qed.

(** An update is not guarded by [active]: on a disabled bridge it installs
    routes, and teardown, which is guarded, never removes them. *)
Lemma disabled_bridge_installs_routes :
  let m := NewManager (mkConfig false "eth1" [] None false 0 0 0 false "" 0 0 false 0 0 false "" 0 0) in
  let u := UpdateRoutes (H0 := id_order) ["10.9.0.0/16"] m ex_router in
  let d := Teardown (H0 := id_order) u.2.1 u.2.2 (Relay.mkWorld [] [] ∅ [] 0) in
  u.1 = None /\ d.1 = None /\ routed d.2.1.2 ([10; 9; 0; 0], 16%nat) "eth1".
Proof. cbv zeta. rewrite sim_routed. split_and!; [vm_compute; reflexivity..|by_compute|by_compute]. Qed.

(** Two spellings of one network: when one is withdrawn, the route of the
    other, still tracked, is removed. *)
Lemma respelled_subnet_loses_route :
  let m := NewManager (mkConfig true "eth1" ["10.9.0.0/16"; "10.9.1.1/16"] None false 0 0 0 false "" 0 0
                        false 0 0 false "" 0 0) in
  let st := (Setup (H0 := id_order) "plexd0" m ex_router).2 in
  let u := UpdateRoutes (H0 := id_order) ["10.9.0.0/16"] st.1 st.2 in
  u.1 = None /\ is_Some (mg_activeRoutes u.2.1 !! "10.9.0.0/16") /\ sim_fib u.2.2 = [].
Proof. cbv zeta. split_and!; [vm_compute; reflexivity|vm_compute; by eexists|vm_compute; reflexivity]. Qed.
