(* ===== verification/DiffRestart.v ===== *)
(** * Reconciling a keyed collection
    (src/internal/bridge/ingress_handler.go, site_to_site_handler.go)

    The ingress and the site-to-site reconcile handlers are one algorithm over
    two managers: remove what is not desired, remove what is desired with
    another configuration so that it is added again, add what is missing.
    [Reconcilable] is what the handler uses of a manager, [ReconcilableLaws]
    what the manager promises; the theorems are proved once against them and
    the managers of Ingress.v and SiteToSite.v are instances.

    Removing can block (it waits for a goroutine): it gives [None] then, and so
    does the handler. *)

From stdpp Require Import base strings list gmap.
From S2P Require Import Prelude.

Class Reconcilable (S I : Type) := {
  rc_key : I -> string;
  rc_tracked : S -> gmap string I;
  (** what identifies the running object of an entry *)
  rc_handle : S -> string -> option nat;
  rc_add : I -> S -> option string * S;
  rc_remove : string -> S -> option S;
  rc_inv : S -> Prop
}.

Class ReconcilableLaws (S I : Type) `{Reconcilable S I} := {
  add_ok : forall i s s', rc_inv s -> rc_add i s = (None, s') ->
    rc_inv s' /\ rc_tracked s !! rc_key i = None /\
    rc_tracked s' = <[rc_key i := i]> (rc_tracked s) /\
    forall k, k <> rc_key i -> rc_handle s' k = rc_handle s k;
  add_err : forall i s e s', rc_inv s -> rc_add i s = (Some e, s') ->
    rc_inv s' /\ rc_tracked s' = rc_tracked s /\ forall k, rc_handle s' k = rc_handle s k;
  remove_ok : forall k s s', rc_inv s -> rc_remove k s = Some s' ->
    rc_inv s' /\ rc_tracked s' = delete k (rc_tracked s) /\
    forall j, j <> k -> rc_handle s' j = rc_handle s j
}.

Section handler.
Context {S I : Type} `{Reconcilable S I} `{EqDecision I} {HO : MapOrder}.
Implicit Types (s : S).

(** One round of the first loop: [cur] is [currentSet]. *)
Definition drop_stale (desired : gmap string I) (acc : option (gset string * S)) (id : string)
    : option (gset string * S) :=
  '(cur, s) ← acc;
  match desired !! id with
  | None => s' ← rc_remove id s; Some (cur, s')
  | Some d =>
      match rc_tracked s !! id with
      | Some c =>
          if decide (c <> d) then s' ← rc_remove id s; Some (cur ∖ {[ id ]}, s')
          else Some (cur, s)
      | None => Some (cur, s)
      end
  end.

(** One round of the second loop: errors are collected. *)
Definition add_missing (cur : gset string) (acc : list string * S) (i : I) : list string * S :=
  if decide (rc_key i ∈ cur) then acc
  else match rc_add i acc.2 with
       | (Some e, s) => (acc.1 ++ [e], s)
       | (None, s) => (acc.1, s)
       end.

Definition reconcile_items (items : list I) s : option (option (list string) * S) :=
  let desiredSet := build_map rc_key id items in
  let currentIDs := range_keys (rc_tracked s) in
  '(cur, s1) ← foldl (drop_stale desiredSet) (Some (list_to_set currentIDs, s)) currentIDs;
  let '(errs, s2) := foldl (add_missing cur) ([], s1) items in
  Some (match errs with [] => None | _ => Some errs end, s2).
End handler.

(** ** Lemmas *)

Section theorems.
Context {S I : Type} `{ReconcilableLaws S I} `{EqDecision I} {HO : MapOrder}.
Implicit Types (s : S).

(** After the rounds for [l]: an entry of [l] is left only if it is desired as
    it is, and [cur] then still lists it; the others are untouched. *)
Record dropped (desired : gmap string I) (l : list string) (cur0 : gset string) s
    (cur : gset string) (s' : S) : Prop := mkDropped {
  dr_inv : rc_inv s';
  dr_tracked : forall id, rc_tracked s' !! id =
    if decide (id ∈ l /\ rc_tracked s !! id <> desired !! id) then None else rc_tracked s !! id;
  dr_cur : forall id, id ∈ cur <-> id ∈ cur0 /\
    ~ (id ∈ l /\ is_Some (desired !! id) /\ is_Some (rc_tracked s !! id) /\ rc_tracked s !! id <> desired !! id);
  dr_handle : forall id, rc_tracked s' !! id = rc_tracked s !! id -> is_Some (rc_tracked s !! id) ->
    rc_handle s' id = rc_handle s id
}.

Lemma drop_stale_None desired l : foldl (drop_stale desired) None l = None.
Proof. induction l; [done|exact IHl]. Qed.

Lemma elem_of_snoc {A} (x t : A) l : x ∈ l ++ [t] <-> x ∈ l \/ x = t.
Proof. rewrite elem_of_app, list_elem_of_singleton. done. Qed.

(** A round that removes [t]. *)
Lemma dropped_remove desired l cur0 s cur s1 t s' cur' :
  t ∉ l -> dropped desired l cur0 s cur s1 -> rc_tracked s !! t <> desired !! t \/ rc_tracked s !! t = None ->
  rc_remove t s1 = Some s' ->
  (forall id, id ∈ cur' <-> id ∈ cur /\ ~ (id = t /\ is_Some (desired !! t))) ->
  (is_Some (desired !! t) -> is_Some (rc_tracked s !! t)) ->
  dropped desired (l ++ [t]) cur0 s cur' s'.
Proof.
  intros Ht [Hi Htr Hc Hh] Hne E Hcur Hdt. apply remove_ok in E as (Hi' & Ht' & Hh'); [|done]. split.
  - done.
  - intros id. rewrite Ht', lookup_delete. destruct (decide (t = id)) as [->|Hid].
    + destruct Hne as [Hne|Hne]; [rewrite decide_True by (split; [set_solver|done]); done|].
      rewrite Hne. by case_decide.
    + rewrite Htr. apply decide_ext. rewrite elem_of_snoc. intuition congruence.
  - intros id. rewrite Hcur, Hc, elem_of_snoc. destruct (decide (id = t)) as [->|Hid].
    + split; [intros [[? ?] ?]; split; [done|]; intros (_ & ? & _); tauto|].
      intros [? Hn]. split; [split; [done|tauto]|]. intros [_ Hd]. apply Hn.
      split_and!; [by right|done|auto|]. destruct Hne as [?|Hx]; [done|]. destruct (Hdt Hd); congruence.
    + intuition congruence.
  - intros id Heq Hs. destruct (decide (id = t)) as [->|Hne'].
    + rewrite Ht', lookup_delete_eq in Heq. rewrite <- Heq in Hs. by destruct Hs.
    + rewrite Ht', lookup_delete_ne in Heq by done. rewrite Hh' by done. by apply Hh.
Qed.

(** A round that keeps [t]. *)
Lemma dropped_keep desired l cur0 s cur s1 t :
  t ∉ l -> dropped desired l cur0 s cur s1 -> rc_tracked s !! t = desired !! t \/ rc_tracked s !! t = None ->
  dropped desired (l ++ [t]) cur0 s cur s1.
Proof.
  intros Ht [Hi Htr Hc Hh] Hk. split; [done| | |done].
  - intros id. rewrite Htr. destruct (decide (id = t)) as [->|Hid].
    + rewrite decide_False by tauto. case_decide as Hd; [|done]. destruct Hd, Hk; done.
    + apply decide_ext. rewrite elem_of_snoc. intuition congruence.
  - intros id. rewrite Hc, elem_of_snoc. split; [|tauto]. intros [? Hn]. split; [done|].
    intros ([?| ->] & Hd & Hs & Hne); [tauto|]. destruct Hk as [?|Hk]; [done|].
    rewrite Hk in Hs. by destruct Hs.
Qed.

Lemma dropped_loop desired l cur0 s cur s' :
  rc_inv s -> NoDup l -> foldl (drop_stale desired) (Some (cur0, s)) l = Some (cur, s') ->
  dropped desired l cur0 s cur s'.
Proof.
  intros Hinv. revert cur s'. induction l as [|t l IH] using rev_ind; intros cur s' Hnd E.
  { injection E as <- <-. split; [done|..]; intros; repeat case_decide; set_solver. }
  apply NoDup_app in Hnd as (Hnd & Hdis & _). assert (Ht : t ∉ l) by set_solver.
  rewrite foldl_app in E. simpl in E.
  destruct (foldl _ _ l) as [[c1 s1]|] eqn:E1; [|done]. specialize (IH _ _ Hnd eq_refl).
  assert (Hst : rc_tracked s1 !! t = rc_tracked s !! t).
  { destruct IH as [_ Htr _ _]. by rewrite Htr, decide_False by tauto. }
  unfold drop_stale in E. simpl in E. rewrite Hst in E. destruct (desired !! t) as [d|] eqn:Ed.
  - destruct (rc_tracked s !! t) as [c|] eqn:Ec.
    + case_decide as Hcd.
      * destruct (rc_remove t s1) as [s2|] eqn:E2; [|done]. injection E as <- <-.
        eapply dropped_remove; [exact Ht|exact IH| |exact E2| |]; rewrite ?Ed, ?Ec.
        -- left. congruence.
        -- intros id. rewrite elem_of_difference, elem_of_singleton. intuition eauto.
        -- done.
      * injection E as <- <-. apply dropped_keep; [done|done|]. left. congruence.
    + injection E as <- <-. apply dropped_keep; auto.
  - destruct (rc_remove t s1) as [s2|] eqn:E2; [|done]. injection E as <- <-.
    eapply dropped_remove; [exact Ht|exact IH| |exact E2| |]; rewrite ?Ed.
    + destruct (rc_tracked s !! t); [by left|by right].
    + intros id. split; [|tauto]. intros ?. split; [done|]. intros [_ [? ?]]. done.
    + by intros [? ?].
Qed.

(** After the rounds of the second loop for [items]. *)
Record filled (cur : gset string) (items : list I) s (acc : list string * S) : Prop := mkFilled {
  fl_inv : rc_inv acc.2;
  fl_kept : forall id, is_Some (rc_tracked s !! id) ->
    rc_tracked acc.2 !! id = rc_tracked s !! id /\ rc_handle acc.2 id = rc_handle s id;
  fl_new : forall id i, rc_tracked s !! id = None -> rc_tracked acc.2 !! id = Some i ->
    i ∈ items /\ rc_key i = id;
  fl_all : acc.1 = [] -> forall i, i ∈ items -> rc_key i ∉ cur -> is_Some (rc_tracked acc.2 !! rc_key i)
}.

Lemma filled_loop cur items s :
  rc_inv s -> filled cur items s (foldl (add_missing cur) ([], s) items).
Proof.
  intros Hinv. induction items as [|t items IH] using rev_ind.
  { split; simpl; try done; [|set_solver]. intros id i Hn. congruence. }
  rewrite foldl_app. simpl. destruct (foldl _ _ items) as [errs s1]. unfold add_missing. simpl.
  destruct IH as [Hi Hk Hn Ha]. simpl in *. case_decide as Hc.
  { split; simpl; [done|done| |].
    - intros id i E1 E2. destruct (Hn _ _ E1 E2). set_solver.
    - intros He i [Hin| ->]%elem_of_snoc; [by apply Ha|done]. }
  destruct (rc_add t s1) as [[e|] s2] eqn:E.
  - apply add_err in E as (Hi2 & Ht2 & Hh2); [|done]. split; simpl; rewrite ?Ht2; [done| | |].
    + intros id Hs. rewrite Hh2. by apply Hk.
    + intros id i E1 E2. destruct (Hn _ _ E1 E2). set_solver.
    + by destruct errs.
  - apply add_ok in E as (Hi2 & Hfresh & Ht2 & Hh2); [|done]. split; simpl; rewrite ?Ht2; [done| | |].
    + intros id Hs. destruct (Hk id Hs) as [Hk1 Hk2].
      assert (id <> rc_key t). { intros ->. rewrite <- Hk1, Hfresh in Hs. by destruct Hs. }
      by rewrite lookup_insert_ne, Hh2 by done.
    + intros id i E1. rewrite lookup_insert. case_decide as Hid.
      * intros [= <-]. split; [set_solver|done].
      * intros E2. destruct (Hn _ _ E1 E2). set_solver.
    + intros He i Hin Hci. rewrite lookup_insert_is_Some'. apply elem_of_snoc in Hin as [Hin| ->]; auto.
Qed.

(** The two loops of a run. *)
Lemma reconcile_items_loops items s e s' :
  rc_inv s -> reconcile_items items s = Some (e, s') ->
  exists cur s1 errs, dropped (build_map rc_key id items) (range_keys (rc_tracked s))
      (list_to_set (range_keys (rc_tracked s))) s cur s1 /\
    filled cur items s1 (errs, s') /\ (e = None -> errs = []).
Proof.
  intros Hinv. unfold reconcile_items.
  destruct (foldl (drop_stale _) _ _) as [[cur s1]|] eqn:E1; [|done]. cbn [mbind option_bind].
  apply dropped_loop in E1; [|done|apply NoDup_range_keys].
  pose proof (filled_loop cur items s1 (dr_inv _ _ _ _ _ _ E1)) as Hf.
  destruct (foldl (add_missing cur) _ items) as [errs s2]. intros [= <- <-].
  exists cur, s1, errs. split_and!; [done|done|]. by destruct errs.
Qed.

(** What the first loop leaves: the entries that are as desired. *)
Lemma dropped_tracked items s cur s1 id :
  dropped (build_map rc_key (fun i => i) items) (range_keys (rc_tracked s))
    (list_to_set (range_keys (rc_tracked s))) s cur s1 ->
  rc_tracked s1 !! id =
    if decide (rc_tracked s !! id = build_map rc_key (fun i => i) items !! id)
    then rc_tracked s !! id else None.
Proof.
  intros [_ Htr _ _]. rewrite Htr. destruct (rc_tracked s !! id) as [c|] eqn:Ec.
  - assert (id ∈ range_keys (rc_tracked s)) by (apply elem_of_range_keys; eauto).
    repeat case_decide; tauto.
  - by repeat case_decide.
Qed.

Context (items : list I) (Hnd : NoDup (rc_key <$> items)).

(** Whatever fails, no entry survives that is not desired as it is. *)
Theorem reconcile_items_sound s e s' :
  rc_inv s -> reconcile_items items s = Some (e, s') ->
  rc_inv s' /\
  (forall id i, rc_tracked s' !! id = Some i -> build_map rc_key (fun i => i) items !! id = Some i) /\
  (forall id, is_Some (rc_tracked s !! id) ->
    rc_tracked s !! id = build_map rc_key (fun i => i) items !! id ->
    rc_tracked s' !! id = rc_tracked s !! id /\ rc_handle s' id = rc_handle s id).
Proof.
  intros Hinv E. apply reconcile_items_loops in E as (cur & s1 & errs & Hd & [Hi Hk Hn _] & _); [|done].
  pose proof (fun id => dropped_tracked items s cur s1 id Hd) as Ht. split; [done|]. split.
  - intros id i Hi'. destruct (rc_tracked s1 !! id) as [c|] eqn:Ec.
    + destruct (Hk id) as [Hk1 _]; [eauto|]. pose proof Ec as Ec'. rewrite Ht in Ec'.
      case_decide as Heq; [|done]. simpl in *. congruence.
    + destruct (Hn id i Ec Hi') as [Hin <-]. by apply build_map_NoDup.
  - intros id Hs Heq. assert (E1 : rc_tracked s1 !! id = rc_tracked s !! id).
    { rewrite Ht. by rewrite decide_True. }
    destruct (Hk id) as [Hk1 Hk2]; [by rewrite E1|]. simpl in *. rewrite Hk1, Hk2. split; [done|].
    by apply (dr_handle _ _ _ _ _ _ Hd).
Qed.

(** Without an error the entries are exactly the desired ones. *)
Theorem reconcile_items_exact s s' :
  rc_inv s -> reconcile_items items s = Some (None, s') ->
  rc_tracked s' = build_map rc_key (fun i => i) items.
Proof.
  intros Hinv E. pose proof (reconcile_items_sound _ _ _ Hinv E) as (_ & Hsound & _).
  apply reconcile_items_loops in E as (cur & s1 & errs & Hd & [Hi Hk Hn Ha] & He); [|done].
  rewrite He in * by done. apply map_eq. intros id.
  destruct (rc_tracked s' !! id) as [i|] eqn:Ei; [symmetry; by apply Hsound|].
  destruct (build_map rc_key _ items !! id) as [i|] eqn:Eb; [exfalso|done].
  pose proof Eb as (j & Hin & Hkj & ->)%build_map_Some_inv.
  pose proof (dropped_tracked items s cur s1 id Hd) as Ht.
  destruct (decide (id ∈ cur)) as [Hc|Hc].
  - apply (dr_cur _ _ _ _ _ _ Hd) in Hc as [Hc Hno].
    rewrite elem_of_list_to_set, elem_of_range_keys in Hc. rewrite decide_True in Ht.
    + rewrite <- Ht in Hc. destruct (Hk id Hc) as [Hk1 _]. simpl in Hk1. rewrite <- Hk1, Ei in Hc. by destruct Hc.
    + destruct (decide (rc_tracked s !! id = build_map rc_key (fun i => i) items !! id)) as [|Hne]; [done|].
      exfalso. apply Hno. rewrite elem_of_range_keys. split_and!; [done|by eexists|done|exact Hne].
  - destruct (Ha eq_refl i Hin) as [x Hx]; [by rewrite Hkj|]. simpl in *. congruence.
Qed.
End theorems.
