(* ===== verification/SiteToSite.v ===== *)
(** * Site-to-site tunnels
    (src/internal/bridge/site_to_site.go, site_to_site_handler.go, vpn_controller.go)

    The manager creates a WireGuard interface per tunnel, configures the
    remote peer, enables forwarding and adds the routes of the remote subnets,
    undoing the steps done when one fails.  [VPNController] is the interface
    of the operating system operations.  The theorems: a tracked tunnel stays
    fully installed whatever operations fail, as long as no call works on its
    interface, the number of tunnels is bounded, the reconcile handler applies
    the desired tunnels. *)

From stdpp Require Import base strings list gmap relations pretty.
From S2P Require Import Prelude Base64 Net Types Diff Reconcile Policy Nftables BridgeCfg Routes DiffRestart.

(** ** The controller *)

Class VPNController (W : Type) := {
  CreateTunnelInterface : string -> Z -> W -> option string * W;
  RemoveTunnelInterface : string -> W -> option string * W;
  ConfigureTunnelPeer : string -> string -> list string -> string -> string -> W -> option string * W;
  RemoveTunnelPeer : string -> string -> W -> option string * W
}.

Class VPNView (W : Type) := {
  tunnel_up : W -> string -> Prop;
  tunnel_peer : W -> string -> string -> Prop
}.

Section view.
Context {W : Type} `{RouteView W, VPNView W}.

Definition same_vpn (w w' : W) : Prop :=
  (forall i, tunnel_up w' i <-> tunnel_up w i) /\ forall i p, tunnel_peer w' i p <-> tunnel_peer w i p.

(** Only what belongs to interface [i] may differ. *)
Definition same_beside (i : string) (w w' : W) : Prop :=
  forall j, j <> i -> (tunnel_up w' j <-> tunnel_up w j) /\
    (forall p, tunnel_peer w' j p <-> tunnel_peer w j p) /\ forall n, routed w' n j <-> routed w n j.
End view.

(** An operation on an interface touches that interface only; the route
    controller leaves interfaces and peers alone. *)
Class VPNLaws (W : Type) `{RouteController W, RouteView W, VPNController W, VPNView W} := {
  Create_frame : forall i p w e w', CreateTunnelInterface i p w = (e, w') ->
    same_beside i w w' /\ same_routes w w';
  Create_ok : forall i p w w', CreateTunnelInterface i p w = (None, w') -> tunnel_up w' i;
  RemoveInterface_frame : forall i w e w', RemoveTunnelInterface i w = (e, w') -> same_beside i w w';
  RemoveInterface_ok : forall i w w', RemoveTunnelInterface i w = (None, w') -> ~ tunnel_up w' i;
  RemoveInterface_forwarding : forall i w e w', RemoveTunnelInterface i w = (e, w') ->
    forall j, j <> i -> forwards w' j <-> forwards w j;
  Configure_frame : forall i pk ips ep psk w e w', ConfigureTunnelPeer i pk ips ep psk w = (e, w') ->
    same_beside i w w' /\ same_routes w w' /\ (tunnel_up w' i <-> tunnel_up w i);
  Configure_ok : forall i pk ips ep psk w w', ConfigureTunnelPeer i pk ips ep psk w = (None, w') ->
    tunnel_peer w' i pk;
  RemovePeer_frame : forall i pk w e w', RemoveTunnelPeer i pk w = (e, w') ->
    same_beside i w w' /\ same_forwarding w w';
  EnableForwarding_vpn : forall a b w e w', EnableForwarding a b w = (e, w') -> same_vpn w w';
  DisableForwarding_vpn : forall a b w e w', DisableForwarding a b w = (e, w') -> same_vpn w w';
  AddRoute_vpn : forall s i w e w', AddRoute s i w = (e, w') -> same_vpn w w';
  RemoveRoute_vpn : forall s i w e w', RemoveRoute s i w = (e, w') -> same_vpn w w'
}.

(** ** The manager *)

Record activeTunnel := mkActiveTunnel { at_tunnel : SiteToSiteTunnel; at_iface : string }.

Record SiteToSiteManager := mkS2S {
  s2_cfg : Config;
  s2_active : bool;
  s2_meshIface : string;
  s2_activeTunnels : gmap string activeTunnel
}.

Definition NewSiteToSiteManager (cfg : Config) : SiteToSiteManager := mkS2S cfg false "" ∅.

Definition Setup (meshIface : string) (m : SiteToSiteManager) : SiteToSiteManager :=
  if negb (cf_SiteToSiteEnabled (s2_cfg m)) then m
  else mkS2S (s2_cfg m) true meshIface (s2_activeTunnels m).

Section manager.
Context {W : Type} `{RouteController W, VPNController W}.
Implicit Types (w : W) (m : SiteToSiteManager).

(** A call whose error is dropped or only logged. *)
Definition ignore (r : option string * W) : W := r.2.

Definition remove_routes (iface : string) (subnets : list string) w : W :=
  foldl (fun w s => ignore (RemoveRoute s iface w)) w subnets.

(** The loop that adds the routes of the remote subnets; an error comes with
    the routes added so far. *)
Fixpoint add_tunnel_routes (iface : string) (subnets added : list string) w
    : option (string * list string) * W :=
  match subnets with
  | [] => (None, w)
  | subnet :: subnets =>
      match AddRoute subnet iface w with
      | (Some e, w) => (Some (e, added), w)
      | (None, w) => add_tunnel_routes iface subnets (added ++ [subnet]) w
      end
  end.

Definition AddTunnel (tunnel : SiteToSiteTunnel) (st : SiteToSiteManager * W)
    : option string * (SiteToSiteManager * W) :=
  let '(m, w) := st in
  if negb (s2_active m) then (Some "bridge: site-to-site: manager is not active", st)
  else if decide (is_Some (s2_activeTunnels m !! sst_TunnelID tunnel)) then
    (Some "bridge: site-to-site: tunnel already exists", st)
  else if decide (Z.of_nat (size (s2_activeTunnels m)) >= cf_MaxSiteToSiteTunnels (s2_cfg m)) then
    (Some "bridge: site-to-site: max tunnels reached", st)
  else
    let iface := sst_InterfaceName tunnel in
    match CreateTunnelInterface iface (sst_ListenPort tunnel) w with
    | (Some e, w) => (Some (String.append "bridge: site-to-site: create interface: " e), (m, w))
    | (None, w) =>
        match ConfigureTunnelPeer iface (sst_RemotePublicKey tunnel) (sst_RemoteSubnets tunnel)
                (sst_RemoteEndpoint tunnel) (sst_PSK tunnel) w with
        | (Some e, w) =>
            let w := ignore (RemoveTunnelInterface iface w) in
            (Some (String.append "bridge: site-to-site: configure peer: " e), (m, w))
        | (None, w) =>
            match EnableForwarding iface (s2_meshIface m) w with
            | (Some e, w) =>
                let w := ignore (RemoveTunnelPeer iface (sst_RemotePublicKey tunnel) w) in
                let w := ignore (RemoveTunnelInterface iface w) in
                (Some (String.append "bridge: site-to-site: enable forwarding: " e), (m, w))
            | (None, w) =>
                match add_tunnel_routes iface (sst_RemoteSubnets tunnel) [] w with
                | (Some (e, added), w) =>
                    let w := remove_routes iface added w in
                    let w := ignore (DisableForwarding iface (s2_meshIface m) w) in
                    let w := ignore (RemoveTunnelPeer iface (sst_RemotePublicKey tunnel) w) in
                    let w := ignore (RemoveTunnelInterface iface w) in
                    (Some (String.append "bridge: site-to-site: add route: " e), (m, w))
                | (None, w) =>
                    (None, (mkS2S (s2_cfg m) (s2_active m) (s2_meshIface m)
                              (<[sst_TunnelID tunnel := mkActiveTunnel tunnel iface]> (s2_activeTunnels m)),
                            w))
                end
            end
        end
    end.

(** What [RemoveTunnel] does to the system. *)
Definition remove_tunnel (meshIface : string) (a : activeTunnel) w : W :=
  let w := remove_routes (at_iface a) (sst_RemoteSubnets (at_tunnel a)) w in
  let w := ignore (DisableForwarding (at_iface a) meshIface w) in
  let w := ignore (RemoveTunnelPeer (at_iface a) (sst_RemotePublicKey (at_tunnel a)) w) in
  ignore (RemoveTunnelInterface (at_iface a) w).

Definition RemoveTunnel (tunnelID : string) (st : SiteToSiteManager * W) : SiteToSiteManager * W :=
  let '(m, w) := st in
  if negb (s2_active m) then st
  else match s2_activeTunnels m !! tunnelID with
       | None => st
       | Some a =>
           (mkS2S (s2_cfg m) (s2_active m) (s2_meshIface m) (delete tunnelID (s2_activeTunnels m)),
            remove_tunnel (s2_meshIface m) a w)
       end.

Definition collect (errs : list string) (r : option string * W) : list string * W :=
  match r with
  | (Some e, w) => (errs ++ [e], w)
  | (None, w) => (errs, w)
  end.

(** The peer is not removed here: it goes with the interface. *)
Definition teardown_tunnel (meshIface : string) (acc : list string * W) (a : activeTunnel)
    : list string * W :=
  let '(errs, w) := foldl (fun acc s => collect acc.1 (RemoveRoute s (at_iface a) acc.2)) acc
                      (sst_RemoteSubnets (at_tunnel a)) in
  let '(errs, w) := collect errs (DisableForwarding (at_iface a) meshIface w) in
  collect errs (RemoveTunnelInterface (at_iface a) w).

Definition Teardown `{MapOrder} (st : SiteToSiteManager * W) : option (list string) * (SiteToSiteManager * W) :=
  let '(m, w) := st in
  if negb (s2_active m) then (None, st)
  else
    let '(errs, w) := foldl (teardown_tunnel (s2_meshIface m)) ([], w) (range_map (s2_activeTunnels m)).*2 in
    (match errs with [] => None | _ => Some errs end, (mkS2S (s2_cfg m) false (s2_meshIface m) ∅, w)).

Definition GetTunnel (tunnelID : string) (m : SiteToSiteManager) : option SiteToSiteTunnel :=
  at_tunnel <$> s2_activeTunnels m !! tunnelID.

Definition TunnelIDs `{MapOrder} (m : SiteToSiteManager) : list string := range_keys (s2_activeTunnels m).

(** ** Handlers *)

Definition HandleSiteToSiteTunnelAssigned (payload : option SiteToSiteTunnel) (st : SiteToSiteManager * W)
    : option string * (SiteToSiteManager * W) :=
  match payload with
  | None => (Some "bridge: site_to_site_tunnel_assigned: parse payload", st)
  | Some tunnel =>
      let '(e, st) := AddTunnel tunnel st in
      (String.append "bridge: site_to_site_tunnel_assigned: " <$> e, st)
  end.

Definition HandleSiteToSiteTunnelRevoked (payload : option string) (st : SiteToSiteManager * W)
    : option string * (SiteToSiteManager * W) :=
  match payload with
  | None => (Some "bridge: site_to_site_tunnel_revoked: parse payload", st)
  | Some tunnelID => (None, RemoveTunnel tunnelID st)
  end.

(** What the reconcile handler uses of the manager; [RemoveTunnel] never blocks. *)
#[global] Instance s2s_reconcilable : Reconcilable (SiteToSiteManager * W) SiteToSiteTunnel := {
  rc_key := sst_TunnelID;
  rc_tracked st := at_tunnel <$> s2_activeTunnels st.1;
  rc_handle _ _ := None;
  rc_add := AddTunnel;
  rc_remove id st := Some (RemoveTunnel id st);
  rc_inv st := s2_active st.1 = false -> s2_activeTunnels st.1 = ∅
}.

Definition SiteToSiteReconcileHandler `{MapOrder} (desired : option StateResponse)
    (st : SiteToSiteManager * W) : option (option (list string) * (SiteToSiteManager * W)) :=
  match desired ≫= st_SiteToSiteConfig with
  | None => Some (None, st)
  | Some c => reconcile_items (ssc_Tunnels c) st
  end.

End manager.

(** The payload is ignored: the next cycle fetches the desired state. *)
Definition HandleSiteToSiteConfigUpdated {R E} (r : Reconciler (W := R) (E := E)) : Reconciler :=
  TriggerReconcile r.

Definition SiteToSiteStatus (m : SiteToSiteManager) : option SiteToSiteInfo :=
  if negb (s2_active m) then None
  else Some (mkSiteToSiteInfo true (Z.of_nat (size (s2_activeTunnels m)))).

Definition SiteToSiteCapabilities (m : SiteToSiteManager) : option (gmap string string) :=
  if negb (cf_SiteToSiteEnabled (s2_cfg m)) then None
  else Some (<["max_site_to_site_tunnels" := pretty (cf_MaxSiteToSiteTunnels (s2_cfg m))]>
               {["site_to_site" := "true"]}).

(** ** Lemmas *)

Section reconcilable.
Context {W : Type} `{RouteController W, VPNController W}.

(** The shape of a successful [AddTunnel]. *)
Lemma AddTunnel_ok_state tunnel m (w : W) st :
  AddTunnel tunnel (m, w) = (None, st) ->
  s2_active m = true /\ s2_activeTunnels m !! sst_TunnelID tunnel = None /\
  Z.of_nat (size (s2_activeTunnels m)) < cf_MaxSiteToSiteTunnels (s2_cfg m) /\
  st.1 = mkS2S (s2_cfg m) true (s2_meshIface m)
    (<[sst_TunnelID tunnel := mkActiveTunnel tunnel (sst_InterfaceName tunnel)]> (s2_activeTunnels m)).
Proof.
  unfold AddTunnel. destruct (s2_active m) eqn:Ea; [|done]. cbn [negb].
  case_decide as Hd; [done|]. case_decide as Hz; [done|].
  repeat (case_match; simplify_eq/=; try done). intros [= <-]. apply eq_None_not_Some in Hd.
  split_and!; [done|done|lia|done].
Qed.

Lemma AddTunnel_err_state tunnel m (w : W) e st : AddTunnel tunnel (m, w) = (Some e, st) -> st.1 = m.
Proof.
  unfold AddTunnel. repeat (case_match; simplify_eq/=; try done); by intros [= _ <-].
Qed.

#[global] Instance s2s_reconcilable_laws : ReconcilableLaws (SiteToSiteManager * W) SiteToSiteTunnel.
Proof.
  split; cbn.
  - intros t [m w] st Hi (Ha & Hn & _ & E)%AddTunnel_ok_state. rewrite E. cbn.
    split_and!; [done| |by rewrite fmap_insert|done]. by rewrite lookup_fmap, Hn.
  - intros t [m w] e st Hi E%AddTunnel_err_state. by rewrite E.
  - intros k [m w] st Hi [= <-]. unfold RemoveTunnel. destruct (s2_active m) eqn:Ea; cbn.
    + destruct (s2_activeTunnels m !! k) as [a|] eqn:Ek; cbn.
      * by rewrite fmap_delete.
      * split_and!; [done| |done]. by rewrite delete_id by by rewrite lookup_fmap, Ek.
    + split_and!; [done| |done]. cbn in Hi. by rewrite (Hi Ea).
Qed.
End reconcilable.

Section frame.
Context {W : Type} `{RouteControllerBase W} `{VPNC : VPNController W, VPNV : VPNView W}.
Context `{VL : !VPNLaws W}.
Implicit Types (w : W).

Lemma same_beside_refl i w : same_beside i w w.
Proof. intros j _. by split_and!. Qed.

Lemma same_beside_trans i w1 w2 w3 :
  same_beside i w1 w2 -> same_beside i w2 w3 -> same_beside i w1 w3.
Proof.
  intros H12 H23 j Hj. destruct (H12 j Hj) as (A1 & A2 & A3), (H23 j Hj) as (B1 & B2 & B3).
  split_and!; intros; [by rewrite B1|by rewrite B2|by rewrite B3].
Qed.

Lemma same_beside_routes i w w' : same_vpn w w' -> same_routes w w' -> same_beside i w w'.
Proof. intros [H1' H2'] Hr j _. split_and!; auto. Qed.

Lemma EnableForwarding_beside i a b w e w' :
  EnableForwarding a b w = (e, w') -> same_beside i w w' /\ same_routes w w'.
Proof.
  intros E. pose proof (EnableForwarding_routes _ _ _ _ _ E). split; [|done].
  apply same_beside_routes; [by eapply EnableForwarding_vpn|done].
Qed.

Lemma DisableForwarding_beside i a b w e w' :
  DisableForwarding a b w = (e, w') -> same_beside i w w'.
Proof.
  intros E. apply same_beside_routes; [by eapply DisableForwarding_vpn|by eapply DisableForwarding_routes].
Qed.

Lemma AddRoute_beside s i w e w' : AddRoute s i w = (e, w') -> same_beside i w w'.
Proof.
  intros E. pose proof (AddRoute_vpn _ _ _ _ _ E) as [Hu Hp]. intros j Hj. split_and!; [done..|].
  intros n. destruct e as [e|]; [apply AddRoute_err in E as (Hr & _); apply Hr|].
  apply AddRoute_ok in E as (_ & _ & n' & _ & [Hr|[Hr _]]); [|apply Hr]. rewrite Hr. naive_solver.
Qed.

Lemma RemoveRoute_beside s i w e w' : RemoveRoute s i w = (e, w') -> same_beside i w w'.
Proof.
  intros E. pose proof (RemoveRoute_vpn _ _ _ _ _ E) as [Hu Hp]. intros j Hj. split_and!; [done..|].
  intros n. destruct e as [e|]; [apply RemoveRoute_err in E as (Hr & _); apply Hr|].
  apply RemoveRoute_frame in E as (_ & _ & n' & _ & Hr & Hr'). split; [apply Hr|apply Hr'; naive_solver].
Qed.

Lemma remove_routes_beside i l : forall w, same_beside i w (remove_routes i l w).
Proof.
  induction l as [|s l IH]; intros w; [apply same_beside_refl|]. cbn.
  eapply same_beside_trans; [|apply IH]. unfold ignore.
  destruct (RemoveRoute s i w) eqn:E. by eapply RemoveRoute_beside.
Qed.

Lemma add_tunnel_routes_beside i l : forall acc w r w',
  add_tunnel_routes i l acc w = (r, w') -> same_beside i w w' /\ same_vpn w w'.
Proof.
  induction l as [|s l IH]; intros acc w r w'; cbn [add_tunnel_routes].
  { intros [= <- <-]. split; [apply same_beside_refl|done]. }
  destruct (AddRoute s i w) as [e w1] eqn:E. pose proof (AddRoute_beside _ _ _ _ _ E) as Hb.
  pose proof (AddRoute_vpn _ _ _ _ _ E) as [Hv1 Hv2]. destruct e as [e|]; [by intros [= <- <-]|].
  intros [Hb' [Hv1' Hv2']]%IH. split; [by eapply same_beside_trans|].
  split; intros; [by rewrite Hv1'|by rewrite Hv2'].
Qed.

(** With nobody else routing the subnets, all of them are routed in the end. *)
Lemma add_tunnel_routes_ok i l : forall acc w w',
  unclaimed i l w -> add_tunnel_routes i l acc w = (None, w') ->
  (forall n, routed w n i -> routed w' n i) /\
  forall s, s ∈ l -> exists n, subnet_net s = Some n /\ routed w' n i.
Proof.
  induction l as [|s l IH]; intros acc w w' Hu; cbn [add_tunnel_routes].
  { intros [= <-]. split; [done|set_solver]. }
  destruct (AddRoute s i w) as [[e|] w1] eqn:E; [done|].
  apply AddRoute_ok in E as (_ & _ & n & Hn & [Hr|(_ & j & Hj & Hrj)]).
  2:{ destruct Hj. apply (Hu n); [|done]. exists s. split; [set_solver|done]. }
  intros [Hk Hs]%IH.
  - split; [intros m Hm; apply Hk, Hr; by right|]. intros t [->|Ht]%elem_of_cons; [|auto].
    exists n. split; [done|]. apply Hk, Hr. by left.
  - intros m j (t & Ht & Hm) [[_ ->]|Hx]%Hr; [done|]. apply (Hu m); [|done].
    exists t. split; [set_solver|done].
Qed.

Lemma remove_tunnel_beside mesh a w :
  same_beside (at_iface a) w (remove_tunnel mesh a w).
Proof.
  unfold remove_tunnel, ignore.
  eapply same_beside_trans; [apply remove_routes_beside|].
  destruct (DisableForwarding _ _ _) as [e1 w1] eqn:E1. cbn.
  eapply same_beside_trans; [exact (DisableForwarding_beside _ _ _ _ _ _ E1)|].
  destruct (RemoveTunnelPeer _ _ _) as [e2 w2] eqn:E2. cbn.
  eapply same_beside_trans; [by eapply RemovePeer_frame|].
  destruct (RemoveTunnelInterface _ _) as [e3 w3] eqn:E3. by eapply RemoveInterface_frame.
Qed.

Lemma remove_iface_beside i w : same_beside i w (ignore (RemoveTunnelInterface i w)).
Proof. unfold ignore. destruct (RemoveTunnelInterface i w) eqn:E. by eapply RemoveInterface_frame. Qed.

Lemma remove_peer_beside i p w : same_beside i w (ignore (RemoveTunnelPeer i p w)).
Proof. unfold ignore. destruct (RemoveTunnelPeer i p w) eqn:E. by eapply RemovePeer_frame. Qed.

Lemma AddTunnel_beside tunnel m w e st :
  AddTunnel tunnel (m, w) = (e, st) -> same_beside (sst_InterfaceName tunnel) w st.2.
Proof.
  unfold AddTunnel. set (i := sst_InterfaceName tunnel) in *.
  destruct (s2_active m); cbn [negb]; [|intros [= _ <-]; apply same_beside_refl].
  case_decide; [intros [= _ <-]; apply same_beside_refl|].
  case_decide; [intros [= _ <-]; apply same_beside_refl|].
  destruct (CreateTunnelInterface i _ w) as [[e1|] w1] eqn:E1; apply Create_frame in E1 as [B1 _];
    [by intros [= _ <-]|].
  destruct (ConfigureTunnelPeer i _ _ _ _ w1) as [[e2|] w2] eqn:E2; apply Configure_frame in E2 as [B2 _];
    pose proof (same_beside_trans _ _ _ _ B1 B2) as B2'; clear B1 B2.
  { intros [= _ <-]. eapply same_beside_trans; [done|apply remove_iface_beside]. }
  destruct (EnableForwarding i _ w2) as [e3 w3] eqn:E3.
  apply EnableForwarding_beside with (i := i) in E3 as [B3 _].
  pose proof (same_beside_trans _ _ _ _ B2' B3) as B3'; clear B2' B3. destruct e3 as [e3|].
  { intros [= _ <-]. eapply same_beside_trans; [done|]. eapply same_beside_trans;
      [apply remove_peer_beside|apply remove_iface_beside]. }
  destruct (add_tunnel_routes i _ [] w3) as [[[e4 added]|] w4] eqn:E4;
    apply add_tunnel_routes_beside in E4 as [B4 _];
    pose proof (same_beside_trans _ _ _ _ B3' B4) as B4'; clear B3' B4.
  - intros [= _ <-]. eapply same_beside_trans; [done|]. eapply same_beside_trans;
      [apply remove_routes_beside|].
    unfold ignore at 3. destruct (DisableForwarding i _ _) as [e5 w5] eqn:E5.
    eapply same_beside_trans; [exact (DisableForwarding_beside _ _ _ _ _ _ E5)|].
    eapply same_beside_trans; [apply remove_peer_beside|apply remove_iface_beside].
  - by intros [= _ <-].
Qed.
End frame.

(** ** The invariant *)

(** The tunnel's interface, its peer and the routes of its remote subnets. *)
Definition installed {W} `{RouteView W, VPNView W} (w : W) (a : activeTunnel) : Prop :=
  tunnel_up w (at_iface a) /\ tunnel_peer w (at_iface a) (sst_RemotePublicKey (at_tunnel a)) /\
  forall s, s ∈ sst_RemoteSubnets (at_tunnel a) ->
    exists n, subnet_net s = Some n /\ routed w n (at_iface a).

(** ** Runs *)

(** The calls on a manager; the handlers make no others. *)
Inductive call := CSetup (mesh : string) | CAdd (tunnel : SiteToSiteTunnel) | CRemove (id : string) | CTeardown.

Section runs.
Context {W : Type} `{RouteControllerBase W} `{VPNC : VPNController W, VPNV : VPNView W}.
Context `{VL : !VPNLaws W} {HO : MapOrder}.
Implicit Types (w : W) (m : SiteToSiteManager) (st : SiteToSiteManager * W).

Definition exec st (c : call) : SiteToSiteManager * W :=
  match c with
  | CSetup mesh => (Setup mesh st.1, st.2)
  | CAdd tunnel => (AddTunnel tunnel st).2
  | CRemove id => RemoveTunnel id st
  | CTeardown => (Teardown st).2
  end.

Abbreviation execs := (foldl exec).

(** The calls that work on an interface: adding a tunnel on it, removing a
    tunnel on it, taking everything down. *)
Definition works_on (i : string) st (c : call) : Prop :=
  match c with
  | CSetup _ => False
  | CAdd tunnel => sst_InterfaceName tunnel = i
  | CRemove id => exists a, s2_activeTunnels st.1 !! id = Some a /\ at_iface a = i
  | CTeardown => s2_active st.1 = true
  end.

Fixpoint undisturbed (i : string) (calls : list call) st : Prop :=
  match calls with
  | [] => True
  | c :: calls => ~ works_on i st c /\ undisturbed i calls (exec st c)
  end.

Lemma undisturbed_snoc i calls c st :
  undisturbed i (calls ++ [c]) st <-> undisturbed i calls st /\ ~ works_on i (execs st calls) c.
Proof. revert st. induction calls as [|d calls IH]; intros st; cbn; [tauto|]. rewrite IH. tauto. Qed.

Lemma installed_beside i w w' a : at_iface a <> i -> same_beside i w w' -> installed w a -> installed w' a.
Proof.
  intros Hne Hb (Hu & Hp & Hr). destruct (Hb _ Hne) as (Bu & Bp & Br). split_and!.
  - by apply Bu.
  - by apply Bp.
  - intros s (n & Hn & Hx)%Hr. exists n. split; [done|]. by apply Br.
Qed.

(** A tunnel that was added is installed. *)
Lemma AddTunnel_installed tunnel m w st :
  unclaimed (sst_InterfaceName tunnel) (sst_RemoteSubnets tunnel) w ->
  AddTunnel tunnel (m, w) = (None, st) ->
  installed st.2 (mkActiveTunnel tunnel (sst_InterfaceName tunnel)).
Proof.
  intros Hu. unfold AddTunnel. set (i := sst_InterfaceName tunnel) in *.
  destruct (s2_active m); [|done]. cbn [negb]. case_decide; [done|]. case_decide; [done|].
  destruct (CreateTunnelInterface i _ w) as [[e1|] w1] eqn:E1; [done|].
  pose proof (Create_frame _ _ _ _ _ E1) as [_ R1]. apply Create_ok in E1 as U1.
  destruct (ConfigureTunnelPeer i _ _ _ _ w1) as [[e2|] w2] eqn:E2; [done|].
  pose proof (Configure_frame _ _ _ _ _ _ _ _ E2) as (_ & R2 & U2). apply Configure_ok in E2 as P2.
  destruct (EnableForwarding i _ w2) as [[e3|] w3] eqn:E3; [done|].
  pose proof (EnableForwarding_vpn _ _ _ _ _ E3) as [U3 P3].
  apply EnableForwarding_beside with (i := i) in E3 as [_ R3].
  destruct (add_tunnel_routes i _ [] w3) as [[[e4 added]|] w4] eqn:E4; [done|].
  intros [= <-]. pose proof (add_tunnel_routes_beside _ _ _ _ _ _ E4) as [_ [U4 P4]].
  apply add_tunnel_routes_ok in E4 as [_ R4].
  - split_and!; cbn.
    + by apply U4, U3, U2.
    + by apply P4, P3.
    + done.
  - intros n j Hn Hr. apply (Hu n); [done|]. by apply R1, R2, R3.
Qed.

Lemma exec_installed c st a :
  ~ works_on (at_iface a) st c -> installed st.2 a -> installed (exec st c).2 a.
Proof.
  destruct st as [m w], c as [mesh|tunnel|id|]; cbn [works_on exec fst snd]; intros Hn Hi.
  - done.
  - destruct (AddTunnel tunnel (m, w)) as [e st] eqn:E. apply AddTunnel_beside in E.
    eapply installed_beside; [|exact E|done]. intros Ha. by apply Hn.
  - unfold RemoveTunnel. destruct (s2_active m); [|done]. cbn [negb].
    destruct (s2_activeTunnels m !! id) as [b|] eqn:Eb; [|done].
    eapply installed_beside; [|apply remove_tunnel_beside|done]. intros Hb. apply Hn. eauto.
  - unfold Teardown. by destruct (s2_active m).
Qed.

(** What a call does to the tracked tunnels. *)
Lemma exec_tracked c st id a : s2_activeTunnels (exec st c).1 !! id = Some a ->
  s2_activeTunnels st.1 !! id = Some a \/
  exists t, c = CAdd t /\ a = mkActiveTunnel t (sst_InterfaceName t) /\ sst_TunnelID t = id /\ (AddTunnel t st).1 = None.
Proof.
  destruct st as [m w], c as [mesh|t|id'|]; cbn [exec fst snd].
  - unfold Setup. destruct (cf_SiteToSiteEnabled _); cbn; auto.
  - destruct (AddTunnel t (m, w)) as [[e|] st] eqn:E; cbn [fst snd].
    + rewrite (AddTunnel_err_state _ _ _ _ _ E). auto.
    + destruct (AddTunnel_ok_state _ _ _ _ E) as (_ & _ & _ & ->). cbn.
      intros [[<- <-]|[_ ?]]%lookup_insert_Some; [right|by left]. exists t. split_and!; [done..|]. exact (f_equal fst E).
  - unfold RemoveTunnel. destruct (s2_active m); [|by left]. cbn [negb].
    destruct (s2_activeTunnels m !! id'); [|by left]. cbn. intros [_ ?]%lookup_delete_Some. by left.
  - unfold Teardown. destruct (s2_active m); [|by left]. cbn [negb]. destruct (foldl _ _ _). cbn.
    by rewrite lookup_empty.
Qed.

Lemma exec_bounds c st :
  (s2_active st.1 = false -> s2_activeTunnels st.1 = ∅) ->
  Z.of_nat (size (s2_activeTunnels st.1)) <= Z.max 0 (cf_MaxSiteToSiteTunnels (s2_cfg st.1)) ->
  s2_cfg (exec st c).1 = s2_cfg st.1 /\
  (s2_active (exec st c).1 = false -> s2_activeTunnels (exec st c).1 = ∅) /\
  Z.of_nat (size (s2_activeTunnels (exec st c).1)) <= Z.max 0 (cf_MaxSiteToSiteTunnels (s2_cfg st.1)).
Proof.
  destruct st as [m w], c as [mesh|t|id'|]; cbn [exec fst snd]; intros Ia Ib.
  - unfold Setup. by destruct (cf_SiteToSiteEnabled _).
  - destruct (AddTunnel t (m, w)) as [[e|] st] eqn:E; cbn [fst snd].
    + by rewrite (AddTunnel_err_state _ _ _ _ _ E).
    + destruct (AddTunnel_ok_state _ _ _ _ E) as (_ & Hn & Hlt & ->). cbn.
      split_and!; [done..|]. rewrite map_size_insert_None by done. lia.
  - unfold RemoveTunnel. destruct (s2_active m) eqn:Ha; cbn [negb fst snd]; [|by split_and!; auto].
    destruct (s2_activeTunnels m !! id') eqn:Eb; cbn [fst snd s2_cfg s2_active s2_activeTunnels]; [|by split_and!; [|congruence|]]. split_and!; [done..|].
    rewrite map_size_delete_Some by (by rewrite Eb). lia.
  - unfold Teardown. destruct (s2_active m) eqn:Ha; cbn [negb fst snd]; [|by split_and!; auto]. destruct (foldl _ _ _). cbn.
    split_and!; [done..|]. rewrite map_size_empty. lia.
Qed.

(** C28. After any sequence of calls on a new manager, whichever operations of
    the controllers fail: an inactive manager tracks no tunnel and at most
    MaxSiteToSiteTunnels are tracked.  Every tracked tunnel comes from a call of
    [AddTunnel] that succeeded, is tracked under its id, and is still fully
    installed, with its interface, its peer and a route for each remote subnet,
    provided that its subnets were not routed over other interfaces when it was
    added and that no later call has worked on its interface.  [AddTunnel] does
    not check the second: see [shared_interface_breaks]. *)
Theorem reachable_tunnels_installed cfg w calls :
  let st0 := (NewSiteToSiteManager cfg, w) in
  let st := execs st0 calls in
  (s2_active st.1 = false -> s2_activeTunnels st.1 = ∅) /\
  Z.of_nat (size (s2_activeTunnels st.1)) <= Z.max 0 (cf_MaxSiteToSiteTunnels cfg) /\
  forall id a, s2_activeTunnels st.1 !! id = Some a ->
    exists pre t post, calls = pre ++ CAdd t :: post /\
      a = mkActiveTunnel t (sst_InterfaceName t) /\ sst_TunnelID t = id /\
      (AddTunnel t (execs st0 pre)).1 = None /\
      (unclaimed (sst_InterfaceName t) (sst_RemoteSubnets t) (execs st0 pre).2 ->
       undisturbed (sst_InterfaceName t) post (execs st0 (pre ++ [CAdd t])) -> installed st.2 a).
Proof.
  intros st0 st. subst st. assert (Hb : s2_cfg (execs st0 calls).1 = cfg /\
    (s2_active (execs st0 calls).1 = false -> s2_activeTunnels (execs st0 calls).1 = ∅) /\
    Z.of_nat (size (s2_activeTunnels (execs st0 calls).1)) <= Z.max 0 (cf_MaxSiteToSiteTunnels cfg)).
  { induction calls as [|c calls (Hc & Ia & Ib)] using rev_ind.
    - subst st0. cbn. split_and!; [done..|]. rewrite map_size_empty. lia.
    - rewrite foldl_app. cbn [foldl]. rewrite <- Hc in Ib. pose proof (exec_bounds c _ Ia Ib) as (E & ? & ?).
      rewrite E, Hc in *. done. }
  split_and!; [apply Hb..|]. clear Hb. induction calls as [|c calls IH] using rev_ind; intros id a.
  { subst st0. cbn. by rewrite lookup_empty. }
  rewrite foldl_app. cbn [foldl]. intros [Ha|(t & -> & -> & Hid & Hok)]%exec_tracked.
  - destruct (IH id a Ha) as (pre & t & post & E & Ea & Hid & Hok & Hi). exists pre, t, (post ++ [c]).
    split_and!; [by rewrite E, <- app_assoc|done..|]. intros Hu [Hd Hn]%undisturbed_snoc.
    apply exec_installed; [|by apply Hi]. rewrite Ea, E. cbn [at_iface].
    rewrite <- foldl_app, <- app_assoc in Hn. exact Hn.
  - exists calls, t, []. split_and!; [done..|]. intros Hu _. cbn [exec].
    destruct (execs st0 calls) as [m v]. destruct (AddTunnel t (m, v)) as [e st] eqn:E. cbn in Hok. subst e.
    by apply (AddTunnel_installed t m v st).
Qed.

(** Taking down one tunnel switches off forwarding on the mesh interface:
    after a removal whose disable call succeeds, no traffic is forwarded from
    the mesh, whatever other tunnels are still tracked. *)
Theorem RemoveTunnel_stops_mesh id a st :
  s2_active st.1 = true -> s2_activeTunnels st.1 !! id = Some a ->
  ordinary (s2_meshIface st.1) -> ordinary (at_iface a) -> at_iface a <> s2_meshIface st.1 ->
  (DisableForwarding (at_iface a) (s2_meshIface st.1)
    (remove_routes (at_iface a) (sst_RemoteSubnets (at_tunnel a)) st.2)).1 = None ->
  let st' := RemoveTunnel id st in
  ~ forwards st'.2 (s2_meshIface st.1) /\ s2_activeTunnels st'.1 = delete id (s2_activeTunnels st.1).
Proof.
  destruct st as [m w]. cbn [fst snd]. intros Hact Ha Hm Hi Hne Hd. unfold RemoveTunnel. rewrite Hact, Ha. cbn. split; [|done].
  unfold remove_tunnel, ignore. destruct (DisableForwarding _ _ _) as [e1 w1] eqn:E1. cbn in *. subst e1.
  apply DisableForwarding_ok in E1 as (_ & _ & F1); [|done..].
  destruct (RemoveTunnelPeer _ _ w1) as [e2 w2] eqn:E2. cbn. apply RemovePeer_frame in E2 as [_ F2].
  destruct (RemoveTunnelInterface _ w2) as [e3 w3] eqn:E3. cbn.
  rewrite (RemoveInterface_forwarding _ _ _ _ E3) by done. rewrite (F2 _), F1. tauto.
Qed.

(** The site-to-site reconcile handler: whatever fails, no tunnel survives
    that is not desired with exactly its configuration; tunnels that are
    desired as they are stay; and when the handler reports no error the
    tracked tunnels are exactly the desired ones. *)
Theorem SiteToSiteReconcileHandler_applies desired c st e st' :
  desired ≫= st_SiteToSiteConfig = Some c -> NoDup (sst_TunnelID <$> ssc_Tunnels c) ->
  (s2_active st.1 = false -> s2_activeTunnels st.1 = ∅) ->
  SiteToSiteReconcileHandler desired st = Some (e, st') ->
  let want := build_map sst_TunnelID (fun t => t) (ssc_Tunnels c) in
  (forall id t, GetTunnel id st'.1 = Some t -> want !! id = Some t) /\
  (forall id t, GetTunnel id st.1 = Some t -> want !! id = Some t -> GetTunnel id st'.1 = Some t) /\
  (e = None -> forall id, GetTunnel id st'.1 = want !! id).
Proof.
  intros Hc Hnd Hinv. unfold SiteToSiteReconcileHandler. rewrite Hc. intros E.
  pose proof (reconcile_items_sound (ssc_Tunnels c) Hnd st e st' Hinv E) as (_ & Hs & Hk).
  unfold GetTunnel. cbn in Hs, Hk. setoid_rewrite <- lookup_fmap. split_and!.
  - done.
  - intros id t Ht Hw. rewrite <- Ht. apply Hk; [by eexists|]. by rewrite Ht, Hw.
  - intros -> id. pose proof (reconcile_items_exact (ssc_Tunnels c) Hnd st st' Hinv E) as Hx.
    cbn in Hx. by rewrite <- Hx.
Qed.
End runs.

(** ** A concrete controller *)

Record vpn_sim := mkVpn { vs_up : gset string; vs_peers : gset (string * string) }.

#[global] Instance sim_vpn : VPNController (sim_router * vpn_sim) := {
  CreateTunnelInterface i _ w :=
    (None, (sim_add_link i w.1, mkVpn ({[ i ]} ∪ vs_up w.2) (vs_peers w.2)));
  RemoveTunnelInterface i w :=
    (None, (sim_del_link i w.1, mkVpn (vs_up w.2 ∖ {[ i ]}) (filter (fun p => p.1 <> i) (vs_peers w.2))));
  ConfigureTunnelPeer i pk _ _ _ w :=
    if decide (i ∈ vs_up w.2) then (None, (w.1, mkVpn (vs_up w.2) ({[ (i, pk) ]} ∪ vs_peers w.2)))
    else (Some "no such device", w);
  RemoveTunnelPeer i pk w := (None, (w.1, mkVpn (vs_up w.2) (vs_peers w.2 ∖ {[ (i, pk) ]})))
}.

#[global] Instance sim_vpn_view : VPNView (sim_router * vpn_sim) := {
  tunnel_up w i := i ∈ vs_up w.2;
  tunnel_peer w i p := (i, p) ∈ vs_peers w.2
}.

#[global] Instance sim_vpn_laws : VPNLaws (sim_router * vpn_sim).
Proof.
  split.
  - intros i p [k v] e w' [= <- <-]. split.
    + intros j Hj. split_and!; cbn [tunnel_up tunnel_peer sim_vpn_view fst snd vs_up vs_peers];
        [set_solver|done|]. intros n. apply sim_add_link_routed.
    + intros n j. apply sim_add_link_routed.
  - intros i p [k v] w' [= <-]. cbn. set_solver.
  - intros i [k v] e w' [= <- <-] j Hj. split_and!.
    + cbn. set_solver.
    + intros pk. cbn. rewrite elem_of_filter. cbn. tauto.
    + intros n. by apply sim_del_link_routed.
  - intros i [k v] w' [= <-]. cbn. set_solver.
  - intros i [k v] e w' [= <- <-] j Hj. cbn. rewrite elem_of_difference, elem_of_singleton.
    split; [tauto|]. intros ?. done.
  - intros i pk ips ep psk [k v] e w'. cbn. case_decide; intros [= <- <-].
    + split_and!; [|done|done]. intros j Hj. split_and!; [done| |done]. intros p. cbn. set_solver.
    + by split_and!; [apply same_beside_refl|..].
  - intros i pk ips ep psk [k v] w'. cbn. case_decide; [|done]. intros [= <-]. cbn. set_solver.
  - intros i pk [k v] e w' [= <- <-]. split; [|done]. intros j Hj. split_and!; [done| |done].
    intros p. cbn. set_solver.
  - intros a b w e w' [_ E]%on_fst_eq. by split; cbn; rewrite E.
  - intros a b w e w' [_ E]%on_fst_eq. by split; cbn; rewrite E.
  - intros a b w e w' [_ E]%on_fst_eq. by split; cbn; rewrite E.
  - intros a b w e w' [_ E]%on_fst_eq. by split; cbn; rewrite E.
Qed.

(** ** At concrete inputs *)

Definition ex_s2s_cfg : Config :=
  ApplyDefaults (mkConfig true "eth1" ["10.9.0.0/16"] None false 0 0 0 false "" 0 0 false 0 0 true "" 0 2).
Definition ex_tunnel (id iface subnet : string) : SiteToSiteTunnel :=
  mkSiteToSiteTunnel id "198.51.100.7:51823" "cGs=" ["10.9.0.0/16"] [subnet] "" iface 51823.
Definition ex_a : SiteToSiteTunnel := ex_tunnel "a" "wg-s2s-0" "172.16.0.0/16".
Definition ex_b : SiteToSiteTunnel := ex_tunnel "b" "wg-s2s-1" "172.17.0.0/16".
Definition ex_bad : SiteToSiteTunnel := ex_tunnel "c" "wg-s2s-2" "172.18.0.0".

Definition ex_start : SiteToSiteManager * (sim_router * vpn_sim) :=
  (Setup "plexd0" (NewSiteToSiteManager ex_s2s_cfg), (ex_router, mkVpn ∅ ∅)).
Definition ex_one := (AddTunnel ex_a ex_start).2.
Definition ex_failed := (AddTunnel ex_bad ex_one).
Definition ex_two := (AddTunnel ex_b ex_failed.2).2.

(** Two tunnels, between them one whose subnet does not parse: it left nothing. *)
Lemma reachable_tunnels_installed_witness :
  ex_two = foldl (exec (HO := id_order)) (NewSiteToSiteManager ex_s2s_cfg, (ex_router, mkVpn ∅ ∅))
    [CSetup "plexd0"; CAdd ex_a; CAdd ex_bad; CAdd ex_b] /\
  installed ex_two.2 (mkActiveTunnel ex_a "wg-s2s-0") /\
  ex_failed.1 = Some "bridge: site-to-site: add route: invalid CIDR address" /\
  "wg-s2s-2" ∉ sim_links ex_two.2.1.
Proof.
  split; [reflexivity|]. split; [|split; [by vm_compute|by_compute]].
  destruct (reachable_tunnels_installed (HO := id_order) ex_s2s_cfg (ex_router, mkVpn ∅ ∅)
    [CSetup "plexd0"; CAdd ex_a; CAdd ex_bad; CAdd ex_b]) as (_ & _ & Ht).
  destruct (Ht "a" (mkActiveTunnel ex_a "wg-s2s-0") ltac:(by vm_compute)) as (pre & t & post & E & Ea & _ & _ & Hi).
  injection Ea as <-. assert (pre = [CSetup "plexd0"] /\ post = [CAdd ex_bad; CAdd ex_b]) as [-> ->].
  { destruct pre as [|c1 [|c2 pre]]; [done|by injection E as <- <-|]. injection E as _ _ E.
    destruct pre as [|c3 [|c4 pre]]; [done|done|]. injection E as _ _ E. by destruct pre. }
  apply Hi.
  - apply unclaimed_sim. by_compute.
  - cbn [undisturbed works_on]. split_and!; done.
Defined.

(** Nothing keeps two tunnels off one interface: both are added without error,
    and removing the second takes the interface of the first, which stays
    tracked. *)
Lemma shared_interface_breaks :
  let b := ex_tunnel "b" "wg-s2s-0" "172.17.0.0/16" in
  let st := foldl (exec (HO := id_order)) ex_one [CAdd b; CRemove "b"] in
  (AddTunnel b ex_one).1 = None /\
  s2_activeTunnels st.1 !! "a" = Some (mkActiveTunnel ex_a "wg-s2s-0") /\ "wg-s2s-0" ∉ sim_links st.2.1.
Proof. cbv zeta. split_and!; [by vm_compute|by vm_compute|by_compute]. Qed.

(** Tunnel [a] goes, tunnel [b] is still tracked, the mesh no longer forwards. *)
Lemma RemoveTunnel_stops_mesh_witness :
  forwards (AddTunnel ex_b ex_one).2.2 "plexd0" /\
  let st := RemoveTunnel "a" (AddTunnel ex_b ex_one).2 in
  ~ forwards st.2 "plexd0" /\ is_Some (s2_activeTunnels st.1 !! "b").
Proof.
  split; [apply sim_forwards; by_compute|]. cbv zeta. split.
  - refine (proj1 (RemoveTunnel_stops_mesh "a" (mkActiveTunnel ex_a "wg-s2s-0")
      (AddTunnel ex_b ex_one).2 _ _ _ _ _ _)).
    all: try (vm_compute; reflexivity). all: by_compute.
  - vm_compute. by eexists.
Defined.

Definition ex_desired : StateResponse :=
  mkStateResponse [] [] None ∅ None None None None
    (Some (mkSiteToSiteConfig true [ex_b; ex_tunnel "a" "wg-s2s-0" "172.19.0.0/16"])) [] [].

Definition ex_applied : option (option (list string) * (SiteToSiteManager * (sim_router * vpn_sim))) :=
  SiteToSiteReconcileHandler (H1 := id_order) (Some ex_desired) ex_one.

(** [a] is restarted with its new subnet, [b] is added. *)
Lemma SiteToSiteReconcileHandler_applies_witness :
  let st' := default ex_one (snd <$> ex_applied) in
  ex_applied = Some (None, st') /\
  GetTunnel "a" st'.1 = Some (ex_tunnel "a" "wg-s2s-0" "172.19.0.0/16").
Proof.
  cbv zeta. assert (E : ex_applied = Some (None, default ex_one (snd <$> ex_applied)))
    by (apply option_pair_eq; vm_compute; reflexivity).
  split; [exact E|].
  assert (Hn : NoDup (sst_TunnelID <$> [ex_b; ex_tunnel "a" "wg-s2s-0" "172.19.0.0/16"])) by by_compute.
  destruct (SiteToSiteReconcileHandler_applies (HO := id_order) (Some ex_desired) _ ex_one None _ eq_refl Hn
    ltac:(done) E) as (_ & _ & Hx).
  by rewrite (Hx eq_refl "a").
Defined.
