(* ===== verification/UserAccess.v ===== *)
(** * User access
    (src/internal/bridge/user_access.go, user_access_handler.go, access_controller.go)

    External VPN clients reach the mesh through a WireGuard interface of the
    bridge node.  The manager tracks the public keys it has configured; the
    interface itself is behind [AccessController].  The theorems: tracked
    peers are configured and bounded in number in every reachable state, the
    reconcile handler applies the desired keys, and what the manager's
    teardown does to the bridge it shares an interface with. *)

From stdpp Require Import base strings list gmap relations pretty.
From S2P Require Import Prelude Base64 Net Types Diff Reconcile Policy Nftables BridgeCfg Routes.
From S2P Require Bridge.

(** ** The controller *)

Class AccessController (W : Type) := {
  CreateInterface : string -> Z -> W -> option string * W;
  RemoveInterface : string -> W -> option string * W;
  ConfigurePeer : string -> string -> list string -> string -> W -> option string * W;
  ac_RemovePeer : string -> string -> W -> option string * W
}.

(** The peers of an interface with their allowed addresses and preshared key. *)
Class AccessView (W : Type) := { access_peer : W -> string -> string -> option (list string * string) }.

Definition same_peers {W} `{AccessView W} (w w' : W) : Prop :=
  forall i p, access_peer w' i p = access_peer w i p.

Class AccessLaws (W : Type) `{RouteController W, RouteView W, AccessController W, AccessView W} := {
  ConfigurePeer_ok : forall i pk ips psk w w', ConfigurePeer i pk ips psk w = (None, w') ->
    access_peer w' i pk = Some (ips, psk) /\
    forall j p, (j, p) <> (i, pk) -> access_peer w' j p = access_peer w j p;
  ConfigurePeer_err : forall i pk ips psk w e w', ConfigurePeer i pk ips psk w = (Some e, w') ->
    same_peers w w';
  RemovePeer_ok : forall i pk w w', ac_RemovePeer i pk w = (None, w') ->
    access_peer w' i pk = None /\ forall j p, (j, p) <> (i, pk) -> access_peer w' j p = access_peer w j p;
  RemovePeer_err : forall i pk w e w', ac_RemovePeer i pk w = (Some e, w') -> same_peers w w';
  RemoveInterface_forwarding : forall i w e w', RemoveInterface i w = (e, w') ->
    forall j, j <> i -> forwards w' j <-> forwards w j
}.

(** ** The manager *)

Record UserAccessManager := mkUA {
  ua_cfg : Config;
  ua_active : bool;
  ua_activePeers : gmap string unit
}.

Definition NewUserAccessManager (cfg : Config) : UserAccessManager := mkUA cfg false ∅.

Definition ua_iface (m : UserAccessManager) : string := cf_UserAccessInterfaceName (ua_cfg m).

Section manager.
Context {W : Type} `{RouteController W, AccessController W}.
Abbreviation state := (UserAccessManager * W)%type.

Definition Setup (st : state) : option string * state :=
  let '(m, w) := st in
  if negb (cf_UserAccessEnabled (ua_cfg m)) then (None, st)
  else
    match CreateInterface (ua_iface m) (cf_UserAccessListenPort (ua_cfg m)) w with
    | (Some e, w) => (Some (String.append "bridge: user access: create interface: " e), (m, w))
    | (None, w) =>
        match EnableForwarding (ua_iface m) (cf_AccessInterface (ua_cfg m)) w with
        | (Some e, w) =>
            let w := (RemoveInterface (ua_iface m) w).2 in
            (Some (String.append "bridge: user access: enable forwarding: " e), (m, w))
        | (None, w) => (None, (mkUA (ua_cfg m) true (ua_activePeers m), w))
        end
    end.

Definition collect (errs : list string) (r : option string * W) : list string * W :=
  match r with
  | (Some e, w) => (errs ++ [e], w)
  | (None, w) => (errs, w)
  end.

Definition Teardown `{MapOrder} (st : state) : option (list string) * state :=
  let '(m, w) := st in
  if negb (ua_active m) then (None, st)
  else
    let '(errs, w) := foldl (fun acc pk => collect acc.1 (ac_RemovePeer (ua_iface m) pk acc.2)) ([], w)
                        (range_keys (ua_activePeers m)) in
    let '(errs, w) := collect errs (DisableForwarding (ua_iface m) (cf_AccessInterface (ua_cfg m)) w) in
    let '(errs, w) := collect errs (RemoveInterface (ua_iface m) w) in
    (match errs with [] => None | _ => Some errs end, (mkUA (ua_cfg m) false ∅, w)).

Definition AddPeer (peer : UserAccessPeer) (st : state) : option string * state :=
  let '(m, w) := st in
  if decide (is_Some (ua_activePeers m !! uap_PublicKey peer)) then
    (Some "bridge: user access: peer already exists", st)
  else if decide (Z.of_nat (size (ua_activePeers m)) >= cf_MaxAccessPeers (ua_cfg m)) then
    (Some "bridge: user access: max peers reached", st)
  else
    match ConfigurePeer (ua_iface m) (uap_PublicKey peer) (uap_AllowedIPs peer) (uap_PSK peer) w with
    | (Some e, w) => (Some (String.append "bridge: user access: configure peer: " e), (m, w))
    | (None, w) =>
        (None, (mkUA (ua_cfg m) (ua_active m) (<[uap_PublicKey peer := ()]> (ua_activePeers m)), w))
    end.

(** The error is logged, not returned: it is the first component. *)
Definition RemovePeer (publicKey : string) (st : state) : option string * state :=
  let '(m, w) := st in
  match ua_activePeers m !! publicKey with
  | None => (None, st)
  | Some _ =>
      match ac_RemovePeer (ua_iface m) publicKey w with
      | (Some e, w) => (Some e, (m, w))
      | (None, w) => (None, (mkUA (ua_cfg m) (ua_active m) (delete publicKey (ua_activePeers m)), w))
      end
  end.

Definition PeerPublicKeys `{MapOrder} (m : UserAccessManager) : list string := range_keys (ua_activePeers m).

(** ** Handlers *)

Definition HandleUserAccessPeerAssigned (payload : option UserAccessPeer) (st : state)
    : option string * state :=
  match payload with
  | None => (Some "bridge: user_access_peer_assigned: parse payload", st)
  | Some peer =>
      let '(e, st) := AddPeer peer st in
      (String.append "bridge: user_access_peer_assigned: " <$> e, st)
  end.

Definition HandleUserAccessPeerRevoked (payload : option string) (st : state) : option string * state :=
  match payload with
  | None => (Some "bridge: user_access_peer_revoked: parse payload", st)
  | Some publicKey => (None, (RemovePeer publicKey st).2)
  end.

(** The two loops; [log] and [errs] collect what failed. *)
Definition remove_stale (desired : gmap string UserAccessPeer) (acc : list string * state) (pk : string)
    : list string * state :=
  if decide (is_Some (desired !! pk)) then acc
  else match RemovePeer pk acc.2 with
       | (Some e, st) => (acc.1 ++ [e], st)
       | (None, st) => (acc.1, st)
       end.

Definition add_missing (current : gset string) (acc : list string * state) (peer : UserAccessPeer)
    : list string * state :=
  if decide (uap_PublicKey peer ∈ current) then acc
  else match AddPeer peer acc.2 with
       | (Some e, st) => (acc.1 ++ [e], st)
       | (None, st) => (acc.1, st)
       end.

(** The joined errors, the removals logged as failed, the new state. *)
Definition UserAccessReconcileHandler `{MapOrder} (desired : option StateResponse) (st : state)
    : option (list string) * list string * state :=
  match desired ≫= st_UserAccessConfig with
  | None => (None, [], st)
  | Some c =>
      let desiredSet := build_map uap_PublicKey id (uac_Peers c) in
      let currentKeys := PeerPublicKeys st.1 in
      let '(log, st) := foldl (remove_stale desiredSet) ([], st) currentKeys in
      let '(errs, st) := foldl (add_missing (list_to_set currentKeys)) ([], st) (uac_Peers c) in
      (match errs with [] => None | _ => Some errs end, log, st)
  end.

End manager.

(** The payload is ignored: the next cycle fetches the desired state. *)
Definition HandleUserAccessConfigUpdated {R E} (r : Reconciler (W := R) (E := E)) : Reconciler :=
  TriggerReconcile r.

Definition UserAccessStatus (m : UserAccessManager) : option UserAccessInfo :=
  if negb (ua_active m) then None
  else Some (mkUserAccessInfo true (ua_iface m) (Z.of_nat (size (ua_activePeers m)))
               (cf_UserAccessListenPort (ua_cfg m))).

Definition UserAccessCapabilities (m : UserAccessManager) : option (gmap string string) :=
  if negb (cf_UserAccessEnabled (ua_cfg m)) then None
  else Some (<["access_listen_port" := pretty (cf_UserAccessListenPort (ua_cfg m))]>
               {["user_access" := "true"]}).

(** ** The invariant *)

Record ua_inv {W} `{AccessView W} (st : UserAccessManager * W) : Prop := mkUAInv {
  ui_configured : forall pk, is_Some (ua_activePeers st.1 !! pk) ->
    is_Some (access_peer st.2 (ua_iface st.1) pk);
  ui_bound : Z.of_nat (size (ua_activePeers st.1)) <= Z.max 0 (cf_MaxAccessPeers (ua_cfg st.1))
}.

Section theorems.
Context {W : Type} `{RouteControllerLaws W} `{AC : AccessController W, AV : AccessView W}.
Context `{AL : !AccessLaws W} {HO : MapOrder}.
Abbreviation state := (UserAccessManager * W)%type.

(** An interface that cannot be made to forward is removed with its peers, so
    setup is called before peers are assigned. *)
Inductive step : state -> state -> Prop :=
| step_setup st : ua_activePeers st.1 = ∅ -> step st (Setup st).2
| step_assign peer st : step st (AddPeer peer st).2
| step_revoke pk st : step st (RemovePeer pk st).2
| step_teardown st : step st (Teardown st).2.

Definition reachable (cfg : Config) (st : state) : Prop :=
  exists w, rtc step (NewUserAccessManager cfg, w) st.

Lemma AddPeer_access peer st : ua_inv st -> ua_inv (AddPeer peer st).2.
Proof.
  destruct st as [m w]. intros [Hc Hb]. unfold AddPeer. cbn in Hc, Hb.
  case_decide as Hd; [done|]. case_decide as Hz; [done|]. apply eq_None_not_Some in Hd.
  destruct (ConfigurePeer _ _ _ _ w) as [[e|] w'] eqn:E; split; unfold ua_iface in *; cbn in *.
  - intros pk Hpk. rewrite (ConfigurePeer_err _ _ _ _ _ _ _ E). by apply Hc.
  - done.
  - apply ConfigurePeer_ok in E as [E1 E2]. intros pk Hpk.
    destruct (decide (pk = uap_PublicKey peer)) as [->|Hne]; [by rewrite E1|].
    rewrite E2 by congruence. apply Hc. by rewrite lookup_insert_ne in Hpk.
  - rewrite map_size_insert_None by done. lia.
Qed.

Lemma RemovePeer_inv pk st : ua_inv st -> ua_inv (RemovePeer pk st).2.
Proof.
  destruct st as [m w]. intros [Hc Hb]. unfold RemovePeer. cbn in Hc, Hb.
  destruct (ua_activePeers m !! pk) as [u|] eqn:Ep; [|done].
  destruct (ac_RemovePeer _ _ w) as [[e|] w'] eqn:E; split; unfold ua_iface in *; cbn in *.
  - intros p Hp. rewrite (RemovePeer_err _ _ _ _ _ E). by apply Hc.
  - done.
  - apply RemovePeer_ok in E as [_ E2]. intros p [x [Hne Hp]%lookup_delete_Some].
    rewrite E2 by congruence. apply Hc. by eexists.
  - rewrite map_size_delete_Some by (by rewrite Ep). lia.
Qed.

(** In every reachable state the tracked user keys are configured on the
    access interface and there are at most MaxAccessPeers of them, whatever
    operations have failed. *)
Theorem reachable_peers_configured cfg st : reachable cfg st -> ua_inv st.
Proof.
  intros [w0 Hr]. assert (H0i : ua_inv (NewUserAccessManager cfg, w0)).
  { split; cbn; [intros pk [? Hx]; by rewrite lookup_empty in Hx|rewrite map_size_empty; lia]. }
  revert Hr H0i. generalize (NewUserAccessManager cfg, w0). intros st0 Hr.
  induction Hr as [|st0 st1 st2 Hs _ IH]; [done|]. intros HI. apply IH. clear IH.
  destruct Hs as [[m w] Hnone|peer st0|pk st0|[m w]].
  - assert (Hid : forall m' w', ua_activePeers m' = ∅ -> ua_inv (m', w')).
    { intros m' w' E. split; cbn; rewrite E; [by intros pk [? ?]|rewrite map_size_empty; lia]. }
    unfold Setup. cbn in Hnone. repeat case_match; simplify_eq/=; by apply Hid.
  - by apply AddPeer_access.
  - by apply RemovePeer_inv.
  - unfold Teardown. destruct (ua_active m); [|done]. cbn [negb].
    repeat case_match; simplify_eq/=; (split; cbn; [by intros pk [? ?]|rewrite map_size_empty; lia]).
Qed.

(** *** The reconcile handler *)

Abbreviation tracked st pk := (ua_activePeers st.1 !! pk) (only parsing).
Abbreviation peer_of st pk := (access_peer st.2 (ua_iface st.1) pk) (only parsing).

Record unstaled (desired : gmap string UserAccessPeer) (l : list string) (st : state)
    (acc : list string * state) : Prop := mkUnstaled {
  us_cfg : ua_cfg acc.2.1 = ua_cfg st.1;
  us_kept : forall pk, is_Some (desired !! pk) \/ pk ∉ l ->
    tracked acc.2 pk = tracked st pk /\ peer_of acc.2 pk = peer_of st pk;
  us_all : acc.1 = [] -> forall pk, pk ∈ l -> desired !! pk = None -> tracked acc.2 pk = None
}.

Lemma unstaled_loop desired l st : unstaled desired l st (foldl (remove_stale desired) ([], st) l).
Proof.
  induction l as [|t l IH] using rev_ind; [split; [done..|set_solver]|].
  rewrite foldl_app. cbn [foldl]. destruct (foldl _ _ l) as [log [m w]].
  destruct IH as [Hc Hk Ha]. cbn in Hc, Hk, Ha. unfold remove_stale. cbn [fst snd].
  case_decide as Hd; [split; cbn; [done| |]|].
  { intros pk Hpk. apply Hk. set_solver. }
  { intros He pk [Hin|Hin%list_elem_of_singleton]%elem_of_app Hn; [auto|]. subst pk.
    rewrite Hn in Hd. by destruct Hd. }
  unfold RemovePeer. destruct (ua_activePeers m !! t) as [u|] eqn:Et.
  - destruct (ac_RemovePeer (ua_iface m) t w) as [[e|] w'] eqn:E; split; cbn; try done.
    + intros pk Hpk. rewrite (RemovePeer_err _ _ _ _ _ E). apply Hk. set_solver.
    + by destruct log.
    + apply RemovePeer_ok in E as [_ E]. intros pk Hpk.
      assert (pk <> t). { intros ->. destruct Hpk; [done|set_solver]. }
      rewrite lookup_delete_ne by done. unfold ua_iface in *. cbn in *.
      rewrite E by congruence. apply Hk. set_solver.
    + intros He pk [Hin|Hin%list_elem_of_singleton]%elem_of_app Hn; [|subst; apply lookup_delete_eq].
      rewrite lookup_delete. case_decide; [done|]. by apply Ha.
  - split; cbn; [done|intros pk Hpk; apply Hk; set_solver|].
    intros He pk [Hin|Hin%list_elem_of_singleton]%elem_of_app Hn; [auto|by subst].
Qed.

Record filled (current : gset string) (items : list UserAccessPeer) (st : state)
    (acc : list string * state) : Prop := mkFilled {
  fu_cfg : ua_cfg acc.2.1 = ua_cfg st.1;
  fu_kept : forall pk, pk ∈ current \/ pk ∉ uap_PublicKey <$> items ->
    tracked acc.2 pk = tracked st pk /\ peer_of acc.2 pk = peer_of st pk;
  fu_all : acc.1 = [] -> forall p, p ∈ items -> uap_PublicKey p ∉ current ->
    is_Some (tracked acc.2 (uap_PublicKey p)) /\
    peer_of acc.2 (uap_PublicKey p) = Some (uap_AllowedIPs p, uap_PSK p)
}.

Lemma access_filled current items st : filled current items st (foldl (add_missing current) ([], st) items).
Proof.
  induction items as [|t items IH] using rev_ind; [split; [done..|set_solver]|].
  rewrite foldl_app. cbn [foldl]. destruct (foldl _ _ items) as [errs [m w]].
  destruct IH as [Hc Hk Ha]. cbn in Hc, Hk, Ha. unfold add_missing. cbn [fst snd].
  assert (Hk' : forall pk, pk ∈ current \/ pk ∉ uap_PublicKey <$> items ++ [t] ->
    ua_activePeers m !! pk = tracked st pk /\ access_peer w (ua_iface m) pk = peer_of st pk).
  { intros pk Hpk. apply Hk. rewrite fmap_app in Hpk. set_solver. }
  case_decide as Hd; [split; cbn; [done|exact Hk'|]|].
  { intros He p [Hin|Hin%list_elem_of_singleton]%elem_of_app Hn; [auto|by subst]. }
  unfold AddPeer. case_decide as Hd1; [split; cbn; [done|exact Hk'|by destruct errs]|].
  case_decide as Hd2; [split; cbn; [done|exact Hk'|by destruct errs]|].
  destruct (ConfigurePeer (ua_iface m) _ _ _ w) as [[e|] w'] eqn:E; split; cbn; try done.
  - intros pk Hpk. rewrite (ConfigurePeer_err _ _ _ _ _ _ _ E). by apply Hk'.
  - by destruct errs.
  - apply ConfigurePeer_ok in E as [_ E]. intros pk Hpk. unfold ua_iface in *. cbn in *.
    assert (pk <> uap_PublicKey t).
    { intros ->. destruct Hpk as [?|Hn]; [done|]. apply Hn. rewrite fmap_app. set_solver. }
    rewrite lookup_insert_ne, E by congruence. by apply Hk'.
  - apply ConfigurePeer_ok in E as [E1 E]. unfold ua_iface in *. cbn in *.
    intros He p [Hin|Hin%list_elem_of_singleton]%elem_of_app Hn.
    + destruct (Ha He p Hin Hn) as [Hs Hp].
      assert (uap_PublicKey p <> uap_PublicKey t) by (intros Heq; by rewrite Heq in Hs).
      by rewrite lookup_insert_ne, E by congruence.
    + subst p. by rewrite lookup_insert_eq, E1.
Qed.

(** A run of the user access reconcile handler with no error and no
    removal logged as failed leaves exactly the desired keys tracked; the new
    ones are configured as desired, and the ones that were tracked before keep
    the configuration they had. *)
Theorem UserAccessReconcileHandler_applies desired c st st' :
  desired ≫= st_UserAccessConfig = Some c ->
  UserAccessReconcileHandler desired st = (None, [], st') ->
  (forall pk, is_Some (tracked st' pk) <-> pk ∈ uap_PublicKey <$> uac_Peers c) /\
  (forall p, p ∈ uac_Peers c -> tracked st (uap_PublicKey p) = None ->
    peer_of st' (uap_PublicKey p) = Some (uap_AllowedIPs p, uap_PSK p)) /\
  (forall pk, is_Some (tracked st pk) -> pk ∈ uap_PublicKey <$> uac_Peers c ->
    peer_of st' pk = peer_of st pk).
Proof.
  intros Hc. unfold UserAccessReconcileHandler. rewrite Hc.
  set (ds := build_map uap_PublicKey id (uac_Peers c)). set (cur := PeerPublicKeys st.1).
  pose proof (unstaled_loop ds cur st) as [Uc Uk Ua]. destruct (foldl (remove_stale ds) _ _) as [log s1].
  pose proof (access_filled (list_to_set cur) (uac_Peers c) s1) as [Fc Fk Fa].
  destruct (foldl (add_missing _) _ _) as [errs s2]. intros [= He -> ->].
  assert (errs = []) as -> by (by destruct errs). cbn in *. specialize (Ua eq_refl). specialize (Fa eq_refl).
  assert (Hds : forall pk, is_Some (ds !! pk) <-> pk ∈ uap_PublicKey <$> uac_Peers c) by (intros; apply build_map_is_Some).
  assert (Hcur : forall pk, pk ∈ (list_to_set cur : gset string) <-> is_Some (tracked st pk)).
  { intros pk. rewrite elem_of_list_to_set. apply elem_of_range_keys. }
  assert (Hcur' : forall pk, pk ∈ cur <-> is_Some (tracked st pk)) by (intros; apply elem_of_range_keys).
  split_and!.
  - intros pk. destruct (decide (pk ∈ uap_PublicKey <$> uac_Peers c)) as [Hin|Hin].
    + split; [done|]. intros _. destruct (decide (is_Some (tracked st pk))) as [Hs|Hs].
      * destruct (Fk pk) as [-> _]; [left; by apply Hcur|]. destruct (Uk pk) as [-> _]; [left; by apply Hds|done].
      * apply list_elem_of_fmap in Hin as (p & -> & Hp). apply Fa; [done|]. by rewrite Hcur.
    + split; [|tauto]. destruct (Fk pk) as [-> _]; [by right|]. destruct (decide (pk ∈ cur)) as [Hx|Hx].
      * rewrite Ua; [by intros [? ?]|done|]. apply eq_None_not_Some. by rewrite Hds.
      * destruct (Uk pk) as [-> _]; [by right|]. by rewrite <- Hcur'.
  - intros p Hp Hn. apply Fa; [done|]. rewrite Hcur, Hn. by intros [? ?].
  - intros pk Hs Hin. destruct (Fk pk) as [_ ->]; [left; by apply Hcur|].
    destruct (Uk pk) as [_ ->]; [left; by apply Hds|done].
Qed.

Lemma access_collect_nil errs (r : option string * W) w' :
  collect errs r = ([], w') -> errs = [] /\ r = (None, w').
Proof. destruct r as [[e|] v]; simpl; intros [= E <-]; [by destruct errs|by subst]. Qed.

(** User access shares the access interface with the bridge: when its
    teardown succeeds, the access interface no longer forwards, so a bridge
    that is still active on that interface has lost its invariant. *)
Theorem Teardown_breaks_bridge (mb : Bridge.Manager) m w m' w' :
  ua_active m = true -> Bridge.mg_active mb = true ->
  cf_AccessInterface (Bridge.mg_cfg mb) = cf_AccessInterface (ua_cfg m) ->
  ordinary (ua_iface m) -> ordinary (cf_AccessInterface (ua_cfg m)) ->
  ua_iface m <> cf_AccessInterface (ua_cfg m) ->
  Teardown (m, w) = (None, (m', w')) ->
  ~ forwards w' (cf_AccessInterface (ua_cfg m)) /\ ~ Bridge.bridge_inv mb w'.
Proof.
  intros Ha Hb Heq Hi Hacc Hne. unfold Teardown. rewrite Ha. cbn [negb].
  destruct (foldl _ _ _) as [errs1 w1]. destruct (collect errs1 _) as [errs2 w2] eqn:E2.
  destruct (collect errs2 _) as [errs3 w3] eqn:E3. intros [= He <- <-].
  assert (errs3 = []) as -> by (by destruct errs3).
  apply access_collect_nil in E3 as [-> E3]. apply access_collect_nil in E2 as [-> E2].
  apply DisableForwarding_ok in E2 as (_ & _ & F); [|done..].
  assert (Hf : ~ forwards w3 (cf_AccessInterface (ua_cfg m))).
  { rewrite (RemoveInterface_forwarding _ _ _ _ E3) by done. rewrite F. tauto. }
  split; [exact Hf|]. intros [_ Hfw _]. destruct (Hfw Hb) as [_ Hx]. apply Hf. by rewrite <- Heq.
Qed.
End theorems.

(** ** A concrete controller *)

Abbreviation peers_sim := (gmap (string * string) (list string * string)).

#[global] Instance sim_access : AccessController (sim_router * peers_sim) := {
  CreateInterface i _ w := (None, (sim_add_link i w.1, w.2));
  RemoveInterface i w := (None, (sim_del_link i w.1, filter (fun p => p.1.1 <> i) w.2));
  ConfigurePeer i pk ips psk w :=
    if decide (i ∈ sim_links w.1) then (None, (w.1, <[(i, pk) := (ips, psk)]> w.2))
    else (Some "no such device", w);
  ac_RemovePeer i pk w := (None, (w.1, delete (i, pk) w.2))
}.

#[global] Instance sim_access_view : AccessView (sim_router * peers_sim) := {
  access_peer w i pk := w.2 !! (i, pk)
}.

#[global] Instance sim_access_laws : AccessLaws (sim_router * peers_sim).
Proof.
  split.
  - intros i pk ips psk [k v] w'. cbn. case_decide; [|done]. intros [= <-]. cbn.
    split; [apply lookup_insert_eq|]. intros j p Hne. by apply lookup_insert_ne.
  - intros i pk ips psk [k v] e w'. cbn. case_decide; [done|]. by intros [= _ <-].
  - intros i pk [k v] w' [= <-]. cbn. split; [apply lookup_delete_eq|]. intros j p Hne.
    by apply lookup_delete_ne.
  - intros i pk [k v] e w'. done.
  - intros i [k v] e w' [= <- <-] j Hj. cbn. rewrite elem_of_difference, elem_of_singleton.
    split; [tauto|]. intros ?. done.
Qed.

(** ** At concrete inputs *)

Definition ex_ua_cfg : Config :=
  ApplyDefaults (mkConfig true "eth1" ["10.9.0.0/16"] None false 0 0 0 true "" 0 2 false 0 0 false "" 0 0).
Definition ex_up : UserAccessManager * (sim_router * peers_sim) :=
  (Setup (NewUserAccessManager ex_ua_cfg, (ex_router, ∅))).2.
Definition ex_peer (pk : string) (ips : list string) : UserAccessPeer := mkUserAccessPeer pk ips "" "".
Definition ex_two := (AddPeer (ex_peer "k2" ["10.1.0.2/32"]) (AddPeer (ex_peer "k1" ["10.1.0.1/32"]) ex_up).2).2.
Definition ex_three := (AddPeer (ex_peer "k3" ["10.1.0.3/32"]) ex_two).

(** The third peer is over the limit. *)
Lemma reachable_peers_configured_witness :
  ua_inv ex_three.2 /\ ex_three.1 = Some "bridge: user access: max peers reached" /\
  size (ua_activePeers ex_three.2.1) = 2%nat.
Proof.
  split; [|split; vm_compute; reflexivity].
  refine (reachable_peers_configured (HO := id_order) ex_ua_cfg ex_three.2 _).
  exists (ex_router, ∅). eapply rtc_l; [by apply step_setup|].
  eapply rtc_l; [apply (step_assign (ex_peer "k1" ["10.1.0.1/32"]))|].
  eapply rtc_l; [apply (step_assign (ex_peer "k2" ["10.1.0.2/32"]))|]. apply rtc_once, step_assign.
Defined.

Definition ex_desired : StateResponse :=
  mkStateResponse [] [] None ∅ None None
    (Some (mkUserAccessConfig true "wg-access" 51822 [ex_peer "k3" ["10.1.0.3/32"]; ex_peer "k1" ["10.1.0.9/32"]]))
    None None [] [].

Definition ex_applied : option (list string) * list string * (UserAccessManager * (sim_router * peers_sim)) :=
  UserAccessReconcileHandler (H1 := id_order) (Some ex_desired) ex_two.

(** [k2] is revoked, [k3] added, and [k1] keeps its old address. *)
Lemma UserAccessReconcileHandler_applies_witness :
  ex_applied.1 = (None, []) /\ ua_activePeers ex_applied.2.1 !! "k2" = None /\
  access_peer ex_applied.2.2 (ua_iface ex_applied.2.1) "k1" = access_peer ex_two.2 (ua_iface ex_two.1) "k1" /\
  access_peer ex_two.2 (ua_iface ex_two.1) "k1" = Some (["10.1.0.1/32"], "").
Proof.
  assert (E1 : ex_applied.1 = (None, [])) by (vm_compute; reflexivity).
  split; [exact E1|]. split; [vm_compute; reflexivity|]. split; [|vm_compute; reflexivity].
  assert (E : ex_applied = (None, [], ex_applied.2)) by (by rewrite <- E1, <- surjective_pairing).
  apply (UserAccessReconcileHandler_applies (HO := id_order) (Some ex_desired) _ ex_two ex_applied.2 eq_refl E).
  - vm_compute. by eexists.
  - by_compute.
Defined.

(** The bridge is up on [eth1] when user access is taken down. *)
Lemma Teardown_breaks_bridge_witness :
  let mb := (Bridge.Setup (H0 := id_order) "plexd0" (Bridge.NewManager ex_ua_cfg) ex_up.2).2 in
  let r := Teardown (H1 := id_order) (ex_up.1, mb.2) in
  Bridge.mg_active mb.1 = true /\ forwards mb.2 "eth1" /\ r.1 = None /\ ~ Bridge.bridge_inv mb.1 r.2.2.
Proof.
  cbv zeta. split; [vm_compute; reflexivity|]. split; [apply sim_forwards; by_compute|].
  split; [vm_compute; reflexivity|].
  refine (proj2 (Teardown_breaks_bridge (HO := id_order) _ ex_up.1
    (Bridge.Setup (H0 := id_order) "plexd0" (Bridge.NewManager ex_ua_cfg) ex_up.2).2.2 _ _ _ _ _ _ _ _ _)).
  all: try (vm_compute; reflexivity). all: by_compute.
Defined.
