(* ===== verification/Ingress.v ===== *)
(** * Public ingress
    (src/internal/bridge/ingress.go, ingress_handler.go, ingress_controller.go)

    A rule is a TCP listener with an accept loop of its own; every connection
    it accepts is proxied by further goroutines.  Rule objects are shared by
    the manager, the loop and the proxies: the manager's map holds pointers
    into a store.  The goroutines are the steps of a transition system; the
    operations of the manager are also given as the sequential functions the
    handlers call, where waiting for a goroutine that will not end is [None].

    Listeners are behind [IngressController]; [tls.X509KeyPair] is an
    argument. *)

From stdpp Require Import base strings list gmap relations pretty.
From S2P Require Import Prelude Base64 Net Types Diff Reconcile BridgeCfg DiffRestart.

(** ** The controller *)

(** [tls.Config]: one certificate and a minimal version. *)
Record TLSConfig := mkTLS { tls_Certificate : string; tls_MinVersion : Z }.
Definition VersionTLS12 : Z := 771.

(** Listeners are objects: [Listen] gets the identity of the one it opens. *)
Class IngressController (W : Type) := {
  Listen : nat -> string -> option TLSConfig -> W -> option string * W;
  ic_Close : nat -> W -> option string * W;
  (** whether the listener accepts connections *)
  accepting : W -> nat -> bool
}.

Class IngressLaws (W : Type) `{IngressController W} := {
  Listen_ok : forall l a c w w', Listen l a c w = (None, w') -> accepting w' l = true;
  Listen_frame : forall l a c w e w', Listen l a c w = (e, w') ->
    forall k, k <> l -> accepting w' k = accepting w k;
  Close_ok : forall l w w', ic_Close l w = (None, w') -> accepting w' l = false;
  Close_frame : forall l w e w', ic_Close l w = (e, w') ->
    forall k, k <> l -> accepting w' k = accepting w k
}.

(** ** State *)

Record activeRule := mkActiveRule {
  ar_rule : IngressRule;
  ar_listener : nat;
  ar_cancelled : bool;
  ar_done : bool
}.

(** A proxied connection: its rule object and how far it is. *)
Inductive conn_phase := Dialing | Proxying | Closed.
#[global] Instance conn_phase_eq_dec : EqDecision conn_phase.
Proof. solve_decision. Defined.
Record conn := mkConn { cn_rule : nat; cn_phase : conn_phase }.

Record IngressManager := mkIngress {
  ig_cfg : Config;
  ig_active : bool;
  ig_activeRules : gmap string nat;
  ig_connCount : Z
}.

(** The manager, the rule objects, the connections, the system. *)
Record ingress (W : Type) := mkState {
  i_mgr : IngressManager;
  i_rules : list activeRule;
  i_conns : list conn;
  i_world : W
}.
Arguments mkState {W} _ _ _ _.
Arguments i_mgr {W} _.
Arguments i_rules {W} _.
Arguments i_conns {W} _.
Arguments i_world {W} _.

Definition NewIngressManager (cfg : Config) : IngressManager := mkIngress cfg false ∅ 0.

Definition set_active (m : IngressManager) (a : bool) (r : gmap string nat) : IngressManager :=
  mkIngress (ig_cfg m) a r (ig_connCount m).

Definition Setup (m : IngressManager) : IngressManager :=
  if negb (cf_IngressEnabled (ig_cfg m)) then m else set_active m true (ig_activeRules m).

Definition cancel (r : activeRule) : activeRule :=
  mkActiveRule (ar_rule r) (ar_listener r) true (ar_done r).
Definition finish (r : activeRule) : activeRule :=
  mkActiveRule (ar_rule r) (ar_listener r) (ar_cancelled r) true.

Section manager.
Context {W : Type} `{IngressController W}.
Context (X509KeyPair : string -> string -> result string string).
Abbreviation state := (ingress W).

(** ** Adding a rule *)

Definition tls_config (rule : IngressRule) : result string (option TLSConfig) :=
  if decide (ir_Mode rule = "terminate") then
    match X509KeyPair (ir_CertPEM rule) (ir_KeyPEM rule) with
    | Err e => Err e
    | Ok cert => Ok (Some (mkTLS cert VersionTLS12))
    end
  else Ok None.

Definition AddRule (rule : IngressRule) (st : state) : option string * state :=
  let m := i_mgr st in
  if negb (ig_active m) then (Some "bridge: ingress: manager is not active", st)
  else if decide (is_Some (ig_activeRules m !! ir_RuleID rule)) then
    (Some "bridge: ingress: rule already exists", st)
  else if decide (Z.of_nat (size (ig_activeRules m)) >= cf_MaxIngressRules (ig_cfg m)) then
    (Some "bridge: ingress: max rules reached", st)
  else
    match tls_config rule with
    | Err e => (Some (String.append "bridge: ingress: load TLS certificate: " e), st)
    | Ok tlsCfg =>
        let ln := length (i_rules st) in
        match Listen ln (String.append ":" (pretty (ir_ListenPort rule))) tlsCfg (i_world st) with
        | (Some e, w) =>
            (Some (String.append "bridge: ingress: listen: " e),
             mkState m (i_rules st) (i_conns st) w)
        | (None, w) =>
            (None, mkState (set_active m (ig_active m)
                              (<[ir_RuleID rule := length (i_rules st)]> (ig_activeRules m)))
                     (i_rules st ++ [mkActiveRule rule ln false false]) (i_conns st) w)
        end
    end.

(** ** Removing a rule *)

(** [ar.cancel(); m.ctrl.Close(ar.listener)]; the error is logged. *)
Definition stop_rule (p : nat) (st : state) : state :=
  match i_rules st !! p with
  | None => st
  | Some r =>
      mkState (i_mgr st) (alter cancel p (i_rules st)) (i_conns st) (ic_Close (ar_listener r) (i_world st)).2
  end.

(** [<-ar.done]: the accept loop ends when its listener is closed; otherwise
    it sits in [Accept] and the wait does not end. *)
Definition await (p : nat) (st : state) : option state :=
  match i_rules st !! p with
  | None => None
  | Some r =>
      if ar_done r then Some st
      else if accepting (i_world st) (ar_listener r) then None
      else Some (mkState (i_mgr st) (alter finish p (i_rules st)) (i_conns st) (i_world st))
  end.

Definition untrack (ruleID : string) (st : state) : state :=
  mkState (set_active (i_mgr st) (ig_active (i_mgr st)) (delete ruleID (ig_activeRules (i_mgr st))))
    (i_rules st) (i_conns st) (i_world st).

Definition RemoveRule (ruleID : string) (st : state) : option state :=
  if negb (ig_active (i_mgr st)) then Some st
  else match ig_activeRules (i_mgr st) !! ruleID with
       | None => Some st
       | Some p => await p (stop_rule p (untrack ruleID st))
       end.

(** ** Teardown *)

Definition teardown_rule (acc : list string * state) (p : nat) : list string * state :=
  let '(errs, st) := acc in
  match i_rules st !! p with
  | None => acc
  | Some r =>
      let '(e, _) := ic_Close (ar_listener r) (i_world st) in
      (match e with Some e => errs ++ [e] | None => errs end, stop_rule p st)
  end.

Definition Teardown `{MapOrder} (st : state) : option (option (list string) * state) :=
  if negb (ig_active (i_mgr st)) then Some (None, st)
  else
    let ptrs := (range_map (ig_activeRules (i_mgr st))).*2 in
    let '(errs, st) := foldl teardown_rule ([], st) ptrs in
    let st := mkState (set_active (i_mgr st) false ∅) (i_rules st) (i_conns st) (i_world st) in
    st ← foldl (fun acc p => acc ≫= await p) (Some st) ptrs;
    Some (match errs with [] => None | _ => Some errs end, st).

Definition GetRule (ruleID : string) (st : state) : option IngressRule :=
  p ← ig_activeRules (i_mgr st) !! ruleID; ar_rule <$> i_rules st !! p.

Definition RuleIDs `{MapOrder} (st : state) : list string := range_keys (ig_activeRules (i_mgr st)).

(** ** Goroutines *)

Definition set_count (m : IngressManager) (c : Z) : IngressManager :=
  mkIngress (ig_cfg m) (ig_active m) (ig_activeRules m) c.

(** [acceptLoop] of rule [p]: a connection comes in. *)
Definition acceptLoop_conn (p : nat) (st : state) : state :=
  mkState (set_count (i_mgr st) (wrap_int (ig_connCount (i_mgr st) + 1))) (i_rules st)
    (i_conns st ++ [mkConn p Dialing]) (i_world st).

(** [Accept] fails: the loop returns and closes [done]. *)
Definition acceptLoop_exit (p : nat) (st : state) : state :=
  mkState (i_mgr st) (alter finish p (i_rules st)) (i_conns st) (i_world st).

(** [proxyConnection]: the target was dialed. *)
Definition proxyConnection_dialed (c : nat) (st : state) : state :=
  mkState (i_mgr st) (i_rules st) (alter (fun x => mkConn (cn_rule x) Proxying) c (i_conns st)) (i_world st).

(** [proxyConnection] returns: the dial failed, the context was cancelled or a
    copy ended; the deferred function closes the connection and counts down. *)
Definition proxyConnection_return (c : nat) (st : state) : state :=
  mkState (set_count (i_mgr st) (wrap_int (ig_connCount (i_mgr st) - 1))) (i_rules st)
    (alter (fun x => mkConn (cn_rule x) Closed) c (i_conns st)) (i_world st).

End manager.

(** The payload is ignored: the next cycle fetches the desired state. *)
Definition HandleIngressConfigUpdated {R E} (r : Reconciler (W := R) (E := E)) : Reconciler :=
  TriggerReconcile r.

Definition IngressStatus {W} (st : ingress W) : option IngressInfo :=
  if negb (ig_active (i_mgr st)) then None
  else Some (mkIngressInfo true (Z.of_nat (size (ig_activeRules (i_mgr st)))) (ig_connCount (i_mgr st))).

Definition IngressCapabilities (m : IngressManager) : option (gmap string string) :=
  if negb (cf_IngressEnabled (ig_cfg m)) then None
  else Some (<["max_ingress_rules" := pretty (cf_MaxIngressRules (ig_cfg m))]> {["ingress" := "true"]}).

(** ** Reachable states *)

Definition open_conns (l : list conn) : Z := Z.of_nat (length (filter (fun c => cn_phase c <> Closed) l)).

Record ingress_inv {W} `{IngressController W} (st : ingress W) : Prop := mkIngressInv {
  (** a tracked rule is a live object with an open listener *)
  gi_tracked : forall id p, ig_activeRules (i_mgr st) !! id = Some p ->
    exists r, i_rules st !! p = Some r /\ ir_RuleID (ar_rule r) = id /\ ar_cancelled r = false;
  gi_listener : forall p r, i_rules st !! p = Some r -> ar_listener r = p /\
    (ar_cancelled r = false -> accepting (i_world st) p = true);
  gi_conns : forall c x, i_conns st !! c = Some x -> is_Some (i_rules st !! cn_rule x);
  gi_count : ig_connCount (i_mgr st) = wrap_int (open_conns (i_conns st));
  gi_inactive : ig_active (i_mgr st) = false -> ig_activeRules (i_mgr st) = ∅;
  gi_bound : Z.of_nat (size (ig_activeRules (i_mgr st))) <= Z.max 0 (cf_MaxIngressRules (ig_cfg (i_mgr st)))
}.

Section steps.
Context {W : Type} `{IngressLaws W} {HO : MapOrder}.
Context (X509KeyPair : string -> string -> result string string).
Abbreviation state := (ingress W).
Implicit Types (st : state).

Definition with_mgr (m : IngressManager) st : state := mkState m (i_rules st) (i_conns st) (i_world st).

(** The locked sections of the manager's operations and the steps of the
    goroutines.  The unlocked part of a removal is [step_stop]. *)
Inductive step : state -> state -> Prop :=
| step_setup st : step st (with_mgr (Setup (i_mgr st)) st)
| step_add rule st : step st (AddRule X509KeyPair rule st).2
| step_untrack id st : step st (untrack id st)
| step_stop p st : (forall id, ig_activeRules (i_mgr st) !! id <> Some p) -> step st (stop_rule p st)
| step_teardown e st st' : Teardown st = Some (e, st') -> step st st'
| step_accept p r st : i_rules st !! p = Some r -> ar_done r = false ->
    accepting (i_world st) (ar_listener r) = true -> step st (acceptLoop_conn p st)
| step_exit p st : step st (acceptLoop_exit p st)
| step_dialed c x st : i_conns st !! c = Some x -> cn_phase x = Dialing ->
    step st (proxyConnection_dialed c st)
| step_return c x st : i_conns st !! c = Some x -> cn_phase x <> Closed ->
    step st (proxyConnection_return c st).

Definition reachable (cfg : Config) st : Prop :=
  exists w, rtc step (mkState (NewIngressManager cfg) [] [] w) st.

(** *** What the goroutines and the unlocked calls keep *)

(** Only rules of [ps] are changed: cancelled, finished, their listeners closed. *)
Record touches (ps : list nat) (st st' : state) : Prop := mkTouches {
  tc_mgr : i_mgr st' = i_mgr st;
  tc_conns : i_conns st' = i_conns st;
  tc_rules : forall p, i_rules st' !! p = i_rules st !! p \/
    exists r r', i_rules st !! p = Some r /\ i_rules st' !! p = Some r' /\ p ∈ ps /\
      ar_rule r' = ar_rule r /\ ar_listener r' = ar_listener r /\
      (ar_cancelled r = true -> ar_cancelled r' = true) /\ (ar_done r = true -> ar_done r' = true);
  tc_length : length (i_rules st') = length (i_rules st);
  tc_accepting : forall p, p ∉ ps -> accepting (i_world st') p = accepting (i_world st) p
}.

Definition listeners_ok st : Prop := forall p r, i_rules st !! p = Some r -> ar_listener r = p.

Lemma touches_refl ps st : touches ps st st.
Proof. split; auto. Qed.

Lemma touches_trans ps st1 st2 st3 : touches ps st1 st2 -> touches ps st2 st3 -> touches ps st1 st3.
Proof.
  intros [A1 A2 A3 A4 A5] [B1 B2 B3 B4 B5]. split; [congruence..| |congruence|].
  - intros p. destruct (A3 p) as [Ea|(r & r' & ? & Hr' & ? & ? & ? & ? & ?)],
      (B3 p) as [Eb|(s & s' & Hs & ? & ? & ? & ? & ? & ?)].
    + left. congruence.
    + right. exists s, s'. rewrite <- Ea. by split_and!.
    + right. exists r, r'. rewrite Eb. by split_and!.
    + right. exists r, s'. assert (s = r') as -> by congruence. split_and!; try done; try congruence; auto.
  - intros p Hp. rewrite B5, A5; done.
Qed.

Lemma touches_weaken ps qs st st' : (forall p, p ∈ ps -> p ∈ qs) -> touches ps st st' -> touches qs st st'.
Proof.
  intros Hs [A1 A2 A3 A4 A5]. split; [done..| |done|].
  - intros p. destruct (A3 p) as [?|(r & r' & ? & ? & ? & ?)]; [by left|]. right. exists r, r'.
    split_and!; naive_solver.
  - intros p Hp. apply A5. auto.
Qed.

Lemma touches_listeners ps st st' : touches ps st st' -> listeners_ok st -> listeners_ok st'.
Proof.
  intros [_ _ Hr _ _] Hl p r Hp. destruct (Hr p) as [E|(s & s' & Hs & Hs' & _ & _ & El & _)].
  - apply Hl. by rewrite <- E.
  - assert (s' = r) as -> by congruence. rewrite El. by apply Hl.
Qed.

(** Altering one rule object, with a world that differs for its listener only. *)
Lemma touches_alter (f : activeRule -> activeRule) p st w :
  (forall r, ar_rule (f r) = ar_rule r /\ ar_listener (f r) = ar_listener r /\
    (ar_cancelled r = true -> ar_cancelled (f r) = true) /\ (ar_done r = true -> ar_done (f r) = true)) ->
  (forall k, k <> p -> accepting w k = accepting (i_world st) k) ->
  touches [p] st (mkState (i_mgr st) (alter f p (i_rules st)) (i_conns st) w).
Proof.
  intros Hf Hw. split; cbn; [done..| | |].
  - intros q. destruct (decide (q = p)) as [->|Hq]; [|left; by rewrite list_lookup_alter_ne].
    destruct (i_rules st !! p) as [r|] eqn:Er; [right|left].
    + exists r, (f r). rewrite list_lookup_alter_eq, Er. destruct (Hf r) as (? & ? & ? & ?).
      split_and!; try done. set_solver.
    + by rewrite list_lookup_alter_eq, Er.
  - apply length_alter.
  - intros q Hq. apply Hw. set_solver.
Qed.

Lemma stop_rule_touches p st : listeners_ok st -> touches [p] st (stop_rule p st).
Proof.
  intros Hl. unfold stop_rule. destruct (i_rules st !! p) as [r|] eqn:Er; [|apply touches_refl].
  apply touches_alter; [by intros []|]. rewrite (Hl _ _ Er).
  destruct (ic_Close p (i_world st)) as [e w] eqn:E. by eapply Close_frame.
Qed.

Lemma acceptLoop_exit_touches p st : touches [p] st (acceptLoop_exit p st).
Proof. by apply touches_alter; [intros []|]. Qed.

Lemma await_Some p st st' : await p st = Some st' ->
  (exists r, i_rules st !! p = Some r /\ ar_done r = true /\ st' = st) \/ st' = acceptLoop_exit p st.
Proof.
  unfold await. destruct (i_rules st !! p) as [r|]; [|done]. destruct (ar_done r) eqn:Ed.
  - intros [= <-]. left. by exists r.
  - destruct (accepting _ _); [done|]. intros [= <-]. by right.
Qed.

Lemma await_touches p st st' : await p st = Some st' -> touches [p] st st'.
Proof.
  intros [(r & _ & _ & ->)| ->]%await_Some; [apply touches_refl|apply acceptLoop_exit_touches].
Qed.

(** *** The invariant is kept *)

Lemma inv_touches ps st st' :
  touches ps st st' ->
  (forall p r, p ∈ ps -> i_rules st' !! p = Some r -> ar_cancelled r = false ->
    accepting (i_world st') p = true) ->
  (forall id p r, ig_activeRules (i_mgr st) !! id = Some p -> i_rules st' !! p = Some r ->
    ar_cancelled r = false) ->
  ingress_inv st -> ingress_inv st'.
Proof.
  intros Ht Hps Hc [Gt Gl Gc Gn Gi Gb]. pose proof Ht as [Em Ec Er El Ea]. split; rewrite ?Em, ?Ec; try done.
  - intros id p Hp. destruct (Gt _ _ Hp) as (r & Hr & Hid & Hcr).
    destruct (Er p) as [E|(s & s' & Hs & Hs' & _ & E & _)].
    + exists r. by rewrite E.
    + exists s'. assert (s = r) as -> by congruence. split_and!; [done|congruence|by eapply Hc].
  - intros p r Hr. split; [eapply touches_listeners; [done| |done]; intros ? ? ?; by eapply Gl|]. intros Hcr.
    destruct (decide (p ∈ ps)) as [Hin|Hin]; [by eapply Hps|]. rewrite Ea by done.
    destruct (Er p) as [E|(s & s' & _ & _ & ? & _)]; [|done]. rewrite E in Hr. by apply (Gl p r).
  - intros c x Hx. apply lookup_lt_is_Some. rewrite El. apply lookup_lt_is_Some. by eapply Gc.
Qed.

Lemma open_conns_app l c : open_conns (l ++ [c]) = open_conns l + (if decide (cn_phase c <> Closed) then 1 else 0).
Proof. unfold open_conns. rewrite filter_app, length_app, filter_cons. case_decide; simpl; lia. Qed.

Lemma open_conns_alter f c x l :
  l !! c = Some x -> cn_phase x <> Closed ->
  open_conns (alter f c l) = open_conns l - (if decide (cn_phase (f x) <> Closed) then 0 else 1).
Proof.
  revert c. induction l as [|y l IH]; intros [|c]; [done..| |]; cbn [lookup list_lookup].
  - intros [= ->] Hx. unfold open_conns. cbn [alter list_alter]. rewrite !filter_cons.
    rewrite (decide_True _ _ Hx). case_decide; cbn [length]; lia.
  - intros Hl Hx. specialize (IH c Hl Hx). unfold open_conns in *. cbn [alter list_alter].
    rewrite !filter_cons. destruct (decide (cn_phase y <> Closed)); cbn [length]; lia.
Qed.

Lemma AddRule_inv rule st : ingress_inv st -> ingress_inv (AddRule X509KeyPair rule st).2.
Proof.
  intros HI. unfold AddRule. destruct (ig_active (i_mgr st)) eqn:Hact; [|done]. cbn [negb].
  case_decide as Hd; [done|]. case_decide as Hz; [done|]. destruct (tls_config X509KeyPair rule); [|done].
  apply eq_None_not_Some in Hd. destruct (Listen _ _ _ _) as [e w] eqn:E.
  assert (Hacc : forall p r, i_rules st !! p = Some r -> accepting w p = accepting (i_world st) p).
  { intros p r Hp%lookup_lt_Some. apply (Listen_frame _ _ _ _ _ _ E). lia. }
  destruct HI as [Gt Gl Gc Gn Gi Gb]. destruct e as [e|]; split; cbn; try done.
  - intros p r Hp. rewrite (Hacc _ _ Hp). by apply Gl.
  - intros id p [[<- <-]|[Hne Hp]]%lookup_insert_Some.
    + eexists. by rewrite lookup_app_r, Nat.sub_diag by lia.
    + destruct (Gt _ _ Hp) as (r & Hr & ?). exists r. by rewrite lookup_app_l by by eapply lookup_lt_Some.
  - intros p r [Hp|[Hlen Hp]]%lookup_app_Some; [rewrite (Hacc _ _ Hp); by apply Gl|].
    apply list_lookup_singleton_Some in Hp as [Hp0 <-]. cbn.
    assert (p = length (i_rules st)) as -> by lia. split; [done|]. intros _. by eapply Listen_ok.
  - intros c x Hx. destruct (Gc _ _ Hx) as [r Hr]. exists r. by rewrite lookup_app_l by by eapply lookup_lt_Some.
  - rewrite map_size_insert_None by done. lia.
Qed.

Lemma untrack_inv id st : ingress_inv st -> ingress_inv (untrack id st).
Proof.
  intros [Gt Gl Gc Gn Gi Gb]. split; cbn; try done.
  - intros id' p [_ Hp]%lookup_delete_Some. by apply Gt.
  - intros Ha. rewrite Gi by done. apply delete_empty.
  - destruct (ig_activeRules (i_mgr st) !! id) eqn:Ei.
    + rewrite map_size_delete_Some by (by rewrite Ei). lia.
    + by rewrite delete_id.
Qed.

Lemma stop_rule_inv p st :
  (forall id, ig_activeRules (i_mgr st) !! id <> Some p) -> ingress_inv st -> ingress_inv (stop_rule p st).
Proof.
  intros Hp HI. assert (Hl : listeners_ok st) by (intros q r Hr; by apply (gi_listener _ HI)).
  apply (inv_touches [p] st); [by apply stop_rule_touches| | |done].
  - intros q r ->%list_elem_of_singleton. unfold stop_rule. destruct (i_rules st !! p) eqn:Er; [|congruence].
    cbn. rewrite list_lookup_alter_eq, Er. by intros [= <-].
  - intros id q r Hq Hr. assert (q <> p) by (intros ->; by eapply Hp).
    destruct (gi_tracked _ HI _ _ Hq) as (r' & Hr' & _ & Hc).
    destruct (tc_rules _ _ _ (stop_rule_touches p st Hl) q) as [E|(? & ? & _ & _ & ? & _)]; [congruence|set_solver].
Qed.

Lemma acceptLoop_exit_inv p st : ingress_inv st -> ingress_inv (acceptLoop_exit p st).
Proof.
  intros HI. apply (inv_touches [p] st); [apply acceptLoop_exit_touches| | |done].
  - intros q r ->%list_elem_of_singleton. cbn. rewrite list_lookup_alter_eq.
    destruct (i_rules st !! p) as [r0|] eqn:Er; [|done]. intros [= <-] Hc. by apply (gi_listener _ HI p r0).
  - intros id q r Hq. destruct (gi_tracked _ HI _ _ Hq) as (r0 & Hr0 & _ & Hc). cbn.
    destruct (decide (q = p)) as [->|Hne]; [|rewrite list_lookup_alter_ne by done; congruence].
    rewrite list_lookup_alter_eq, Hr0. by intros [= <-].
Qed.

Lemma await_inv p st st' : await p st = Some st' -> ingress_inv st -> ingress_inv st'.
Proof.
  intros [(r & _ & _ & ->)| ->]%await_Some; [done|]. apply acceptLoop_exit_inv.
Qed.

(** *** Teardown *)

Lemma teardown_loop_touches ps qs : forall errs st,
  (forall p, p ∈ qs -> p ∈ ps) -> listeners_ok st ->
  touches ps st (foldl teardown_rule (errs, st) qs).2.
Proof.
  induction qs as [|q qs IH]; intros errs st Hs Hl; [apply touches_refl|]. cbn [foldl].
  unfold teardown_rule at 2. destruct (i_rules st !! q) as [r|] eqn:Er; [|apply IH; [set_solver|done]].
  destruct (ic_Close _ _) as [e w].
  assert (touches ps st (stop_rule q st)).
  { eapply touches_weaken; [|by apply stop_rule_touches]. set_solver. }
  eapply touches_trans; [done|]. apply IH; [set_solver|]. by eapply touches_listeners.
Qed.

Lemma teardown_loop_cancels qs : forall errs st q r,
  listeners_ok st -> q ∈ qs -> i_rules (foldl teardown_rule (errs, st) qs).2 !! q = Some r ->
  ar_cancelled r = true.
Proof.
  induction qs as [|p qs IH]; intros errs st q r Hl Hq; [set_solver|]. cbn [foldl].
  unfold teardown_rule at 2. destruct (i_rules st !! p) as [r0|] eqn:Er.
  - destruct (ic_Close _ _) as [e w]. set (errs' := match e with Some _ => _ | None => _ end).
    assert (Hl' : listeners_ok (stop_rule p st)) by (eapply touches_listeners; [by apply stop_rule_touches|done]).
    apply elem_of_cons in Hq as [->|Hq]; [|by apply IH]. intros Hr.
    destruct (tc_rules _ _ _ (teardown_loop_touches qs qs errs' _ (fun _ => id) Hl') p)
      as [E|(s & s' & Hs & Hs' & _ & _ & _ & Hc & _)].
    + rewrite E in Hr. unfold stop_rule in Hr. rewrite Er in Hr. cbn in Hr.
      rewrite list_lookup_alter_eq, Er in Hr. by injection Hr as <-.
    + assert (s' = r) as -> by congruence. apply Hc. unfold stop_rule in Hs. rewrite Er in Hs. cbn in Hs.
      rewrite list_lookup_alter_eq, Er in Hs. by injection Hs as <-.
  - apply elem_of_cons in Hq as [->|Hq]; [|by apply IH]. intros Hr. exfalso.
    pose proof (tc_length _ _ _ (teardown_loop_touches qs qs errs _ (fun _ => id) Hl)) as El.
    apply lookup_lt_Some in Hr. apply lookup_ge_None in Er. lia.
Qed.

Lemma await_all_inv qs : forall st st',
  foldl (fun acc p => acc ≫= await p) (Some st) qs = Some st' -> ingress_inv st -> ingress_inv st'.
Proof.
  induction qs as [|q qs IH]; intros st st'; cbn [foldl]; [by intros [= <-]|]. cbn [mbind option_bind].
  destruct (await q st) as [s1|] eqn:E.
  - intros Hf HI. eapply IH; [done|]. by eapply await_inv.
  - intros Hf. exfalso. clear - Hf. induction qs; [done|]. by apply IHqs.
Qed.

Lemma Teardown_inv st e st' : Teardown st = Some (e, st') -> ingress_inv st -> ingress_inv st'.
Proof.
  unfold Teardown. destruct (ig_active (i_mgr st)); [|by intros [= <- <-]]. cbn [negb].
  set (ptrs := (range_map _).*2). intros E HI.
  assert (Hl : listeners_ok st) by (intros q r Hr; by apply (gi_listener _ HI)).
  pose proof (teardown_loop_touches ptrs ptrs [] st (fun _ => id) Hl) as Ht.
  pose proof (fun q r => teardown_loop_cancels ptrs [] st q r Hl) as Hc.
  destruct (foldl teardown_rule ([], st) ptrs) as [errs s1]. cbn in Ht, Hc.
  destruct (foldl _ (Some _) ptrs) as [s2|] eqn:Ef; [|done]. injection E as <- <-.
  eapply await_all_inv; [exact Ef|]. destruct HI as [Gt Gl Gc Gn Gi Gb]. pose proof Ht as [Em Ec Er El Ea].
  split; cbn; try done.
  - intros p r Hr. split; [by eapply (touches_listeners ptrs st s1)|]. intros Hcr.
    destruct (decide (p ∈ ptrs)) as [Hin|Hin]; [rewrite (Hc p r) in Hcr; done|]. rewrite Ea by done.
    destruct (Er p) as [E|(? & ? & _ & _ & ? & _)]; [|done]. rewrite E in Hr. by apply (Gl p r).
  - rewrite Ec. intros c x Hx. apply lookup_lt_is_Some. rewrite El. apply lookup_lt_is_Some. by eapply Gc.
  - by rewrite Em, Ec.
  - rewrite map_size_empty. lia.
Qed.

Lemma step_ingress st st' : step st st' -> ingress_inv st -> ingress_inv st'.
Proof.
  destruct 1 as [st|rule st|id st|p st Hp|e st st' E|p r st Hr Hd Ha|p st|c x st Hx Hph|c x st Hx Hph].
  - intros [Gt Gl Gc Gn Gi Gb]. unfold Setup. destruct (cf_IngressEnabled _); by split.
  - apply AddRule_inv.
  - apply untrack_inv.
  - by apply stop_rule_inv.
  - by eapply Teardown_inv.
  - intros [Gt Gl Gc Gn Gi Gb]. split; cbn; try done.
    + intros c x [Hx|[_ Hx]]%lookup_app_Some; [by eapply Gc|].
      apply list_lookup_singleton_Some in Hx as [_ <-]. by eexists.
    + rewrite Gn, wrap_int_add, open_conns_app. by rewrite decide_True.
  - apply acceptLoop_exit_inv.
  - intros [Gt Gl Gc Gn Gi Gb]. split; cbn; try done.
    + intros d y Hy. destruct (decide (d = c)) as [->|Hne].
      * rewrite list_lookup_alter_eq, Hx in Hy. injection Hy as <-. cbn. by eapply Gc.
      * rewrite list_lookup_alter_ne in Hy by done. by eapply Gc.
    + rewrite Gn. erewrite open_conns_alter by (done || by rewrite Hph).
      rewrite decide_True by done. f_equal. lia.
  - intros [Gt Gl Gc Gn Gi Gb]. split; cbn; try done.
    + intros d y Hy. destruct (decide (d = c)) as [->|Hne].
      * rewrite list_lookup_alter_eq, Hx in Hy. injection Hy as <-. cbn. by eapply Gc.
      * rewrite list_lookup_alter_ne in Hy by done. by eapply Gc.
    + rewrite Gn. erewrite open_conns_alter by done. rewrite decide_False by tauto.
      apply (wrap_int_add _ (-1)).
Qed.

Lemma steps_inv st st' : rtc step st st' -> ingress_inv st -> ingress_inv st'.
Proof. induction 1; eauto using step_ingress. Qed.

Lemma reachable_ingress cfg st : reachable cfg st -> ingress_inv st.
Proof.
  intros [w Hr]. assert (HI : ingress_inv (mkState (NewIngressManager cfg) [] [] w)).
  { split; cbn; try done; [intros ? ? Hx; by rewrite lookup_nil in Hx..|rewrite map_size_empty; lia]. }
  by eapply steps_inv.
Qed.

(** In every interleaving of the manager's calls, the accept loops and the
    proxied connections: each tracked rule has an open listener, there are at
    most MaxIngressRules of them, an inactive manager has none, and the
    connection count that is reported equals the number of open connections
    (as a 64-bit integer). *)
Theorem reachable_ingress_inv cfg st : reachable cfg st -> ingress_inv st.
Proof. apply reachable_ingress. Qed.

(** *** Removal *)

Lemma RemoveRule_steps id st st' : RemoveRule id st = Some st' -> ingress_inv st -> rtc step st st'.
Proof.
  unfold RemoveRule. destruct (ig_active _); [|by intros [= <-]]. cbn [negb].
  destruct (ig_activeRules (i_mgr st) !! id) as [p|] eqn:Ep; [|by intros [= <-]].
  intros Ew HI. eapply rtc_l; [apply (step_untrack id)|]. eapply rtc_l; [apply (step_stop p)|].
  - intros id'. cbn. intros [Hne Hp]%lookup_delete_Some.
    destruct (gi_tracked _ HI _ _ Ep) as (r & Hr & Hid & _), (gi_tracked _ HI _ _ Hp) as (r' & Hr' & Hid' & _).
    congruence.
  - apply await_Some in Ew as [(r & _ & _ & ->)| ->]; [done|]. apply rtc_once, step_exit.
Qed.

(** The accept loop of [p] has returned. *)
Definition finished (p : nat) st : Prop := exists r, i_rules st !! p = Some r /\ ar_done r = true.

(** The connections accepted for [p] so far. *)
Definition conns_of (p : nat) st : nat := length (filter (fun c => cn_rule c = p) (i_conns st)).

Lemma touches_finished ps st st' p :
  touches ps st st' -> finished p st -> finished p st' /\ conns_of p st' = conns_of p st.
Proof.
  intros [_ Ec Er _ _] (r & Hr & Hd). unfold conns_of. rewrite Ec. split; [|done].
  destruct (Er p) as [E|(s & s' & Hs & Hs' & _ & _ & _ & _ & Hdd)].
  - exists r. by rewrite E.
  - exists s'. split; [done|]. apply Hdd. congruence.
Qed.

Lemma await_all_touches qs ps : forall st st',
  (forall p, p ∈ qs -> p ∈ ps) ->
  foldl (fun acc p => acc ≫= await p) (Some st) qs = Some st' -> touches ps st st'.
Proof.
  induction qs as [|q qs IH]; intros st st' Hs; cbn [foldl]; [intros [= <-]; apply touches_refl|].
  cbn [mbind option_bind]. destruct (await q st) as [s1|] eqn:E.
  - intros Hf. eapply touches_trans; [|eapply IH; [set_solver|done]].
    eapply touches_weaken; [|by eapply await_touches]. set_solver.
  - intros Hf. exfalso. clear - Hf. induction qs; [done|]. by apply IHqs.
Qed.

Lemma conns_of_alter (f : conn -> conn) c p l :
  (forall x, cn_rule (f x) = cn_rule x) ->
  length (filter (fun x => cn_rule x = p) (alter f c l)) = length (filter (fun x => cn_rule x = p) l).
Proof.
  intros Hf. revert c. induction l as [|y l IH]; intros [|c]; [done..| |]; cbn [alter list_alter];
    rewrite !filter_cons; rewrite ?Hf; case_decide; cbn [length]; auto.
Qed.

Lemma step_finished p st st' :
  step st st' -> listeners_ok st -> finished p st -> finished p st' /\ conns_of p st' = conns_of p st.
Proof.
  destruct 1 as [st|rule st|id st|q st Hq|e st st' E|q r st Hr Hd Ha|q st|c x st Hx Hph|c x st Hx Hph];
    intros Hl Hf.
  - done.
  - unfold AddRule. repeat (case_match; simplify_eq/=; try done). split; [|done].
    destruct Hf as (r & Hr & Hd). exists r. cbn. by rewrite lookup_app_l by by eapply lookup_lt_Some.
  - done.
  - eapply touches_finished; [by apply stop_rule_touches|done].
  - unfold Teardown in E. destruct (ig_active _); cbn [negb] in E; [revert E|injection E as _ <-; by split].
    set (ptrs := (range_map _).*2).
    pose proof (teardown_loop_touches ptrs ptrs [] st (fun _ => id) Hl) as Ht.
    destruct (foldl teardown_rule ([], st) ptrs) as [errs s1]. cbn in Ht.
    destruct (foldl _ (Some _) ptrs) as [s2|] eqn:Ef; [|done]. intros [= _ <-].
    apply (await_all_touches ptrs ptrs) in Ef; [|done].
    destruct (touches_finished _ _ _ p Ht Hf) as [Hf1 Hc1].
    destruct (touches_finished _ _ _ p Ef Hf1) as [Hf2 Hc2]. split; [done|].
    rewrite <- Hc1. exact Hc2.
  - split; [done|]. unfold conns_of. cbn. rewrite filter_app, length_app.
    destruct Hf as (r' & Hr' & Hd'). assert (q <> p) by (intros ->; congruence).
    rewrite filter_cons_False by done. cbn. lia.
  - eapply touches_finished; [apply acceptLoop_exit_touches|done].
  - split; [done|]. unfold conns_of. cbn. by apply conns_of_alter.
  - split; [done|]. unfold conns_of. cbn. by apply conns_of_alter.
Qed.

(** C29. When [RemoveRule] returns, the rule is gone for good: its id is free,
    its context is cancelled, its accept loop has returned, and whatever
    happens afterwards no connection is ever accepted for it again. *)
Theorem RemoveRule_final cfg id p st st1 st2 :
  reachable cfg st -> ig_active (i_mgr st) = true -> ig_activeRules (i_mgr st) !! id = Some p ->
  RemoveRule id st = Some st1 -> rtc step st1 st2 ->
  ig_activeRules (i_mgr st1) !! id = None /\
  (exists r, i_rules st1 !! p = Some r /\ ar_cancelled r = true /\ ar_done r = true) /\
  conns_of p st2 = conns_of p st1.
Proof.
  intros HR Hact Ep E Hr. pose proof (reachable_ingress _ _ HR) as HI.
  pose proof (RemoveRule_steps _ _ _ E HI) as Hst. unfold RemoveRule in E. rewrite Hact, Ep in E. cbn [negb] in E.
  destruct (gi_tracked _ HI _ _ Ep) as (r & Hpr & _ & _).
  assert (Hs : i_rules (stop_rule p (untrack id st)) !! p = Some (cancel r)).
  { unfold stop_rule. cbn. rewrite Hpr. cbn. by rewrite list_lookup_alter_eq, Hpr. }
  assert (Hm : i_mgr st1 = i_mgr (untrack id st)).
  { rewrite (tc_mgr _ _ _ (await_touches _ _ _ E)). unfold stop_rule. cbn. by rewrite Hpr. }
  assert (Hdone : exists r, i_rules st1 !! p = Some r /\ ar_cancelled r = true /\ ar_done r = true).
  { apply await_Some in E as [(r' & Hr' & Hd & ->)| ->].
    - exists r'. rewrite Hs in Hr'. by injection Hr' as <-.
    - exists (finish (cancel r)). cbn. by rewrite list_lookup_alter_eq, Hs. }
  split_and!; [rewrite Hm; apply lookup_delete_eq|done|].
  assert (Hf : finished p st1) by (destruct Hdone as (r' & ? & ? & ?); by exists r').
  assert (HI1 : ingress_inv st1) by (by eapply steps_inv).
  clear - Hr Hf HI1 H0. induction Hr as [|s1 s2 s3 Hstep _ IH]; [done|].
  destruct (step_finished p _ _ Hstep) as [Hf' Hc]; [intros q r Hq; by apply (gi_listener _ HI1)|done|].
  rewrite <- Hc. apply IH; [done|by eapply step_ingress].
Qed.

(** *** Termination *)

Lemma await_closed p st r :
  i_rules st !! p = Some r -> accepting (i_world st) (ar_listener r) = false -> is_Some (await p st).
Proof. intros Hr Ha. unfold await. rewrite Hr, Ha. destruct (ar_done r); by eexists. Qed.

Lemma stop_rule_closed p r st :
  listeners_ok st -> i_rules st !! p = Some r -> (ic_Close p (i_world st)).1 = None ->
  accepting (i_world (stop_rule p st)) p = false.
Proof.
  intros Hl Hr Hc. unfold stop_rule. rewrite Hr. cbn. rewrite (Hl _ _ Hr).
  destruct (ic_Close p (i_world st)) as [e w] eqn:E. cbn in *. subst e. by eapply Close_ok.
Qed.

Section total_close.
Hypothesis close_total : forall p (w : W), (ic_Close p w).1 = None.

Lemma teardown_loop_closed qs : forall errs st q,
  listeners_ok st -> is_Some (i_rules st !! q) ->
  (q ∈ qs \/ accepting (i_world st) q = false) ->
  accepting (i_world (foldl teardown_rule (errs, st) qs).2) q = false.
Proof.
  induction qs as [|p qs IH]; intros errs st q Hl Hs Hq; cbn [foldl]; [destruct Hq; [set_solver|done]|].
  unfold teardown_rule at 2. destruct (i_rules st !! p) as [r|] eqn:Er.
  2:{ apply IH; [done..|]. destruct Hq as [[->|?]%elem_of_cons|?]; auto. rewrite Er in Hs. by destruct Hs. }
  destruct (ic_Close _ _) as [e w]. pose proof (stop_rule_touches p st Hl) as Ht. apply IH.
  - by eapply touches_listeners.
  - apply lookup_lt_is_Some. rewrite (tc_length _ _ _ Ht). by apply lookup_lt_is_Some.
  - destruct (decide (q = p)) as [->|Hne]; [right; by eapply stop_rule_closed|].
    destruct Hq as [[?|?]%elem_of_cons|Ha]; [done|by left|right].
    rewrite (tc_accepting _ _ _ Ht); [done|set_solver].
Qed.

Lemma await_all_closed qs : forall st,
  (forall q, q ∈ qs -> exists r, i_rules st !! q = Some r /\ accepting (i_world st) (ar_listener r) = false) ->
  is_Some (foldl (fun acc p => acc ≫= await p) (Some st) qs).
Proof.
  induction qs as [|q qs IH]; intros st Hq; cbn [foldl]; [by eexists|]. cbn [mbind option_bind].
  destruct (Hq q) as (r & Hr & Ha); [set_solver|]. destruct (await_closed q st r Hr Ha) as [s1 E]. rewrite E.
  apply IH. intros p Hp. destruct (Hq p) as (r' & Hr' & Ha'); [set_solver|].
  pose proof (await_touches _ _ _ E) as Ht.
  assert (i_world s1 = i_world st) as -> by (apply await_Some in E as [(? & _ & _ & ->)| ->]; done).
  destruct (tc_rules _ _ _ Ht p) as [E'|(x & x' & Hx & Hx' & _ & _ & El & _)].
  - exists r'. by rewrite E'.
  - exists x'. split; [done|]. rewrite El. by assert (x = r') as -> by congruence.
Qed.

(** With a controller that closes listeners without error, removing a rule
    and tearing the manager down terminate in every reachable state: the
    accept loops they wait for return. *)
Theorem removal_terminates cfg st :
  reachable cfg st -> (forall id, is_Some (RemoveRule id st)) /\ is_Some (Teardown st).
Proof.
  intros HI%reachable_ingress. assert (Hl : listeners_ok st) by (intros q r Hr; by apply (gi_listener _ HI)).
  split.
  - intros id. unfold RemoveRule. destruct (ig_active _); [|by eexists]. cbn [negb].
    destruct (ig_activeRules (i_mgr st) !! id) as [p|] eqn:Ep; [|by eexists].
    destruct (gi_tracked _ HI _ _ Ep) as (r & Hr & _ & _).
    eapply (await_closed _ _ (cancel r)).
    + unfold stop_rule. cbn. rewrite Hr. cbn. by rewrite list_lookup_alter_eq, Hr.
    + cbn. rewrite (Hl _ _ Hr). by apply (stop_rule_closed p r (untrack id st)).
  - unfold Teardown. destruct (ig_active _); [|by eexists]. cbn [negb]. set (ptrs := (range_map _).*2).
    assert (Hp : forall p, p ∈ ptrs -> is_Some (i_rules st !! p)).
    { intros p ([id p'] & -> & Hin)%list_elem_of_fmap. apply elem_of_range_map in Hin.
      destruct (gi_tracked _ HI _ _ Hin) as (r & Hr & _). by eexists. }
    pose proof (teardown_loop_touches ptrs ptrs [] st (fun _ => id) Hl) as Ht.
    pose proof (fun q => teardown_loop_closed ptrs [] st q Hl) as Hc.
    destruct (foldl teardown_rule ([], st) ptrs) as [errs s1]. cbn in Ht, Hc.
    destruct (await_all_closed ptrs (mkState (set_active (i_mgr s1) false ∅) (i_rules s1) (i_conns s1) (i_world s1)))
      as [s2 ->]; [|by eexists]. intros q Hq. cbn.
    assert (is_Some (i_rules s1 !! q)) as [r Hr].
    { apply lookup_lt_is_Some. rewrite (tc_length _ _ _ Ht). by apply lookup_lt_is_Some, Hp. }
    exists r. split; [done|]. rewrite (touches_listeners _ _ _ Ht Hl _ _ Hr). apply Hc; auto.
Qed.
End total_close.

(** ** The reconcile handler *)

#[global] Instance ingress_reconcilable : Reconcilable state IngressRule := {
  rc_key := ir_RuleID;
  rc_tracked st := omap (fun p => ar_rule <$> i_rules st !! p) (ig_activeRules (i_mgr st));
  rc_handle st id := ig_activeRules (i_mgr st) !! id;
  rc_add := AddRule X509KeyPair;
  rc_remove := RemoveRule;
  rc_inv := ingress_inv
}.

Definition IngressReconcileHandler (desired : option StateResponse) st
    : option (option (list string) * state) :=
  match desired ≫= st_IngressConfig with
  | None => Some (None, st)
  | Some c => reconcile_items (ic_Rules c) st
  end.

Definition HandleIngressRuleAssigned (payload : option IngressRule) st : option string * state :=
  match payload with
  | None => (Some "bridge: ingress_rule_assigned: parse payload", st)
  | Some rule =>
      let '(e, st) := AddRule X509KeyPair rule st in
      (String.append "bridge: ingress_rule_assigned: " <$> e, st)
  end.

Definition HandleIngressRuleRevoked (payload : option string) st : option (option string * state) :=
  match payload with
  | None => Some (Some "bridge: ingress_rule_revoked: parse payload", st)
  | Some ruleID => st ← RemoveRule ruleID st; Some (None, st)
  end.

Lemma tracked_lookup st id :
  rc_tracked st !! id = GetRule id st.
Proof. cbn. by rewrite lookup_omap. Qed.

#[global] Instance ingress_reconcilable_laws : ReconcilableLaws state IngressRule.
Proof.
  split.
  - intros rule st st' HI E. change (AddRule X509KeyPair rule st = (None, st')) in E.
    split; [pose proof (AddRule_inv rule st HI) as HI'; by rewrite E in HI'|].
    unfold AddRule in E. destruct (ig_active _); [|done]. cbn [negb] in E.
    case_decide as Hd; [done|]. case_decide as Hz; [done|].
    destruct (tls_config _ _); [|done]. destruct (Listen _ _ _ _) as [[e|] w]; [done|]. injection E as <-.
    apply eq_None_not_Some in Hd. split_and!.
    + rewrite tracked_lookup. unfold GetRule. cbn [rc_key ingress_reconcilable]. by rewrite Hd.
    + apply map_eq. intros id. rewrite tracked_lookup, lookup_insert. unfold GetRule. cbn.
      rewrite lookup_insert. case_decide as Hid; cbn; [by rewrite lookup_app_r, Nat.sub_diag by lia|].
      rewrite lookup_omap. destruct (ig_activeRules (i_mgr st) !! id) as [p|] eqn:Ep; [|done]. cbn.
      destruct (gi_tracked _ HI _ _ Ep) as (r & Hr & _). by rewrite lookup_app_l by by eapply lookup_lt_Some.
    + intros k Hk. cbn in *. by rewrite lookup_insert_ne.
  - intros rule st e st' HI E. change (AddRule X509KeyPair rule st = (Some e, st')) in E.
    split; [pose proof (AddRule_inv rule st HI) as HI'; by rewrite E in HI'|].
    unfold AddRule in E. repeat (case_match; simplify_eq/=; try done).
  - intros id st st' HI E. change (RemoveRule id st = Some st') in E.
    assert (HI' : ingress_inv st').
    { exact (steps_inv _ _ (RemoveRule_steps _ _ _ E HI) HI). }
    split; [done|]. unfold RemoveRule in E. destruct (ig_active (i_mgr st)) eqn:Ha; cbn [negb] in E.
    2:{ injection E as <-. cbn. by rewrite (gi_inactive _ HI Ha), omap_empty, delete_empty. }
    destruct (ig_activeRules (i_mgr st) !! id) as [p|] eqn:Ep.
    2:{ injection E as <-. split; [|done]. rewrite delete_id; [done|]. rewrite tracked_lookup.
        unfold GetRule. by rewrite Ep. }
    assert (Hl : listeners_ok (untrack id st)) by (intros q r Hr; by apply (gi_listener _ HI)).
    pose proof (touches_trans _ _ _ _ (stop_rule_touches p _ Hl) (await_touches _ _ _ E)) as [Em _ Er _ _].
    split; [|intros j Hj; cbn; rewrite Em; cbn; by rewrite lookup_delete_ne].
    apply map_eq. intros j. rewrite lookup_delete, !tracked_lookup. unfold GetRule. rewrite Em. cbn.
    rewrite lookup_delete. case_decide; [done|]. destruct (ig_activeRules (i_mgr st) !! j) as [q|]; [|done].
    cbn. destruct (Er q) as [E'|(s & s' & Hs & Hs' & _ & E' & _)]; [by rewrite E'|].
    rewrite Hs'. cbn in Hs. rewrite Hs. cbn. by rewrite E'.
Qed.

(** The ingress reconcile handler: whatever fails, no rule survives that is
    not desired with exactly its configuration; a rule that is desired as it
    is keeps its listener and its connections, it is the same object; and when
    the handler reports no error the rules are exactly the desired ones. *)
Theorem IngressReconcileHandler_applies cfg desired c st e st' :
  reachable cfg st -> desired ≫= st_IngressConfig = Some c -> NoDup (ir_RuleID <$> ic_Rules c) ->
  IngressReconcileHandler desired st = Some (e, st') ->
  let want := build_map ir_RuleID (fun r => r) (ic_Rules c) in
  (forall id r, GetRule id st' = Some r -> want !! id = Some r) /\
  (forall id r, GetRule id st = Some r -> want !! id = Some r ->
    GetRule id st' = Some r /\ ig_activeRules (i_mgr st') !! id = ig_activeRules (i_mgr st) !! id) /\
  (e = None -> forall id, GetRule id st' = want !! id).
Proof.
  intros HI%reachable_ingress Hc Hnd. unfold IngressReconcileHandler. rewrite Hc. intros E.
  pose proof (reconcile_items_sound (ic_Rules c) Hnd st e st' HI E) as (_ & Hs & Hk).
  cbv zeta. split_and!.
  - intros id r Hr. apply Hs. by rewrite tracked_lookup.
  - intros id r Hr Hw. rewrite <- Hr, <- !tracked_lookup.
    apply Hk; rewrite tracked_lookup, Hr; [by eexists|]. by rewrite <- Hw.
  - intros -> id. rewrite <- tracked_lookup.
    pose proof (reconcile_items_exact (ic_Rules c) Hnd st st' HI E) as Hx. by rewrite Hx.
Qed.
End steps.

(** ** A concrete controller: the open listeners and their addresses *)

Abbreviation listeners := (gmap nat string).

#[global] Instance sim_ingress : IngressController listeners := {
  Listen l a _ w :=
    if decide (a ∈ (map_to_list w).*2) then (Some "address already in use", w) else (None, <[l := a]> w);
  ic_Close l w := (None, delete l w);
  accepting w l := bool_decide (is_Some (w !! l))
}.

#[global] Instance sim_ingress_laws : IngressLaws listeners.
Proof.
  split; cbn.
  - intros l a _ w w'. case_decide; [done|]. intros [= <-]. rewrite lookup_insert_eq. by apply bool_decide_eq_true.
  - intros l a _ w e w'. case_decide; intros [= _ <-]; [done|]. intros k Hk. by rewrite lookup_insert_ne.
  - intros l w w' [= <-]. rewrite lookup_delete_eq. by apply bool_decide_eq_false, is_Some_None.
  - intros l w e w' [= _ <-] k Hk. by rewrite lookup_delete_ne.
Qed.

(** ** At concrete inputs *)

Definition ex_x509 (cert key : string) : result string string :=
  if decide (cert = "") then Err "tls: failed to find any PEM data in certificate input" else Ok cert.

Definition ex_ig_cfg : Config :=
  ApplyDefaults (mkConfig true "eth1" ["10.9.0.0/16"] None false 0 0 0 false "" 0 0 true 2 0 false "" 0 0).
Definition ex_rule (id : string) (port : Z) (target : string) : IngressRule :=
  mkIngressRule id port target "passthrough" "" "".

Definition ex_start : ingress listeners := mkState (Setup (NewIngressManager ex_ig_cfg)) [] [] ∅.
Definition ex_add (r : IngressRule) (st : ingress listeners) : ingress listeners := (AddRule ex_x509 r st).2.
(** Two rules, a connection on each, the first one dialed. *)
Definition ex_run : ingress listeners :=
  proxyConnection_dialed 0 (acceptLoop_conn 1 (acceptLoop_conn 0
    (ex_add (ex_rule "b" 8443 "10.1.0.2:443") (ex_add (ex_rule "a" 443 "10.1.0.1:443") ex_start)))).

Lemma ex_run_reachable : reachable (HO := id_order) ex_x509 ex_ig_cfg ex_run.
Proof.
  exists ∅. eapply rtc_l; [apply step_setup|].
  eapply rtc_l; [apply (step_add _ (ex_rule "a" 443 "10.1.0.1:443"))|].
  eapply rtc_l; [apply (step_add _ (ex_rule "b" 8443 "10.1.0.2:443"))|].
  eapply rtc_l; [eapply (step_accept _ 0); vm_compute; reflexivity|].
  eapply rtc_l; [eapply (step_accept _ 1); vm_compute; reflexivity|].
  eapply rtc_l; [eapply (step_dialed _ 0); vm_compute; reflexivity|]. done.
Qed.

Lemma reachable_ingress_inv_witness :
  ingress_inv ex_run /\ ig_connCount (i_mgr ex_run) = 2 /\ size (ig_activeRules (i_mgr ex_run)) = 2%nat.
Proof.
  split; [exact (reachable_ingress_inv (HO := id_order) ex_x509 ex_ig_cfg ex_run ex_run_reachable)|].
  split; vm_compute; reflexivity.
Defined.

Lemma removal_terminates_witness :
  (forall id, is_Some (RemoveRule id ex_run)) /\ is_Some (Teardown (H0 := id_order) ex_run).
Proof.
  exact (removal_terminates (HO := id_order) ex_x509 (fun _ _ => eq_refl) ex_ig_cfg ex_run ex_run_reachable).
Defined.

Lemma RemoveRule_final_witness : exists st1,
  RemoveRule "a" ex_run = Some st1 /\ ig_activeRules (i_mgr st1) !! "a" = None /\
  conns_of 0 (proxyConnection_return 0 st1) = 1%nat.
Proof.
  eexists. split; [vm_compute; reflexivity|].
  refine ((fun T => conj (proj1 T) (proj2 (proj2 T))) (RemoveRule_final (HO := id_order) ex_x509 ex_ig_cfg
    "a" 0 ex_run _ _ ex_run_reachable _ _ _ _)).
  - vm_compute; reflexivity.
  - vm_compute; reflexivity.
  - vm_compute; reflexivity.
  - apply rtc_once. eapply step_return; [vm_compute; reflexivity|done].
Defined.

Definition ex_desired : StateResponse :=
  mkStateResponse [] [] None ∅ None None None
    (Some (mkIngressConfig true [ex_rule "c" 9443 "10.1.0.3:443"; ex_rule "b" 8443 "10.1.0.2:443"])) None [] [].

(** Rule [a] goes, [c] is added, [b] is the object it was. *)
Lemma IngressReconcileHandler_applies_witness : exists st',
  IngressReconcileHandler (HO := id_order) ex_x509 (Some ex_desired) ex_run = Some (None, st') /\
  GetRule "a" st' = None /\ ig_activeRules (i_mgr st') !! "b" = Some 1%nat.
Proof.
  eexists. split; [vm_compute; reflexivity|].
  match goal with |- GetRule "a" ?s = None /\ _ => set (st' := s) end.
  assert (E : IngressReconcileHandler (HO := id_order) ex_x509 (Some ex_desired) ex_run = Some (None, st'))
    by (vm_compute; reflexivity).
  assert (Hn : NoDup (ir_RuleID <$> ic_Rules
    (mkIngressConfig true [ex_rule "c" 9443 "10.1.0.3:443"; ex_rule "b" 8443 "10.1.0.2:443"]))) by by_compute.
  destruct (IngressReconcileHandler_applies (HO := id_order) ex_x509 ex_ig_cfg (Some ex_desired) _ ex_run None st'
    ex_run_reachable eq_refl Hn E) as (_ & Hk & Hx).
  split; [by rewrite (Hx eq_refl "a")|].
  by destruct (Hk "b" (ex_rule "b" 8443 "10.1.0.2:443") eq_refl eq_refl) as [_ ->].
Defined.

(** ** What the manager does not do *)

(** Any error of [Accept] ends the loop, a temporary one too: the rule stays
    tracked with its listener open, and a reconcile run that desires it leaves
    it as it is. *)
Lemma dead_rule_not_restarted :
  let st := acceptLoop_exit 1 ex_run in
  let r := IngressReconcileHandler (HO := id_order) ex_x509
    (Some (mkStateResponse [] [] None ∅ None None None
      (Some (mkIngressConfig true [ex_rule "a" 443 "10.1.0.1:443"; ex_rule "b" 8443 "10.1.0.2:443"])) None [] []))
    st in
  r = Some (None, st) /\ accepting (i_world st) 1 = true /\ ar_done <$> i_rules st !! 1%nat = Some true.
Proof. cbv zeta. split; [|split]; vm_compute; reflexivity. Qed.
