(* ===== verification/Tunnel.v ===== *)
(** * Access tunnels (src/internal/tunnel/session.go, manager.go, handler.go, config.go)

    Two state machines.  [Module Session]: the accept loop of one session, its
    single connection and [Close], which runs in another goroutine.
    [Module Manager]: the table of sessions, its limits and the expiry timers,
    which are never stopped.  Listening and dialing are the operating system's:
    their results are arguments or environment steps. *)

From stdpp Require Import base strings list gmap relations.
From S2P Require Import Prelude Base64 Net Types.

(** ** Configuration *)

Record Config := mkConfig {
  tc_Enabled : bool;
  tc_MaxSessions : Z;
  tc_DefaultTimeout : Z;
  tc_SSHListenAddr : string;
  tc_HostKeyDir : string
}.

Definition DefaultMaxSessions : Z := 10.
Definition DefaultTimeout : Z := 30 * minute.

Definition ApplyDefaults (c : Config) : Config :=
  let c := if decide (tc_MaxSessions c = 0)
           then mkConfig true DefaultMaxSessions DefaultTimeout (tc_SSHListenAddr c) (tc_HostKeyDir c)
           else c in
  if decide (tc_DefaultTimeout c = 0)
  then mkConfig (tc_Enabled c) (tc_MaxSessions c) DefaultTimeout (tc_SSHListenAddr c) (tc_HostKeyDir c)
  else c.

Definition Validate (c : Config) : option string :=
  if negb (tc_Enabled c) then None
  else if decide (tc_MaxSessions c <= 0) then
    Some "tunnel: config: MaxSessions must be positive when enabled"
  else if decide (tc_DefaultTimeout c < minute) then
    Some "tunnel: config: DefaultTimeout must be at least 1m when enabled"
  else None.

(** ** One session *)

Module Session.

(** Where the accept loop is.  [TryAccept], [Dialing] and [Dialed] are the
    points of [tryAccept] and [forward] at which another goroutine can run. *)
Inductive phase :=
| Accepting
| TryAccept (c : nat)
| Dialing (c : nat)
| Dialed (c : nat)
| Forwarding (c : nat)
| Exited.

(** [closing] is what [Close] holds between [markClosed] and its last call:
    the connection it found. *)
Record state := mkState {
  s_phase : phase;
  s_conn : option nat;
  s_closed : bool;
  s_closing : option (option nat);
  s_cancelled : bool;
  s_listening : bool;
  s_open : gset nat
}.

Definition started : state := mkState Accepting None false None false true ∅.

Definition close_conn (c : option nat) (open : gset nat) : gset nat :=
  match c with Some c => open ∖ {[ c ]} | None => open end.

Definition with_phase (p : phase) (s : state) : state :=
  mkState p (s_conn s) (s_closed s) (s_closing s) (s_cancelled s) (s_listening s) (s_open s).

(** [tryAccept] of connection [c]: whether it is accepted. *)
Definition tryAccept (c : nat) (s : state) : bool * state :=
  match s_conn s with
  | Some _ =>
      (false, mkState (s_phase s) (s_conn s) (s_closed s) (s_closing s) (s_cancelled s) (s_listening s)
                (s_open s ∖ {[ c ]}))
  | None => (true, s)
  end.

(** The loop body after [Accept]: rejected connections are skipped. *)
Definition after_accept (c : nat) (s : state) : state :=
  match tryAccept c s with
  | (true, s) => with_phase (Dialing c) s
  | (false, s) => with_phase Accepting s
  end.

(** [forward]: the dial fails, the connection is registered, a copy ends. *)
Definition dial_failed (c : nat) (s : state) : state :=
  mkState Accepting (s_conn s) (s_closed s) (s_closing s) (s_cancelled s) (s_listening s) (s_open s ∖ {[ c ]}).
Definition register (c : nat) (s : state) : state :=
  mkState (Forwarding c) (Some c) (s_closed s) (s_closing s) (s_cancelled s) (s_listening s) (s_open s).
Definition cleanup (c : nat) (s : state) : state :=
  mkState Accepting None (s_closed s) (s_closing s) (s_cancelled s) (s_listening s) (s_open s ∖ {[ c ]}).

(** [markClosed]: the active connection, or [None] when already closed. *)
Definition markClosed (s : state) : option (option nat) * state :=
  if s_closed s then (None, s)
  else (Some (s_conn s),
        mkState (s_phase s) (s_conn s) true (Some (s_conn s)) (s_cancelled s) (s_listening s) (s_open s)).

(** The rest of [Close]: cancel, close the listener, close the connection. *)
Definition finish_Close (conn : option nat) (s : state) : state :=
  mkState (s_phase s) (s_conn s) (s_closed s) None true false (close_conn conn (s_open s)).

Inductive step : state -> state -> Prop :=
| step_accept c s : s_phase s = Accepting -> s_listening s = true -> c ∉ s_open s ->
    step s (mkState (TryAccept c) (s_conn s) (s_closed s) (s_closing s) (s_cancelled s) (s_listening s)
              ({[ c ]} ∪ s_open s))
| step_try c s : s_phase s = TryAccept c -> step s (after_accept c s)
| step_dial_failed c s : s_phase s = Dialing c -> step s (dial_failed c s)
| step_dial_ok c s : s_phase s = Dialing c -> s_cancelled s = false -> step s (with_phase (Dialed c) s)
| step_register c s : s_phase s = Dialed c -> step s (register c s)
| step_cleanup c s : s_phase s = Forwarding c -> step s (cleanup c s)
| step_exit s : s_phase s = Accepting -> s_listening s = false -> step s (with_phase Exited s)
| step_mark s : step s (markClosed s).2
| step_close conn s : s_closing s = Some conn -> step s (finish_Close conn s).

Definition reachable (s : state) : Prop := rtc step started s.

(** The connection the loop works on. *)
Definition current (p : phase) : option nat :=
  match p with
  | Accepting | Exited => None
  | TryAccept c | Dialing c | Dialed c | Forwarding c => Some c
  end.

Record inv (s : state) : Prop := mkInv {
  iv_conn : s_conn s = match s_phase s with Forwarding c => Some c | _ => None end;
  iv_open : forall c, c ∈ s_open s -> current (s_phase s) = Some c;
  iv_closing : is_Some (s_closing s) -> s_closed s = true;
  iv_cancelled : s_cancelled s = true -> s_closed s = true /\ s_listening s = false
}.

Lemma session_step_inv s s' : step s s' -> inv s -> inv s'.
Proof.
  destruct 1 as [c s Hp Hl Hc|c s Hp|c s Hp|c s Hp Hx|c s Hp|c s Hp|s Hp Hl|s|conn s Hx];
    intros HI; pose proof HI as [Ic Io Icl Ica]; rewrite ?Hp in Ic, Io; cbn in Ic, Io.
  - split; cbn; [done| |exact Icl|exact Ica].
    intros d [Hd%elem_of_singleton|Hd]%elem_of_union; [by subst|]. by apply Io in Hd.
  - unfold after_accept, tryAccept. rewrite Ic. split; cbn; [done|exact Io|exact Icl|exact Ica].
  - split; cbn; [done| |exact Icl|exact Ica]. intros d [Hd Hn]%elem_of_difference. apply Io in Hd. set_solver.
  - split; cbn; [done|exact Io|exact Icl|exact Ica].
  - split; cbn; [done|exact Io|exact Icl|exact Ica].
  - split; cbn; [done| |exact Icl|exact Ica]. intros d [Hd Hn]%elem_of_difference. apply Io in Hd. set_solver.
  - split; cbn; [done|exact Io|exact Icl|exact Ica].
  - unfold markClosed. destruct (s_closed s) eqn:E; [done|]. split; cbn; [exact Ic|exact Io|done|].
    intros Hcc. by destruct (Ica Hcc).
  - split; cbn; [exact Ic| |by intros [? ?]|].
    + intros d Hd. apply Io. unfold close_conn in Hd. destruct conn; set_solver.
    + intros _. split; [|done]. apply Icl. by rewrite Hx.
Qed.

Lemma session_reachable_inv s : reachable s -> inv s.
Proof.
  intros Hr. assert (H0 : inv started) by (split; cbn; [done|set_solver|by intros [? ?]|done]). revert H0. induction Hr; eauto using session_step_inv.
Qed.

(** A session serves one connection at a time: whatever the interleaving
    with [Close], at most one client connection is open; and when the loop
    looks for an active connection there is none, so [tryAccept] never rejects
    a client, later ones wait in the listener's queue. *)
Theorem one_connection s :
  reachable s ->
  (forall c d, c ∈ s_open s -> d ∈ s_open s -> c = d) /\
  (forall c, s_phase s = TryAccept c -> (tryAccept c s).1 = true).
Proof.
  intros [Ic Io _ _]%session_reachable_inv. split.
  - intros c d Hc%Io Hd%Io. congruence.
  - intros c Hp. unfold tryAccept. by rewrite Ic, Hp.
Qed.

(** A closed session accepts no further connection once [Close] is through. *)
Lemma closed_accepts_nothing s c :
  reachable s -> s_cancelled s = true -> ~ (exists s', step s s' /\ s_phase s = Accepting /\ s_phase s' = TryAccept c).
Proof.
  intros [_ _ _ Ica]%session_reachable_inv Hc (s' & Hs & Ha & Ht). destruct (Ica Hc) as [_ Hl].
  destruct Hs as [c' s Hp Hl' Hc'|c' s Hp|c' s Hp|c' s Hp Hx|c' s Hp|c' s Hp|s Hp Hl'|s|conn s Hx]; cbn in Ht; try congruence.
  unfold markClosed in Ht. destruct (s_closed s); cbn in Ht; congruence.
Qed.

(** Closing a session does not always end its connection: if the target is
    dialed but the connection not yet registered when [Close] runs, the client
    stays connected to the target after [Close] has returned. *)
Theorem Close_misses_connection : exists s c,
  reachable s /\ s_closed s = true /\ s_closing s = None /\ s_cancelled s = true /\
  s_phase s = Forwarding c /\ c ∈ s_open s.
Proof.
  eexists _, 7%nat. split.
  - unfold reachable. eapply rtc_l; [apply (step_accept 7); [done|done|set_solver]|].
    eapply rtc_l; [by apply (step_try 7)|]. eapply rtc_l; [by apply (step_dial_ok 7)|].
    eapply rtc_l; [apply step_mark|]. eapply rtc_l; [by eapply step_close|].
    apply rtc_once. by apply (step_register 7).
  - split_and!; try done.
Qed.

Lemma one_connection_witness : forall c d, c ∈ s_open started -> d ∈ s_open started -> c = d.
Proof. apply (one_connection started). apply rtc_refl. Defined.

End Session.

(** ** The session manager *)

Module Manager.

(** A session object as the manager sees it.  [se_listening]: its listener is
    open.  [se_late] records that its lifetime was over when the timer was to be
    started, so there is none. *)
Record session := mkSession {
  se_SessionID : string;
  se_TargetHost : string;
  se_TargetPort : Z;
  se_MeshIP : string;
  se_startTime : Z;
  se_expiresAt : Z;
  se_closed : bool;
  se_listening : bool;
  se_late : bool
}.

(** A [time.AfterFunc]: it closes whatever session has the id when it runs. *)
Record timer := mkTimer { tm_session : string; tm_when : Z }.

Record SessionManager := mkManager {
  sm_cfg : Config;
  sm_meshIP : string;
  sm_sessions : gmap string nat
}.

(** The manager, the session objects, the timers that have not run, the clock. *)
Record state := mkState {
  t_mgr : SessionManager;
  t_heap : list session;
  t_timers : list timer;
  t_clock : Z
}.

Definition NewSessionManager (cfg : Config) (meshIP : string) : SessionManager :=
  mkManager (ApplyDefaults cfg) meshIP ∅.

Definition set_sessions (m : SessionManager) (s : gmap string nat) : SessionManager :=
  mkManager (sm_cfg m) (sm_meshIP m) s.

Inductive create_error :=
| Disabled | InvalidSetup | AlreadyExpired | DuplicateSession | MaxSessions | ListenFailed (msg : string).

(** [d1] passes between the first look at the clock and that of [NewSession],
    [d2] from there to the start of the timer;
    [listen] is what [net.Listen] gives on the mesh address. *)
Definition CreateSession (setup : SSHSessionSetup) (listen : result string string) (d1 d2 : Z) (st : state)
    : result create_error string * state :=
  let m := t_mgr st in
  let now := t_clock st in
  if negb (tc_Enabled (sm_cfg m)) then (Err Disabled, st)
  else if decide (sss_SessionID setup = "" \/ sss_TargetHost setup = "" \/ sss_TargetPort setup <= 0 \/
                  sss_TargetPort setup > 65535) then (Err InvalidSetup, st)
  else if time_before (sss_ExpiresAt setup) now then (Err AlreadyExpired, st)
  else
    let maxExpiry := now + tc_DefaultTimeout (sm_cfg m) in
    let expiresAt := if time_after (sss_ExpiresAt setup) maxExpiry then maxExpiry else sss_ExpiresAt setup in
    if decide (is_Some (sm_sessions m !! sss_SessionID setup)) then (Err DuplicateSession, st)
    else if decide (Z.of_nat (size (sm_sessions m)) >= tc_MaxSessions (sm_cfg m)) then (Err MaxSessions, st)
    else
      match listen with
      | Err e => (Err (ListenFailed e), st)
      | Ok addr =>
          let ttl := time_sub expiresAt (now + d1 + d2) in
          let session := mkSession (sss_SessionID setup) (sss_TargetHost setup) (sss_TargetPort setup)
                           (sm_meshIP m) (now + d1) expiresAt false true (bool_decide (ttl <= 0)) in
          (Ok addr,
           mkState (set_sessions m (<[sss_SessionID setup := length (t_heap st)]> (sm_sessions m)))
             (t_heap st ++ [session])
             (if decide (ttl > 0) then t_timers st ++ [mkTimer (sss_SessionID setup) (now + d1 + d2 + ttl)]
              else t_timers st)
             (now + d1 + d2))
      end.

Definition removeSession (sessionID : string) (st : state) : option nat * state :=
  match sm_sessions (t_mgr st) !! sessionID with
  | None => (None, st)
  | Some p =>
      (Some p, mkState (set_sessions (t_mgr st) (delete sessionID (sm_sessions (t_mgr st))))
                 (t_heap st) (t_timers st) (t_clock st))
  end.

Definition close_session (s : session) : session :=
  mkSession (se_SessionID s) (se_TargetHost s) (se_TargetPort s) (se_MeshIP s) (se_startTime s)
    (se_expiresAt s) true false (se_late s).

(** The session's duration, or nil. *)
Definition CloseSession (sessionID : string) (st : state) : option Z * state :=
  match removeSession sessionID st with
  | (None, st) => (None, st)
  | (Some p, st) =>
      ((fun s => time_sub (t_clock st) (se_startTime s)) <$> t_heap st !! p,
       mkState (t_mgr st) (alter close_session p (t_heap st)) (t_timers st) (t_clock st))
  end.

Definition Shutdown `{MapOrder} (st : state) : state :=
  foldl (fun st id => (CloseSession id st).2) st (range_keys (sm_sessions (t_mgr st))).

Definition ActiveCount (st : state) : Z := Z.of_nat (size (sm_sessions (t_mgr st))).

(** ** Handlers *)

(** What the reporter sends. *)
Inductive report := ReportReady (sessionID addr : string) | ReportClosed (sessionID reason : string) (duration : Z).

Definition HandleSSHSessionSetup (payload : option SSHSessionSetup) (listen : result string string) (d1 d2 : Z)
    (st : state) : option (option create_error) * list report * state :=
  match payload with
  | None => (Some None, [], st)
  | Some setup =>
      match CreateSession setup listen d1 d2 st with
      | (Err e, st) => (Some (Some e), [], st)
      | (Ok addr, st) => (None, [ReportReady (sss_SessionID setup) addr], st)
      end
  end.

Definition HandleSessionRevoked (payload : option string) (st : state)
    : option (option create_error) * list report * state :=
  match payload with
  | None => (Some None, [], st)
  | Some sessionID =>
      match CloseSession sessionID st with
      | (None, st) => (None, [], st)
      | (Some duration, st) => (None, [ReportClosed sessionID "revoked" duration], st)
      end
  end.

(** ** Reachable states *)

(** The callback of timer [i] runs. *)
Definition run_timer (i : nat) (t : timer) (st : state) : state :=
  (CloseSession (tm_session t) (mkState (t_mgr st) (t_heap st) (delete i (t_timers st)) (t_clock st))).2.

(** The end of the context that [CreateSession] was called with closes the
    listener and nothing else: the session stays tracked and is not marked
    closed. *)
Definition stop_listening (s : session) : session :=
  mkSession (se_SessionID s) (se_TargetHost s) (se_TargetPort s) (se_MeshIP s) (se_startTime s)
    (se_expiresAt s) (se_closed s) false (se_late s).

Definition cancel_context (p : nat) (st : state) : state :=
  mkState (t_mgr st) (alter stop_listening p (t_heap st)) (t_timers st) (t_clock st).

(** A context that several sessions share ends for one after the other. *)
Inductive step : state -> state -> Prop :=
| step_cancel p st : step st (cancel_context p st)
| step_create setup listen d1 d2 st : 0 <= d1 -> 0 <= d2 -> step st (CreateSession setup listen d1 d2 st).2
| step_close id st : step st (CloseSession id st).2
| step_shutdown `{MapOrder} st : step st (Shutdown st)
| step_time d st : 0 <= d -> step st (mkState (t_mgr st) (t_heap st) (t_timers st) (t_clock st + d))
| step_timer i t st : t_timers st !! i = Some t -> tm_when t <= t_clock st -> step st (run_timer i t st).

Definition init (cfg : Config) (meshIP : string) (now : Z) : state :=
  mkState (NewSessionManager cfg meshIP) [] [] now.

Definition reachable (cfg : Config) (st : state) : Prop :=
  exists meshIP now, rtc step (init cfg meshIP now) st.

Record inv (cfg : Config) (st : state) : Prop := mkInv {
  iv_cfg : sm_cfg (t_mgr st) = ApplyDefaults cfg;
  iv_tracked : forall id p, sm_sessions (t_mgr st) !! id = Some p ->
    exists s, t_heap st !! p = Some s /\ se_SessionID s = id /\ se_closed s = false;
  (** nothing leaks: a session that is not tracked is closed *)
  iv_closed : forall p s, t_heap st !! p = Some s -> se_closed s = false ->
    sm_sessions (t_mgr st) !! se_SessionID s = Some p;
  iv_listening : forall p s, t_heap st !! p = Some s -> se_listening s = true -> se_closed s = false;
  iv_bound : Z.of_nat (size (sm_sessions (t_mgr st))) <= Z.max 0 (tc_MaxSessions (ApplyDefaults cfg));
  iv_life : forall p s, t_heap st !! p = Some s ->
    se_expiresAt s <= se_startTime s + tc_DefaultTimeout (ApplyDefaults cfg) /\ se_startTime s <= t_clock st
}.

(** An open session has a timer that is due when it expires, one whose id is
    [ex] excepted. *)
Definition timers_ok (ex : option string) (st : state) : Prop :=
  forall p s, t_heap st !! p = Some s -> se_closed s = false -> se_late s = false ->
    ex <> Some (se_SessionID s) -> mkTimer (se_SessionID s) (se_expiresAt s) ∈ t_timers st.

Lemma close_heap_lookup (h : list session) p q s :
  alter close_session p h !! q = Some s -> se_closed s = false -> h !! q = Some s /\ q <> p.
Proof.
  intros E Hc. destruct (decide (q = p)) as [->|Hne].
  - rewrite list_lookup_alter_eq in E. destruct (h !! p) as [x|]; [|done]. injection E as <-. done.
  - by rewrite list_lookup_alter_ne in E.
Qed.

Lemma CloseSession_inv cfg id st :
  inv cfg st -> timers_ok (Some id) st ->
  inv cfg (CloseSession id st).2 /\ timers_ok None (CloseSession id st).2.
Proof.
  intros [Ic It Icl Ili Ib Il] Ht. unfold CloseSession, removeSession.
  destruct (sm_sessions (t_mgr st) !! id) as [p|] eqn:Ep; cbn.
  2:{ split; [by split|]. intros q s Hq Hc Hl _. apply (Ht q s); try done. intros [= Eid].
      pose proof (Icl _ _ Hq Hc). congruence. }
  split; [split; cbn; [done|..]|].
  - intros id' q [Hne Hq]%lookup_delete_Some. destruct (It _ _ Hq) as (s & Hs & Hid & Hc). exists s.
    rewrite list_lookup_alter_ne; [done|]. intros ->. destruct (It _ _ Ep) as (s' & Hs' & Hid' & _). congruence.
  - intros q s Hq Hc. destruct (close_heap_lookup _ _ _ _ Hq Hc) as [Hq' Hne].
    pose proof (Icl _ _ Hq' Hc) as Hx. rewrite lookup_delete_ne; [done|]. intros ->. congruence.
  - intros q s. destruct (decide (q = p)) as [->|Hne]; [|rewrite list_lookup_alter_ne by done; apply Ili].
    rewrite list_lookup_alter_eq. destruct (t_heap st !! p) as [x|]; [|done]. by intros [= <-].
  - rewrite map_size_delete_Some by (by rewrite Ep). lia.
  - intros q s. destruct (decide (q = p)) as [->|Hne]; [|rewrite list_lookup_alter_ne by done; apply Il].
    rewrite list_lookup_alter_eq. destruct (t_heap st !! p) as [x|] eqn:Ex; [|done].
    intros [= <-]. by apply (Il p x).
  - intros q s Hq Hc Hl _. cbn in *. destruct (close_heap_lookup _ _ _ _ Hq Hc) as [Hq' Hne].
    apply (Ht q s); try done. intros [= ->]. pose proof (Icl _ _ Hq' Hc). congruence.
Qed.

Lemma timers_ok_weaken ex st : timers_ok None st -> timers_ok ex st.
Proof. intros Ht p s Hp Hc Hl _. by apply (Ht p s). Qed.

Lemma Shutdown_inv cfg ids : forall st,
  inv cfg st -> timers_ok None st ->
  inv cfg (foldl (fun st id => (CloseSession id st).2) st ids) /\
  timers_ok None (foldl (fun st id => (CloseSession id st).2) st ids).
Proof.
  induction ids as [|id ids IH]; intros st Hi Ht; [done|]. cbn [foldl].
  destruct (CloseSession_inv cfg id st Hi (timers_ok_weaken _ _ Ht)). by apply IH.
Qed.

Lemma CreateSession_inv cfg setup listen d1 d2 st :
  tc_DefaultTimeout (ApplyDefaults cfg) <= max_int64 -> 0 <= d1 -> 0 <= d2 ->
  inv cfg st -> timers_ok None st ->
  inv cfg (CreateSession setup listen d1 d2 st).2 /\ timers_ok None (CreateSession setup listen d1 d2 st).2.
Proof.
  intros Hmax Hd1 Hd2 Hi Ht. unfold CreateSession.
  destruct (tc_Enabled _); [|done]. cbn [negb]. case_decide; [done|].
  destruct (time_before _ _) eqn:Eb; [done|]. case_decide as Hdup; [done|]. case_decide as Hsz; [done|].
  destruct listen as [addr|e]; [|done]. destruct Hi as [Ic It Icl Ili Ib Il]. cbn [snd].
  set (now := t_clock st) in *. rewrite !Ic. rewrite Ic in Hsz.
  set (exp := if time_after _ _ then _ else _).
  assert (Hexp : exp <= now + tc_DefaultTimeout (ApplyDefaults cfg)).
  { subst exp. unfold time_after. case_bool_decide; lia. }
  apply eq_None_not_Some in Hdup. split; [split; cbn|].
  - done.
  - intros id p [[<- <-]|[Hne Hp]]%lookup_insert_Some.
    + eexists. by rewrite lookup_app_r, Nat.sub_diag by lia.
    + destruct (It _ _ Hp) as (s & Hs & ?). exists s. by rewrite lookup_app_l by by eapply lookup_lt_Some.
  - intros p s [Hp|[Hlen Hp]]%lookup_app_Some Hc.
    + rewrite lookup_insert_ne; [by apply Icl|]. intros E. rewrite E in Hdup. by rewrite (Icl _ _ Hp Hc) in Hdup.
    + apply list_lookup_singleton_Some in Hp as [Hp <-]. cbn. rewrite lookup_insert_eq. f_equal. lia.
  - intros p s [Hp|[_ Hp]]%lookup_app_Some; [by apply (Ili p s)|].
    by apply list_lookup_singleton_Some in Hp as [_ <-].
  - rewrite map_size_insert_None by done. lia.
  - intros p s [Hp|[_ Hp]]%lookup_app_Some; [destruct (Il _ _ Hp); subst now; lia|].
    apply list_lookup_singleton_Some in Hp as [_ <-]. cbn. lia.
  - intros p s Hp Hc Hl _. cbn in *. apply lookup_app_Some in Hp as [Hp|[_ Hp]].
    + assert (mkTimer (se_SessionID s) (se_expiresAt s) ∈ t_timers st) by (by apply (Ht p s)).
      case_decide; set_solver.
    + apply list_lookup_singleton_Some in Hp as [_ <-]. cbn in *. apply bool_decide_eq_false in Hl.
      rewrite decide_True by lia. apply elem_of_app. right. apply list_elem_of_singleton. f_equal.
      unfold time_sub, max_int64, min_int64 in *. lia.
Qed.

Lemma stop_listening_lookup (h : list session) p q s : alter stop_listening p h !! q = Some s ->
  exists s0, h !! q = Some s0 /\ se_SessionID s = se_SessionID s0 /\ se_closed s = se_closed s0 /\
    se_late s = se_late s0 /\ se_expiresAt s = se_expiresAt s0 /\ se_startTime s = se_startTime s0 /\
    (se_listening s = true -> se_listening s0 = true).
Proof.
  destruct (decide (q = p)) as [->|Hne]; [|rewrite list_lookup_alter_ne by done; intros E; by exists s].
  rewrite list_lookup_alter_eq. destruct (h !! p) as [x|]; [|done]. intros [= <-]. by exists x.
Qed.

Lemma cancel_inv cfg p st :
  inv cfg st -> timers_ok None st -> inv cfg (cancel_context p st) /\ timers_ok None (cancel_context p st).
Proof.
  intros [Ic It Icl Ili Ib Il] Ht. split; [split; cbn; try done|].
  - intros id q Hq. destruct (It _ _ Hq) as (s & Hs & Hid & Hc). destruct (decide (q = p)) as [->|Hne].
    + exists (stop_listening s). by rewrite list_lookup_alter_eq, Hs.
    + exists s. by rewrite list_lookup_alter_ne.
  - intros q s (s0 & Hs0 & Ei & Ec & _)%stop_listening_lookup. rewrite Ei, Ec. by apply Icl.
  - intros q s (s0 & Hs0 & _ & Ec & _ & _ & _ & Hl)%stop_listening_lookup. rewrite Ec. eauto.
  - intros q s (s0 & Hs0 & _ & _ & _ & Ex & Es & _)%stop_listening_lookup. rewrite Ex, Es. eauto.
  - intros q s (s0 & Hs0 & Ei & Ec & El & Ex & _)%stop_listening_lookup. rewrite Ei, Ec, El, Ex.
    by apply (Ht q).
Qed.

Lemma manager_step_inv cfg st st' :
  tc_DefaultTimeout (ApplyDefaults cfg) <= max_int64 ->
  step st st' -> inv cfg st /\ timers_ok None st -> inv cfg st' /\ timers_ok None st'.
Proof.
  intros Hmax. destruct 1 as [p st|setup listen d1 d2 st Hd1 Hd2|id st|HO st|d st Hd|i t st Hi Hw]; intros [HI HT].
  - by apply cancel_inv.
  - by apply CreateSession_inv.
  - apply CloseSession_inv; [done|]. by apply timers_ok_weaken.
  - by apply Shutdown_inv.
  - split; [|done]. destruct HI as [Ic It Icl Ili Ib Il]. split; try done. cbn. intros p s Hp.
    destruct (Il _ _ Hp). lia.
  - apply CloseSession_inv; [by destruct HI as [Ic It Icl Ili Ib Il]; split|].
    intros p s Hp Hc Hl Hne. cbn in *. pose proof (HT p s Hp Hc Hl ltac:(done)) as Hin.
    apply list_elem_of_lookup in Hin as [j Hj]. apply list_elem_of_lookup.
    assert (j <> i) by (intros ->; assert (t = mkTimer (se_SessionID s) (se_expiresAt s)) as -> by congruence; by apply Hne).
    destruct (decide (j < i)%nat).
    + exists j. by rewrite list_lookup_delete_lt.
    + exists (pred j). rewrite list_lookup_delete_ge by lia. by replace (S (pred j)) with j by lia.
Qed.

Lemma manager_reachable_inv cfg st :
  tc_DefaultTimeout (ApplyDefaults cfg) <= max_int64 -> reachable cfg st -> inv cfg st /\ timers_ok None st.
Proof.
  intros Hmax (ip & now & Hr).
  assert (H0 : inv cfg (init cfg ip now) /\ timers_ok None (init cfg ip now)).
  { split; [split|]; cbn; try done; try (intros ? ? Hx; by rewrite ?lookup_nil, ?lookup_empty in Hx).
    rewrite map_size_empty. lia. }
  revert H0. induction Hr; eauto using manager_step_inv.
Qed.


(** The setup handler either refuses and changes nothing, or it tracks a new
    open session to the requested target and reports its address. *)
Theorem HandleSSHSessionSetup_spec payload listen d1 d2 st err reps st' :
  HandleSSHSessionSetup payload listen d1 d2 st = (err, reps, st') ->
  match err with
  | Some _ => reps = [] /\ st' = st
  | None => exists setup addr s, payload = Some setup /\ listen = Ok addr /\
      reps = [ReportReady (sss_SessionID setup) addr] /\
      sm_sessions (t_mgr st') = <[sss_SessionID setup := length (t_heap st)]> (sm_sessions (t_mgr st)) /\
      t_heap st' = t_heap st ++ [s] /\
      se_SessionID s = sss_SessionID setup /\ se_TargetHost s = sss_TargetHost setup /\
      se_TargetPort s = sss_TargetPort setup /\ 1 <= se_TargetPort s <= 65535 /\ se_closed s = false /\
      t_clock st <= sss_ExpiresAt setup /\ se_expiresAt s <= sss_ExpiresAt setup
  end.
Proof.
  unfold HandleSSHSessionSetup, CreateSession. destruct payload as [setup|]; [|by intros [= <- <- <-]].
  destruct (tc_Enabled _); [|by intros [= <- <- <-]]. cbn [negb].
  case_decide as Hs; [by intros [= <- <- <-]|].
  destruct (time_before _ _) eqn:Eb; [by intros [= <- <- <-]|].
  case_decide; [by intros [= <- <- <-]|]. case_decide; [by intros [= <- <- <-]|].
  destruct listen as [addr|e]; [|by intros [= <- <- <-]]. intros [= <- <- <-].
  unfold time_before in Eb. apply bool_decide_eq_false in Eb.
  eexists setup, addr, _. split_and!; try done; cbn; try lia.
  unfold time_after. case_bool_decide; lia.
Qed.

(** A revocation ends the session and reports it once; that of an unknown
    session changes nothing and reports nothing. *)
Theorem HandleSessionRevoked_spec cfg id st err reps st' :
  tc_DefaultTimeout (ApplyDefaults cfg) <= max_int64 -> reachable cfg st ->
  HandleSessionRevoked (Some id) st = (err, reps, st') ->
  err = None /\ sm_sessions (t_mgr st') = delete id (sm_sessions (t_mgr st)) /\
  (forall p s, t_heap st' !! p = Some s -> se_SessionID s = id -> se_closed s = true) /\
  match sm_sessions (t_mgr st) !! id with
  | None => reps = [] /\ st' = st
  | Some p => exists s, t_heap st !! p = Some s /\
      reps = [ReportClosed id "revoked" (time_sub (t_clock st) (se_startTime s))]
  end.
Proof.
  intros Hmax [HI HT]%manager_reachable_inv E; [|done].
  pose proof (CloseSession_inv cfg id st HI (timers_ok_weaken _ _ HT)) as [HI' _].
  unfold HandleSessionRevoked, CloseSession, removeSession in *.
  destruct (sm_sessions (t_mgr st) !! id) as [p|] eqn:Ep.
  - destruct (iv_tracked _ _ HI _ _ Ep) as (s & Hs & Hid & Hc). cbn in E, HI'. rewrite Hs in E.
    injection E as <- <- <-. cbn. split_and!; try done; [|by exists s].
    intros q x Hq Hx. apply not_false_iff_true. intros Hcx.
    pose proof (iv_closed _ _ HI' _ _ Hq Hcx) as Hd. cbn in Hd. rewrite Hx, lookup_delete_eq in Hd. done.
  - cbn in E. injection E as <- <- <-. rewrite delete_id by done. split_and!; try done.
    intros q x Hq Hx. apply not_false_iff_true. intros Hcx.
    pose proof (iv_closed _ _ HI _ _ Hq Hcx). congruence.
Qed.

(** ** Sessions that do not end when they should, and some that end early *)

Definition ex_cfg : Config := mkConfig true 2 (30 * minute) "" "".
Definition ex_setup (id : string) (expires : Z) : SSHSessionSetup :=
  mkSSHSessionSetup id "10.0.0.9" 22 "key" expires.

Lemma reachable_step cfg st st' : reachable cfg st -> step st st' -> reachable cfg st'.
Proof. intros (ip & now & Hr) Hs. exists ip, now. by eapply rtc_r. Qed.

Lemma reachable_init cfg ip now : reachable cfg (init cfg ip now).
Proof. by exists ip, now. Qed.

(** A session that expires while it is being set up is tracked without a
    timer and is still open at any later time. *)
Theorem late_session_never_expires (D : Z) : 0 <= D ->
  exists st p s, reachable ex_cfg st /\ sm_sessions (t_mgr st) !! "s1" = Some p /\
    t_heap st !! p = Some s /\ se_closed s = false /\ t_timers st = [] /\
    se_expiresAt s + D <= t_clock st.
Proof.
  intros HD.
  set (st := (CreateSession (ex_setup "s1" 100) (Ok "10.1.0.1:4000") 0 1 (init ex_cfg "10.1.0.1" 100)).2).
  exists (mkState (t_mgr st) (t_heap st) (t_timers st) (t_clock st + D)), 0%nat,
    (mkSession "s1" "10.0.0.9" 22 "10.1.0.1" 100 100 false true true).
  assert (Hc : t_clock st = 101) by by vm_compute. split.
  - eapply reachable_step; [eapply reachable_step; [apply (reachable_init ex_cfg "10.1.0.1" 100)|]|by apply step_time].
    by apply step_create.
  - split_and!; [by vm_compute|by vm_compute|done|by vm_compute|cbn [t_clock se_expiresAt]; lia].
Qed.

(** The timer of a session that was revoked is not stopped.  A session created
    later under the same id is closed by it, long before its own expiry. *)
Theorem stale_timer_closes_session :
  exists st t p s, reachable ex_cfg st /\ t_timers st !! 0%nat = Some t /\ tm_when t <= t_clock st /\
    sm_sessions (t_mgr st) !! "s1" = Some p /\ t_heap st !! p = Some s /\
    t_clock st + 29 * minute <= se_expiresAt s /\ sm_sessions (t_mgr (run_timer 0 t st)) !! "s1" = None.
Proof.
  set (s0 := init ex_cfg "10.1.0.1" 0).
  set (s1 := (CreateSession (ex_setup "s1" minute) (Ok "10.1.0.1:4000") 0 0 s0).2).
  set (s2 := (CloseSession "s1" s1).2).
  set (s3 := mkState (t_mgr s2) (t_heap s2) (t_timers s2) (t_clock s2 + minute)).
  set (s4 := (CreateSession (ex_setup "s1" (30 * minute)) (Ok "10.1.0.1:4001") 0 0 s3).2).
  exists s4, (mkTimer "s1" minute), 1%nat. eexists. split.
  - do 4 (eapply reachable_step; [|first [by apply step_create|by apply (step_close "s1")|by apply step_time]]).
    apply reachable_init.
  - split_and!; vm_compute; try done.
Qed.

(** ** Witnesses *)

(** One session, created at time 0 to last a minute, half a minute later. *)
Definition ex_created : state :=
  (CreateSession (ex_setup "s1" minute) (Ok "10.1.0.1:4000") 0 0 (init ex_cfg "10.1.0.1" 0)).2.
Definition ex_half : state :=
  mkState (t_mgr ex_created) (t_heap ex_created) (t_timers ex_created) (t_clock ex_created + 30 * second).
Definition ex_session : session := mkSession "s1" "10.0.0.9" 22 "10.1.0.1" 0 minute false true false.

Lemma ex_half_reachable : reachable ex_cfg ex_half.
Proof.
  eapply reachable_step; [eapply reachable_step; [apply (reachable_init ex_cfg "10.1.0.1" 0)|]|by apply step_time].
  by apply step_create.
Qed.


Lemma HandleSSHSessionSetup_spec_witness :
  sm_sessions (t_mgr (HandleSSHSessionSetup (Some (ex_setup "s2" minute)) (Ok "10.1.0.1:4001") 0 0 ex_half).2) !! "s2"
    = Some 1%nat.
Proof.
  destruct (HandleSSHSessionSetup_spec (Some (ex_setup "s2" minute)) (Ok "10.1.0.1:4001") 0 0 ex_half None
    [ReportReady "s2" "10.1.0.1:4001"] _ ltac:(vm_compute; reflexivity)) as (? & ? & ? & [= <-] & _ & _ & E & _).
  by vm_compute.
Defined.

Lemma HandleSessionRevoked_spec_witness :
  (HandleSessionRevoked (Some "s1") ex_half).1.1 = None /\
  sm_sessions (t_mgr (HandleSessionRevoked (Some "s1") ex_half).2) = ∅.
Proof.
  destruct (HandleSessionRevoked_spec ex_cfg "s1" ex_half _ _ _ ltac:(by vm_compute) ex_half_reachable
    ltac:(rewrite <- !surjective_pairing; reflexivity)) as (E & Es & _).
  split; [exact E|]. rewrite Es. by vm_compute.
Defined.

Lemma late_session_never_expires_witness :
  exists st p s, reachable ex_cfg st /\ sm_sessions (t_mgr st) !! "s1" = Some p /\
    t_heap st !! p = Some s /\ se_closed s = false /\ t_timers st = [] /\
    se_expiresAt s + 1000 <= t_clock st.
Proof. apply (late_session_never_expires 1000). lia. Defined.

End Manager.
