(* ===== verification/Fs.v ===== *)
(** * Files and atomic writes (src/internal/fsutil/atomic.go)

    A disk of files and directories under cleaned absolute paths, what
    [filepath.Join] does with a relative element, and [WriteFileAtomic] with
    the failures and the crashes that can interrupt it. *)

From Stdlib Require Import Ascii String.
From stdpp Require Import base strings list gmap sorting.
From S2P Require Import Prelude.

(** A cleaned absolute path: its components. *)
Abbreviation path := (list string).

Record disk := mkDisk { d_files : gmap path (list Z); d_dirs : gset path }.

Definition set_files (d : disk) (f : gmap path (list Z)) : disk := mkDisk f (d_dirs d).

(** The components of a slash-separated string. *)
Fixpoint split_slash (acc : string) (s : string) : list string :=
  match s with
  | EmptyString => [acc]
  | String c s =>
      if decide (c = "/"%char) then acc :: split_slash "" s
      else split_slash (String.append acc (String c "")) s
  end.

(** [filepath.Clean], one component at a time, below the root. *)
Definition push (p : path) (c : string) : path :=
  if decide (c = "" \/ c = ".") then p
  else if decide (c = "..") then removelast p
  else p ++ [c].

Definition Join (p : path) (elem : string) : path := foldl push p (split_slash "" elem).

Definition Dir (p : path) : path := removelast p.
Definition Base (p : path) : string := List.last p "/".

(** The names of the files in a directory. *)
Definition strip (p q : path) : option path :=
  if decide (take (length p) q = p) then Some (drop (length p) q) else None.
Definition file_in (p q : path) : option string :=
  match strip p q with Some [n] => Some n | _ => None end.

Definition json_name (key : string) : string := String.append key ".json".

(** [strings.HasSuffix]. *)
Definition HasSuffix (s suffix : string) : bool :=
  let l := String.list_ascii_of_string s in
  let m := String.list_ascii_of_string suffix in
  bool_decide (length m <= length l)%nat && bool_decide (drop (length l - length m) l = m).

Definition name_le (a b : string) : Prop := String.leb a b = true.
#[global] Instance name_le_dec : RelDecision name_le.
Proof. intros a b. unfold name_le. apply _. Defined.

(** [os.ReadDir]: the names of the files, sorted. *)
Definition ReadDir (p : path) (d : disk) : list string :=
  merge_sort name_le (omap (file_in p) (map_to_list (d_files d)).*1).

(** [os.MkdirAll]: every prefix becomes a directory, unless one is a file. *)
Definition prefixes (p : path) : list path := (fun n => take n p) <$> seq 0 (S (length p)).
Definition MkdirAll (p : path) (d : disk) : bool * disk :=
  if decide (Exists (fun q => is_Some (d_files d !! q)) (prefixes p)) then (false, d)
  else (true, mkDisk (d_files d) (list_to_set (prefixes p) ∪ d_dirs d)).

Definition Remove (p : path) (d : disk) : disk := set_files d (delete p (d_files d)).

(** ** WriteFileAtomic *)

(** What can go wrong in a call: a system call that fails, the write after
    some of the bytes. *)
Inductive fault := NoFault | OpenFails | WriteFails (n : nat) | SyncFails | CloseFails | RenameFails.

#[global] Instance fault_eq_dec : EqDecision fault.
Proof. solve_decision. Defined.

Inductive error := EOpen | EWrite | ESync | EClose | ERename.

Definition tmp_name (name : string) : string := String.append ".tmp-" name.

(** The system refuses to create a file without its directory or over a
    directory, and to rename a file over a directory. *)
Definition can_create (p : path) (d : disk) : Prop := Dir p ∈ d_dirs d /\ p ∉ d_dirs d.
#[global] Instance can_create_dec p d : Decision (can_create p d).
Proof. unfold can_create. apply _. Defined.

(** The system calls that change files, with the effect a reader sees at once.
    A write appends to what the file has since it was opened. *)
Inductive fsop :=
| FCreate (p : path) | FWrite (p : path) (data : list Z) | FSync (p : path) | FRename (p q : path)
| FRemove (p : path) | FMkdirAll (p : path).

#[global] Instance fsop_eq_dec : EqDecision fsop.
Proof. solve_decision. Defined.

Definition fs_apply (d : disk) (o : fsop) : disk :=
  match o with
  | FCreate p => set_files d (<[p := []]> (d_files d))
  | FWrite p data => set_files d (<[p := default [] (d_files d !! p) ++ data]> (d_files d))
  | FSync _ => d
  | FRename p q =>
      match d_files d !! p with Some b => set_files d (<[q := b]> (delete p (d_files d))) | None => d end
  | FRemove p => Remove p d
  | FMkdirAll p => (MkdirAll p d).2
  end.

Definition fs_run (ops : list fsop) (d : disk) : disk := foldl fs_apply d ops.

(** The calls [WriteFileAtomic] makes; the deferred removal is the last. *)
Definition WriteFileAtomic_ops (f : fault) (dir : path) (name : string) (data : list Z) (d : disk)
    : option error * list fsop :=
  let targetPath := Join dir name in
  let tmpPath := Join dir (tmp_name name) in
  let cleanup := [FRemove tmpPath] in
  if decide (f = OpenFails \/ ~ can_create tmpPath d) then (Some EOpen, [])
  else
    let opened := [FCreate tmpPath] in
    match f with
    | WriteFails n => (Some EWrite, opened ++ [FWrite tmpPath (take n data)] ++ cleanup)
    | _ =>
        let written := opened ++ [FWrite tmpPath data] in
        match f with
        | SyncFails => (Some ESync, written ++ cleanup)
        | _ =>
            let synced := written ++ [FSync tmpPath] in
            match f with
            | CloseFails => (Some EClose, synced ++ cleanup)
            | _ =>
                if decide (f = RenameFails \/ targetPath ∈ d_dirs d) then (Some ERename, synced ++ cleanup)
                else (None, synced ++ [FRename tmpPath targetPath] ++ cleanup)
            end
        end
    end.

Definition WriteFileAtomic (f : fault) (dir : path) (name : string) (data : list Z) (d : disk)
    : option error * disk :=
  let '(e, ops) := WriteFileAtomic_ops f dir name data d in (e, fs_run ops d).

(** ** Crashes

    Calls reach the disk later than they return: [persists ops d d'] says that
    [d'] can be on the disk when the machine stops after the calls [ops].  Some
    first part of the calls is there, in their order; but data that was written
    and not synced before the stop may be anything. *)
Inductive persists : list fsop -> disk -> disk -> Prop :=
| persists_stop ops d : persists ops d d
| persists_synced p b ops d d' : FSync p ∈ ops -> persists ops (fs_apply d (FWrite p b)) d' ->
    persists (FWrite p b :: ops) d d'
| persists_unsynced p b junk ops d d' : FSync p ∉ ops -> persists ops (set_files d (<[p := junk]> (d_files d))) d' ->
    persists (FWrite p b :: ops) d d'
| persists_op o ops d d' : (forall p b, o <> FWrite p b) -> persists ops (fs_apply d o) d' -> persists (o :: ops) d d'.

(** The machine stops after any number of the calls. *)
Definition crash_of (ops : list fsop) (d d' : disk) : Prop := exists k, persists (take k ops) d d'.

(** The disks a crash during [WriteFileAtomic] can leave. *)
Definition crash (dir : path) (name : string) (data : list Z) (d d' : disk) : Prop :=
  exists f, crash_of (WriteFileAtomic_ops f dir name data d).2 d d'.

(** ** Lemmas *)

Definition no_slash (s : string) : Prop := Forall (fun c => c <> "/"%char) (String.list_ascii_of_string s).
#[global] Instance no_slash_dec s : Decision (no_slash s).
Proof. unfold no_slash. apply _. Defined.

Lemma split_no_slash s : forall acc, no_slash s -> split_slash acc s = [String.append acc s].
Proof.
  induction s as [|c s IH]; intros acc Hs; simpl.
  - by rewrite string_app_nil_r.
  - inversion_clear Hs. rewrite decide_False by done. rewrite IH by done.
    by rewrite string_app_assoc.
Qed.

(** A name of one plain component. *)
Definition plain (s : string) : Prop := no_slash s /\ s <> "" /\ s <> "." /\ s <> "..".

Lemma Join_plain p s : plain s -> Join p s = p ++ [s].
Proof.
  intros (Hs & H1 & H2 & H3). unfold Join. rewrite split_no_slash by done. simpl. unfold push.
  rewrite !decide_False; [done|done|]. by intros [?|?].
Qed.

Lemma plain_tmp s : no_slash s -> plain (tmp_name s).
Proof. intros Hs. split; [|done]. unfold no_slash, tmp_name. rewrite string_app_list. repeat constructor; done. Qed.

Lemma tmp_name_ne s : tmp_name s <> s.
Proof.
  intros E%(f_equal (fun s => length (String.list_ascii_of_string s))).
  unfold tmp_name in E. rewrite string_app_list, length_app in E. simpl in E. lia.
Qed.

Lemma Dir_snoc p (s : string) : Dir (p ++ [s]) = p.
Proof. unfold Dir. apply removelast_last. Qed.

Lemma Base_snoc p (s : string) : Base (p ++ [s]) = s.
Proof. unfold Base. apply last_last. Qed.

Lemma HasSuffix_json k : HasSuffix (json_name k) ".json" = true.
Proof.
  unfold HasSuffix, json_name. rewrite string_app_list, length_app.
  rewrite bool_decide_eq_true_2 by lia. simpl. apply bool_decide_eq_true_2.
  rewrite Nat.add_sub. apply drop_app_length.
Qed.

Lemma json_name_inj k1 k2 : json_name k1 = json_name k2 -> k1 = k2.
Proof. apply string_app_inj_r. Qed.

Lemma plain_json k : no_slash k -> plain (json_name k).
Proof.
  intros Hk. unfold json_name. split.
  { unfold no_slash in *. rewrite string_app_list. apply Forall_app. split; [done|].
    repeat constructor; done. }
  split_and!; intros E%(f_equal (fun s => length (String.list_ascii_of_string s)));
    rewrite string_app_list, length_app in E; simpl in E; lia.
Qed.

Lemma Join_name p n : bool_decide (no_slash n) = true -> n <> "" -> n <> "." -> n <> ".." ->
  Join p n = p ++ [n].
Proof. intros Hn%bool_decide_eq_true_1 ???. by apply Join_plain. Qed.

Lemma file_in_Some p q n : file_in p q = Some n <-> q = p ++ [n].
Proof.
  unfold file_in, strip. split.
  - case_decide as E; [|done]. destruct (drop (length p) q) as [|x [|]] eqn:Ed; try done.
    intros [= <-]. by rewrite <- (take_drop (length p) q), E, Ed.
  - intros ->. rewrite take_app_length, decide_True, drop_app_length by done. done.
Qed.

Lemma elem_of_ReadDir p d n : n ∈ ReadDir p d <-> is_Some (d_files d !! (p ++ [n])).
Proof.
  unfold ReadDir. rewrite merge_sort_Permutation, list_elem_of_omap. split.
  - intros (q & Hq & Hn%file_in_Some). subst q.
    apply list_elem_of_fmap in Hq as ([q b] & -> & Hq). apply elem_of_map_to_list in Hq. eauto.
  - intros [b Hb]. exists (p ++ [n]). split; [|by apply file_in_Some].
    apply list_elem_of_fmap. exists (p ++ [n], b). split; [done|]. by apply elem_of_map_to_list.
Qed.

Lemma NoDup_ReadDir p d : NoDup (ReadDir p d).
Proof.
  unfold ReadDir. rewrite merge_sort_Permutation. generalize (NoDup_fst_map_to_list (d_files d)).
  generalize ((map_to_list (d_files d)).*1). intros l. induction l as [|q l IH]; intros Hl; simpl.
  { constructor. }
  inversion_clear Hl as [|?? Hq Hl']. destruct (file_in p q) as [n|] eqn:E; [|by apply IH].
  constructor; [|by apply IH]. intros (q' & Hq' & Hn)%list_elem_of_omap.
  apply file_in_Some in E, Hn. subst. done.
Qed.

(** What a call does to the files, on every path through it. *)
Lemma WriteFileAtomic_files f dir name data d :
  plain name ->
  let tmp := dir ++ [tmp_name name] in
  let '(e, d') := WriteFileAtomic f dir name data d in
  d_dirs d' = d_dirs d /\
  (d' = d /\ is_Some e \/ d_files d' = delete tmp (d_files d) /\ is_Some e \/
   d_files d' = <[dir ++ [name] := data]> (delete tmp (d_files d)) /\ e = None).
Proof.
  intros Hp tmp. unfold WriteFileAtomic, WriteFileAtomic_ops. rewrite (Join_plain _ name) by done.
  rewrite (Join_plain _ (tmp_name name)) by (apply plain_tmp, Hp). fold tmp.
  assert (Hne : dir ++ [name] <> tmp).
  { intros [_ E]%app_inj_tail. symmetry in E. by apply tmp_name_ne in E. }
  case_decide as Hc; [by eauto|].
  destruct f; simpl; try (case_decide; simpl); rewrite ?lookup_insert_eq; simpl; (split; [done|]);
    rewrite ?insert_insert_eq, ?delete_insert_eq, ?delete_insert_ne, ?delete_delete_eq, ?delete_insert_eq by done; eauto 8.
Qed.

(** *** Crashes *)

Lemma persists_run ops : forall d, persists ops d (fs_run ops d).
Proof.
  induction ops as [|o ops IH]; intros d; [apply persists_stop|].
  destruct o as [p|p b|p|p q|p|p]; try (apply persists_op; [done|apply IH]).
  destruct (decide (FSync p ∈ ops)); [by apply persists_synced|]. by eapply persists_unsynced, IH.
Qed.

Lemma crash_of_start ops d : crash_of ops d d.
Proof. exists 0%nat. rewrite take_0. apply persists_stop. Qed.

Lemma crash_of_end ops d : crash_of ops d (fs_run ops d).
Proof. exists (length ops). rewrite firstn_all. apply persists_run. Qed.

(** Calls all of whose data is synced in the end. *)
Definition settled (ops : list fsop) : Prop :=
  forall i p b, ops !! i = Some (FWrite p b) -> FSync p ∈ drop (S i) ops.

Lemma settled_cons o ops : settled (o :: ops) -> settled ops.
Proof. intros Hs i p b Hi. exact (Hs (S i) p b Hi). Qed.

Lemma settled_app a b : settled a -> settled b -> settled (a ++ b).
Proof.
  intros Ha Hb i p x Hi. apply lookup_app_Some in Hi as [Hi|[Hl Hi]].
  - rewrite drop_app, elem_of_app. left. by eapply Ha.
  - apply Hb in Hi. rewrite drop_app_ge by lia. by replace (S i - length a)%nat with (S (i - length a)) by lia.
Qed.

(** Behind settled calls a crash finds their effect complete. *)
Lemma persists_settled a b : forall d d', settled a -> persists (a ++ b) d d' ->
  persists a d d' \/ persists b (fs_run a d) d'.
Proof.
  induction a as [|o a IH]; intros d d' Hs Hp; [by right|].
  assert (Hw : forall p x, o = FWrite p x -> FSync p ∈ a) by (intros p x ->; exact (Hs 0%nat p x eq_refl)).
  apply settled_cons in Hs.
  inversion Hp as [|p x ops d0 d1 Hsync Hp'|p x junk ops d0 d1 Hsync|o' ops d0 d1 Ho Hp']; subst.
  - left. apply persists_stop.
  - destruct (IH _ _ Hs Hp') as [?|?]; [left|by right]. apply persists_synced; eauto.
  - exfalso. apply Hsync, elem_of_app. left. by eapply Hw.
  - destruct (IH _ _ Hs Hp') as [?|?]; [left|by right]. by apply persists_op.
Qed.

Lemma crash_of_app a b d d' : settled a -> crash_of (a ++ b) d d' -> crash_of a d d' \/ crash_of b (fs_run a d) d'.
Proof.
  intros Hs [k Hk]. rewrite take_app in Hk. destruct (decide (k < length a)%nat) as [Hl|Hl].
  - left. exists k. replace (k - length a)%nat with 0%nat in Hk by lia. by rewrite take_0, app_nil_r in Hk.
  - rewrite take_ge in Hk by lia. apply persists_settled in Hk as [?|?]; [left|right|done].
    + exists (length a). by rewrite firstn_all.
    + by eexists.
Qed.

(** A call without an error has synced its data. *)
Lemma WriteFileAtomic_settled f dir name data d :
  (WriteFileAtomic_ops f dir name data d).1 = None -> settled (WriteFileAtomic_ops f dir name data d).2.
Proof.
  unfold WriteFileAtomic_ops. case_decide; [done|].
  destruct f; simpl; try done; case_decide; try done; intros _ [|[|[|[|[|[|i]]]]]] p b; simpl; intros [= <- <-]; set_solver.
Qed.

Lemma crash_before dir name data d : crash dir name data d d.
Proof. exists NoFault. apply crash_of_start. Qed.

Lemma crash_after dir name data d f : crash dir name data d (WriteFileAtomic f dir name data d).2.
Proof.
  exists f. unfold WriteFileAtomic. pose proof (crash_of_end (WriteFileAtomic_ops f dir name data d).2 d) as H.
  by destruct (WriteFileAtomic_ops _ _ _ _ _).
Qed.

(** The temporary file may be there with some of the data. *)
Lemma crash_writing dir name data d n : can_create (Join dir (tmp_name name)) d ->
  crash dir name data d (set_files d (<[Join dir (tmp_name name) := take n data]> (d_files d))).
Proof.
  intros Hc. exists (WriteFails n), 2%nat. unfold WriteFileAtomic_ops. rewrite decide_False by naive_solver. simpl.
  rewrite <- (insert_insert_eq (d_files d) _ (take n data) []).
  apply persists_op; [done|]. apply (persists_unsynced _ _ (take n data)); [set_solver|]. apply persists_stop.
Qed.

(** The disks a crash leaves: nothing but the temporary file differs from the
    disk before or after. *)
Lemma crash_files dir name data d d' :
  plain name -> crash dir name data d d' ->
  d_dirs d' = d_dirs d /\
  forall p, p <> dir ++ [tmp_name name] ->
    d_files d' !! p = d_files d !! p \/ (p = dir ++ [name] /\ d_files d' !! p = Some data).
Proof.
  intros Hp (f & k & Hk). unfold WriteFileAtomic_ops in Hk. rewrite (Join_plain _ name) in Hk by done.
  rewrite (Join_plain _ (tmp_name name)) in Hk by (apply plain_tmp, Hp).
  assert (Hne : dir ++ [tmp_name name] <> dir ++ [name]) by (intros [_ E]%app_inj_tail; by apply tmp_name_ne in E).
  remember (dir ++ [tmp_name name]) as tmp. remember (dir ++ [name]) as target.
  case_decide; [simpl in Hk; rewrite take_nil in Hk; inversion Hk; eauto|].
  destruct f; try (case_decide); destruct k as [|[|[|[|[|k]]]]]; simpl in Hk; rewrite ?take_nil in Hk.
  all: repeat match goal with
       | H : persists _ _ _ |- _ => inversion H; clear H; subst
       | H : FSync _ ∉ _ |- _ => exfalso; apply H; solve [repeat constructor]
       | H : forall p b, FWrite _ _ <> FWrite p b |- _ => by destruct (H _ _ eq_refl)
       end.
  all: simpl; rewrite ?lookup_insert_eq; simpl; (split; [done|]); intros p Hp'.
  all: destruct (decide (p = dir ++ [name])) as [->|];
    rewrite ?lookup_delete_ne, ?lookup_insert_ne, ?lookup_insert_eq by done;
    rewrite ?lookup_delete_ne, ?lookup_insert_ne by done; auto.
Qed.

(** ** Theorem *)

(** C16. Atomicity: whatever system call fails and wherever a crash interrupts
    [WriteFileAtomic], the target file holds either its old content or all of
    the new one (exactly so when the call returns), and no other file is
    touched except the temporary one. *)
Theorem WriteFileAtomic_atomic dir name data d :
  plain name ->
  (forall f, let '(e, d') := WriteFileAtomic f dir name data d in
     d_files d' !! (dir ++ [name]) = match e with Some _ => d_files d !! (dir ++ [name]) | None => Some data end) /\
  (forall d', crash dir name data d d' ->
     (d_files d' !! (dir ++ [name]) = d_files d !! (dir ++ [name]) \/
      d_files d' !! (dir ++ [name]) = Some data) /\
     forall p, p <> dir ++ [name] -> p <> dir ++ [tmp_name name] -> d_files d' !! p = d_files d !! p).
Proof.
  intros Hp. assert (Hne : dir ++ [tmp_name name] <> dir ++ [name]).
  { intros [_ E]%app_inj_tail. by apply tmp_name_ne in E. }
  split.
  - intros f. pose proof (WriteFileAtomic_files f dir name data d Hp) as H. simpl in H.
    destruct (WriteFileAtomic f dir name data d) as [e d'].
    destruct H as [_ [[-> [x ->]]|[[-> [x ->]]|[-> ->]]]]; [done|..].
    + by rewrite lookup_delete_ne.
    + by rewrite lookup_insert_eq.
  - intros d' Hc. destruct (crash_files _ _ _ _ _ Hp Hc) as [_ H]. split.
    + destruct (H (dir ++ [name])) as [?|[_ ?]]; [done|by left|by right].
    + intros p H1 H2. destruct (H p H2) as [?|[? _]]; done.
Qed.

Lemma WriteFileAtomic_atomic_witness :
  let d := mkDisk {[ ["d"; "f.json"] := [1] ]} {[ []; ["d"] ]} in
  d_files (WriteFileAtomic (WriteFails 1) ["d"] "f.json" [2; 3] d).2 !! ["d"; "f.json"] = Some [1].
Proof.
  intros d.
  assert (Hp : plain "f.json") by (split; [by_compute|split_and!; discriminate]).
  pose proof (proj1 (WriteFileAtomic_atomic ["d"] "f.json" [2; 3] d Hp) (WriteFails 1)) as P.
  assert (E : fst (WriteFileAtomic (WriteFails 1) ["d"] "f.json" [2; 3] d) = Some EWrite)
    by (vm_compute; reflexivity).
  destruct (WriteFileAtomic (WriteFails 1) ["d"] "f.json" [2; 3] d) as [e d']. simpl in E. subst e.
  exact P.
Defined.
