(* ===== verification/Sha256.v ===== *)
(** * SHA-256 and hexadecimal, as crypto/sha256 and encoding/hex compute them

    The digest of FIPS 180-4 over lists of bytes, executable, and the printed
    form that checksums have in requests and files. *)

From Stdlib Require Import Ascii String.
From stdpp Require Import base strings list.
From S2P Require Import Prelude Base64.

(** ** 32-bit words *)

Definition add32 (a b : Z) : Z := wrap_u 32 (a + b).
Definition rotr (n x : Z) : Z := Z.lor (Z.shiftr x n) (wrap_u 32 (Z.shiftl x (32 - n))).
Definition not32 (x : Z) : Z := Z.lxor x (2 ^ 32 - 1).

Definition Ch (x y z : Z) : Z := Z.lxor (Z.land x y) (Z.land (not32 x) z).
Definition Maj (x y z : Z) : Z := Z.lxor (Z.lxor (Z.land x y) (Z.land x z)) (Z.land y z).
Definition Sigma0 (x : Z) : Z := Z.lxor (Z.lxor (rotr 2 x) (rotr 13 x)) (rotr 22 x).
Definition Sigma1 (x : Z) : Z := Z.lxor (Z.lxor (rotr 6 x) (rotr 11 x)) (rotr 25 x).
Definition sigma0 (x : Z) : Z := Z.lxor (Z.lxor (rotr 7 x) (rotr 18 x)) (Z.shiftr x 3).
Definition sigma1 (x : Z) : Z := Z.lxor (Z.lxor (rotr 17 x) (rotr 19 x)) (Z.shiftr x 10).

(** ** Rounds *)

(** The standard takes its constants from the fractional parts of the roots
    of the first primes: 32 bits of the cube root for each round. *)
Definition is_prime (n : Z) : bool :=
  forallb (fun d => negb (n mod d =? 0)) (seqZ 2 (n - 2)).
Definition first_primes : list Z := filter (fun n => is_prime n = true) (seqZ 2 310).

(** The largest [r] below [2 ^ bits] over [acc] with [r ^ e <= n]. *)
Fixpoint int_root (e n : Z) (bits : nat) (acc : Z) : Z :=
  match bits with
  | O => acc
  | S b =>
      let r := acc + 2 ^ Z.of_nat b in
      int_root e n b (if r ^ e <=? n then r else acc)
  end.
Definition root_bits (e p : Z) : Z := wrap_u 32 (int_root e (p * 2 ^ (32 * e)) 40 0).

Definition round_constants : list Z := Eval vm_compute in root_bits 3 <$> first_primes.

Record digest := mkDigest { h0 : Z; h1 : Z; h2 : Z; h3 : Z; h4 : Z; h5 : Z; h6 : Z; h7 : Z }.

(** The square roots of the first eight. *)
Definition initial : digest := Eval vm_compute in
  match root_bits 2 <$> take 8 first_primes with
  | [a; b; c; d; e; f; g; h] => mkDigest a b c d e f g h
  | _ => mkDigest 0 0 0 0 0 0 0 0
  end.

(** One round with [kw], the sum of the round's constant and message word. *)
Definition round (d : digest) (kw : Z) : digest :=
  let t1 := add32 (add32 (h7 d) (Sigma1 (h4 d))) (add32 (Ch (h4 d) (h5 d) (h6 d)) kw) in
  let t2 := add32 (Sigma0 (h0 d)) (Maj (h0 d) (h1 d) (h2 d)) in
  mkDigest (add32 t1 t2) (h0 d) (h1 d) (h2 d) (add32 (h3 d) t1) (h4 d) (h5 d) (h6 d).

(** The message schedule: [n] more words after the sixteen in the window. *)
Fixpoint schedule (n : nat) (w : list Z) : list Z :=
  match n, w with
  | S n, x :: rest =>
      let word i := nth i w 0 in
      x :: schedule n (rest ++ [add32 (add32 (sigma1 (word 14%nat)) (word 9%nat))
                                     (add32 (sigma0 (word 1%nat)) x)])
  | _, _ => w
  end.

Definition add_digest (a b : digest) : digest :=
  mkDigest (add32 (h0 a) (h0 b)) (add32 (h1 a) (h1 b)) (add32 (h2 a) (h2 b)) (add32 (h3 a) (h3 b))
    (add32 (h4 a) (h4 b)) (add32 (h5 a) (h5 b)) (add32 (h6 a) (h6 b)) (add32 (h7 a) (h7 b)).

Definition block (d : digest) (words : list Z) : digest :=
  add_digest d (foldl round d (zip_with add32 round_constants (schedule 48 words))).

(** ** Padding and blocks *)

Fixpoint words (l : list Z) : list Z :=
  match l with
  | a :: b :: c :: d :: l => ((a * 256 + b) * 256 + c) * 256 + d :: words l
  | _ => []
  end.

Definition be_bytes (n : nat) (x : Z) : list Z :=
  (fun i => Z.shiftr x (8 * Z.of_nat (n - 1 - i)) mod 256) <$> seq 0 n.

Definition pad (m : list Z) : list Z :=
  let n := Z.of_nat (length m) in
  m ++ [0x80] ++ replicate (Z.to_nat ((55 - n) mod 64)) 0 ++ be_bytes 8 (wrap_u 64 (8 * n)).

Fixpoint blocks (fuel : nat) (d : digest) (w : list Z) : digest :=
  match fuel with
  | O => d
  | S fuel => match w with [] => d | _ => blocks fuel (block d (take 16 w)) (drop 16 w) end
  end.

Definition digest_bytes (d : digest) : list Z :=
  mjoin (be_bytes 4 <$> [h0 d; h1 d; h2 d; h3 d; h4 d; h5 d; h6 d; h7 d]).

(** [sha256.Sum256]; a block is consumed per unit of fuel. *)
Definition sha256 (m : list Z) : list Z :=
  let w := words (pad m) in digest_bytes (blocks (length w) initial w).

(** ** Hexadecimal *)

Definition hex_char (v : Z) : Z := if decide (v < 10) then 48 + v else 87 + v.
Definition hex_bytes (l : list Z) : list Z := l ≫= fun b => [hex_char (b / 16); hex_char (b mod 16)].
Definition hex_EncodeToString (l : list Z) : string := string_of_bytes (hex_bytes l).

#[global] Arguments sha256 : simpl never.
#[global] Arguments hex_EncodeToString : simpl never.

(** ** Lemmas *)

Lemma length_be_bytes n x : length (be_bytes n x) = n.
Proof. unfold be_bytes. by rewrite length_fmap, length_seq. Qed.

Lemma be_bytes_ok n x : Forall byte_ok (be_bytes n x).
Proof.
  unfold be_bytes. apply Forall_fmap, Forall_forall. intros i _. apply Z.mod_pos_bound. lia.
Qed.

Lemma length_sha256 m : length (sha256 m) = 32%nat.
Proof. unfold sha256, digest_bytes. cbn [fmap list_fmap mjoin list_join]. by rewrite !length_app, !length_be_bytes. Qed.

Lemma sha256_ok m : Forall byte_ok (sha256 m).
Proof. unfold sha256, digest_bytes. cbn [fmap list_fmap mjoin list_join]. rewrite !Forall_app. split_and!; auto using be_bytes_ok. Qed.

(** The padded message fills whole blocks. *)
Lemma pad_blocks m : exists k, length (pad m) = (64 * k)%nat.
Proof.
  unfold pad. rewrite !length_app, length_replicate, length_be_bytes. cbn [length].
  set (n := Z.of_nat (length m)).
  pose proof (Z.div_mod (55 - n) 64 ltac:(lia)) as Hd. pose proof (Z.mod_pos_bound (55 - n) 64 ltac:(lia)).
  exists (Z.to_nat (1 - (55 - n) / 64)). apply Nat2Z.inj. rewrite Nat2Z.inj_mul, !Nat2Z.inj_add, !Z2Nat.id by lia.
  fold n. lia.
Qed.

Lemma hex_char_inj a b : 0 <= a < 16 -> 0 <= b < 16 -> hex_char a = hex_char b -> a = b.
Proof. unfold hex_char. intros. repeat case_decide; lia. Qed.

Lemma hex_bytes_inj l : forall m, Forall byte_ok l -> Forall byte_ok m -> hex_bytes l = hex_bytes m -> l = m.
Proof.
  induction l as [|x l IH]; intros [|y m] Hl Hm E; try done.
  apply Forall_cons in Hl as [Hx Hl]. apply Forall_cons in Hm as [Hy Hm]. unfold byte_ok in *.
  cbn in E. injection E as E1 E2 E.
  pose proof (Z.div_mod x 16 ltac:(lia)). pose proof (Z.div_mod y 16 ltac:(lia)).
  pose proof (Z.mod_pos_bound x 16 ltac:(lia)). pose proof (Z.mod_pos_bound y 16 ltac:(lia)).
  apply hex_char_inj in E1; [|lia|lia]. apply hex_char_inj in E2; [|lia|lia].
  f_equal; [lia|]. by apply IH.
Qed.

Lemma hex_bytes_ok l : Forall byte_ok l -> Forall byte_ok (hex_bytes l).
Proof.
  induction 1 as [|x l Hx _ IH]; [constructor|]. cbn. unfold byte_ok in Hx.
  assert (0 <= x / 16 < 16 /\ 0 <= x mod 16 < 16) as [? ?]
    by (split; [split; [apply Z.div_pos|apply Z.div_lt_upper_bound]; lia|apply Z.mod_pos_bound; lia]).
  repeat constructor; try done; unfold hex_char, byte_ok; case_decide; lia.
Qed.

(** Two byte strings with the same hexadecimal form are the same. *)
Lemma hex_EncodeToString_inj l m :
  Forall byte_ok l -> Forall byte_ok m -> hex_EncodeToString l = hex_EncodeToString m -> l = m.
Proof.
  intros Hl Hm E%(f_equal bytes_of_string). unfold hex_EncodeToString in E.
  rewrite !bytes_of_string_of_bytes in E by by apply hex_bytes_ok. by apply hex_bytes_inj.
Qed.

Lemma hex_sha256_nonempty m : hex_EncodeToString (sha256 m) <> "".
Proof.
  pose proof (length_sha256 m). destruct (sha256 m); [done|]. done.
Qed.

(** The examples of the standard: the empty message, "abc" and a message of
    two blocks. *)
Lemma sha256_empty : hex_EncodeToString (sha256 []) = "e3b0c44298fc1c149afbf4c8996fb92427ae41e4649b934ca495991b7852b855".
Proof. vm_compute. reflexivity. Qed.
Lemma sha256_abc : hex_EncodeToString (sha256 (bytes_of_string "abc")) = "ba7816bf8f01cfea414140de5dae2223b00361a396177a9cb410ff61f20015ad".
Proof. vm_compute. reflexivity. Qed.
Lemma sha256_two_blocks :
  hex_EncodeToString (sha256 (bytes_of_string "abcdbcdecdefdefgefghfghighijhijkijkljklmklmnlmnomnopnopq"))
  = "248d6a61d20638b8e5c026930c3e6039a33ce45964ff2167f6ecedd419db06c1".
Proof. vm_compute. reflexivity. Qed.
