(* ===== verification/Duration.v ===== *)
(** * Durations as text (Go's time.ParseDuration and Duration.String)

    The parser of the standard library, with its unsigned 64-bit arithmetic
    and, for fractions, its double-precision multiplication; and the printer. *)

From Stdlib Require Import Ascii String SpecFloat.
From stdpp Require Import base strings list pretty.
From S2P Require Import Prelude Base64 Net.

Definition hour : Z := 60 * minute.

(** ** Parsing *)

(** [leadingInt]: [None] on overflow. *)
Fixpoint leadingInt (x : Z) (l : list Z) : option (Z * list Z) :=
  match l with
  | c :: l' =>
      match digit c with
      | Some v =>
          if decide (x > 2 ^ 63 / 10) then None
          else if decide (x * 10 + v > 2 ^ 63) then None
          else leadingInt (x * 10 + v) l'
      | None => Some (x, l)
      end
  | [] => Some (x, l)
  end.

(** [leadingFraction]: the digits that fit, and the power of ten. *)
Fixpoint leadingFraction (x scale : Z) (overflow : bool) (l : list Z) : Z * Z * list Z :=
  match l with
  | c :: l' =>
      match digit c with
      | Some v =>
          if overflow then leadingFraction x scale true l'
          else if decide (x > (2 ^ 63 - 1) / 10) then leadingFraction x scale true l'
          else if decide (x * 10 + v > 2 ^ 63) then leadingFraction x scale true l'
          else leadingFraction (x * 10 + v) (scale * 10) false l'
      | None => (x, scale, l)
      end
  | [] => (x, scale, l)
  end.

Definition unit_stop (c : Z) : bool := bool_decide (c = 46) || bool_decide (is_Some (digit c)).

Fixpoint span_unit (l : list Z) : list Z * list Z :=
  match l with
  | c :: l' => if unit_stop c then ([], l) else let '(u, r) := span_unit l' in (c :: u, r)
  | [] => ([], [])
  end.

(** The micro sign and the Greek letter mu are both accepted. *)
Definition unitMap (u : list Z) : option Z :=
  if decide (u = [110; 115]) then Some nanosecond
  else if decide (u = [117; 115] \/ u = [0xC2; 0xB5; 115] \/ u = [0xCE; 0xBC; 115]) then Some 1000
  else if decide (u = [109; 115]) then Some millisecond
  else if decide (u = [115]) then Some second
  else if decide (u = [109]) then Some minute
  else if decide (u = [104]) then Some hour
  else None.

(** [uint64(float64(f) * (float64(unit) / scale))]; a double holds every power
    of ten that [scale] takes. *)
Definition float_of_Z (z : Z) : spec_float := binary_normalize 53 1024 z 0 false.
Definition Z_of_float (f : spec_float) : Z :=
  match f with S754_finite false m e => Z.shiftl (Zpos m) e | _ => 0 end.

Definition fraction_of (f scale unit : Z) : Z :=
  wrap_u 64 (Z_of_float (SFmul 53 1024 (float_of_Z f) (SFdiv 53 1024 (float_of_Z unit) (float_of_Z scale)))).

(** The elements of the text; [d] is their sum so far. *)
Fixpoint duration_loop (fuel : nat) (d : Z) (l : list Z) : option Z :=
  match fuel, l with
  | _, [] => Some d
  | O, _ => None
  | S fuel, c :: _ =>
      if negb (unit_stop c) then None
      else
        match leadingInt 0 l with
        | None => None
        | Some (v, l1) =>
            let pre := bool_decide (length l <> length l1) in
            let '(f, scale, l2, post) :=
              match l1 with
              | c :: r =>
                  if decide (c = 46) then
                    let '(f, scale, l2) := leadingFraction 0 1 false r in
                    (f, scale, l2, bool_decide (length r <> length l2))
                  else (0, 1, l1, false)
              | [] => (0, 1, [], false)
              end in
            if negb pre && negb post then None
            else
              let '(u, l3) := span_unit l2 in
              match u, unitMap u with
              | [], _ | _, None => None
              | _, Some unit =>
                  if decide (v > 2 ^ 63 / unit) then None
                  else
                    let v := v * unit in
                    let v := if decide (f > 0) then wrap_u 64 (v + fraction_of f scale unit)
                             else v in
                    if decide (v > 2 ^ 63) then None
                    else
                      let d := wrap_u 64 (d + v) in
                      if decide (d > 2 ^ 63) then None else duration_loop fuel d l3
              end
        end
  end.

(** [time.ParseDuration]; every element takes at least one character, so the
    length is enough fuel. *)
Definition ParseDuration (s : string) : option Z :=
  let l := bytes_of_string s in
  let '(neg, l) :=
    match l with
    | c :: r => if decide (c = 45) then (true, r) else if decide (c = 43) then (false, r) else (false, l)
    | [] => (false, [])
    end in
  if decide (l = [48]) then Some 0
  else if decide (l = []) then None
  else
    match duration_loop (length l) 0 l with
    | None => None
    | Some d =>
        if neg then Some (wrap_int (- d))
        else if decide (d > 2 ^ 63 - 1) then None else Some d
    end.

(** ** Printing *)

(** [fmtFrac]: the fraction of [v] with [prec] digits, without trailing zeros
    and without the point when there is none left. *)
Fixpoint fmtFrac (prec : nat) (v : Z) (print : bool) : string * Z :=
  match prec with
  | O => (if print then "." else "", v)
  | S prec =>
      let digit := v mod 10 in
      let '(s, v') := fmtFrac prec (v / 10) (print || negb (bool_decide (digit = 0))) in
      (if print || negb (bool_decide (digit = 0)) then String.append s (pretty digit) else s, v')
  end.

Definition Duration_String (d : Z) : string :=
  let u := Z.abs d in
  let sign := if decide (d < 0) then "-" else "" in
  let body :=
    if decide (u = 0) then "0s"
    else if decide (u < second) then
      let '(prec, unit) :=
        if decide (u < 1000) then (0%nat, "ns")
        else if decide (u < millisecond) then (3%nat, string_of_bytes [0xC2; 0xB5; 115])
        else (6%nat, "ms") in
      let '(frac, n) := fmtFrac prec u false in
      String.append (pretty n) (String.append frac unit)
    else
      let '(frac, n) := fmtFrac 9 u false in
      let secs := String.append (pretty (n mod 60)) (String.append frac "s") in
      let m := n / 60 in
      if decide (m > 0) then
        let mins := String.append (pretty (m mod 60)) (String.append "m" secs) in
        let h := m / 60 in
        if decide (h > 0) then String.append (pretty h) (String.append "h" mins) else mins
      else secs in
  String.append sign body.

(** ** Lemmas *)

Lemma duration_loop_bound fuel : forall d l r,
  0 <= d <= 2 ^ 63 -> duration_loop fuel d l = Some r -> 0 <= r <= 2 ^ 63.
Proof.
  induction fuel as [|fuel IH]; intros d [|c l] r Hd E; cbn [duration_loop] in E; try (injection E as <-; lia); [done|].
  destruct (negb (unit_stop c)); [done|]. destruct (leadingInt 0 (c :: l)) as [[v l1]|]; [|done].
  destruct (match l1 with [] => _ | _ => _ end) as [[[f scale] l2] post]. destruct (_ && _); [done|].
  destruct (span_unit l2) as [[|u0 u] l3]; [done|]. destruct (unitMap (u0 :: u)) as [unit|]; [|done].
  case_decide; [done|]. match type of E with context [wrap_u 64 (d + ?x)] => set (v' := x) in * end.
  case_decide; [done|]. case_decide; [done|]. eapply IH; [|exact E].
  pose proof (wrap_u_bound 64 (d + v') ltac:(lia)). lia.
Qed.

(** A parsed duration is a 64-bit integer. *)
Lemma ParseDuration_bound s d : ParseDuration s = Some d -> min_int64 <= d <= max_int64.
Proof.
  unfold ParseDuration. destruct (match bytes_of_string s with [] => _ | _ => _ end) as [neg l].
  case_decide; [intros [= <-]; unfold min_int64, max_int64; lia|]. case_decide; [done|].
  destruct (duration_loop _ _ _) as [r|] eqn:Hr; [|done]. apply duration_loop_bound in Hr; [|lia].
  destruct neg; [|case_decide; [done|]]; intros [= <-]; unfold wrap_int, min_int64, max_int64 in *; [|lia].
  pose proof (Z.mod_pos_bound (- r + 2 ^ 63) (2 ^ 64) ltac:(lia)). lia.
Qed.

Lemma ParseDuration_examples :
  ParseDuration "30s" = Some (30 * second) /\ ParseDuration "1h15m30.918s" = Some 4530918000000 /\
  ParseDuration "-.5m" = Some (- 30 * second) /\ ParseDuration "+5h" = Some (5 * hour) /\
  ParseDuration "" = None /\ ParseDuration "3" = None /\ ParseDuration ".s" = None /\ ParseDuration "1x" = None /\
  ParseDuration "9223372036854775808ns" = None /\ ParseDuration "-9223372036854775808ns" = Some min_int64.
Proof. by vm_compute. Qed.

Lemma Duration_String_examples :
  Duration_String 0 = "0s" /\ Duration_String 1 = "1ns" /\ Duration_String 2200000 = "2.2ms" /\
  Duration_String 3300000000 = "3.3s" /\ Duration_String (4 * minute + 5 * second) = "4m5s" /\
  Duration_String (5 * hour + 6 * minute + 7001000000) = "5h6m7.001s" /\
  Duration_String (max_int64) = "2562047h47m16.854775807s" /\
  Duration_String (min_int64) = "-2562047h47m16.854775808s".
Proof. by vm_compute. Qed.
