(* ===== verification/Integrity.v ===== *)
(** * Integrity of the binary and of hooks (src/internal/integrity)

    Checksums of files on the disk of [Fs], the store of known-good checksums
    and its file, and the verifier with its periodic loop.  SHA-256 is
    computed; JSON is the interface of [Json]; a failing read or write is an
    argument. *)

From Stdlib Require Import Ascii String.
From stdpp Require Import base strings list gmap.
From S2P Require Import Prelude Base64 Types Sha256 Fs Json.

(** ** Configuration (config.go) *)

Definition DefaultVerifyInterval : Z := 5 * minute.

Record Config := mkConfig {
  ic_Enabled : bool;
  ic_BinaryPath : path;
  ic_HooksDir : path;
  ic_VerifyInterval : Z
}.

Definition ApplyDefaults (c : Config) : Config :=
  if decide (ic_VerifyInterval c = 0)
  then mkConfig true (ic_BinaryPath c) (ic_HooksDir c) DefaultVerifyInterval
  else c.

Definition Validate (c : Config) : option string :=
  if negb (ic_Enabled c) then None
  else if decide (ic_VerifyInterval c < 30 * second)
  then Some "integrity: config: VerifyInterval must be at least 30s when enabled"
  else None.

(** ** Checking a file (checker.go) *)

(** How reading a file can fail, besides there being none. *)
Inductive read_fault := ReadOk | OpenRefused | ReadFails.

Inductive error :=
| EOpenFile (p : path) | EHash (p : path) | EChecksumRequired
| EReadStore | EParseStore | EMarshalStore | EWriteStore (e : Fs.error).

(** The text of a cleaned path. *)
Fixpoint path_string (p : path) : string :=
  match p with
  | [] => ""
  | c :: p => String.append "/" (String.append c (path_string p))
  end.

Record CheckResult := mkCheckResult {
  cr_Path : path;
  cr_Expected : string;
  cr_Actual : string;
  cr_OK : bool
}.

(** A directory opens, and reading it fails. *)
Definition HashFile (rf : read_fault) (p : path) (d : disk) : result error string :=
  match rf, d_files d !! p with
  | ReadOk, Some b => Ok (hex_EncodeToString (sha256 b))
  | ReadFails, Some _ => Err (EHash p)
  | OpenRefused, _ => Err (EOpenFile p)
  | _, None => if decide (p ∈ d_dirs d) then Err (EHash p) else Err (EOpenFile p)
  end.

Definition VerifyFile (rf : read_fault) (p : path) (expectedChecksum : string) (requireChecksum : bool)
    (d : disk) : result error CheckResult :=
  if bool_decide (expectedChecksum = "") && requireChecksum then Err EChecksumRequired
  else
    match HashFile rf p d with
    | Err e => Err e
    | Ok actual =>
        if decide (expectedChecksum = "") then Ok (mkCheckResult p "" actual true)
        else Ok (mkCheckResult p expectedChecksum actual (bool_decide (actual = expectedChecksum)))
    end.

(** ** The checksum store (store.go) *)

Definition checksumFileName : string := "checksums.json".

Record Store := mkStore { s_dataDir : path; s_checksums : gmap string string }.

Definition Get (s : Store) (p : string) : string := default "" (s_checksums s !! p).

(** The reports handed to the reporter, whose errors are only logged. *)
Abbreviation reports := (list (string * IntegrityViolationReport)).

Section store.
Context `{Codec (gmap string string)}.

Definition NewStore (rf : read_fault) (dataDir : path) (d : disk) : result error Store :=
  match rf, d_files d !! Join dataDir checksumFileName with
  | ReadOk, Some b =>
      match Unmarshal b with
      | Some m => Ok (mkStore dataDir m)
      | None => Err EParseStore
      end
  | ReadOk, None =>
      if decide (Join dataDir checksumFileName ∈ d_dirs d) then Err EReadStore else Ok (mkStore dataDir ∅)
  | _, _ => Err EReadStore
  end.

Definition persist (f : fault) (s : Store) (d : disk) : option error * disk :=
  match MarshalIndent (s_checksums s) with
  | None => (Some EMarshalStore, d)
  | Some data =>
      let '(e, d) := WriteFileAtomic f (s_dataDir s) checksumFileName data d in (EWriteStore <$> e, d)
  end.

(** [Set] and [Remove] of the source. *)
Definition Set_ (f : fault) (p checksum : string) (s : Store) (d : disk) : option error * (Store * disk) :=
  let s := mkStore (s_dataDir s) (<[p := checksum]> (s_checksums s)) in
  let '(e, d) := persist f s d in (e, (s, d)).

Definition Remove_ (f : fault) (p : string) (s : Store) (d : disk) : option error * (Store * disk) :=
  let s := mkStore (s_dataDir s) (delete p (s_checksums s)) in
  let '(e, d) := persist f s d in (e, (s, d)).

(** ** The verifier (verifier.go) *)

Definition ViolationTypeBinary : string := "binary".
Definition ViolationTypeHook : string := "hook".

Record Verifier := mkVerifier {
  v_cfg : Config;
  v_store : Store;
  v_binaryChecksum : string
}.

Definition NewVerifier (cfg : Config) (store : Store) : Verifier := mkVerifier cfg store "".

Definition VerifyBinary (rf : read_fault) (f : fault) (now : Z) (nodeID : string) (v : Verifier) (d : disk)
    : option error * reports * (Verifier * disk) :=
  match HashFile rf (ic_BinaryPath (v_cfg v)) d with
  | Err e => (Some e, [], (v, d))
  | Ok actual =>
      let v := mkVerifier (v_cfg v) (v_store v) actual in
      let name := path_string (ic_BinaryPath (v_cfg v)) in
      let expected := Get (v_store v) name in
      if decide (expected = "") then
        let '(e, (s, d)) := Set_ f name actual (v_store v) d in
        (e, [], (mkVerifier (v_cfg v) s actual, d))
      else if decide (actual = expected) then (None, [], (v, d))
      else
        (None, [(nodeID, mkIntegrityViolationReport ViolationTypeBinary name expected actual
                           "binary checksum mismatch" now)], (v, d))
  end.

Definition VerifyHook (rf : read_fault) (now : Z) (nodeID : string) (hookPath : path) (expectedChecksum : string)
    (d : disk) : result error bool * reports :=
  match VerifyFile rf hookPath expectedChecksum true d with
  | Err e => (Err e, [])
  | Ok res =>
      if cr_OK res then (Ok true, [])
      else (Ok false, [(nodeID, mkIntegrityViolationReport ViolationTypeHook (path_string hookPath)
                                  (cr_Expected res) (cr_Actual res) "hook checksum mismatch" now)])
  end.

(** A tick of [Run]: when it comes, the disk it finds, what fails in it. *)
Record tick := mkTick { tk_now : Z; tk_disk : disk; tk_read : read_fault; tk_write : fault }.

Definition tick_step (nodeID : string) (st : Verifier * reports) (t : tick) : Verifier * reports :=
  let '(v, rs) := st in
  let '(_, rs', (v, _)) := VerifyBinary (tk_read t) (tk_write t) (tk_now t) nodeID v (tk_disk t) in
  (v, rs ++ rs').

(** The ticks that come before the context is cancelled; [time.NewTicker]
    panics on an interval that is not positive. *)
Definition Run (nodeID : string) (ticks : list tick) (v : Verifier) : outcome (Verifier * reports) :=
  if negb (ic_Enabled (v_cfg v)) then Returns (v, [])
  else if decide (ic_VerifyInterval (v_cfg v) <= 0) then Panics
  else Returns (foldl (tick_step nodeID) (v, []) ticks).

(** ** Lemmas *)

Lemma HashFile_nonempty rf p d h : HashFile rf p d = Ok h -> h <> "".
Proof.
  unfold HashFile. destruct rf, (d_files d !! p); try case_decide; try done. intros [= <-]. apply hex_sha256_nonempty.
Qed.

Lemma HashFile_Ok rf p d h :
  HashFile rf p d = Ok h <-> rf = ReadOk /\ exists b, d_files d !! p = Some b /\ h = hex_EncodeToString (sha256 b).
Proof.
  unfold HashFile. destruct rf, (d_files d !! p) as [b|] eqn:E; try case_decide; split; try done;
    try (by intros [? (? & ? & ?)]).
  - intros [= <-]. eauto.
  - intros [_ (b' & [= <-] & ->)]. done.
Qed.

Lemma Set_store f p c s d e s' d' :
  Set_ f p c s d = (e, (s', d')) -> s' = mkStore (s_dataDir s) (<[p := c]> (s_checksums s)).
Proof. unfold Set_. destruct (persist _ _ _). by intros [= _ <- _]. Qed.

Lemma VerifyHook_facts rf now nodeID p expected d :
  let '(r, rs) := VerifyHook rf now nodeID p expected d in
  (r = Ok true -> rf = ReadOk /\ expected <> "" /\
     exists b, d_files d !! p = Some b /\ expected = hex_EncodeToString (sha256 b)) /\
  (rf = ReadOk /\ (exists b, d_files d !! p = Some b /\ expected = hex_EncodeToString (sha256 b)) ->
   r = Ok true).
Proof.
  unfold VerifyHook, VerifyFile. destruct (decide (expected = "")) as [->|Hne].
  { cbn. split; [done|]. intros (_ & b & _ & Hc). by apply eq_sym, hex_sha256_nonempty in Hc. }
  rewrite (bool_decide_eq_false_2 (expected = "")) by done. cbn [andb].
  destruct (HashFile rf p d) as [h|e] eqn:Eh; cbn [cr_OK].
  - apply HashFile_Ok in Eh as (-> & b & Hb & ->). case_bool_decide as Hq; cbn.
    + split; [intros _|done]. split_and!; eauto.
    + split; [done|]. intros (_ & b' & Hb' & Hq'). congruence.
  - split; [done|]. intros (-> & b & Hb & _). unfold HashFile in Eh. by rewrite Hb in Eh.
Qed.

(** The successful checksums of a run, with their times. *)
Definition observed (p : path) (t : tick) : option (Z * string) :=
  match HashFile (tk_read t) p (tk_disk t) with Ok h => Some (tk_now t, h) | Err _ => None end.

Definition violation (p : path) (nodeID base : string) (o : Z * string) : string * IntegrityViolationReport :=
  (nodeID, mkIntegrityViolationReport ViolationTypeBinary (path_string p) base o.2 "binary checksum mismatch" o.1).

Definition baseline (v : Verifier) : string := Get (v_store v) (path_string (ic_BinaryPath (v_cfg v))).

(** One tick, by what it observes. *)
Lemma tick_step_spec nodeID v rs t :
  let p := ic_BinaryPath (v_cfg v) in
  let '(v', rs') := tick_step nodeID (v, rs) t in
  v_cfg v' = v_cfg v /\
  match observed p t with
  | None => v' = v /\ rs' = rs
  | Some o =>
      v_binaryChecksum v' = o.2 /\ o.2 <> "" /\
      baseline v' = (if decide (baseline v = "") then o.2 else baseline v) /\
      rs' = rs ++ (if decide (baseline v = "" \/ o.2 = baseline v) then []
                   else [violation p nodeID (baseline v) o])
  end.
Proof.
  intros p. unfold tick_step, VerifyBinary, observed. fold p.
  destruct (HashFile _ p _) as [h|e] eqn:Eh; [|by rewrite app_nil_r].
  pose proof (HashFile_nonempty _ _ _ _ Eh) as Hne. cbn [v_cfg v_store]. fold p.
  change (Get (v_store v) (path_string p)) with (baseline v).
  destruct (decide (baseline v = "")) as [Hb|Hb].
  - rewrite (decide_True (P := _ \/ _)) by by left.
    destruct (Set_ _ _ _ _ _) as [e [s' d']] eqn:Es. apply Set_store in Es as ->. split_and!; try done.
    unfold baseline, Get. cbn. fold p. by rewrite lookup_insert_eq.
  - case_decide as Ha; cbn.
    + rewrite decide_True by by right. done.
    + rewrite decide_False by by intros [?|?]. done.
Qed.

Lemma foldl_tick_step nodeID ticks : forall v rs,
  let os := omap (observed (ic_BinaryPath (v_cfg v))) ticks in
  let base := if decide (baseline v = "") then default "" (snd <$> head os) else baseline v in
  let '(v', rs') := foldl (tick_step nodeID) (v, rs) ticks in
  v_cfg v' = v_cfg v /\ baseline v' = base /\
  rs' = rs ++ (violation (ic_BinaryPath (v_cfg v)) nodeID base <$> filter (fun o => o.2 <> base) os).
Proof.
  induction ticks as [|t ticks IH]; intros v rs; cbn [foldl omap list_omap].
  - split_and!; [done|by case_decide|by rewrite app_nil_r].
  - pose proof (tick_step_spec nodeID v rs t) as Ht. cbv zeta in Ht.
    destruct (tick_step nodeID (v, rs) t) as [v1 rs1]. destruct Ht as [Hc Ht]. specialize (IH v1 rs1).
    cbv zeta in *. destruct (foldl _ _ _) as [v' rs']. rewrite Hc in IH. destruct IH as (H1 & H2 & H3).
    destruct (observed (ic_BinaryPath (v_cfg v)) t) as [o|] eqn:Eo.
    + destruct Ht as (_ & Hne & Hb & ->). cbn [head fmap option_fmap option_map default] in *.
      assert (Eb : baseline v1 <> "") by (rewrite Hb; by case_decide).
      rewrite (decide_False (P := baseline v1 = "")) in H2, H3 by done. rewrite Hb in H2, H3.
      split_and!; [done|done|]. rewrite H3, filter_cons. rewrite <- app_assoc. f_equal.
      destruct (decide (baseline v = "")) as [E0|E0].
      * rewrite (decide_True (P := _ \/ _)) by by left. by rewrite decide_False by auto.
      * destruct (decide (o.2 = baseline v)) as [E1|E1].
        -- rewrite (decide_True (P := _ \/ _)) by by right. rewrite decide_False by auto. done.
        -- rewrite (decide_False (P := _ \/ _)) by by intros [?|?]. by rewrite decide_True.
    + destruct Ht as [-> ->]. done.
Qed.

(** What is on disk after a call of [Set] or [Remove] that did not fail. *)
Lemma persist_file f s d d' :
  persist f s d = (None, d') ->
  exists data, MarshalIndent (s_checksums s) = Some data /\
    d_files d' !! (s_dataDir s ++ [checksumFileName]) = Some data /\ d_dirs d' = d_dirs d.
Proof.
  unfold persist. destruct (MarshalIndent _) as [data|]; [|done].
  assert (Hp : plain checksumFileName) by (split; [by_compute|split_and!; discriminate]).
  pose proof (WriteFileAtomic_files f (s_dataDir s) checksumFileName data d Hp) as Hw. cbv zeta in Hw.
  destruct (WriteFileAtomic _ _ _ _ _) as [e d1]. intros [= He <-]. destruct e; [done|].
  destruct Hw as [Hd [[_ [? ?]]|[[_ [? ?]]|[Hw _]]]]; [done..|]. exists data. split_and!; [done| |done].
  rewrite Hw. by rewrite lookup_insert_eq.
Qed.

Lemma Join_checksumFileName p : Join p checksumFileName = p ++ [checksumFileName].
Proof. apply Join_plain. split; [by_compute|split_and!; discriminate]. Qed.

End store.

(** ** Theorems *)

(** A run of the verifier reports exactly the deviations from the baseline.
    The baseline is the stored checksum or, when there is none, the first one
    computed; it never changes, whatever happens to the files and whatever
    reads and writes fail. *)
Theorem Run_reports_deviations `{Codec (gmap string string)} nodeID ticks v v' rs :
  ic_Enabled (v_cfg v) = true -> Run nodeID ticks v = Returns (v', rs) ->
  let p := ic_BinaryPath (v_cfg v) in
  let os := omap (observed p) ticks in
  let base := if decide (baseline v = "") then default "" (snd <$> head os) else baseline v in
  baseline v' = base /\ rs = (violation p nodeID base <$> filter (fun o => o.2 <> base) os).
Proof.
  intros He. unfold Run. rewrite He. cbn [negb]. case_decide; [done|]. intros [= E]. pose proof (foldl_tick_step nodeID ticks v []) as Hf.
  cbv zeta in Hf. rewrite E in Hf. destruct Hf as (_ & Hb & Hr). done.
Qed.

(** A hook passes exactly when a checksum is demanded and is the SHA-256 of
    its content; a wrong one is reported once, with both checksums. *)
Theorem VerifyHook_spec rf now nodeID p expected d :
  let '(r, rs) := VerifyHook rf now nodeID p expected d in
  (r = Ok true <-> rf = ReadOk /\ expected <> "" /\
     exists b, d_files d !! p = Some b /\ expected = hex_EncodeToString (sha256 b)) /\
  (r = Ok false <-> exists actual, rs = [(nodeID, mkIntegrityViolationReport ViolationTypeHook (path_string p)
                                            expected actual "hook checksum mismatch" now)]) /\
  (r <> Ok false -> rs = []) /\ (expected = "" -> r = Err EChecksumRequired).
Proof.
  pose proof (VerifyHook_facts rf now nodeID p expected d) as Hf.
  unfold VerifyHook, VerifyFile in *. destruct (decide (expected = "")) as [->|Hne]; cbn in *.
  { split_and!; try done; [split; [done|by intros (_ & ? & _)]|split; [done|by intros [? ?]]]. }
  rewrite (bool_decide_eq_false_2 (expected = "")) in * by done. cbn [andb] in *.
  destruct (HashFile rf p d) as [h|e]; cbn [cr_OK cr_Expected cr_Actual] in *.
  - case_bool_decide as Hq; cbn [cr_OK] in *; destruct Hf as [Hf1 Hf2].
    + split_and!; [by split; auto|by split; [|intros [? ?]]|done|done].
    + split_and!; [split; [done|]; intros (? & _ & ?); by apply Hf2|by split; [eauto|]|done|done].
  - destruct Hf as [Hf1 Hf2].
    split_and!; [split; [done|]; intros (? & _ & ?); by apply Hf2|by split; [|intros [? ?]]|done|done].
Qed.

(** What [Set] has stored a new process reads back, provided that the
    checksums survive the encoding. *)
Theorem Set_NewStore `{CodecLaws (gmap string string)} f p c s d s' d' :
  Set_ f p c s d = (None, (s', d')) -> norm (s_checksums s') = s_checksums s' ->
  NewStore ReadOk (s_dataDir s) d' = Ok s' /\ Get s' p = c.
Proof.
  intros E Hn. pose proof (Set_store _ _ _ _ _ _ _ _ E) as Es. unfold Set_ in E.
  destruct (persist _ _ _) as [e d1] eqn:Ep. injection E as -> <- <-.
  destruct (persist_file _ _ _ _ Ep) as (data & Hm & Hd & _). cbn [s_dataDir s_checksums] in *.
  unfold NewStore. rewrite Join_checksumFileName, Hd, (Unmarshal_Marshal _ _ Hm), Hn.
  split; [done|]. unfold Get. cbn. by rewrite lookup_insert_eq.
Qed.

(** A crash while [Set] writes leaves the store that was on disk, or the new
    one: the next start reads one of the two. *)
Theorem Set_crash_safe `{CodecLaws (gmap string string)} s data d d' :
  MarshalIndent (s_checksums s) = Some data -> norm (s_checksums s) = s_checksums s ->
  crash (s_dataDir s) checksumFileName data d d' ->
  NewStore ReadOk (s_dataDir s) d' = NewStore ReadOk (s_dataDir s) d \/
  NewStore ReadOk (s_dataDir s) d' = Ok s.
Proof.
  intros Hm Hn Hc. apply crash_files in Hc as [Hd Hc]; [|split; [by_compute|split_and!; discriminate]].
  unfold NewStore. rewrite Join_checksumFileName, Hd.
  destruct (Hc (s_dataDir s ++ [checksumFileName])) as [->|[_ ->]]; [|by left|].
  - intros [_ E]%app_inj_tail. by vm_compute in E.
  - right. rewrite (Unmarshal_Marshal _ _ Hm), Hn. by destruct s.
Qed.

(** ** Witnesses *)

Import SimCodec.

Definition ex_bin : path := ["usr"; "bin"; "plexd"].
Definition ex_dir : path := ["var"; "lib"; "plexd"].
Definition ex_disk (content : string) : disk :=
  mkDisk {[ ex_bin := bytes_of_string content ]} {[ []; ["var"]; ["var"; "lib"]; ex_dir; ["usr"]; ["usr"; "bin"] ]}.
Definition ex_verifier : Verifier :=
  NewVerifier (mkConfig true ex_bin ["etc"; "hooks"] (5 * minute)) (mkStore ex_dir ∅).
(** The baseline cannot be written to its file; the binary is replaced
    before the third tick and put back before the last. *)
Definition ex_ticks : list tick :=
  [mkTick 1 (ex_disk "abc") ReadOk RenameFails; mkTick 2 (ex_disk "abc") OpenRefused NoFault;
   mkTick 3 (ex_disk "evil") ReadOk NoFault; mkTick 4 (ex_disk "abc") ReadOk NoFault].

Lemma Run_reports_deviations_witness :
  ic_Enabled (v_cfg ex_verifier) = true /\
  exists v' rs, Run "n1" ex_ticks ex_verifier = Returns (v', rs) /\
    baseline v' = hex_EncodeToString (sha256 (bytes_of_string "abc")) /\ length rs = 1%nat.
Proof.
  split; [done|]. destruct (Run "n1" ex_ticks ex_verifier) as [[v' rs]|] eqn:E; [|done]. exists v', rs. split; [done|].
  destruct (Run_reports_deviations "n1" ex_ticks ex_verifier v' rs eq_refl E) as [Hb Hr].
  split; [rewrite Hb; vm_compute; reflexivity|]. rewrite Hr. vm_compute. reflexivity.
Defined.

Lemma Set_NewStore_witness :
  let st := (Set_ NoFault "/usr/bin/plexd" "c1" (mkStore ex_dir ∅) (ex_disk "abc")).2 in
  NewStore ReadOk ex_dir st.2 = Ok st.1 /\ Get st.1 "/usr/bin/plexd" = "c1".
Proof.
  intros st. apply (Set_NewStore NoFault "/usr/bin/plexd" "c1" (mkStore ex_dir ∅) (ex_disk "abc") st.1 st.2).
  - vm_compute. reflexivity.
  - reflexivity.
Defined.

Lemma Set_crash_safe_witness :
  let s := mkStore ex_dir {[ "/usr/bin/plexd" := "c1" ]} in
  NewStore ReadOk ex_dir (ex_disk "abc") = NewStore ReadOk ex_dir (ex_disk "abc") \/
  NewStore ReadOk ex_dir (ex_disk "abc") = Ok s.
Proof.
  intros s. eapply (Set_crash_safe s _ (ex_disk "abc") (ex_disk "abc")); [reflexivity|reflexivity|apply crash_before].
Defined.
