(* ===== verification/Identity.v ===== *)
(** * The node's identity (src/internal/registration/identity.go, keys.go)

    The four files that hold an identity, on the disk of [Fs] with the faults
    and crashes of its atomic writes; and the clamped key pair.  Deriving a
    public key is the third-party package's: an argument. *)

From Stdlib Require Import Ascii String.
From stdpp Require Import base strings list gmap.
From S2P Require Import Prelude Base64 Types Fs Json Integrity.

(** ** White space (strings.TrimSpace) *)

(** The width of a white space character at the front; [rev] reads the bytes
    backwards. *)
Definition space_width (l : list Z) : nat :=
  match l with
  | c :: l' =>
      if ((9 <=? c) && (c <=? 13)) || (c =? 32) then 1%nat
      else
        match l' with
        | b :: l'' =>
            if (c =? 0xC2) && ((b =? 0x85) || (b =? 0xA0)) then 2%nat
            else
              match l'' with
              | a :: _ =>
                  if ((c =? 0xE1) && (b =? 0x9A) && (a =? 0x80))
                     || ((c =? 0xE2) && (b =? 0x80) &&
                         (((0x80 <=? a) && (a <=? 0x8A)) || (a =? 0xA8) || (a =? 0xA9) || (a =? 0xAF)))
                     || ((c =? 0xE2) && (b =? 0x81) && (a =? 0x9F))
                     || ((c =? 0xE3) && (b =? 0x80) && (a =? 0x80))
                  then 3%nat else 0%nat
              | [] => 0%nat
              end
        | [] => 0%nat
        end
  | [] => 0%nat
  end.

Definition space_width_back (l : list Z) : nat :=
  match space_width (take 1 l), space_width (rev (take 2 l)), space_width (rev (take 3 l)) with
  | 1%nat, _, _ => 1%nat
  | _, 2%nat, _ => 2%nat
  | _, _, 3%nat => 3%nat
  | _, _, _ => 0%nat
  end.

Fixpoint trim (width : list Z -> nat) (skip : nat) (l : list Z) : list Z :=
  match l with
  | [] => []
  | _ :: l' =>
      match skip with
      | S skip => trim width skip l'
      | O => match width l with O => l | S k => trim width k l' end
      end
  end.

Definition trim_bytes (l : list Z) : list Z :=
  rev (trim space_width_back 0 (rev (trim space_width 0 l))).

Definition TrimSpace (s : string) : string := string_of_bytes (trim_bytes (bytes_of_string s)).

(** ** Key pairs (keys.go) *)

Record Keypair := mkKeypair { kp_PrivateKey : list Z; kp_PublicKey : list Z }.

(** [&^= 0x07] on the first byte, [&^= 0x80] and [|= 0x40] on the last. *)
Definition clamp (key : list Z) : list Z :=
  alter (fun b => Z.lor (Z.land b 0x7F) 0x40) 31%nat (alter (fun b => Z.land b 0xF8) 0%nat key).

Section keys.
Context (X25519 : list Z -> option (list Z)). (* with the base point *)

(** [random] is what the system's generator gives, 32 bytes or an error. *)
Definition GenerateKeypair (random : option (list Z)) : option Keypair :=
  match random with
  | None => None
  | Some bytes =>
      let privateKey := clamp bytes in
      match X25519 privateKey with
      | Some publicKey => Some (mkKeypair privateKey publicKey)
      | None => None
      end
  end.

End keys.

Definition EncodePublicKey (k : Keypair) : string := EncodeToString (kp_PublicKey k).

(** ** Identities (identity.go) *)

Record NodeIdentity := mkIdentity {
  id_NodeID : string;
  id_MeshIP : string;
  id_SigningPublicKey : string;
  id_PrivateKey : list Z;
  id_NodeSecretKey : string
}.

(** The fields that are in identity.json. *)
Record identity_json := mkIdentityJson { ij_NodeID : string; ij_MeshIP : string; ij_SigningPublicKey : string }.
#[global] Instance identity_json_eq_dec : EqDecision identity_json.
Proof. solve_decision. Defined.

Inductive error :=
| ErrNotRegistered | EMkdir | EMarshal | EWriteFile (name : string) (e : Fs.error)
| ERead (name : string) | EUnmarshal | EDecodeKey | EEmptyNodeID | EEmptyMeshIP.

Definition f_identity : string := "identity.json".
Definition f_private_key : string := "private_key".
Definition f_node_secret_key : string := "node_secret_key".
Definition f_signing_public_key : string := "signing_public_key".

Section identity.
Context `{Codec identity_json}.

(** The files and their contents, in the order of the writes. *)
Definition identity_files (id : NodeIdentity) (jsonData : list Z) : list (string * list Z) :=
  [(f_identity, jsonData);
   (f_private_key, bytes_of_string (EncodeToString (id_PrivateKey id)));
   (f_node_secret_key, bytes_of_string (id_NodeSecretKey id));
   (f_signing_public_key, bytes_of_string (id_SigningPublicKey id))].

(** Write after write, the first failure ends it: the error and the calls. *)
Fixpoint write_files_ops (f : string -> fault) (dir : path) (fs : list (string * list Z)) (d : disk)
    : option error * list fsop :=
  match fs with
  | [] => (None, [])
  | (name, data) :: fs =>
      match WriteFileAtomic_ops (f name) dir name data d with
      | (Some e, ops) => (Some (EWriteFile name e), ops)
      | (None, ops) => let '(e, ops') := write_files_ops f dir fs (fs_run ops d) in (e, ops ++ ops')
      end
  end.

Definition SaveIdentity_ops (f : string -> fault) (dataDir : path) (id : NodeIdentity) (d : disk)
    : option error * list fsop :=
  match MkdirAll dataDir d with
  | (false, d) => (Some EMkdir, [])
  | (true, d) =>
      match MarshalIndent (mkIdentityJson (id_NodeID id) (id_MeshIP id) (id_SigningPublicKey id)) with
      | None => (Some EMarshal, [FMkdirAll dataDir])
      | Some jsonData =>
          let '(e, ops) := write_files_ops f dataDir (identity_files id jsonData) d in (e, FMkdirAll dataDir :: ops)
      end
  end.

Definition SaveIdentity (f : string -> fault) (dataDir : path) (id : NodeIdentity) (d : disk)
    : option error * disk :=
  let '(e, ops) := SaveIdentity_ops f dataDir id d in (e, fs_run ops d).

(** The disks a crash during [SaveIdentity] can leave. *)
Definition save_crash (f : string -> fault) (dataDir : path) (id : NodeIdentity) (d d' : disk) : Prop :=
  crash_of (SaveIdentity_ops f dataDir id d).2 d d'.

(** [os.ReadFile]: [rf] says which reads fail. *)
Definition ReadFile (rf : string -> read_fault) (dir : path) (name : string) (d : disk) : option (list Z) :=
  match rf name with ReadOk => d_files d !! Join dir name | _ => None end.

Definition not_exist (rf : string -> read_fault) (dir : path) (name : string) (d : disk) : bool :=
  match rf name with
  | ReadOk => bool_decide (d_files d !! Join dir name = None /\ Join dir name ∉ d_dirs d)
  | _ => false
  end.

Definition LoadIdentity (rf : string -> read_fault) (dataDir : path) (d : disk) : result error NodeIdentity :=
  match ReadFile rf dataDir f_identity d with
  | None => if not_exist rf dataDir f_identity d then Err ErrNotRegistered else Err (ERead f_identity)
  | Some jsonData =>
      match Unmarshal jsonData with
      | None => Err EUnmarshal
      | Some j =>
          match ReadFile rf dataDir f_private_key d with
          | None => Err (ERead f_private_key)
          | Some privKeyData =>
              match DecodeString (string_of_bytes (trim_bytes privKeyData)) with
              | None => Err EDecodeKey
              | Some privKey =>
                  match ReadFile rf dataDir f_node_secret_key d with
                  | None => Err (ERead f_node_secret_key)
                  | Some nsk =>
                      match ReadFile rf dataDir f_signing_public_key d with
                      | None => Err (ERead f_signing_public_key)
                      | Some spk =>
                          let fileSPK := string_of_bytes (trim_bytes spk) in
                          if decide (ij_NodeID j = "") then Err EEmptyNodeID
                          else if decide (ij_MeshIP j = "") then Err EEmptyMeshIP
                          else Ok (mkIdentity (ij_NodeID j) (ij_MeshIP j)
                                     (if decide (fileSPK <> ij_SigningPublicKey j) then fileSPK
                                      else ij_SigningPublicKey j)
                                     privKey (string_of_bytes (trim_bytes nsk)))
                      end
                  end
              end
          end
      end
  end.

End identity.

(** ** Lemmas *)

Lemma trim_nospace width l : (forall c l, 32 < c < 128 -> width (c :: l) = 0%nat) ->
  Forall (fun c => 32 < c < 128) l -> trim width 0 l = l.
Proof. intros Hw Hl. destruct Hl as [|c l Hc Hl]; [done|]. cbn. by rewrite Hw. Qed.

Lemma space_width_print c l : 32 < c < 128 -> space_width (c :: l) = 0%nat.
Proof.
  intros Hc. unfold space_width.
  replace (((9 <=? c) && (c <=? 13)) || (c =? 32)) with false by lia.
  replace (c =? 0xC2) with false by lia. replace (c =? 0xE1) with false by lia.
  replace (c =? 0xE2) with false by lia. replace (c =? 0xE3) with false by lia.
  by destruct l as [|b [|a l]].
Qed.

Lemma space_width_back_print c l : 32 < c < 128 -> space_width_back (c :: l) = 0%nat.
Proof.
  intros Hc. unfold space_width_back. change (take 1 (c :: l)) with [c]. rewrite (space_width_print c []) by done.
  assert (H2 : space_width (rev (take 2 (c :: l))) <> 2%nat)
    by (destruct l as [|b l]; cbn [firstn rev]; rewrite ?take_0; cbn [rev app space_width]; repeat case_match; lia).
  assert (H3 : space_width (rev (take 3 (c :: l))) <> 3%nat)
    by (destruct l as [|b [|a l]]; cbn [firstn rev]; rewrite ?take_0; cbn [rev app space_width]; repeat case_match; lia).
  destruct (space_width (rev (take 2 (c :: l)))) as [|[|[|n]]]; try done;
    destruct (space_width (rev (take 3 (c :: l)))) as [|[|[|[|m]]]]; done.
Qed.

Lemma trim_bytes_print l : Forall (fun c => 32 < c < 128) l -> trim_bytes l = l.
Proof.
  intros Hl. unfold trim_bytes. rewrite (trim_nospace space_width) by (auto using space_width_print).
  rewrite (trim_nospace space_width_back); [apply rev_involutive|apply space_width_back_print|].
  by apply Forall_rev.
Qed.

Lemma EncodeToString_print b : Forall byte_ok b -> Forall (fun c => 32 < c < 128) (bytes_of_string (EncodeToString b)).
Proof.
  intros Hb. pose proof (encode_bytes_ok b Hb) as He. unfold EncodeToString.
  rewrite bytes_of_string_of_bytes; (eapply Forall_impl; [exact He|unfold byte_ok; lia]).
Qed.

(** The private key in its file reads back. *)
Lemma decode_key b : Forall byte_ok b ->
  DecodeString (string_of_bytes (trim_bytes (bytes_of_string (EncodeToString b)))) = Some b.
Proof.
  intros Hb. rewrite trim_bytes_print by by apply EncodeToString_print.
  rewrite string_of_bytes_of_string. by apply DecodeString_EncodeToString.
Qed.

Lemma NoDup_fst_eq {A B} (l : list (A * B)) a b c : NoDup l.*1 -> (a, b) ∈ l -> (a, c) ∈ l -> b = c.
Proof.
  induction l as [|[x y] l IH]; intros Hn Hb Hc; [by apply not_elem_of_nil in Hb|].
  apply NoDup_cons in Hn as [Hx Hn]. apply elem_of_cons in Hb as [Eb|Hb], Hc as [Ec|Hc]; simplify_eq; [done| | |eauto].
  - destruct Hx. by apply (list_elem_of_fmap_2 fst) in Hc.
  - destruct Hx. by apply (list_elem_of_fmap_2 fst) in Hb.
Qed.

(** Names of files that do not get in each other's way. *)
Definition names_ok (fs : list (string * list Z)) : Prop :=
  Forall (fun f => plain f.1) fs /\ NoDup fs.*1 /\
  forall a b, a ∈ fs.*1 -> b ∈ fs.*1 -> a <> tmp_name b.

Lemma names_ok_cons n data fs : names_ok ((n, data) :: fs) ->
  plain n /\ names_ok fs /\ forall f, f ∈ fs -> f.1 <> n /\ f.1 <> tmp_name n.
Proof.
  intros ([Hp Hf]%Forall_cons & [Hn Hd]%NoDup_cons & Ht). split; [done|]. split; [split; [done|split; [done|]]|].
  - intros a b Ha Hb. apply Ht; by right.
  - intros f Hin. assert (f.1 ∈ fs.*1) by (by apply list_elem_of_fmap_2). split; [intros E; by rewrite E in *|].
    apply Ht; [by right|by left].
Qed.

(** The other files of a list are written under other names. *)
Lemma names_ok_others n data fs dir : names_ok ((n, data) :: fs) ->
  forall x, x ∈ fs -> dir ++ [n] <> dir ++ [x.1] /\ dir ++ [n] <> dir ++ [tmp_name x.1].
Proof.
  intros Hok x Hx. destruct (names_ok_cons _ _ _ Hok) as (_ & _ & Hne). destruct (Hne _ Hx) as [H1 H2].
  destruct Hok as (_ & _ & Ht). split; intros [_ [= E']]%app_inj_tail; [by subst|].
  apply (Ht n x.1); [by left|right; by apply list_elem_of_fmap_2|done].
Qed.

Lemma WriteFileAtomic_other fl dir n data d p :
  plain n -> p <> dir ++ [n] -> p <> dir ++ [tmp_name n] ->
  d_files (WriteFileAtomic fl dir n data d).2 !! p = d_files d !! p.
Proof.
  intros Hp H1 H2. pose proof (WriteFileAtomic_files fl dir n data d Hp) as Hw. cbv zeta in Hw.
  destruct (WriteFileAtomic _ _ _ _ _) as [e d']. cbn. destruct Hw as [_ [[-> _]|[[-> _]|[-> _]]]]; [done|..].
  - by rewrite lookup_delete_ne.
  - by rewrite lookup_insert_ne, lookup_delete_ne.
Qed.

(** The calls of [write_files_ops], one file after the other. *)
Abbreviation write_files f dir fs d := (fs_run (write_files_ops f dir fs d).2 d).

Lemma write_files_cons f dir n data fs d :
  match WriteFileAtomic (f n) dir n data d with
  | (Some e, d1) => (write_files_ops f dir ((n, data) :: fs) d).1 = Some (EWriteFile n e) /\
      write_files f dir ((n, data) :: fs) d = d1
  | (None, d1) => (write_files_ops f dir ((n, data) :: fs) d).1 = (write_files_ops f dir fs d1).1 /\
      write_files f dir ((n, data) :: fs) d = write_files f dir fs d1
  end.
Proof.
  unfold WriteFileAtomic. cbn [write_files_ops]. destruct (WriteFileAtomic_ops _ _ _ _ _) as [[e|] ops]; [done|].
  destruct (write_files_ops f dir fs (fs_run ops d)) as [e ops']. cbn. split; [done|].
  unfold fs_run. by rewrite foldl_app.
Qed.

Lemma write_files_other f dir fs p : forall d, names_ok fs ->
  (forall x, x ∈ fs -> p <> dir ++ [x.1] /\ p <> dir ++ [tmp_name x.1]) ->
  d_files (write_files f dir fs d) !! p = d_files d !! p.
Proof.
  induction fs as [|[n data] fs IH]; intros d Hok Hp; [done|].
  destruct (names_ok_cons _ _ _ Hok) as (Hn & Hok' & _). destruct (Hp (n, data)) as [H1 H2]; [by left|].
  pose proof (WriteFileAtomic_other (f n) dir n data d p Hn H1 H2) as Hw. pose proof (write_files_cons f dir n data fs d) as Hc.
  destruct (WriteFileAtomic _ _ _ _ _) as [[e|] d']; destruct Hc as [_ ->]; [done|]. cbn in Hw. rewrite IH; [done|done|].
  intros x Hx. apply Hp. by right.
Qed.

(** When nothing fails, every file has its content. *)
Lemma write_files_lookup f dir fs : forall d, names_ok fs -> (write_files_ops f dir fs d).1 = None ->
  forall n data, (n, data) ∈ fs -> d_files (write_files f dir fs d) !! (dir ++ [n]) = Some data.
Proof.
  induction fs as [|[n0 data0] fs IH]; intros d Hok E n data Hin; [by apply not_elem_of_nil in Hin|].
  destruct (names_ok_cons _ _ _ Hok) as (Hn & Hok' & Hne). pose proof (write_files_cons f dir n0 data0 fs d) as Hc.
  pose proof (WriteFileAtomic_files (f n0) dir n0 data0 d Hn) as Hw. cbv zeta in Hw.
  destruct (WriteFileAtomic _ _ _ _ _) as [[e|] d1]; destruct Hc as [Hc1 Hc2]; rewrite Hc1 in E; [done|]. rewrite Hc2.
  apply elem_of_cons in Hin as [[= -> ->]|Hin]; [|by eapply IH].
  rewrite write_files_other; [|done|].
  - destruct Hw as [_ [[_ [? ?]]|[[_ [? ?]]|[-> _]]]]; [done..|]. by rewrite lookup_insert_eq.
  - by eapply names_ok_others.
Qed.

(** A crash is in the first file, or after it in the others. *)
Lemma write_files_crash f dir n data fs d d' : crash_of (write_files_ops f dir ((n, data) :: fs) d).2 d d' ->
  crash dir n data d d' \/
  exists d1, WriteFileAtomic (f n) dir n data d = (None, d1) /\ crash_of (write_files_ops f dir fs d1).2 d1 d'.
Proof.
  cbn [write_files_ops]. unfold WriteFileAtomic. pose proof (WriteFileAtomic_settled (f n) dir n data d) as Hs.
  destruct (WriteFileAtomic_ops (f n) dir n data d) as [[e|] ops] eqn:E; intros Hc.
  { left. exists (f n). by rewrite E. }
  destruct (write_files_ops f dir fs (fs_run ops d)) as [e ops'] eqn:E'. cbn [snd] in Hc.
  apply crash_of_app in Hc as [Hc|Hc]; [left; exists (f n); by rewrite E|right|by apply Hs].
  eexists. split; [done|]. by rewrite E'.
Qed.

Lemma write_crash_other f dir fs p : forall d d', crash_of (write_files_ops f dir fs d).2 d d' -> names_ok fs ->
  (forall x, x ∈ fs -> p <> dir ++ [x.1] /\ p <> dir ++ [tmp_name x.1]) ->
  d_files d' !! p = d_files d !! p.
Proof.
  induction fs as [|[n data] fs IH]; intros d d' Hc Hok Hp.
  { destruct Hc as [k Hk]. cbn in Hk. rewrite take_nil in Hk. by inversion Hk. }
  destruct (names_ok_cons _ _ _ Hok) as (Hn & Hok' & _). destruct (Hp (n, data)) as [H1 H2]; [by left|].
  apply write_files_crash in Hc as [Hc|(d1 & Hw & Hc)].
  - apply crash_files in Hc as [_ Hc]; [|done]. by destruct (Hc p H2) as [?|[? _]].
  - rewrite (IH _ _ Hc Hok') by (intros x Hx; apply Hp; by right).
    pose proof (WriteFileAtomic_other (f n) dir n data d p Hn H1 H2) as Ho. by rewrite Hw in Ho.
Qed.

(** After a crash every file has its old or its new content. *)
Lemma write_crash_lookup f dir fs : forall d d', crash_of (write_files_ops f dir fs d).2 d d' -> names_ok fs ->
  forall n data, (n, data) ∈ fs ->
  d_files d' !! (dir ++ [n]) = d_files d !! (dir ++ [n]) \/ d_files d' !! (dir ++ [n]) = Some data.
Proof.
  induction fs as [|[n0 data0] fs IH]; intros d d' Hc Hok n data Hin; [by apply not_elem_of_nil in Hin|].
  destruct (names_ok_cons _ _ _ Hok) as (Hn & Hok' & Hne).
  apply write_files_crash in Hc as [Hc|(d1 & Hw & Hc)].
  - apply crash_files in Hc as [_ Hc]; [|done].
    destruct (Hc (dir ++ [n])) as [?|[[_ [= ->]]%app_inj_tail Hd]]; [|by left|].
    + intros [_ [= ->]]%app_inj_tail. destruct Hok as (_ & _ & Ht).
      apply (Ht (tmp_name n0) n0); [by apply (list_elem_of_fmap_2 fst) in Hin|by left|done].
    + right. apply elem_of_cons in Hin as [[= ->]|Hin]; [done|].
      destruct Hok as (_ & [Hnd _]%NoDup_cons & _). by apply (list_elem_of_fmap_2 fst) in Hin.
  - apply elem_of_cons in Hin as [[= -> ->]|Hin].
    + right. rewrite (write_crash_other _ _ _ _ _ _ Hc Hok') by by eapply names_ok_others.
      pose proof (WriteFileAtomic_files (f n0) dir n0 data0 d Hn) as Hf. rewrite Hw in Hf. cbv zeta in Hf.
      destruct Hf as [_ [[_ [? ?]]|[[_ [? ?]]|[-> _]]]]; [done..|]. by rewrite lookup_insert_eq.
    + destruct (IH _ _ Hc Hok' n data Hin) as [->|?]; [|by right]. left.
      pose proof (WriteFileAtomic_other (f n0) dir n0 data0 d (dir ++ [n]) Hn) as Ho. rewrite Hw in Ho.
      destruct (Hne _ Hin) as [H1 H2]. apply Ho; by intros [_ [= E]]%app_inj_tail.
Qed.

Lemma identity_files_ok id j : names_ok (identity_files id j).
Proof.
  split; [|split].
  - unfold identity_files. repeat (apply Forall_cons; split); [..|apply Forall_nil_2]; cbn [fst];
      (split; [by_compute|split_and!; discriminate]).
  - cbn. by_compute.
  - cbn. intros a b Ha Hb. rewrite !elem_of_cons in Ha.
    destruct Ha as [->|[->|[->|[->|[]%elem_of_nil]]]]; discriminate.
Qed.

Lemma Join_identity dir id j n data : (n, data) ∈ identity_files id j -> Join dir n = dir ++ [n].
Proof.
  intros Hin. apply Join_plain. destruct (identity_files_ok id j) as [Hf _]. rewrite Forall_forall in Hf.
  by apply (Hf (n, data)).
Qed.

Section storable.
Context `{CodecLaws identity_json}.

(** Identities that files can hold: the identifiers are there, the keys have
    no white space around them and the texts survive the encoding. *)
Definition json_of (id : NodeIdentity) : identity_json :=
  mkIdentityJson (id_NodeID id) (id_MeshIP id) (id_SigningPublicKey id).

Record storable (id : NodeIdentity) : Prop := mkStorable {
  st_NodeID : id_NodeID id <> "";
  st_MeshIP : id_MeshIP id <> "";
  st_secret : TrimSpace (id_NodeSecretKey id) = id_NodeSecretKey id;
  st_signing : TrimSpace (id_SigningPublicKey id) = id_SigningPublicKey id;
  st_private : Forall byte_ok (id_PrivateKey id);
  st_norm : norm (json_of id) = json_of id
}.

Definition all_read (n : string) : read_fault := ReadOk.

(** The four files of an identity, as far as they can be read: the identity, or
    an error that says which one is missing. *)
Lemma LoadIdentity_reads rf dir id j d :
  storable id -> MarshalIndent (json_of id) = Some j ->
  (forall n data, (n, data) ∈ identity_files id j -> ReadFile rf dir n d = None \/ ReadFile rf dir n d = Some data) ->
  LoadIdentity rf dir d = Ok id \/ LoadIdentity rf dir d = Err ErrNotRegistered \/
  exists n, LoadIdentity rf dir d = Err (ERead n) /\ ReadFile rf dir n d = None /\ n ∈ (identity_files id j).*1.
Proof.
  intros [Hn Hm Hs Hsp Hp Hno] Hj Hr. unfold LoadIdentity.
  destruct (Hr f_identity j) as [E|E]; [unfold identity_files; set_solver|rewrite E..].
  { destruct (not_exist _ _ _ _); [by right; left|]. right; right. eexists. split_and!; [done|done|set_solver]. }
  rewrite (Unmarshal_Marshal _ _ Hj), Hno.
  destruct (Hr f_private_key (bytes_of_string (EncodeToString (id_PrivateKey id)))) as [E2|E2];
    [unfold identity_files; set_solver|rewrite E2; right; right; eexists; split_and!; [done|done|set_solver]|].
  rewrite E2, decode_key by done.
  destruct (Hr f_node_secret_key (bytes_of_string (id_NodeSecretKey id))) as [E3|E3];
    [unfold identity_files; set_solver|rewrite E3; right; right; eexists; split_and!; [done|done|set_solver]|].
  destruct (Hr f_signing_public_key (bytes_of_string (id_SigningPublicKey id))) as [E4|E4];
    [unfold identity_files; set_solver|rewrite E3, E4; right; right; eexists; split_and!; [done|done|set_solver]|].
  rewrite E3, E4. left. cbn [ij_NodeID ij_MeshIP ij_SigningPublicKey json_of].
  fold (TrimSpace (id_SigningPublicKey id)) (TrimSpace (id_NodeSecretKey id)). rewrite Hs, Hsp.
  rewrite !decide_False by (done || (intros ?; done)). by destruct id.
Qed.

Lemma LoadIdentity_files dir id j d :
  storable id -> MarshalIndent (json_of id) = Some j ->
  (forall n data, (n, data) ∈ identity_files id j -> d_files d !! (dir ++ [n]) = Some data) ->
  LoadIdentity all_read dir d = Ok id.
Proof.
  intros Hst Hj Hf.
  assert (Hr : forall n data, (n, data) ∈ identity_files id j -> ReadFile all_read dir n d = Some data).
  { intros n data Hin. unfold ReadFile. cbn. rewrite (Join_identity _ _ _ _ _ Hin). by apply Hf. }
  destruct (LoadIdentity_reads all_read dir id j d Hst Hj) as [?|[E|(n & _ & Hn & Hin)]]; [auto|done|..].
  - exfalso. unfold LoadIdentity in E. rewrite (Hr f_identity j) in E by (unfold identity_files; set_solver).
    repeat (case_match; try done).
  - apply list_elem_of_fmap in Hin as ([n' data] & -> & Hin). cbn [fst] in Hn. by rewrite (Hr _ _ Hin) in Hn.
Qed.

(** What a successful [SaveIdentity] has written. *)
Lemma SaveIdentity_files f dir id d d' : SaveIdentity f dir id d = (None, d') ->
  exists j, MarshalIndent (json_of id) = Some j /\
    forall n data, (n, data) ∈ identity_files id j -> d_files d' !! (dir ++ [n]) = Some data.
Proof.
  unfold SaveIdentity, SaveIdentity_ops. destruct (MkdirAll dir d) as [[] d1] eqn:Em; [|done].
  fold (json_of id). destruct (MarshalIndent (json_of id)) as [j|] eqn:Hj; [|done].
  pose proof (write_files_lookup f dir (identity_files id j) d1 (identity_files_ok id j)) as Hw.
  destruct (write_files_ops f dir _ d1) as [e ops]. intros [= -> <-]. exists j. split; [done|].
  intros n data Hin. cbn [fs_run foldl fs_apply]. rewrite Em. by apply Hw.
Qed.

(** A crash of [SaveIdentity] leaves each file as it was or complete. *)
Lemma SaveIdentity_crash_lookup f dir id d d' n : save_crash f dir id d d' ->
  n ∈ [f_identity; f_private_key; f_node_secret_key; f_signing_public_key] ->
  d_files d' !! (dir ++ [n]) = d_files d !! (dir ++ [n]) \/
  exists j data, MarshalIndent (json_of id) = Some j /\ (n, data) ∈ identity_files id j /\
    d_files d' !! (dir ++ [n]) = Some data.
Proof.
  unfold save_crash, SaveIdentity_ops. destruct (MkdirAll dir d) as [[] d1] eqn:Em.
  2: { cbn. intros [k Hk] _. rewrite take_nil in Hk. inversion Hk. by left. }
  assert (Ed : d_files d1 = d_files d).
  { unfold MkdirAll in Em. case_decide; [done|]. by injection Em as <-. }
  assert (Hmk : crash_of [FMkdirAll dir] d d' -> d_files d' = d_files d).
  { intros [[|[|k]] Hk]; inversion Hk as [| | |? ? ? ? _ Hk']; subst; try done; inversion Hk'; subst; cbn; by rewrite Em. }
  fold (json_of id). destruct (MarshalIndent (json_of id)) as [j|] eqn:Hj.
  2: { cbn [snd]. intros Hc _. left. by rewrite (Hmk Hc). }
  destruct (write_files_ops f dir (identity_files id j) d1) as [e ops] eqn:E. cbn [snd].
  intros Hc Hin. apply (crash_of_app [FMkdirAll dir]) in Hc as [Hc|Hc].
  - left. by rewrite (Hmk Hc).
  - cbn [fs_run foldl fs_apply] in Hc. rewrite Em in Hc. cbn [snd] in Hc.
    assert (Hin' : n ∈ (identity_files id j).*1) by done. apply list_elem_of_fmap in Hin' as ([n' data] & -> & Hin').
    pose proof (write_crash_lookup f dir (identity_files id j) d1 d') as Hw. rewrite E in Hw.
    rewrite <- Ed. destruct (Hw Hc (identity_files_ok id j) _ _ Hin') as [?|?]; [by left|]. right. by exists j, data.
  - intros [|i] p b; [done|]. by destruct i.
Qed.

(** ** Theorems *)

(** What [SaveIdentity] has saved [LoadIdentity] gives back. *)
Theorem SaveIdentity_LoadIdentity f dir id d d' :
  storable id -> SaveIdentity f dir id d = (None, d') -> LoadIdentity all_read dir d' = Ok id.
Proof. intros Hst (j & Hj & Hf)%SaveIdentity_files. by eapply LoadIdentity_files. Qed.

(** C33. A crash during the first registration leaves the identity or none.  Let
    [SaveIdentity] run in a directory without the files of an identity, with any
    failures, and let the machine stop at any point, losing data that was not
    synced: then [LoadIdentity] gives exactly the identity that was being
    saved, or says that there is none or that one of the files cannot be read;
    it never gives a mixed or damaged one.  The identity is one that files can
    hold ([storable]), which [SaveIdentity] does not check. *)
Theorem SaveIdentity_crash_safe f rf dir id d d' :
  storable id ->
  (forall n, n ∈ [f_identity; f_private_key; f_node_secret_key; f_signing_public_key] -> d_files d !! (dir ++ [n]) = None) ->
  save_crash f dir id d d' ->
  LoadIdentity rf dir d' = Ok id \/ LoadIdentity rf dir d' = Err ErrNotRegistered \/
  exists n, LoadIdentity rf dir d' = Err (ERead n).
Proof.
  intros Hst Hfresh Hc.
  assert (Hl : forall n, n ∈ [f_identity; f_private_key; f_node_secret_key; f_signing_public_key] ->
    d_files d' !! (dir ++ [n]) = None \/ exists j data, MarshalIndent (json_of id) = Some j /\
      (n, data) ∈ identity_files id j /\ d_files d' !! (dir ++ [n]) = Some data).
  { intros n Hn. rewrite <- (Hfresh n Hn). by eapply SaveIdentity_crash_lookup. }
  destruct (MarshalIndent (json_of id)) as [j|] eqn:Hj.
  - destruct (LoadIdentity_reads rf dir id j d' Hst Hj) as [?|[?|(n & ? & _)]]; eauto.
    intros n data Hin. unfold ReadFile. destruct (rf n); [|by left..]. rewrite (Join_identity _ _ _ _ _ Hin).
    destruct (Hl n) as [?|(j' & data' & [= <-] & Hin' & ->)]; [by apply (list_elem_of_fmap_2 fst) in Hin|by left|].
    right. f_equal. destruct (identity_files_ok id j) as (_ & Hnd & _).
    by eapply NoDup_fst_eq.
  - unfold LoadIdentity, ReadFile. assert (Ej : Join dir f_identity = dir ++ [f_identity]) by (apply Join_plain; split; by_compute).
    rewrite Ej. destruct (Hl f_identity) as [E|(j' & ? & ? & _)]; [set_solver| |done]. rewrite E.
    destruct (rf f_identity); destruct (not_exist _ _ _ _); eauto.
Qed.

End storable.

(** A generated private key is clamped as Curve25519 asks, and its other bits
    are the random ones. *)
Theorem GenerateKeypair_clamped X25519 random k :
  GenerateKeypair X25519 (Some random) = Some k -> length random = 32%nat ->
  length (kp_PrivateKey k) = 32%nat /\ X25519 (kp_PrivateKey k) = Some (kp_PublicKey k) /\
  (exists b, kp_PrivateKey k !! 0%nat = Some b /\
     Z.testbit b 0 = false /\ Z.testbit b 1 = false /\ Z.testbit b 2 = false) /\
  (exists b, kp_PrivateKey k !! 31%nat = Some b /\ Z.testbit b 6 = true /\ Z.testbit b 7 = false) /\
  (forall i, i <> 0%nat -> i <> 31%nat -> kp_PrivateKey k !! i = random !! i).
Proof.
  unfold GenerateKeypair. destruct (X25519 (clamp random)) as [pub|] eqn:Ex; [|done]. intros [= <-] Hlen.
  cbn [kp_PrivateKey kp_PublicKey]. unfold clamp. destruct (lookup_lt_is_Some_2 random 0 ltac:(lia)) as [b0 H0].
  destruct (lookup_lt_is_Some_2 random 31 ltac:(lia)) as [b31 H31].
  split_and!.
  - by rewrite !length_alter.
  - done.
  - rewrite list_lookup_alter_ne, list_lookup_alter_eq, H0 by done. exists (Z.land b0 0xF8).
    split_and!; [done|..]; rewrite Z.land_spec; apply andb_false_iff; by right.
  - rewrite list_lookup_alter_eq, list_lookup_alter_ne, H31 by done. exists (Z.lor (Z.land b31 0x7F) 0x40).
    split_and!; [done|..]; rewrite Z.lor_spec.
    + apply orb_true_iff. by right.
    + rewrite Z.land_spec. apply orb_false_iff. split; [apply andb_false_iff; by right|done].
  - intros i Hi Hi'. by rewrite !list_lookup_alter_ne.
Qed.

(** ** Witnesses *)

Import SimCodec.

#[global] Instance identity_json_countable : Countable identity_json.
Proof.
  refine (inj_countable' (fun e => (ij_NodeID e, ij_MeshIP e, ij_SigningPublicKey e))
    (fun '(a, b, c) => mkIdentityJson a b c) _). by intros [].
Defined.

Definition ex_data : path := ["var"; "lib"; "plexd"].
Definition ex_empty : disk := mkDisk ∅ {[ []; ["var"]; ["var"; "lib"] ]}.
Definition ex_old : NodeIdentity := mkIdentity "n1" "10.0.0.1" "spk1" [1; 2; 3] "secret1".
Definition ex_new : NodeIdentity := mkIdentity "n2" "10.0.0.2" "spk2" [4; 5; 6] "secret2".
Definition ex_saved : disk := (SaveIdentity (fun _ => NoFault) ex_data ex_old ex_empty).2.

Lemma ex_old_storable : storable ex_old.
Proof. split; try discriminate; try (vm_compute; reflexivity). repeat constructor; done. Qed.

Lemma SaveIdentity_LoadIdentity_witness : LoadIdentity all_read ex_data ex_saved = Ok ex_old.
Proof.
  apply (SaveIdentity_LoadIdentity (fun _ => NoFault) ex_data ex_old ex_empty); [apply ex_old_storable|].
  vm_compute. reflexivity.
Defined.

Definition ex_json (id : NodeIdentity) : list Z := default [] (MarshalIndent (json_of id)).

(** The machine stops after the directory and two files are there. *)
Definition ex_half : disk :=
  fs_run (take 11 (SaveIdentity_ops (fun _ => NoFault) ex_data ex_old ex_empty).2) ex_empty.

Lemma SaveIdentity_crash_safe_witness :
  is_Some (d_files ex_half !! (ex_data ++ [f_private_key])) /\
  LoadIdentity all_read ex_data ex_half = Err (ERead f_node_secret_key).
Proof.
  destruct (SaveIdentity_crash_safe (fun _ => NoFault) all_read ex_data ex_old ex_empty ex_half ex_old_storable) as [E|[E|[n E]]].
  - intros n _. apply lookup_empty.
  - exists 11%nat. apply persists_run.
  - exfalso. revert E. by vm_compute.
  - exfalso. revert E. by vm_compute.
  - split; [by vm_compute; eexists|]. by vm_compute.
Defined.

Lemma GenerateKeypair_clamped_witness :
  length (kp_PrivateKey (mkKeypair (clamp (replicate 32 255)) [9])) = 32%nat.
Proof.
  refine (proj1 (GenerateKeypair_clamped (fun _ => Some [9]) (replicate 32 255)
    (mkKeypair (clamp (replicate 32 255)) [9]) _ _)); reflexivity.
Defined.

(** ** A mixed identity *)

(** Registering again over an identity whose identity.json is damaged, with a
    crash after that file is written: what loads has the new node id and mesh
    address with the old keys. *)
Theorem reregistration_crash_mixes :
  exists d d', LoadIdentity all_read ex_data d = Err EUnmarshal /\
    save_crash (fun _ => NoFault) ex_data ex_new d d' /\
    LoadIdentity all_read ex_data d' =
      Ok (mkIdentity (id_NodeID ex_new) (id_MeshIP ex_new) (id_SigningPublicKey ex_old)
            (id_PrivateKey ex_old) (id_NodeSecretKey ex_old)).
Proof.
  set (d := mkDisk (<[ex_data ++ [f_identity] := []]> (d_files ex_saved)) (d_dirs ex_saved)).
  exists d, (fs_run (take 6 (SaveIdentity_ops (fun _ => NoFault) ex_data ex_new d).2) d).
  split; [vm_compute; reflexivity|]. split; [|vm_compute; reflexivity].
  exists 6%nat. apply persists_run.
Qed.
