(* ===== verification/Registration.v ===== *)
(** * Registration (src/internal/registration: config.go, token.go, imds.go,
      registrar.go)

    The bootstrap token and its sources, the metadata service, the retry loop
    and the whole registration flow.  The environment of the loop (context,
    clock, control plane, random numbers) is a class of operations on a world. *)

From Stdlib Require Import Ascii String.
From stdpp Require Import base strings list gmap.
From S2P Require Import Prelude Base64 Types Reconnect Fs Json Integrity Identity.

(** ** Configuration *)

Record Config := mkConfig {
  rc_DataDir : string;
  rc_TokenFile : string;
  rc_TokenEnv : string;
  rc_TokenValue : string;
  rc_UseMetadata : bool;
  rc_MetadataTokenPath : string;
  rc_MetadataTimeout : Z;
  rc_Hostname : string;
  rc_Metadata : gmap string string;
  rc_MaxRetryDuration : Z
}.

Definition DefaultTokenFile : string := "/etc/plexd/bootstrap-token".
Definition DefaultTokenEnv : string := "PLEXD_BOOTSTRAP_TOKEN".
Definition DefaultMetadataTokenPath : string := "/plexd/bootstrap-token".
Definition DefaultMetadataTimeout : Z := 2 * second.
Definition DefaultMaxRetryDuration : Z := 5 * minute.

Definition ApplyDefaults (c : Config) : Config :=
  let str s def := if decide (s = "") then def else s in
  let dur (d def : Z) := if decide (d = 0) then def else d in
  mkConfig (rc_DataDir c) (str (rc_TokenFile c) DefaultTokenFile) (str (rc_TokenEnv c) DefaultTokenEnv)
    (rc_TokenValue c) (rc_UseMetadata c) (str (rc_MetadataTokenPath c) DefaultMetadataTokenPath)
    (dur (rc_MetadataTimeout c) DefaultMetadataTimeout) (rc_Hostname c) (rc_Metadata c)
    (dur (rc_MaxRetryDuration c) DefaultMaxRetryDuration).

Definition Validate (c : Config) : option string :=
  if decide (rc_DataDir c = "") then Some "registration: config: DataDir is required" else None.

(** A file name as the disk has it. *)
Definition abs_path (s : string) : path := Join [] s.
Definition data_dir (c : Config) : path := abs_path (rc_DataDir c).

(** ** Tokens (token.go) *)

Definition maxTokenLength : nat := 512.

Record TokenResult := mkToken { tr_Value : string; tr_FilePath : string }.

Inductive token_error := TokenTooLong | TokenNotPrintable | TokenFileUnreadable | NoToken | EmptyToken
| RequestFailed | UnexpectedStatus (s : Z).

Definition validateToken (token : string) : option token_error :=
  let l := bytes_of_string token in
  if decide (maxTokenLength < length l)%nat then Some TokenTooLong
  else if existsb (fun c => (c <? 0x20) || (0x7E <? c)) l then Some TokenNotPrintable
  else None.

(** A source: no token in it, or one that is checked. *)
Definition from_source (v file : string) (next : result token_error TokenResult) : result token_error TokenResult :=
  if decide (v = "") then next
  else match validateToken v with
       | Some e => Err e
       | None => Ok (mkToken v file)
       end.

(** What reading the token file gives. *)
Inductive file_read := FileContent (data : string) | FileMissing | FileError.

(** [metadata] is the provider, if one is set. *)
Definition Resolve (cfg : Config) (read : string -> file_read) (getenv : string -> string)
    (metadata : option (result token_error string)) : result token_error TokenResult :=
  let from_metadata :=
    match rc_UseMetadata cfg, metadata with
    | true, Some (Ok token) => from_source (TrimSpace token) "" (Err NoToken)
    | _, _ => Err NoToken
    end in
  let from_env :=
    if decide (rc_TokenEnv cfg = "") then from_metadata
    else from_source (TrimSpace (getenv (rc_TokenEnv cfg))) "" from_metadata in
  let from_file :=
    if decide (rc_TokenFile cfg = "") then from_env
    else match read (rc_TokenFile cfg) with
         | FileError => Err TokenFileUnreadable
         | FileContent data => from_source (TrimSpace data) (rc_TokenFile cfg) from_env
         | FileMissing => from_env
         end in
  from_source (TrimSpace (rc_TokenValue cfg)) "" from_file.

(** ** The metadata service (imds.go) *)

Definition imdsSessionTTL : string := "21600".
Definition imdsSessionTokenPath : string := "/latest/api/token".

(** A request, and the status with the readable part of the body, if it was
    answered and read. *)
Record http_request := mkHttp { h_method : string; h_url : string; h_header : list (string * string) }.
Record http_response := mkResp { h_status : Z; h_body : option (list Z) }.

Record IMDSProvider := mkIMDS { im_baseURL : string; im_tokenPath : string }.

(** [strings.TrimRight] of slashes. *)
Fixpoint drop_slashes (l : list Z) : list Z :=
  match l with c :: l' => if c =? 47 then drop_slashes l' else l | [] => [] end.
Definition TrimRight_slash (s : string) : string := string_of_bytes (rev (drop_slashes (rev (bytes_of_string s)))).

Definition NewIMDSProvider (cfg : Config) (baseURL : string) : IMDSProvider :=
  mkIMDS (TrimRight_slash baseURL) (rc_MetadataTokenPath cfg).

Section imds.
Context {W : Type} (Do : http_request -> W -> option http_response * W).

(** [io.LimitReader] one byte past the longest token. *)
Definition limited (b : list Z) : list Z := take (maxTokenLength + 1) b.

Definition acquireSessionToken (p : IMDSProvider) (w : W) : string * W :=
  let url := String.append (im_baseURL p) imdsSessionTokenPath in
  let '(r, w) := Do (mkHttp "PUT" url [("X-aws-ec2-metadata-token-ttl-seconds", imdsSessionTTL)]) w in
  match r with
  | Some (mkResp 200 (Some body)) =>
      let token := trim_bytes (limited body) in
      if decide (maxTokenLength < length token)%nat then ("", w) else (string_of_bytes token, w)
  | _ => ("", w)
  end.

Definition ReadToken (p : IMDSProvider) (w : W) : result token_error string * W :=
  let '(sessionToken, w) := acquireSessionToken p w in
  let url := String.append (im_baseURL p) (im_tokenPath p) in
  let header := if decide (sessionToken = "") then [] else [("X-aws-ec2-metadata-token", sessionToken)] in
  let '(r, w) := Do (mkHttp "GET" url header) w in
  match r with
  | None => (Err RequestFailed, w)
  | Some resp =>
      if decide (h_status resp <> 200) then (Err (UnexpectedStatus (h_status resp)), w)
      else match h_body resp with
           | None => (Err RequestFailed, w)
           | Some body =>
               let token := string_of_bytes (trim_bytes (limited body)) in
               if decide (token = "") then (Err EmptyToken, w)
               else match validateToken token with
                    | Some e => (Err e, w)
                    | None => (Ok token, w)
                    end
           end
  end.

End imds.

(** ** The retry loop (registrar.go) *)

Class RegEnv (W : Type) := {
  rg_ctxErr : W -> bool * W;
  rg_now : W -> Z * W;
  rg_register : RegisterRequest -> W -> result go_error RegisterResponse * W;
  rg_rand : W -> Z * W;
  rg_wait : Z -> W -> bool * W (* true: the context ended the wait *)
}.

Inductive retry_error := RetryContext | RetryFailed (e : go_error) | RetryTimeout (e : go_error).

Section registrar.
Context {W : Type} `{RegEnv W}.

(** Permanent errors, 409 and 400 end the loop. *)
Definition gives_up (e : go_error) : bool :=
  bool_decide (ClassifyError e = RetryAuth) || bool_decide (ClassifyError e = PermanentFailure) ||
  errors_Is e 409 || errors_Is e 400.

Definition retry_delay (e : go_error) (currentInterval k : Z) : Z :=
  if decide (ClassifyError e = RespectServer) then
    match errors_As e with
    | Some a => if decide (ae_RetryAfter a > 0) then ae_RetryAfter a else currentInterval
    | None => currentInterval
    end
  else jitter currentInterval k.

(** [None]: still running after [fuel] rounds. *)
Fixpoint retry_loop (fuel : nat) (maxRetry start currentInterval : Z) (req : RegisterRequest) (w : W)
    : option (result retry_error RegisterResponse) * W :=
  match fuel with
  | O => (None, w)
  | S fuel =>
      let '(c, w) := rg_ctxErr w in
      if c : bool then (Some (Err RetryContext), w)
      else
        let '(r, w) := rg_register req w in
        match r with
        | Ok resp => (Some (Ok resp), w)
        | Err e =>
            if gives_up e then (Some (Err (RetryFailed e)), w)
            else
              let '(t, w) := rg_now w in
              if decide (time_sub t start >= maxRetry) then (Some (Err (RetryTimeout e)), w)
              else
                let '(k, w) := match ClassifyError e with RespectServer => (0, w) | _ => rg_rand w end in
                let '(c, w) := rg_wait (retry_delay e currentInterval k) w in
                if c : bool then (Some (Err RetryContext), w)
                else retry_loop fuel maxRetry start (Z.min (currentInterval * 2) (60 * second)) req w
        end
  end.

Definition registerWithRetry (fuel : nat) (cfg : Config) (req : RegisterRequest) (w : W)
    : option (result retry_error RegisterResponse) * W :=
  let '(start, w) := rg_now w in retry_loop fuel (rc_MaxRetryDuration cfg) start second req w.

(** ** Registration *)

Inductive reg_error :=
| ETokenResolve (e : token_error) | EKeypair | EHostname | ERegister (e : retry_error) | ESave (e : Identity.error).

(** The outside of the flow: environment variables, host name, metadata
    provider, random bytes, curve, failing reads and writes. *)
Record reg_input := mkInput {
  in_getenv : string -> string;
  in_hostname : option string;
  in_metadata : option (result token_error string);
  in_random : option (list Z);
  in_X25519 : list Z -> option (list Z);
  in_read : string -> read_fault;
  in_token_read : read_fault;
  in_write : string -> fault;
  in_remove : bool (* the token file can be removed *)
}.

(** The client's token, the disk, and the rest of the world. *)
Record reg_state := mkReg { rs_auth : string; rs_disk : disk; rs_world : W }.

Definition read_token (rf : read_fault) (d : disk) (name : string) : file_read :=
  match rf, d_files d !! abs_path name with
  | ReadOk, Some b => FileContent (string_of_bytes b)
  | ReadOk, None => if decide (abs_path name ∈ d_dirs d) then FileError else FileMissing
  | _, _ => FileError
  end.

Context `{Codec identity_json}.

Definition Register (fuel : nat) (cfg : Config) (caps : option CapabilitiesPayload) (i : reg_input) (st : reg_state)
    : option (result reg_error NodeIdentity) * reg_state :=
  match LoadIdentity (in_read i) (data_dir cfg) (rs_disk st) with
  | Ok identity => (Some (Ok identity), mkReg (id_NodeSecretKey identity) (rs_disk st) (rs_world st))
  | Err _ =>
      match Resolve cfg (read_token (in_token_read i) (rs_disk st)) (in_getenv i) (in_metadata i) with
      | Err e => (Some (Err (ETokenResolve e)), st)
      | Ok token =>
          match GenerateKeypair (in_X25519 i) (in_random i) with
          | None => (Some (Err EKeypair), st)
          | Some keypair =>
              match (if decide (rc_Hostname cfg = "") then in_hostname i else Some (rc_Hostname cfg)) with
              | None => (Some (Err EHostname), st)
              | Some hostname =>
                  let req := mkRegisterRequest (tr_Value token) (EncodePublicKey keypair) hostname
                               (rc_Metadata cfg) caps in
                  match registerWithRetry fuel cfg req (rs_world st) with
                  | (None, w) => (None, mkReg (tr_Value token) (rs_disk st) w)
                  | (Some (Err e), w) => (Some (Err (ERegister e)), mkReg (tr_Value token) (rs_disk st) w)
                  | (Some (Ok resp), w) =>
                      let identity := mkIdentity (rres_NodeID resp) (rres_MeshIP resp) (rres_SigningPublicKey resp)
                                        (kp_PrivateKey keypair) (rres_NodeSecretKey resp) in
                      match SaveIdentity (in_write i) (data_dir cfg) identity (rs_disk st) with
                      | (Some e, d) => (Some (Err (ESave e)), mkReg (tr_Value token) d w)
                      | (None, d) =>
                          let d := if decide (tr_FilePath token <> "") then
                                     if in_remove i then Remove (abs_path (tr_FilePath token)) d else d
                                   else d in
                          (Some (Ok identity), mkReg (rres_NodeSecretKey resp) d w)
                      end
                  end
              end
          end
      end
  end.

Definition IsRegistered (cfg : Config) (i : reg_input) (d : disk) : bool :=
  is_ok (LoadIdentity (in_read i) (data_dir cfg) d).

End registrar.

(** ** The control plane's view of time *)

(** The clock never goes back, a wait that is not cut short takes at least the
    time asked for, and random numbers are in their range. *)
Class RegLaws (W : Type) `{RegEnv W} (clock : W -> Z) := {
  rl_ctxErr : forall w, clock w <= clock (rg_ctxErr w).2;
  rl_now : forall w, clock w <= (rg_now w).1 /\ (rg_now w).1 <= clock (rg_now w).2;
  rl_register : forall r w, clock w <= clock (rg_register r w).2;
  rl_rand : forall w, 0 <= (rg_rand w).1 < rand_max /\ clock w <= clock (rg_rand w).2;
  rl_wait : forall d w, clock w <= clock (rg_wait d w).2 /\
    ((rg_wait d w).1 = false -> clock w + d <= clock (rg_wait d w).2)
}.


(** ** Lemmas *)

Definition min_delay : Z := 700 * millisecond.

Section loop.
Context {W : Type} `{RegLaws W}.

(** Every positive Retry-After is at least [min_delay]; the header counts
    whole seconds. *)
Definition polite_server : Prop := forall req w e a,
  (rg_register req w).1 = Err e -> errors_As e = Some a -> ae_RetryAfter a > 0 -> min_delay <= ae_RetryAfter a.

Lemma retry_delay_min e cur k :
  second <= cur -> 0 <= k < rand_max ->
  (forall a, errors_As e = Some a -> ae_RetryAfter a > 0 -> min_delay <= ae_RetryAfter a) ->
  min_delay <= retry_delay e cur k.
Proof.
  intros Hc Hk Ha. unfold retry_delay. case_decide.
  - destruct (errors_As e) as [a|]; [case_decide; [by apply Ha|]|]; unfold min_delay, millisecond, second in *; lia.
  - destruct (jitter_bounds cur k) as [Hj _]; [unfold second in *; lia|done|].
    unfold min_delay, millisecond, second in *. lia.
Qed.

(** One more round: the loop ends or the clock has moved on. *)
Lemma retry_loop_ends fuel maxRetry start req : forall cur w,
  polite_server -> second <= cur -> maxRetry <= max_int64 ->
  maxRetry - (clock w - start) < min_delay * Z.of_nat fuel ->
  is_Some (retry_loop (S fuel) maxRetry start cur req w).1.
Proof.
  induction fuel as [|fuel IH]; intros cur w Hp Hc Hm Hf.
  all: cbn [retry_loop].
  all: pose proof (rl_ctxErr w) as H1; destruct (rg_ctxErr w) as [[] w1]; [by eexists|]; cbn in H1.
  all: pose proof (rl_register req w1) as H2; destruct (rg_register req w1) as [[resp|e] w2] eqn:Er; [by eexists|]; cbn in H2.
  all: destruct (gives_up e); [by eexists|].
  all: pose proof (rl_now w2) as H3; destruct (rg_now w2) as [t w3]; cbn in H3.
  all: case_decide as Ht; [by eexists|].
  - unfold time_sub, max_int64, min_int64 in *. lia.
  - set (kw := match ClassifyError e with RespectServer => (0, w3) | _ => rg_rand w3 end).
    assert (Hkw : 0 <= kw.1 < rand_max /\ clock w3 <= clock kw.2)
      by (subst kw; destruct (ClassifyError e); cbn; try apply rl_rand; split; [done|lia]).
    destruct kw as [k w4]. cbn in Hkw. destruct Hkw as [Hk H4].
    pose proof (rl_wait (retry_delay e cur k) w4) as [H5 H6].
    destruct (rg_wait (retry_delay e cur k) w4) as [[] w5]; [by eexists|]. cbn in H5, H6. specialize (H6 eq_refl).
    assert (Hd : min_delay <= retry_delay e cur k).
    { apply retry_delay_min; [done|done|]. intros a. apply (Hp req w1). by rewrite Er. }
    apply IH; [done| |done|].
    + unfold second in *. lia.
    + lia.
Qed.

(** How the loop ends without a response. *)
Lemma retry_loop_errors fuel maxRetry start req : 0 <= maxRetry -> forall cur w err w',
  retry_loop fuel maxRetry start cur req w = (Some (Err err), w') ->
  match err with
  | RetryContext => True
  | RetryFailed e => gives_up e = true
  | RetryTimeout e => gives_up e = false /\ start + maxRetry <= clock w'
  end.
Proof.
  intros H0'. induction fuel as [|fuel IH]; intros cur w err w' E; [done|]. cbn [retry_loop] in E.
  destruct (rg_ctxErr w) as [[] w1]; [by simplify_eq|].
  destruct (rg_register req w1) as [[resp|e] w2]; [by simplify_eq|].
  destruct (gives_up e) eqn:Eg; [by simplify_eq|].
  pose proof (rl_now w2) as H3; destruct (rg_now w2) as [t w3]; cbn in H3.
  case_decide as Ht.
  { simplify_eq. split; [done|]. unfold time_sub, max_int64, min_int64 in *. lia. }
  destruct (match ClassifyError e with RespectServer => (0, w3) | _ => rg_rand w3 end) as [k w4].
  destruct (rg_wait _ w4) as [[] w5]; [by simplify_eq|]. by eapply IH.
Qed.

End loop.

Lemma LoadIdentity_ok `{Codec identity_json} rf dir d :
  (forall n, rf n = ReadOk) -> LoadIdentity rf dir d = LoadIdentity all_read dir d.
Proof. intros Hr. unfold LoadIdentity, ReadFile, not_exist. by rewrite !Hr. Qed.

(** A saved identity loads from any disk with the same files in its directory. *)
Lemma SaveIdentity_Load `{CodecLaws identity_json} f dir id d d1 d2 :
  storable id -> SaveIdentity f dir id d = (None, d1) ->
  (forall n, d_files d2 !! (dir ++ [n]) = d_files d1 !! (dir ++ [n])) ->
  LoadIdentity all_read dir d2 = Ok id.
Proof.
  intros Hst (j & Hj & Hf)%SaveIdentity_files Hd. eapply LoadIdentity_files; [done|done|].
  intros n data Hin. rewrite Hd. by apply Hf.
Qed.

Lemma Resolve_facts cfg read getenv metadata t :
  Resolve cfg read getenv metadata = Ok t ->
  tr_Value t <> "" /\ validateToken (tr_Value t) = None /\
  (tr_FilePath t <> "" -> tr_FilePath t = rc_TokenFile cfg /\ TrimSpace (rc_TokenValue cfg) = "" /\
     exists data, read (rc_TokenFile cfg) = FileContent data /\ TrimSpace data = tr_Value t).
Proof.
  assert (Hs : forall v f next, from_source v f next = Ok t ->
    next = Ok t /\ v = "" \/ tr_Value t = v /\ tr_FilePath t = f /\ v <> "" /\ validateToken v = None).
  { intros v f next. unfold from_source. case_decide; [by left|].
    destruct (validateToken v) eqn:Ev; [done|]. intros [= <-]. by right. }
  assert (Hm : forall u, match u, metadata with
                | true, Some (Ok token) => from_source (TrimSpace token) "" (Err NoToken)
                | _, _ => Err NoToken end = Ok t ->
              tr_Value t <> "" /\ validateToken (tr_Value t) = None /\ tr_FilePath t = "").
  { intros u. destruct u; [|done]. destruct metadata as [[token|]|]; try done.
    intros [[? _]|(-> & -> & ? & ?)]%Hs; done. }
  unfold Resolve. intros [[E Ev]|(-> & -> & ? & ?)]%Hs; [|done].
  assert (He : forall m, (m = Ok t -> tr_Value t <> "" /\ validateToken (tr_Value t) = None /\ tr_FilePath t = "") ->
    (if decide (rc_TokenEnv cfg = "") then m else from_source (TrimSpace (getenv (rc_TokenEnv cfg))) "" m) = Ok t ->
    tr_Value t <> "" /\ validateToken (tr_Value t) = None /\ tr_FilePath t = "").
  { intros m Hmm. destruct (decide (rc_TokenEnv cfg = "")); [exact Hmm|]. intros [[? _]|(-> & -> & ? & ?)]%Hs; auto. }
  assert (Hn : forall m : result token_error TokenResult, (m = Ok t -> tr_Value t <> "" /\ validateToken (tr_Value t) = None /\ tr_FilePath t = "") ->
    m = Ok t -> tr_Value t <> "" /\ validateToken (tr_Value t) = None /\
    (tr_FilePath t <> "" -> tr_FilePath t = rc_TokenFile cfg /\ TrimSpace (rc_TokenValue cfg) = "" /\
     exists data, read (rc_TokenFile cfg) = FileContent data /\ TrimSpace data = tr_Value t)).
  { intros m Hmm Em. destruct (Hmm Em) as (? & ? & Ef). split_and!; [done..|]. by intros []. }
  destruct (decide (rc_TokenFile cfg = "")); [exact (Hn _ (He _ (Hm (rc_UseMetadata cfg))) E)|].
  destruct (read (rc_TokenFile cfg)) as [data| |] eqn:Er; [|exact (Hn _ (He _ (Hm (rc_UseMetadata cfg))) E)|done].
  apply Hs in E as [[E _]|(E1 & E2 & E3 & E4)]; [exact (Hn _ (He _ (Hm (rc_UseMetadata cfg))) E)|].
  rewrite E1. split_and!; [done..|]. intros _. eauto.
Qed.

Lemma Resolve_file cfg read getenv metadata t :
  Resolve cfg read getenv metadata = Ok t -> tr_FilePath t <> "" -> tr_FilePath t = rc_TokenFile cfg.
Proof. intros (_ & _ & Hf)%Resolve_facts Hne. by destruct (Hf Hne). Qed.

(** ** Theorems *)

(** C32. Registration comes to an end: with a maximum retry duration of [M] and a
    server whose Retry-After values are whole seconds there are at most
    [M / 700ms + 2] attempts. *)
Theorem registerWithRetry_terminates {W} `{RegLaws W} cfg req w fuel :
  polite_server -> rc_MaxRetryDuration cfg <= max_int64 ->
  rc_MaxRetryDuration cfg < min_delay * Z.of_nat fuel ->
  is_Some (registerWithRetry (S fuel) cfg req w).1.
Proof.
  intros Hp Hm Hf. unfold registerWithRetry. pose proof (rl_now w) as Hn. destruct (rg_now w) as [start w1]. cbn in Hn.
  apply retry_loop_ends; [done|done|done|]. lia.
Qed.

(** It gives up only when the context ends, on an error that retrying cannot
    cure, or when the maximum duration has passed. *)
Theorem registerWithRetry_errors {W} `{RegLaws W} cfg req w fuel err w' :
  0 <= rc_MaxRetryDuration cfg ->
  registerWithRetry fuel cfg req w = (Some (Err err), w') ->
  match err with
  | RetryContext => True
  | RetryFailed e => gives_up e = true
  | RetryTimeout e => gives_up e = false /\ (rg_now w).1 + rc_MaxRetryDuration cfg <= clock w'
  end.
Proof.
  intros Hm. unfold registerWithRetry. destruct (rg_now w) as [start w1]. by apply retry_loop_errors.
Qed.

(** A resolved token is printable, not empty and not too long; a file is only
    named, to be removed after use, when its content is the token and no token
    was given directly. *)
Theorem Resolve_spec cfg read getenv metadata t :
  Resolve cfg read getenv metadata = Ok t ->
  tr_Value t <> "" /\ validateToken (tr_Value t) = None /\
  (tr_FilePath t <> "" -> tr_FilePath t = rc_TokenFile cfg /\ TrimSpace (rc_TokenValue cfg) = "" /\
     exists data, read (rc_TokenFile cfg) = FileContent data /\ TrimSpace data = tr_Value t).
Proof.
  apply Resolve_facts.
Qed.

Section flow.
Context {W : Type} `{RegEnv W} `{CodecLaws identity_json}.

(** A successful registration leaves the identity on disk and its secret as
    the client's token. *)
Lemma Register_stored fuel cfg caps i st id st' :
  Register fuel cfg caps i st = (Some (Ok id), st') -> storable id -> (forall n, in_read i n = ReadOk) ->
  (forall n, abs_path (rc_TokenFile cfg) <> data_dir cfg ++ [n]) ->
  LoadIdentity all_read (data_dir cfg) (rs_disk st') = Ok id /\ rs_auth st' = id_NodeSecretKey id.
Proof.
  intros E Hst Hr Htok.
  unfold Register in E. rewrite (LoadIdentity_ok _ _ _ Hr) in E.
  destruct (LoadIdentity all_read _ _) as [id0|e0] eqn:El.
  { injection E as -> <-. done. }
  destruct (Resolve _ _ _ _) as [token|]  eqn:Et; [|done]. destruct (GenerateKeypair _ _) as [kp|]; [|done].
  destruct (if decide (rc_Hostname cfg = "") then _ else _) as [host|]; [|done].
  destruct (registerWithRetry _ _ _ _) as [[[resp|]|] w]; try done.
  destruct (SaveIdentity _ _ _ _) as [[e|] d] eqn:Es; [done|]. injection E as E <-. rewrite E in Es.
  split; [|by rewrite <- E]. cbn [rs_disk].
  assert (Hp : tr_FilePath token <> "" -> tr_FilePath token = rc_TokenFile cfg)
    by (intros Hne; by apply (Resolve_file _ _ _ _ _ Et)).
  eapply SaveIdentity_Load; [done|done|]. intros n. case_decide as Hf; [|done]. destruct (in_remove i); [|done].
  cbn. rewrite lookup_delete_ne; [done|]. by rewrite Hp.
Qed.

(** A node that has registered stays registered: the next registration finds
    the same identity on the disk and does not contact the control plane. *)
Theorem Register_idempotent fuel cfg caps i st id st' fuel' i' st2 :
  Register fuel cfg caps i st = (Some (Ok id), st') -> storable id ->
  (forall n, in_read i n = ReadOk) -> (forall n, in_read i' n = ReadOk) ->
  (forall n, abs_path (rc_TokenFile cfg) <> data_dir cfg ++ [n]) -> rs_disk st2 = rs_disk st' ->
  rs_auth st' = id_NodeSecretKey id /\
  Register fuel' cfg caps i' st2 = (Some (Ok id), mkReg (id_NodeSecretKey id) (rs_disk st2) (rs_world st2)).
Proof.
  intros E Hst Hr Hr' Htok Hd2. destruct (Register_stored _ _ _ _ _ _ _ E Hst Hr Htok) as [Hl Ha].
  split; [done|]. unfold Register. by rewrite (LoadIdentity_ok _ _ _ Hr'), Hd2, Hl.
Qed.

End flow.

(** ** Surprises *)

(** A server's Retry-After is waited for in full, whatever the maximum retry
    duration. *)
Lemma server_delay_unbounded msg ra cur k : 0 < ra -> retry_delay (EAPI (mkAPIError 429 msg ra)) cur k = ra.
Proof. intros Hr. unfold retry_delay. rewrite decide_True by done. cbn. by rewrite decide_True by lia. Qed.

(** ** Witnesses *)

Import SimCodec.

(** A control plane that fails some times and then answers; the clock moves
    when the node waits. *)
Definition ex_resp : RegisterResponse := mkRegisterResponse "n1" "10.0.0.1" "spk" "secret" [].
Definition sim : Type := Z * nat.
Definition sim_register (resp : RegisterResponse) (req : RegisterRequest) (w : sim)
    : result go_error RegisterResponse * sim :=
  match w with
  | (t, O) => (Ok resp, (t, O))
  | (t, S n) => (Err (errorFromResponse 503 "" ""), (t, n))
  end.
#[global] Instance sim_env : RegEnv sim := {|
  rg_ctxErr := fun w => (false, w);
  rg_now := fun w => (w.1, w);
  rg_register := sim_register ex_resp;
  rg_rand := fun w => (0, w);
  rg_wait := fun d w => (false, (w.1 + Z.max 0 d, w.2))
|}.
#[global] Instance sim_laws : RegLaws sim fst.
Proof.
  split; cbn; intros; try lia.
  - destruct w as [t [|n]]; cbn; lia.
  - split; [unfold rand_max; lia|lia].
Qed.

Lemma sim_polite : polite_server (W := sim).
Proof. intros req [t [|n]] e a E Ha Hr; [done|]. injection E as <-. by injection Ha as <-. Qed.

Definition ex_cfg : Config := ApplyDefaults (mkConfig "/var/lib/plexd" "" "" "tok" false "" 0 "host" ∅ (2 * second)).
Definition ex_req : RegisterRequest := mkRegisterRequest "tok" "key" "host" ∅ None.

Lemma registerWithRetry_terminates_witness : is_Some (registerWithRetry (W := sim) 4 ex_cfg ex_req (0, 1%nat)).1.
Proof.
  apply (registerWithRetry_terminates (W := sim) ex_cfg ex_req (0, 1%nat) 3).
  - apply sim_polite.
  - by vm_compute.
  - by vm_compute.
Defined.

Definition ex_timeout : retry_error := RetryTimeout (errorFromResponse 503 "" "").
Definition ex_tried := registerWithRetry (W := sim) 5 ex_cfg ex_req (0, 9%nat).

Lemma ex_tried_timeout : registerWithRetry (W := sim) 5 ex_cfg ex_req (0, 9%nat) = (Some (Err ex_timeout), ex_tried.2).
Proof.
  assert (E : ex_tried.1 = Some (Err ex_timeout)) by (vm_compute; reflexivity).
  rewrite <- E. apply surjective_pairing.
Qed.

Lemma registerWithRetry_errors_witness : 0 + 2 * second <= ex_tried.2.1.
Proof.
  refine (proj2 (registerWithRetry_errors (W := sim) ex_cfg ex_req (0, 9%nat) 5 ex_timeout ex_tried.2 _
    ex_tried_timeout)).
  by vm_compute.
Defined.

Lemma Resolve_spec_witness :
  let read := fun _ : string => FileContent "  file-token  " in
  Resolve (ApplyDefaults (mkConfig "/var/lib/plexd" "" "" "" false "" 0 "" ∅ 0)) read (fun _ => "") None
    = Ok (mkToken "file-token" DefaultTokenFile) /\ "file-token" <> "".
Proof.
  intros read. split; [vm_compute; reflexivity|].
  refine (proj1 (Resolve_spec (ApplyDefaults (mkConfig "/var/lib/plexd" "" "" "" false "" 0 "" ∅ 0)) read (fun _ => "") None
    (mkToken "file-token" DefaultTokenFile) _)).
  vm_compute. reflexivity.
Defined.

Definition ex_input : reg_input :=
  mkInput (fun _ => "") (Some "host") None (Some (replicate 32 7)) (fun _ => Some [1; 2]) all_read ReadOk
    (fun _ => NoFault) true.
Definition ex_start : reg_state := mkReg (W := sim) "" ex_empty (0, 2%nat).
Definition ex_id : NodeIdentity := mkIdentity "n1" "10.0.0.1" "spk" (clamp (replicate 32 7)) "secret".
Definition ex_done : reg_state := (Register (W := sim) 10 ex_cfg None ex_input ex_start).2.

Lemma ex_registers : Register (W := sim) 10 ex_cfg None ex_input ex_start = (Some (Ok ex_id), ex_done).
Proof.
  assert (E : (Register (W := sim) 10 ex_cfg None ex_input ex_start).1 = Some (Ok ex_id))
    by (vm_compute; reflexivity).
  unfold ex_done. rewrite <- E. apply surjective_pairing.
Qed.

Lemma ex_id_storable : storable ex_id.
Proof. split; try discriminate; try (vm_compute; reflexivity). repeat constructor; done. Qed.

Lemma ex_token_elsewhere n : abs_path (rc_TokenFile ex_cfg) <> data_dir ex_cfg ++ [n].
Proof. vm_compute. discriminate. Qed.

Lemma Register_idempotent_witness :
  Register (W := sim) 0 ex_cfg None ex_input ex_done =
    (Some (Ok ex_id), mkReg (id_NodeSecretKey ex_id) (rs_disk ex_done) (rs_world ex_done)).
Proof.
  exact (proj2 (Register_idempotent (W := sim) (H := sim_env) (H0 := sim_codec) 10 ex_cfg None ex_input ex_start
    ex_id ex_done 0 ex_input ex_done ex_registers ex_id_storable (fun _ => eq_refl) (fun _ => eq_refl)
    ex_token_elsewhere eq_refl)).
Defined.

(** A response without a mesh address is accepted and saved; the node does not
    count as registered afterwards, and the token is gone. *)
#[local] Instance blank_env : RegEnv sim := {|
  rg_ctxErr := rg_ctxErr; rg_now := rg_now; rg_rand := rg_rand; rg_wait := rg_wait;
  rg_register := sim_register (mkRegisterResponse "n1" "" "spk" "secret" [])
|}.
Lemma blank_response_unregisters :
  let cfg := ApplyDefaults (mkConfig "/var/lib/plexd" "/etc/tok" "" "" false "" 0 "host" ∅ 0) in
  let st := mkReg "" (mkDisk {[ ["etc"; "tok"] := bytes_of_string "t1" ]} (d_dirs ex_empty)) (0, 0%nat) in
  let '(r, st') := Register (H := blank_env) 5 cfg None ex_input st in
  (exists id, r = Some (Ok id)) /\ IsRegistered cfg ex_input (rs_disk st') = false /\
  (Register (H := blank_env) 5 cfg None ex_input st').1 = Some (Err (ETokenResolve NoToken)).
Proof. vm_compute. split; [by eexists|done]. Qed.
