(* ===== verification/Client.v ===== *)
(** * The control plane client (src/internal/api/client.go, endpoints.go)

    How a call becomes an HTTP request and what its response becomes.  The
    transport, JSON and gzip are interfaces.  The theorems: a server recovers
    the call from the request, and which responses are errors. *)

From Stdlib Require Import Ascii String.
From stdpp Require Import base strings list gmap.
From S2P Require Import Prelude Base64 Net Types Reconnect Fs Json Registration.

(** ** url.PathEscape *)

Definition unreserved (c : Z) : bool :=
  ((97 <=? c) && (c <=? 122)) || ((65 <=? c) && (c <=? 90)) || ((48 <=? c) && (c <=? 57))
  || (c =? 45) || (c =? 95) || (c =? 46) || (c =? 126) (* - _ . ~ *)
  || (c =? 36) || (c =? 38) || (c =? 43) || (c =? 58) || (c =? 61) || (c =? 64). (* $ & + : = @ *)

Definition upper_hex (v : Z) : Z := if decide (v < 10) then 48 + v else 55 + v.

Definition escape_byte (c : Z) : list Z :=
  if unreserved c then [c] else [37; upper_hex (c / 16); upper_hex (c mod 16)].

Definition PathEscape (s : string) : string := string_of_bytes (bytes_of_string s ≫= escape_byte).

(** ** Requests *)

Record http_request := mkRequest {
  q_method : string;
  q_url : string;
  q_header : list (string * string);
  q_body : option (list Z)
}.

Record http_response := mkResponse {
  p_status : Z;
  p_encoding : string; (* the Content-Encoding header *)
  p_retryAfter : string;
  p_body : list Z
}.

(** compress/gzip. *)
Class Gzip := {
  gzip_write : list Z -> list Z;
  gzip_read : list Z -> option (list Z)
}.
Class GzipLaws `{Gzip} := { gzip_read_write : forall b, gzip_read (gzip_write b) = Some b }.

(** The transport: the response, or why there is none. *)
Class Transport (W : Type) := { Do : http_request -> W -> result go_error http_response * W }.

Definition gzipThreshold : nat := Z.to_nat 1024.
Definition maxResponseSize : nat := Z.to_nat (10 * 1024 * 1024).
Definition userAgentPrefix : string := "plexd/".

Record ControlPlane := mkClient { cp_baseURL : string; cp_version : string; cp_authToken : string }.

Definition NewControlPlane (cfg : Reconnect.Config) (version : string) : result string ControlPlane :=
  let cfg := Reconnect.ApplyDefaults cfg in
  match Reconnect.Validate cfg with
  | Some e => Err e
  | None => Ok (mkClient (TrimRight_slash (BaseURL cfg)) version "")
  end.

Definition SetAuthToken (token : string) (c : ControlPlane) : ControlPlane :=
  mkClient (cp_baseURL c) (cp_version c) token.

(** [strings.EqualFold] with the ASCII text "gzip". *)
Definition ascii_lower (c : Z) : Z := if (65 <=? c) && (c <=? 90) then c + 32 else c.
Definition is_gzip (s : string) : bool :=
  bool_decide (ascii_lower <$> bytes_of_string s = bytes_of_string "gzip").

(** ** Endpoints: method and path *)

Inductive endpoint :=
| EpPing | EpRegister | EpRotateKeys
| EpEvents (nodeID : string) | EpHeartbeat (nodeID : string) | EpDeregister (nodeID : string)
| EpCapabilities (nodeID : string) | EpEndpoint (nodeID : string) | EpState (nodeID : string)
| EpDrift (nodeID : string) | EpReport (nodeID : string) | EpMetrics (nodeID : string)
| EpLogs (nodeID : string) | EpAudit (nodeID : string) | EpViolations (nodeID : string)
| EpSecret (nodeID key : string) | EpAck (nodeID executionID : string) | EpResult (nodeID executionID : string)
| EpTunnelReady (nodeID sessionID : string) | EpTunnelClosed (nodeID sessionID : string)
| EpArtifact (version goos arch : string).

Definition method_of (e : endpoint) : string :=
  match e with
  | EpPing | EpEvents _ | EpState _ | EpSecret _ _ | EpArtifact _ _ _ => "GET"
  | EpCapabilities _ | EpEndpoint _ => "PUT"
  | _ => "POST"
  end.

(** The formats of [fmt.Sprintf]. *)
Definition node_path (nodeID rest : string) : string :=
  String.append "/v1/nodes/" (String.append (PathEscape nodeID) rest).
Definition node_path2 (nodeID mid id rest : string) : string :=
  node_path nodeID (String.append mid (String.append (PathEscape id) rest)).

Definition path_of (e : endpoint) : string :=
  match e with
  | EpPing => "/v1/ping"
  | EpRegister => "/v1/register"
  | EpRotateKeys => "/v1/keys/rotate"
  | EpEvents n => node_path n "/events"
  | EpHeartbeat n => node_path n "/heartbeat"
  | EpDeregister n => node_path n "/deregister"
  | EpCapabilities n => node_path n "/capabilities"
  | EpEndpoint n => node_path n "/endpoint"
  | EpState n => node_path n "/state"
  | EpDrift n => node_path n "/drift"
  | EpReport n => node_path n "/report"
  | EpMetrics n => node_path n "/metrics"
  | EpLogs n => node_path n "/logs"
  | EpAudit n => node_path n "/audit"
  | EpViolations n => node_path n "/integrity/violations"
  | EpSecret n k => node_path2 n "/secrets/" k ""
  | EpAck n x => node_path2 n "/executions/" x "/ack"
  | EpResult n x => node_path2 n "/executions/" x "/result"
  | EpTunnelReady n x => node_path2 n "/tunnels/" x "/ready"
  | EpTunnelClosed n x => node_path2 n "/tunnels/" x "/closed"
  | EpArtifact v o a =>
      String.append "/v1/artifacts/plexd/" (String.append (PathEscape v)
        (String.append "/" (String.append (PathEscape o) (String.append "/" (PathEscape a)))))
  end.

Section client.
Context {W : Type} `{Transport W} `{Gzip}.

Definition auth_header (c : ControlPlane) : list (string * string) :=
  if decide (cp_authToken c = "") then [] else [("Authorization", String.append "Bearer " (cp_authToken c))].

(** [body]: none, or what json.Marshal gives. *)
Definition build_request (c : ControlPlane) (e : endpoint) (body : option (option (list Z)))
    : result go_error http_request :=
  match body with
  | Some None => Err (EOther "api: marshal request body")
  | _ =>
      let data := match body with Some (Some d) => Some d | _ => None end in
      let compressed := match data with Some d => bool_decide (gzipThreshold < length d)%nat | None => false end in
      Ok (mkRequest (method_of e) (String.append (cp_baseURL c) (path_of e))
            ((match data with Some _ => [("Content-Type", "application/json")] | None => [] end)
             ++ (if compressed then [("Content-Encoding", "gzip")] else [])
             ++ [("Accept", "application/json"); ("Accept-Encoding", "gzip")]
             ++ auth_header c
             ++ [("User-Agent", String.append userAgentPrefix (cp_version c))])
            (if compressed then gzip_write <$> data else data))
  end.

Definition sendRequest (c : ControlPlane) (e : endpoint) (body : option (option (list Z))) (w : W)
    : result go_error http_response * W :=
  match build_request c e body with
  | Err err => (Err err, w)
  | Ok req => Do req w
  end.

Definition is_success (status : Z) : bool := negb ((status <? 200) || (299 <? status)).

Definition response_error (r : http_response) : go_error :=
  errorFromResponse (p_status r) (string_of_bytes (p_body r)) (p_retryAfter r).

(** The bytes the decoder reads. *)
Definition decoded_body (r : http_response) : option (list Z) :=
  if is_gzip (p_encoding r) then take maxResponseSize <$> gzip_read (p_body r) else Some (p_body r).

(** [doRequest] without and with a result to decode. *)
Definition doRequest (c : ControlPlane) (e : endpoint) (body : option (option (list Z))) (w : W)
    : option go_error * W :=
  match sendRequest c e body w with
  | (Err err, w) => (Some err, w)
  | (Ok r, w) => (if is_success (p_status r) then None else Some (response_error r), w)
  end.

Definition doRequest_result {A} `{Codec A} (c : ControlPlane) (e : endpoint)
    (body : option (option (list Z))) (w : W) : result go_error A * W :=
  match sendRequest c e body w with
  | (Err err, w) => (Err err, w)
  | (Ok r, w) =>
      (if is_success (p_status r) then
         match decoded_body r with
         | None => Err (EOther "api: gzip decompress response")
         | Some b => match Unmarshal b with Some a => Ok a | None => Err (EOther "api: decode response") end
         end
       else Err (response_error r), w)
  end.

Definition doRequestRaw (c : ControlPlane) (e : endpoint) (body : option (option (list Z))) (w : W)
    : result go_error http_response * W :=
  match sendRequest c e body w with
  | (Err err, w) => (Err err, w)
  | (Ok r, w) => (if is_success (p_status r) then Ok r else Err (response_error r), w)
  end.

Definition Ping (c : ControlPlane) (w : W) : option go_error * W := doRequest c EpPing None w.

(** ** The calls *)

Definition json {A} `{Codec A} (a : A) : option (option (list Z)) := Some (MarshalIndent a).

Definition Register `{Codec RegisterRequest} `{Codec RegisterResponse} c (req : RegisterRequest) (w : W)
    : result go_error RegisterResponse * W := doRequest_result c EpRegister (json req) w.

(** Its own headers, and no compression. *)
Definition ConnectSSE (c : ControlPlane) (nodeID lastEventID : string) (w : W) : result go_error http_response * W :=
  let req := mkRequest (method_of (EpEvents nodeID)) (String.append (cp_baseURL c) (path_of (EpEvents nodeID)))
    ([("Accept", "text/event-stream"); ("Cache-Control", "no-cache")]
     ++ auth_header c ++ [("User-Agent", String.append userAgentPrefix (cp_version c))]
     ++ (if decide (lastEventID = "") then [] else [("Last-Event-ID", lastEventID)])) None in
  match Do req w with
  | (Err err, w) => (Err (EWrap "api: SSE connect" err), w)
  | (Ok r, w) => (if is_success (p_status r) then Ok r else Err (response_error r), w)
  end.

Definition Heartbeat `{Codec HeartbeatRequest} `{Codec HeartbeatResponse} c nodeID (req : HeartbeatRequest) (w : W)
    : result go_error HeartbeatResponse * W := doRequest_result c (EpHeartbeat nodeID) (json req) w.
Definition Deregister c nodeID (w : W) : option go_error * W := doRequest c (EpDeregister nodeID) None w.
Definition RotateKeys `{Codec KeyRotateRequest} `{Codec KeyRotateResponse} c (req : KeyRotateRequest) (w : W)
    : result go_error KeyRotateResponse * W := doRequest_result c EpRotateKeys (json req) w.
Definition UpdateCapabilities `{Codec CapabilitiesPayload} c nodeID (caps : CapabilitiesPayload) (w : W)
    : option go_error * W := doRequest c (EpCapabilities nodeID) (json caps) w.
Definition ReportEndpoint `{Codec EndpointReport} `{Codec EndpointResponse} c nodeID (req : EndpointReport) (w : W)
    : result go_error EndpointResponse * W := doRequest_result c (EpEndpoint nodeID) (json req) w.
Definition FetchState `{Codec StateResponse} c nodeID (w : W) : result go_error StateResponse * W :=
  doRequest_result c (EpState nodeID) None w.
Definition ReportDrift `{Codec DriftReport} c nodeID (req : DriftReport) (w : W) : option go_error * W :=
  doRequest c (EpDrift nodeID) (json req) w.
Definition FetchSecret `{Codec SecretResponse} c nodeID key (w : W) : result go_error SecretResponse * W :=
  doRequest_result c (EpSecret nodeID key) None w.
Definition SyncReports `{Codec ReportSyncRequest} c nodeID (req : ReportSyncRequest) (w : W) : option go_error * W :=
  doRequest c (EpReport nodeID) (json req) w.
Definition AckExecution `{Codec ExecutionAck} c nodeID executionID (req : ExecutionAck) (w : W) : option go_error * W :=
  doRequest c (EpAck nodeID executionID) (json req) w.
Definition ReportResult `{Codec ExecutionResult} c nodeID executionID (req : ExecutionResult) (w : W)
    : option go_error * W := doRequest c (EpResult nodeID executionID) (json req) w.
Definition ReportMetrics `{Codec (list MetricPoint)} c nodeID (batch : list MetricPoint) (w : W) : option go_error * W :=
  doRequest c (EpMetrics nodeID) (json batch) w.
Definition ReportLogs `{Codec (list LogEntry)} c nodeID (batch : list LogEntry) (w : W) : option go_error * W :=
  doRequest c (EpLogs nodeID) (json batch) w.
Definition ReportAudit `{Codec (list AuditEntry)} c nodeID (batch : list AuditEntry) (w : W) : option go_error * W :=
  doRequest c (EpAudit nodeID) (json batch) w.
Definition FetchArtifact c version goos arch (w : W) : result go_error http_response * W :=
  doRequestRaw c (EpArtifact version goos arch) None w.
Definition TunnelReady `{Codec TunnelReadyRequest} c nodeID sessionID (req : TunnelReadyRequest) (w : W)
    : option go_error * W := doRequest c (EpTunnelReady nodeID sessionID) (json req) w.
Definition TunnelClosed `{Codec TunnelClosedRequest} c nodeID sessionID (req : TunnelClosedRequest) (w : W)
    : option go_error * W := doRequest c (EpTunnelClosed nodeID sessionID) (json req) w.
Definition ReportIntegrityViolation `{Codec IntegrityViolationReport} c nodeID (req : IntegrityViolationReport) (w : W)
    : option go_error * W := doRequest c (EpViolations nodeID) (json req) w.

End client.

(** ** The server's side *)

(** The inverse of [PathEscape]. *)
Fixpoint unescape (l : list Z) : option (list Z) :=
  match l with
  | [] => Some []
  | c :: l' =>
      if decide (c = 37) then
        match l' with
        | a :: b :: r =>
            match hexdigit a, hexdigit b with
            | Some x, Some y => cons (16 * x + y) <$> unescape r
            | _, _ => None
            end
        | _ => None
        end
      else cons c <$> unescape l'
  end.
Definition PathUnescape (s : string) : option string := string_of_bytes <$> unescape (bytes_of_string s).

(** Which call a path is for. *)
Definition route_node (n : string) (rest : list string) : option endpoint :=
  match rest with
  | [a] =>
      if decide (a = "events") then Some (EpEvents n)
      else if decide (a = "heartbeat") then Some (EpHeartbeat n)
      else if decide (a = "deregister") then Some (EpDeregister n)
      else if decide (a = "capabilities") then Some (EpCapabilities n)
      else if decide (a = "endpoint") then Some (EpEndpoint n)
      else if decide (a = "state") then Some (EpState n)
      else if decide (a = "drift") then Some (EpDrift n)
      else if decide (a = "report") then Some (EpReport n)
      else if decide (a = "metrics") then Some (EpMetrics n)
      else if decide (a = "logs") then Some (EpLogs n)
      else if decide (a = "audit") then Some (EpAudit n)
      else None
  | [a; x] =>
      if decide (a = "integrity" /\ x = "violations") then Some (EpViolations n)
      else if decide (a = "secrets") then EpSecret n <$> PathUnescape x
      else None
  | [a; x; b] =>
      if decide (a = "executions" /\ b = "ack") then EpAck n <$> PathUnescape x
      else if decide (a = "executions" /\ b = "result") then EpResult n <$> PathUnescape x
      else if decide (a = "tunnels" /\ b = "ready") then EpTunnelReady n <$> PathUnescape x
      else if decide (a = "tunnels" /\ b = "closed") then EpTunnelClosed n <$> PathUnescape x
      else None
  | _ => None
  end.

Definition route (path : string) : option endpoint :=
  match split_slash "" path with
  | root :: v1 :: segs =>
      if decide (root <> "" \/ v1 <> "v1") then None
      else if decide (segs = ["ping"]) then Some EpPing
      else if decide (segs = ["register"]) then Some EpRegister
      else if decide (segs = ["keys"; "rotate"]) then Some EpRotateKeys
      else
        match segs with
        | a :: n :: rest =>
            if decide (a = "nodes") then n ← PathUnescape n; route_node n rest
            else
              match rest with
              | [v; o; arch] =>
                  if decide (a = "artifacts" /\ n = "plexd") then
                    v ← PathUnescape v; o ← PathUnescape o; arch ← PathUnescape arch; Some (EpArtifact v o arch)
                  else None
              | _ => None
              end
        | _ => None
        end
  | _ => None
  end.

(** ** Lemmas *)

Lemma hexdigit_upper v : 0 <= v < 16 -> hexdigit (upper_hex v) = Some v.
Proof. intros Hv. unfold hexdigit, upper_hex. case_decide; repeat case_match; try lia; f_equal; lia. Qed.

Lemma escape_byte_ok c : byte_ok c -> Forall (fun x => byte_ok x /\ x <> 47) (escape_byte c).
Proof.
  intros Hc. unfold escape_byte, byte_ok in *. destruct (unreserved c) eqn:E.
  - constructor; [|constructor]. unfold unreserved in E. lia.
  - assert (0 <= c / 16 < 16) by (split; [apply Z.div_pos|apply Z.div_lt_upper_bound]; lia).
    pose proof (Z.mod_pos_bound c 16 ltac:(lia)).
    repeat constructor; unfold upper_hex; try case_decide; lia.
Qed.

Lemma unescape_escape l : Forall byte_ok l -> unescape (l ≫= escape_byte) = Some l.
Proof.
  induction 1 as [|c l Hc Hl IH]; [done|]. rewrite bind_cons. unfold escape_byte at 1.
  unfold byte_ok in Hc. destruct (unreserved c) eqn:E.
  - cbn [app]. assert (c <> 37) by (intros ->; by vm_compute in E).
    cbn [unescape]. rewrite decide_False by done. by rewrite IH.
  - cbn [app unescape]. rewrite decide_True by done.
    assert (0 <= c / 16 < 16) by (split; [apply Z.div_pos|apply Z.div_lt_upper_bound]; lia).
    pose proof (Z.mod_pos_bound c 16 ltac:(lia)).
    rewrite !hexdigit_upper, IH by lia. cbn. f_equal. f_equal. pose proof (Z.div_mod c 16 ltac:(lia)). lia.
Qed.

Lemma escape_ok l : Forall byte_ok l -> Forall (fun x => byte_ok x /\ x <> 47) (l ≫= escape_byte).
Proof. induction 1 as [|c l Hc Hl IH]; cbn; [constructor|]. apply Forall_app. split; [by apply escape_byte_ok|done]. Qed.

Lemma bytes_PathEscape s : bytes_of_string (PathEscape s) = bytes_of_string s ≫= escape_byte.
Proof.
  unfold PathEscape. apply bytes_of_string_of_bytes. eapply Forall_impl; [apply escape_ok, bytes_of_string_ok|].
  by intros x [? _].
Qed.

Lemma PathUnescape_PathEscape s : PathUnescape (PathEscape s) = Some s.
Proof.
  unfold PathUnescape. rewrite bytes_PathEscape, unescape_escape by apply bytes_of_string_ok. cbn.
  by rewrite string_of_bytes_of_string.
Qed.

Lemma PathEscape_no_slash s : no_slash (PathEscape s).
Proof.
  unfold no_slash. apply Forall_forall. intros c Hc ->.
  pose proof (escape_ok _ (bytes_of_string_ok s)) as Hf. rewrite <- bytes_PathEscape, Forall_forall in Hf.
  destruct (Hf 47) as [_ ?]; [|done]. apply list_elem_of_fmap. by exists "/"%char.
Qed.

Lemma split_slash_app a b : forall acc, no_slash a ->
  split_slash acc (String.append a (String "/" b)) = String.append acc a :: split_slash "" b.
Proof.
  induction a as [|c a IH]; intros acc Ha; cbn.
  - by rewrite string_app_nil_r.
  - apply Forall_cons in Ha as [Hc Ha]. change (String.append (String c a) (String "/" b)) with
      (String c (String.append a (String "/" b))). cbn. rewrite decide_False by done. rewrite IH by done.
    by rewrite string_app_assoc.
Qed.

Lemma split_node n rest :
  split_slash "" (node_path n (String "/" rest)) = "" :: "v1" :: "nodes" :: PathEscape n :: split_slash "" rest.
Proof.
  change (node_path n (String "/" rest)) with
    (String.append "" (String "/" (String.append "v1" (String "/" (String.append "nodes" (String "/"
      (String.append (PathEscape n) (String "/" rest)))))))).
  by rewrite !split_slash_app by (apply PathEscape_no_slash || by_compute).
Qed.

Lemma split_id id rest : split_slash "" (String.append (PathEscape id) (String "/" rest)) = PathEscape id :: split_slash "" rest.
Proof. by rewrite split_slash_app by apply PathEscape_no_slash. Qed.

Lemma split_last id : split_slash "" (PathEscape id) = [PathEscape id].
Proof. by rewrite split_no_slash by apply PathEscape_no_slash. Qed.

Lemma route_node_path n rest :
  route (node_path n (String "/" rest)) = route_node n (split_slash "" rest).
Proof.
  unfold route. rewrite split_node. rewrite decide_False by (intros [?|?]; done).
  rewrite !decide_False by done. rewrite decide_True by done. by rewrite PathUnescape_PathEscape.
Qed.

Lemma route_node_path2 n mid x rest : no_slash mid ->
  route (node_path2 n (String "/" (String.append mid "/")) x (String "/" rest))
  = route_node n (mid :: PathEscape x :: split_slash "" rest).
Proof.
  intros Hm. unfold node_path2.
  change (String.append (String "/" (String.append mid "/")) (String.append (PathEscape x) (String "/" rest)))
    with (String "/" (String.append (String.append mid "/") (String.append (PathEscape x) (String "/" rest)))).
  rewrite route_node_path, string_app_assoc.
  change (String.append "/" (String.append (PathEscape x) (String "/" rest)))
    with (String "/" (String.append (PathEscape x) (String "/" rest))).
  by rewrite split_slash_app, split_id by done.
Qed.

Ltac decide_names := repeat (rewrite decide_False by (done || by intros [? ?])); try rewrite decide_True by done.

(** ** Theorems *)

(** The path of a call determines the call with its ids: ids with slashes,
    percent signs or any other bytes cannot turn one into another. *)
Theorem route_path_of e : route (path_of e) = Some e.
Proof.
  destruct e as [| | |n|n|n|n|n|n|n|n|n|n|n|n|n k|n x|n x|n x|n x|v o a]; cbn [path_of].
  1-3: by vm_compute.
  1-12: rewrite route_node_path; vm_compute split_slash; cbn [route_node]; by decide_names.
  - unfold node_path2. change (String.append "/secrets/" (String.append (PathEscape k) ""))
      with (String "/" (String.append "secrets" (String "/" (String.append (PathEscape k) "")))).
    rewrite route_node_path, split_slash_app by by_compute. rewrite string_app_nil_r, split_last.
    cbn [route_node app]. decide_names. by rewrite PathUnescape_PathEscape.
  - etransitivity; [apply (route_node_path2 n "executions" x "ack"); by_compute|].
    vm_compute (split_slash "" "ack"). cbn [route_node]. decide_names. by rewrite PathUnescape_PathEscape.
  - etransitivity; [apply (route_node_path2 n "executions" x "result"); by_compute|].
    vm_compute (split_slash "" "result"). cbn [route_node]. decide_names. by rewrite PathUnescape_PathEscape.
  - etransitivity; [apply (route_node_path2 n "tunnels" x "ready"); by_compute|].
    vm_compute (split_slash "" "ready"). cbn [route_node]. decide_names. by rewrite PathUnescape_PathEscape.
  - etransitivity; [apply (route_node_path2 n "tunnels" x "closed"); by_compute|].
    vm_compute (split_slash "" "closed"). cbn [route_node]. decide_names. by rewrite PathUnescape_PathEscape.
  - unfold route.
    change (split_slash "" _) with (split_slash "" (String.append "" (String "/" (String.append "v1" (String "/"
      (String.append "artifacts" (String "/" (String.append "plexd" (String "/" (String.append (PathEscape v)
        (String "/" (String.append (PathEscape o) (String "/" (PathEscape a)))))))))))))).
    rewrite !split_slash_app, split_last by (apply PathEscape_no_slash || by_compute).
    rewrite decide_False by (by intros [?|?]). rewrite !decide_False by done. rewrite decide_True by done.
    change (String.append "" (PathEscape v)) with (PathEscape v).
    change (String.append "" (PathEscape o)) with (PathEscape o).
    rewrite PathUnescape_PathEscape. cbn [mbind option_bind]. rewrite PathUnescape_PathEscape.
    cbn [mbind option_bind]. by rewrite PathUnescape_PathEscape.
Qed.

(** What a server reads from a request. *)
Definition header (name : string) (q : http_request) : option string :=
  snd <$> list_find (fun h => h.1 = name) (q_header q) ≫= fun r => Some r.2.

(** The body a server reads. *)
Definition received_body `{Gzip} (q : http_request) : option (list Z) :=
  match header "Content-Encoding" q with
  | Some enc => if is_gzip enc then q_body q ≫= gzip_read else q_body q
  | None => q_body q
  end.

(** A request carries the bearer token exactly when one is set, the JSON body
    arrives whatever its size, compressed when it is long, and a call with a
    body says that it is JSON. *)
Theorem build_request_spec `{GzipLaws} c e body q :
  build_request c e body = Ok q ->
  q_method q = method_of e /\ q_url q = String.append (cp_baseURL c) (path_of e) /\
  received_body q = (match body with Some d => d | None => None end) /\
  header "Authorization" q = (if decide (cp_authToken c = "") then None
                              else Some (String.append "Bearer " (cp_authToken c))) /\
  header "Content-Type" q = (match body with Some _ => Some "application/json" | None => None end).
Proof.
  unfold build_request. destruct body as [[d|]|]; [|done|].
  - destruct (bool_decide (gzipThreshold < length d)%nat); intros [= <-]; unfold received_body, header, auth_header;
      (split_and!; [done|done| | |done]); cbn [q_header q_body]; destruct (decide (cp_authToken c = "")); cbn;
      rewrite ?gzip_read_write; done.
  - intros [= <-]. unfold received_body, header, auth_header. (split_and!; [done|done| | |]); cbn [q_header q_body];
      destruct (decide (cp_authToken c = "")); cbn; done.
Qed.

(** A call returns the server's error for every status outside 2xx, with its
    classification, and the decoded response otherwise. *)
Theorem doRequest_result_spec {W} `{Transport W} `{Gzip} {A} `{Codec A} c e body w q r w' :
  build_request c e body = Ok q -> Do q w = (Ok r, w') ->
  (doRequest_result (A := A) c e body w).2 = w' /\
  match (doRequest_result (A := A) c e body w).1 with
  | Ok a => 200 <= p_status r <= 299 /\ exists b, decoded_body r = Some b /\ Unmarshal b = Some a
  | Err err => (200 <= p_status r <= 299 /\ ClassifyError err = RetryTransient) \/
               (~ 200 <= p_status r <= 299 /\ exists a, errors_As err = Some a /\ ae_StatusCode a = p_status r)
  end.
Proof.
  intros Hb Hd. unfold doRequest_result, sendRequest. rewrite Hb, Hd. split; [done|]. cbn [fst].
  unfold is_success. destruct ((p_status r <? 200) || (299 <? p_status r)) eqn:Es; cbn [negb].
  - right. split; [lia|]. unfold response_error, errorFromResponse. by eexists.
  - assert (200 <= p_status r <= 299) by lia. destruct (decoded_body r) as [b|]; [|by left].
    destruct (Unmarshal b) as [a|] eqn:Eu; [split; [done|]; eauto|by left].
Qed.

(** ** Witnesses *)

Import SimCodec.

#[local] Instance sim_gzip : Gzip := {|
  gzip_write := fun b => 31 :: b;
  gzip_read := fun b => match b with x :: b => if decide (x = 31) then Some b else None | [] => None end
|}.
#[local] Instance sim_gzip_laws : GzipLaws.
Proof. by split. Qed.

Definition ex_client : ControlPlane := mkClient "https://cp.example.com" "1.0" "tok".
Definition ex_body : list Z := replicate 2000 65.
Definition ex_request : http_request :=
  match build_request ex_client (EpDrift "n/1") (Some (Some ex_body)) with Ok q => q | Err _ => mkRequest "" "" [] None end.

Lemma build_request_spec_witness :
  q_url ex_request = "https://cp.example.com/v1/nodes/n%2F1/drift" /\ received_body ex_request = Some ex_body.
Proof.
  destruct (build_request_spec ex_client (EpDrift "n/1") (Some (Some ex_body)) ex_request eq_refl) as (_ & Hu & Hb & _).
  split; [by vm_compute|exact Hb].
Defined.

Definition ex_response : http_response := mkResponse 429 "" "7" [].
#[local] Instance sim_transport : Transport unit := {| Do := fun _ w => (Ok ex_response, w) |}.

Lemma doRequest_result_spec_witness :
  exists err, (doRequest_result (A := list string) ex_client (EpState "n1") None tt).1 = Err err /\
    ClassifyError err = RespectServer.
Proof.
  destruct (doRequest_result_spec (W := unit) (H := sim_transport) (A := list string) ex_client (EpState "n1") None tt
    (mkRequest "GET" "https://cp.example.com/v1/nodes/n1/state"
       [("Accept", "application/json"); ("Accept-Encoding", "gzip"); ("Authorization", "Bearer tok");
        ("User-Agent", "plexd/1.0")] None) ex_response tt eq_refl eq_refl) as [_ Hr].
  exists (errorFromResponse 429 "" "7"). split; [by vm_compute|by vm_compute].
Defined.
