(* ===== verification/ActionRun.v ===== *)
(** * Running one action (src/internal/actions/config.go, discovery.go,
      builtins.go and the part of executor.go that runs a hook)

    What an accepted request does: the builtin functions, the checks before a
    hook is started, its environment and its captured output; and the
    discovery of hooks.  Starting a process is the operating system's: whether
    it starts, what it writes and how it ends is an argument. *)

From Stdlib Require Import Ascii String.
From stdpp Require Import base strings list gmap sorting.
From S2P Require Import Prelude Base64 Net Types Sha256 Fs Json Integrity Duration.

(** ** Configuration *)

Definition DefaultMaxConcurrent : Z := 5.
Definition DefaultMaxActionTimeout : Z := 10 * minute.
Definition DefaultMaxOutputBytes : Z := Z.shiftl 1 20.

Record Config := mkConfig {
  ac_Enabled : bool;
  ac_HooksDir : path;
  ac_MaxConcurrent : Z;
  ac_MaxActionTimeout : Z;
  ac_MaxOutputBytes : Z
}.

Definition ApplyDefaults (c : Config) : Config :=
  let orDefault x def := if decide (x = 0) then def else x in
  mkConfig
    (if decide (ac_MaxConcurrent c = 0 /\ ac_MaxActionTimeout c = 0 /\ ac_MaxOutputBytes c = 0)
     then true else ac_Enabled c)
    (ac_HooksDir c)
    (orDefault (ac_MaxConcurrent c) DefaultMaxConcurrent)
    (orDefault (ac_MaxActionTimeout c) DefaultMaxActionTimeout)
    (orDefault (ac_MaxOutputBytes c) DefaultMaxOutputBytes).

Definition Validate (c : Config) : option string :=
  if negb (ac_Enabled c) then None
  else if decide (ac_MaxConcurrent c < 1) then Some "actions: config: MaxConcurrent must be at least 1"
  else if decide (ac_MaxActionTimeout c < 10 * second) then
    Some "actions: config: MaxActionTimeout must be at least 10s"
  else if decide (ac_MaxOutputBytes c < 1024) then
    Some "actions: config: MaxOutputBytes must be at least 1024"
  else None.

(** ** Captured output *)

Record limitedWriter := mkWriter { lw_buf : list Z; lw_max : Z }.

Definition newLimitedWriter (max : Z) : limitedWriter := mkWriter [] max.

Definition Write_ (w : limitedWriter) (p : list Z) : limitedWriter :=
  let remaining := lw_max w - Z.of_nat (length (lw_buf w)) in
  if decide (remaining > 0) then
    let n := Z.min (Z.of_nat (length p)) remaining in
    mkWriter (lw_buf w ++ take (Z.to_nat n) p) (lw_max w)
  else w.

Definition truncated (w : limitedWriter) : bool := bool_decide (Z.of_nat (length (lw_buf w)) >= lw_max w).

Definition truncationSuffix : list Z := 10 :: bytes_of_string "...[truncated]".

Definition collectOutput (w : limitedWriter) : string :=
  string_of_bytes (if truncated w then lw_buf w ++ truncationSuffix else lw_buf w).

(** ** The environment of a hook *)

Definition in_range (lo hi c : Z) : bool := (lo <=? c) && (c <=? hi).
Definition cont (c : Z) : bool := in_range 0x80 0xBF c.

(** The width of the first rune, 1 for a byte that starts no valid one. *)
Definition rune_len (l : list Z) : nat :=
  match l with
  | c0 :: c1 :: l =>
      if in_range 0xC2 0xDF c0 && cont c1 then 2%nat
      else
        let second_of_three :=
          if c0 =? 0xE0 then in_range 0xA0 0xBF c1
          else if c0 =? 0xED then in_range 0x80 0x9F c1
          else in_range 0xE1 0xEF c0 && cont c1 in
        let second_of_four :=
          if c0 =? 0xF0 then in_range 0x90 0xBF c1
          else if c0 =? 0xF4 then in_range 0x80 0x8F c1
          else in_range 0xF1 0xF3 c0 && cont c1 in
        match l with
        | c2 :: l =>
            if second_of_three && cont c2 then 3%nat
            else match l with
                 | c3 :: _ => if second_of_four && cont c2 && cont c3 then 4%nat else 1%nat
                 | [] => 1%nat
                 end
        | [] => 1%nat
        end
  | _ => 1%nat
  end.

Definition word_byte (c : Z) : bool :=
  in_range 65 90 c || in_range 97 122 c || in_range 48 57 c || (c =? 95).
Definition to_upper (c : Z) : Z := if in_range 97 122 c then c - 32 else c.

(** Every other rune becomes an underscore; [skip] counts its further bytes. *)
Fixpoint sanitize (skip : nat) (l : list Z) : list Z :=
  match l with
  | [] => []
  | c :: l' =>
      match skip with
      | S skip => sanitize skip l'
      | O => if word_byte c then to_upper c :: sanitize 0 l' else 95 :: sanitize (rune_len l - 1) l'
      end
  end.

Definition sanitizeParamName (name : string) : string := string_of_bytes (sanitize 0 (bytes_of_string name)).

Definition env_entry (name value : string) : string := String.append name (String.append "=" value).

Definition param_entry (p : string * string) : string :=
  env_entry (String.append "PLEXD_PARAM_" (sanitizeParamName p.1)) p.2.

(** [getenv] is [os.Getenv]. *)
Definition buildHookEnv `{MapOrder} (getenv : string -> string) (nodeID : string) (req : ActionRequest) : list string :=
  [env_entry "PATH" (getenv "PATH"); env_entry "HOME" (getenv "HOME");
   env_entry "PLEXD_NODE_ID" nodeID; env_entry "PLEXD_EXECUTION_ID" (areq_ExecutionID req)]
  ++ (param_entry <$> range_map (areq_Parameters req)).

(** ** Running a hook *)

Fixpoint has_dotdot (l : list Z) : bool :=
  match l with
  | a :: (b :: _) as l' => ((a =? 46) && (b =? 46)) || has_dotdot l'
  | _ => false
  end.

(** Whether [validateHookName] accepts the name. *)
Definition validateHookName (name : string) : bool :=
  let l := bytes_of_string name in
  negb (bool_decide (name = "") || existsb (fun c => (c =? 47) || (c =? 92)) l || has_dotdot l).

Inductive run_error := ExitError (code : Z) | OtherError (msg : string).

(** A process that has ended: its writes, and the error of [cmd.Run]. *)
Record process := mkProcess {
  pr_stdout : list (list Z);
  pr_stderr : list (list Z);
  pr_err : option run_error
}.

(** [cmd.Run] starts no process when the context has ended or the file cannot
    be executed. *)
Inductive command := NotStarted (msg : string) | Ended (p : process).

(** The disk that [os.Stat], the verification and the start of the process find. *)
Record hook_disks := mkDisks { hd_stat : disk; hd_verify : disk; hd_start : disk }.

Record run_result := mkRun {
  rr_stdout : string;
  rr_stderr : string;
  rr_exitCode : Z;
  rr_err : option run_error
}.

(** Also returned: the violations reported and the process started, if any, with
    the content that its file has then. *)
Definition runHook `{MapOrder} (cfg : Config) (getenv : string -> string) (rf : read_fault) (now : Z)
    (nodeID : string) (req : ActionRequest) (ds : hook_disks) (run : disk -> path -> list string -> command)
    : run_result * reports * option (path * list string * option (list Z)) :=
  let failed msg := mkRun "" "" 1 (Some (OtherError msg)) in
  if negb (validateHookName (areq_Action req)) then (failed "invalid hook name", [], None)
  else
    let hookPath := Join (ac_HooksDir cfg) (areq_Action req) in
    if decide (d_files (hd_stat ds) !! hookPath = None /\ hookPath ∉ d_dirs (hd_stat ds)) then (failed "hook not found", [], None)
    else
      match VerifyHook rf now nodeID hookPath (areq_Checksum req) (hd_verify ds) with
      | (Err _, rs) => (failed "integrity verification error", rs, None)
      | (Ok false, rs) => (failed "integrity check failed for hook", rs, None)
      | (Ok true, rs) =>
          let env := buildHookEnv getenv nodeID req in
          let c := run (hd_start ds) hookPath env in
          let p := match c with Ended p => p | NotStarted msg => mkProcess [] [] (Some (OtherError msg)) end in
          let stdout := collectOutput (foldl Write_ (newLimitedWriter (ac_MaxOutputBytes cfg)) (pr_stdout p)) in
          let stderr := collectOutput (foldl Write_ (newLimitedWriter (ac_MaxOutputBytes cfg)) (pr_stderr p)) in
          (match pr_err p with
           | Some (ExitError code) => mkRun stdout stderr code (Some (ExitError code))
           | Some e => mkRun stdout stderr 1 (Some e)
           | None => mkRun stdout stderr 0 None
           end, rs,
           match c with
           | Ended _ => Some (hookPath, env, d_files (hd_start ds) !! hookPath)
           | NotStarted _ => None
           end)
      end.

(** ** Timeouts and status *)

Definition action_timeout (cfg : Config) (req : ActionRequest) : Z :=
  if decide (areq_Timeout req = "") then ac_MaxActionTimeout cfg
  else match ParseDuration (areq_Timeout req) with
       | Some parsed => Z.min parsed (ac_MaxActionTimeout cfg)
       | None => ac_MaxActionTimeout cfg
       end.

(** [ctx.Err()]. *)
Inductive ctx_error := Canceled | DeadlineExceeded.
#[global] Instance ctx_error_eq_dec : EqDecision ctx_error.
Proof. solve_decision. Defined.

Definition determineStatus (runErr : option run_error) (exitCode : Z) (timeoutCtx parentCtx : option ctx_error)
    : string :=
  match runErr with
  | Some e =>
      if decide (timeoutCtx = Some DeadlineExceeded) then "timeout"
      else if decide (parentCtx = Some Canceled) then "cancelled"
      else match e with ExitError _ => "failed" | OtherError _ => "error" end
  | None => if decide (exitCode <> 0) then "failed" else "success"
  end.

(** ** Builtin actions *)

(** A builtin is called in some state of the outside world and can panic. *)
Abbreviation BuiltinFunc W := (W -> gmap string string -> outcome run_result).

Record gatherInfoResult := mkInfo {
  gi_Hostname : string; gi_OS : string; gi_Arch : string; gi_GoVersion : string;
  gi_MeshIP : string; gi_PeerCount : Z; gi_NodeID : string
}.

Section builtins.
Context {W : Type} (* the node's information, the host name and the ping program *)
  (info_NodeID info_MeshIP : W -> string) (info_PeerCount : W -> Z)
  (os_Hostname : W -> option string) (GOOS GOARCH version : string)
  (MarshalInfo : gatherInfoResult -> option string).

Definition GatherInfo : BuiltinFunc W := fun w params =>
  let info := mkInfo (default "unknown" (os_Hostname w)) GOOS GOARCH version
                (info_MeshIP w) (info_PeerCount w) (info_NodeID w) in
  Returns (match MarshalInfo info with
           | Some data => mkRun data "" 0 None
           | None => mkRun "" "" 1 (Some (OtherError "marshal info"))
           end).

(** The combined output of ping with its exit code, or that it did not start. *)
Inductive ping_run := PingOk (out : string) | PingExit (out : string) (code : Z) | PingNotStarted (msg : string).

Definition Ping (ping : W -> string -> ping_run) : BuiltinFunc W := fun w params =>
  let target := default "" (params !! "target") in
  Returns (if decide (target = "") then mkRun "" "" 1 (Some (OtherError "missing required parameter: target"))
           else match ParseIP target with
                | None => mkRun "" (String.append "invalid target IP: " target) 1 None
                | Some _ =>
                    match ping w target with
                    | PingOk out => mkRun out "" 0 None
                    | PingExit out code => mkRun "" out code None
                    | PingNotStarted msg => mkRun "" msg 1 None
                    end
                end).

End builtins.

(** ** Discovery *)

Record hookMetadata := mkMetadata {
  hm_Description : string;
  hm_Parameters : list ActionParam;
  hm_Timeout : string;
  hm_Sandbox : string
}.

Definition hook_le (a b : HookInfo) : Prop := name_le (hi_Name a) (hi_Name b).
#[global] Instance hook_le_dec : RelDecision hook_le.
Proof. intros a b. unfold hook_le. apply _. Defined.

Section discovery.
Context `{Codec hookMetadata}.
(* the permission bits [entry.Info] gives, or its error; which reads fail; 0o111 is 0x49 *)
Context (mode : string -> option Z) (rf : path -> read_fault).

Definition read_sidecar (p : path) (d : disk) : option hookMetadata :=
  match rf p with ReadOk => (d_files d !! p) ≫= Unmarshal | _ => None end.

(** One entry of the directory: skipped, or a hook. *)
Definition discover_entry (hooksDir : path) (d : disk) (name : string) : option HookInfo :=
  if HasSuffix name ".json" then None
  else
    match mode name with
    | None => None
    | Some perm =>
        if decide (Z.land perm 0x49 = 0) then None
        else
          let fullPath := hooksDir ++ [name] in
          match HashFile (rf fullPath) fullPath d with
          | Err _ => None
          | Ok checksum =>
              Some (match read_sidecar (hooksDir ++ [json_name name]) d with
                    | Some meta =>
                        mkHookInfo name (hm_Description meta) "local" checksum (hm_Parameters meta)
                          (hm_Timeout meta) (hm_Sandbox meta)
                    | None => mkHookInfo name "" "local" checksum [] "" ""
                    end)
          end
    end.

(** [refused]: the directory is there but cannot be read.  [None] is the error. *)
Definition DiscoverHooks (refused : bool) (hooksDir : option path) (d : disk) : option (list HookInfo) :=
  match hooksDir with
  | None => Some []
  | Some dir =>
      if decide (d_files d !! dir = None /\ dir ∉ d_dirs d) then Some []
      else if refused || bool_decide (is_Some (d_files d !! dir)) then None
      else Some (merge_sort hook_le (omap (discover_entry dir d) (ReadDir dir d)))
  end.

End discovery.

(** ** Lemmas *)

Lemma take_app_take {A} n (l k : list A) : take n (take n l ++ k) = take n (l ++ k).
Proof.
  destruct (decide (n <= length l)%nat).
  - rewrite take_app_le by (rewrite length_take; lia). rewrite take_take, Nat.min_id. by rewrite take_app_le.
  - by rewrite (take_ge l) by lia.
Qed.

(** A write keeps what fits. *)
Lemma Write_take w p : Z.of_nat (length (lw_buf w)) <= lw_max w ->
  Write_ w p = mkWriter (take (Z.to_nat (lw_max w)) (lw_buf w ++ p)) (lw_max w).
Proof.
  intros Hl. unfold Write_. destruct w as [buf max]; cbn in *. case_decide.
  - f_equal. rewrite take_app, (take_ge buf) by lia. f_equal.
    destruct (decide (Z.of_nat (length p) <= max - Z.of_nat (length buf))).
    + by rewrite !take_ge by lia.
    + f_equal. lia.
  - f_equal. rewrite take_app_le, take_ge by lia. done.
Qed.

Lemma foldl_Write ws : forall w, Z.of_nat (length (lw_buf w)) <= lw_max w ->
  foldl Write_ w ws = mkWriter (take (Z.to_nat (lw_max w)) (lw_buf w ++ mjoin ws)) (lw_max w).
Proof.
  induction ws as [|p ws IH]; intros w Hl; cbn [foldl mjoin list_join].
  - rewrite app_nil_r, take_ge by lia. by destruct w.
  - rewrite Write_take, IH by (cbn; rewrite ?length_take; lia). cbn [lw_buf lw_max].
    by rewrite take_app_take, <- app_assoc.
Qed.

(** Sanitised names have capital letters, digits and underscores only. *)
Definition upper_byte (c : Z) : bool := in_range 65 90 c || in_range 48 57 c || (c =? 95).

Lemma sanitize_upper l : forall skip, Forall (fun c => upper_byte c = true) (sanitize skip l).
Proof.
  induction l as [|c l IH]; intros [|skip]; cbn [sanitize]; [constructor..| |apply IH].
  destruct (word_byte c) eqn:Ew; constructor; auto.
  unfold word_byte, to_upper, upper_byte in *. destruct (in_range 97 122 c) eqn:El; unfold in_range in *; lia.
Qed.

Lemma upper_byte_ok c : upper_byte c = true -> byte_ok c /\ c <> 61.
Proof. unfold upper_byte, in_range, byte_ok. lia. Qed.

Lemma bytes_sanitizeParamName name : bytes_of_string (sanitizeParamName name) = sanitize 0 (bytes_of_string name).
Proof.
  apply bytes_of_string_of_bytes. eapply Forall_impl; [apply sanitize_upper|]. intros c Hc. apply upper_byte_ok, Hc.
Qed.

Lemma cut_app c a b : c ∉ a -> cut c (a ++ c :: b) = Some (a, b).
Proof.
  induction a as [|x a IH]; intros Hn; cbn.
  - by rewrite Z.eqb_refl.
  - rewrite (proj2 (Z.eqb_neq x c)) by set_solver. by rewrite IH by set_solver.
Qed.

(** The variable a process sees: the last entry with the name. *)
Definition env_value (name : string) (entry : string) : option string :=
  match cut 61 (bytes_of_string entry) with
  | Some (n, v) => if decide (n = bytes_of_string name) then Some (string_of_bytes v) else None
  | None => None
  end.
Definition env_lookup (name : string) (env : list string) : option string := last (omap (env_value name) env).

Lemma env_value_entry name n v : 61 ∉ bytes_of_string n ->
  env_value name (env_entry n v) = if decide (n = name) then Some v else None.
Proof.
  intros Hn. unfold env_value, env_entry. rewrite !bytes_of_string_app.
  change (bytes_of_string "=") with [61]. cbn [app]. rewrite cut_app by done.
  rewrite string_of_bytes_of_string. apply decide_ext. split; [|by intros ->].
  intros E%(f_equal string_of_bytes). by rewrite !string_of_bytes_of_string in E.
Qed.

Lemma param_name_no_eq n : 61 ∉ bytes_of_string (String.append "PLEXD_PARAM_" (sanitizeParamName n)).
Proof.
  rewrite bytes_of_string_app, bytes_sanitizeParamName, elem_of_app. intros [Hc|Hc].
  - revert Hc. by_compute.
  - pose proof (sanitize_upper (bytes_of_string n) 0) as Hf. rewrite Forall_forall in Hf.
    by destruct (upper_byte_ok _ (Hf _ Hc)).
Qed.

Lemma env_value_param name p : 
  env_value name (param_entry p) =
  if decide (String.append "PLEXD_PARAM_" (sanitizeParamName p.1) = name) then Some p.2 else None.
Proof. apply env_value_entry, param_name_no_eq. Qed.

Lemma code_slash c : ascii_code c = 47 -> c = "/"%char.
Proof. intros E. rewrite <- (ascii_of_code_code c), E. reflexivity. Qed.

(** An accepted name is one component of a path, or the directory itself. *)
Lemma validateHookName_plain name : validateHookName name = true -> name = "." \/ plain name.
Proof.
  unfold validateHookName. rewrite negb_true_iff, !orb_false_iff. intros [[He Hs] Hd].
  apply bool_decide_eq_false in He. destruct (decide (name = ".")); [by left|right]. split_and!; try done.
  - unfold no_slash. apply Forall_forall. intros c Hc ->. rewrite existsb_false in Hs.
    assert (Hin : 47 ∈ bytes_of_string name) by (apply list_elem_of_fmap; by exists "/"%char).
    by specialize (Hs _ Hin).
  - intros ->. by vm_compute in Hd.
Qed.

Lemma collect_env_params name (ps : list (string * string)) :
  (forall n, name <> String.append "PLEXD_PARAM_" n) -> omap (env_value name) (param_entry <$> ps) = [].
Proof.
  intros Hn. induction ps as [|p ps IH]; [done|]. cbn. rewrite env_value_param.
  rewrite decide_False by (intros E; by apply (Hn (sanitizeParamName p.1))). done.
Qed.

Lemma runHook_starts `{MapOrder} cfg getenv rf now nodeID req ds run p env c :
  (runHook cfg getenv rf now nodeID req ds run).2 = Some (p, env, c) <->
  validateHookName (areq_Action req) = true /\ rf = ReadOk /\
  p = Join (ac_HooksDir cfg) (areq_Action req) /\
  (p = ac_HooksDir cfg \/ p = ac_HooksDir cfg ++ [areq_Action req]) /\
  env = buildHookEnv getenv nodeID req /\
  (is_Some (d_files (hd_stat ds) !! p) \/ p ∈ d_dirs (hd_stat ds)) /\
  (exists b, d_files (hd_verify ds) !! p = Some b /\ areq_Checksum req = hex_EncodeToString (sha256 b)) /\
  (exists pr, run (hd_start ds) p env = Ended pr) /\ c = d_files (hd_start ds) !! p.
Proof.
  unfold runHook. destruct (validateHookName _) eqn:Ev; cbn [negb]; [|by split; [|intros []]].
  set (hp := Join _ _).
  assert (Hhp : hp = ac_HooksDir cfg \/ hp = ac_HooksDir cfg ++ [areq_Action req]).
  { destruct (validateHookName_plain _ Ev) as [E|Hp]; [left|right; by apply Join_plain].
    subst hp. by rewrite E. }
  case_decide as Hf.
  { split; [done|]. intros (_ & _ & -> & _ & _ & Hs & _). destruct Hf as [Hf1 Hf2]. rewrite Hf1 in Hs.
    by destruct Hs as [[? ?]|?]. }
  assert (Hst : is_Some (d_files (hd_stat ds) !! hp) \/ hp ∈ d_dirs (hd_stat ds)).
  { destruct (d_files (hd_stat ds) !! hp) eqn:E; [left; by eexists|right]. by destruct (decide (hp ∈ d_dirs (hd_stat ds))); [|destruct Hf]. }
  pose proof (VerifyHook_facts rf now nodeID hp (areq_Checksum req) (hd_verify ds)) as Hv.
  destruct (VerifyHook _ _ _ _ _ _) as [[[|]|e] rs]; cbn [snd].
  - destruct Hv as [Hv _]. destruct (Hv eq_refl) as (-> & _ & b & Hb & Hc). split.
    + destruct (run _ _ _) eqn:Er; [done|]. intros [= <- <- <-]. split_and!; eauto.
    + intros (_ & _ & -> & _ & -> & _ & _ & [pr ->] & ->). done.
  - split; [done|]. intros (_ & -> & -> & _ & _ & _ & (b & Hb & Hc) & _).
    destruct Hv as [_ Hv]. specialize (Hv (conj eq_refl (ex_intro _ b (conj Hb Hc)))). done.
  - split; [done|]. intros (_ & -> & -> & _ & _ & _ & (b & Hb & Hc) & _).
    destruct Hv as [_ Hv]. specialize (Hv (conj eq_refl (ex_intro _ b (conj Hb Hc)))). done.
Qed.

(** A file that does not change. *)
Definition still (d : disk) : hook_disks := mkDisks d d d.

Lemma runHook_starts_file `{MapOrder} cfg getenv now nodeID req d run p b pr :
  validateHookName (areq_Action req) = true -> Join (ac_HooksDir cfg) (areq_Action req) = p ->
  d_files d !! p = Some b -> areq_Checksum req = hex_EncodeToString (sha256 b) ->
  run d p (buildHookEnv getenv nodeID req) = Ended pr ->
  (runHook cfg getenv ReadOk now nodeID req (still d) run).2 = Some (p, buildHookEnv getenv nodeID req, Some b).
Proof.
  intros Hv Hj Hb Hc Hr. apply runHook_starts. cbn [hd_stat hd_verify hd_start still]. split_and!; eauto.
  destruct (validateHookName_plain _ Hv) as [E|Hp]; [left; by rewrite <- Hj, E|right; by rewrite <- Hj, Join_plain].
Qed.

(** ** Theorems *)

(** The reported output is all that was written when that is shorter than the
    limit, and otherwise its first bytes up to the limit with a mark, however
    the writes are cut. *)
Theorem captured_output max ws : 0 <= max ->
  collectOutput (foldl Write_ (newLimitedWriter max) ws) =
  string_of_bytes (if decide (Z.of_nat (length (mjoin ws)) < max) then mjoin ws
                   else take (Z.to_nat max) (mjoin ws) ++ truncationSuffix).
Proof.
  intros H0. rewrite foldl_Write by done. unfold collectOutput, truncated. cbn [lw_buf lw_max newLimitedWriter app].
  rewrite length_take. f_equal. case_decide.
  - rewrite bool_decide_eq_false_2 by lia. by rewrite take_ge by lia.
  - by rewrite bool_decide_eq_true_2 by lia.
Qed.

(** Parameters of a request do not reach the other variables of a hook: the
    process sees the node's own PATH and HOME and the right node and execution
    ids, whatever the names and values of the parameters. *)
Theorem hook_env_protected `{MapOrder} getenv nodeID req :
  let env := buildHookEnv getenv nodeID req in
  env_lookup "PATH" env = Some (getenv "PATH") /\ env_lookup "HOME" env = Some (getenv "HOME") /\
  env_lookup "PLEXD_NODE_ID" env = Some nodeID /\
  env_lookup "PLEXD_EXECUTION_ID" env = Some (areq_ExecutionID req).
Proof.
  unfold env_lookup, buildHookEnv. cbn [app].
  split_and!; cbn [omap list_omap]; rewrite !env_value_entry by by_compute;
    repeat (rewrite decide_True by done || rewrite decide_False by done);
    by rewrite collect_env_params by (intros n; discriminate).
Qed.

(** The value a parameter has for the hook, when no other parameter has the
    same sanitised name. *)
Lemma hook_env_param `{MapOrder} getenv nodeID req k v :
  areq_Parameters req !! k = Some v ->
  (forall k' v', areq_Parameters req !! k' = Some v' -> sanitizeParamName k' = sanitizeParamName k -> v' = v) ->
  env_lookup (String.append "PLEXD_PARAM_" (sanitizeParamName k)) (buildHookEnv getenv nodeID req) = Some v.
Proof.
  intros Hk Hu. unfold env_lookup, buildHookEnv. rewrite omap_app.
  match goal with |- last (?a ++ ?b) = _ => set (l := b); assert (Hl : forall x, x ∈ l -> x = v) end.
  { intros x (e & He & Hx)%list_elem_of_omap. apply list_elem_of_fmap in He as ([k' v'] & -> & Hin).
    rewrite env_value_param in Hx. case_decide as E; [|done]. injection Hx as <-.
    apply (Hu k'); [by apply elem_of_range_map|]. cbn in E. by injection E. }
  assert (Hin : v ∈ l).
  { apply list_elem_of_omap. exists (param_entry (k, v)). split.
    - apply list_elem_of_fmap. exists (k, v). split; [done|]. by apply elem_of_range_map.
    - rewrite env_value_param. by rewrite decide_True. }
  rewrite last_app. destruct (last l) as [x|] eqn:El.
  - f_equal. apply Hl. by apply last_Some_elem_of in El.
  - apply last_None in El. rewrite El in Hin. by apply not_elem_of_nil in Hin.
Qed.

(** C34. When a hook process is started: the name in the request is not empty
    and has no slash, no backslash and no two dots in a row; the path, which is
    the hooks directory with this name, or the directory itself for the name
    ".", exists; when the hook is verified, the file can be read and the request
    carries the SHA-256 of its content; and the operating system starts the
    file, which it does not for one that is not executable or when the context
    has ended.  Then the process is started with that path and the hook's
    environment, and in no other case is one started.  If the file is not changed
    between the verification and the start, what runs has the checksum of the
    request; nothing prevents a change: [swapped_hook_runs]. *)
Theorem runHook_starts_verified `{MapOrder} cfg getenv rf now nodeID req ds run p env c :
  ((runHook cfg getenv rf now nodeID req ds run).2 = Some (p, env, c) <->
   validateHookName (areq_Action req) = true /\ rf = ReadOk /\
   p = Join (ac_HooksDir cfg) (areq_Action req) /\
   (p = ac_HooksDir cfg \/ p = ac_HooksDir cfg ++ [areq_Action req]) /\
   env = buildHookEnv getenv nodeID req /\
   (is_Some (d_files (hd_stat ds) !! p) \/ p ∈ d_dirs (hd_stat ds)) /\
   (exists b, d_files (hd_verify ds) !! p = Some b /\ areq_Checksum req = hex_EncodeToString (sha256 b)) /\
   (exists pr, run (hd_start ds) p env = Ended pr) /\ c = d_files (hd_start ds) !! p) /\
  ((runHook cfg getenv rf now nodeID req ds run).2 = Some (p, env, c) ->
   d_files (hd_start ds) !! p = d_files (hd_verify ds) !! p ->
   exists b, c = Some b /\ areq_Checksum req = hex_EncodeToString (sha256 b)).
Proof.
  split; [apply runHook_starts|].
  intros (_ & _ & _ & _ & _ & _ & (b & Hb & Hc) & _ & ->)%runHook_starts E. exists b. by rewrite E.
Qed.

Lemma discover_entry_Some `{Codec hookMetadata} mode rf dir d name h :
  discover_entry mode rf dir d name = Some h ->
  hi_Name h = name /\ HasSuffix name ".json" = false /\
  (exists perm, mode name = Some perm /\ Z.land perm 0x49 <> 0) /\ rf (dir ++ [name]) = ReadOk /\
  exists b, d_files d !! (dir ++ [name]) = Some b /\ hi_Checksum h = hex_EncodeToString (sha256 b).
Proof.
  unfold discover_entry. destruct (HasSuffix name ".json"); [done|]. destruct (mode name) as [perm|]; [|done].
  case_decide; [done|]. destruct (HashFile _ _ _) as [c|e] eqn:Eh; [|done].
  apply HashFile_Ok in Eh as (Hrf & b & Hb & ->). intros [= <-].
  destruct (read_sidecar _ _ _); cbn; split_and!; eauto.
Qed.

(** Discovery lists the executable files of the directory, sorted by name and
    with their checksums, and leaves out sidecar files, files without an
    execute bit and files that cannot be read. *)
Theorem DiscoverHooks_spec `{Codec hookMetadata} mode rf dir d hooks :
  DiscoverHooks mode rf false (Some dir) d = Some hooks -> dir ∈ d_dirs d ->
  Sorted name_le (hi_Name <$> hooks) /\ NoDup (hi_Name <$> hooks) /\
  (forall h, h ∈ hooks -> exists b perm,
     d_files d !! (dir ++ [hi_Name h]) = Some b /\ hi_Checksum h = hex_EncodeToString (sha256 b) /\
     mode (hi_Name h) = Some perm /\ Z.land perm 0x49 <> 0 /\ HasSuffix (hi_Name h) ".json" = false) /\
  (forall n b perm, d_files d !! (dir ++ [n]) = Some b -> rf (dir ++ [n]) = ReadOk ->
     mode n = Some perm -> Z.land perm 0x49 <> 0 -> HasSuffix n ".json" = false ->
     exists h, h ∈ hooks /\ hi_Name h = n).
Proof.
  unfold DiscoverHooks. intros E Hd. rewrite decide_False in E by (by intros []).
  case_bool_decide; [done|]. injection E as <-.
  set (l := omap _ _).
  assert (Hin : forall h, h ∈ merge_sort hook_le l <->
    exists n, is_Some (d_files d !! (dir ++ [n])) /\ discover_entry mode rf dir d n = Some h).
  { intros h. rewrite merge_sort_Permutation. subst l. rewrite list_elem_of_omap.
    by setoid_rewrite elem_of_ReadDir. }
  split_and!.
  - assert (Hs : Sorted hook_le (merge_sort hook_le l)).
    { apply Sorted_merge_sort. intros a b. unfold hook_le, name_le. destruct (String.leb_total (hi_Name a) (hi_Name b)); auto. }
    clear Hin. induction Hs as [|x k Hk IH Hx]; cbn; [constructor|].
    constructor; [done|]. destruct Hx; cbn; by constructor.
  - rewrite merge_sort_Permutation. subst l. generalize (NoDup_ReadDir dir d).
    generalize (ReadDir dir d). intros ns Hns. induction Hns as [|n ns Hn Hns IH]; cbn; [constructor|].
    destruct (discover_entry mode rf dir d n) as [h|] eqn:Eh; [|done]. cbn. constructor; [|done].
    intros (h' & E & (n' & Hn' & Eh')%list_elem_of_omap)%list_elem_of_fmap.
    apply discover_entry_Some in Eh as (E1 & _). apply discover_entry_Some in Eh' as (E2 & _). congruence.
  - intros h (n & _ & (Hn & Hs & (perm & ? & ?) & _ & b & ? & ?)%discover_entry_Some)%Hin. subst n. eauto 10.
  - intros n b perm Hb Hr Hm Hp Hs.
    assert (exists h, discover_entry mode rf dir d n = Some h) as [h Hh].
    { unfold discover_entry. rewrite Hs, Hm, decide_False by done.
      assert (HashFile (rf (dir ++ [n])) (dir ++ [n]) d = Ok (hex_EncodeToString (sha256 b))) as -> by
        (apply HashFile_Ok; eauto). eauto. }
    exists h. split; [apply Hin; eauto|]. by apply discover_entry_Some in Hh as [? _].
Qed.

(** A hook that discovery lists is started by a request that names it and
    carries the listed checksum, as long as its file is unchanged and the
    operating system starts it. *)
Theorem discovered_hook_starts `{MapOrder} `{Codec hookMetadata} mode rf cfg d hooks h getenv now nodeID req run pr :
  DiscoverHooks mode rf false (Some (ac_HooksDir cfg)) d = Some hooks -> ac_HooksDir cfg ∈ d_dirs d -> h ∈ hooks ->
  areq_Action req = hi_Name h -> areq_Checksum req = hi_Checksum h ->
  validateHookName (hi_Name h) = true -> hi_Name h <> "." ->
  run d (ac_HooksDir cfg ++ [hi_Name h]) (buildHookEnv getenv nodeID req) = Ended pr ->
  exists b, (runHook cfg getenv ReadOk now nodeID req (still d) run).2 =
    Some (ac_HooksDir cfg ++ [hi_Name h], buildHookEnv getenv nodeID req, Some b).
Proof.
  intros E Hd Hh Ha Hc Hv Hdot Hr.
  unfold DiscoverHooks in E. rewrite decide_False in E by (by intros []).
  case_bool_decide; [done|]. injection E as <-. rewrite merge_sort_Permutation in Hh.
  apply list_elem_of_omap in Hh as (n & _ & (Hn & _ & _ & _ & b & Hb & Hcs)%discover_entry_Some). subst n.
  exists b. apply (runHook_starts_file _ _ _ _ _ _ _ _ b pr); rewrite ?Ha; [done| |done|by rewrite Hc|done].
  destruct (validateHookName_plain _ Hv) as [?|Hp]; [done|]. by apply Join_plain.
Qed.

(** ** Surprises *)

(** Output of exactly the limit is complete and marked as truncated. *)
Lemma full_output_marked b : 
  collectOutput (foldl Write_ (newLimitedWriter (Z.of_nat (length b))) [b]) = string_of_bytes (b ++ truncationSuffix).
Proof.
  rewrite foldl_Write by (cbn; lia). unfold collectOutput, truncated. cbn [lw_buf lw_max newLimitedWriter app mjoin list_join].
  rewrite app_nil_r, Nat2Z.id, (take_ge b) by lia. by rewrite bool_decide_eq_true_2 by lia.
Qed.

(** Two parameters with the same sanitised name: which value the hook gets
    depends on the iteration order of the map. *)
Lemma params_collide :
  let req := mkActionRequest "e1" "hook" {[ "a-b" := "1"; "a_b" := "2" ]} "" "" None in
  env_lookup "PLEXD_PARAM_A_B" (buildHookEnv (H := id_order) (fun _ => "") "n1" req) <>
  env_lookup "PLEXD_PARAM_A_B" (buildHookEnv (H := rev_order) (fun _ => "") "n1" req).
Proof. vm_compute. discriminate. Qed.

(** ** Witnesses *)

Import SimCodec.

#[global] Instance ActionParam_countable : Countable ActionParam.
Proof.
  refine (inj_countable' (fun e => (ap_Name e, ap_Type e, ap_Required e, ap_Description e))
    (fun '(a, b, c, d) => mkActionParam a b c d) _). by intros [].
Defined.
#[global] Instance hookMetadata_eq_dec : EqDecision hookMetadata.
Proof. solve_decision. Defined.
#[global] Instance hookMetadata_countable : Countable hookMetadata.
Proof.
  refine (inj_countable' (fun e => (hm_Description e, hm_Parameters e, hm_Timeout e, hm_Sandbox e))
    (fun '(a, b, c, d) => mkMetadata a b c d) _). by intros [].
Defined.

Definition ex_hooks : path := ["etc"; "plexd"; "hooks"].
Definition ex_disk : disk :=
  mkDisk {[ ex_hooks ++ ["backup"] := bytes_of_string "abc"; ex_hooks ++ ["backup.json"] := [];
            ex_hooks ++ ["a..b"] := bytes_of_string "abc"; ex_hooks ++ ["notes"] := [] ]}
    {[ []; ["etc"]; ["etc"; "plexd"]; ex_hooks ]}.
Definition ex_mode (n : string) : option Z := if decide (n = "notes") then Some 420 else Some 493.
Definition ex_found : list HookInfo :=
  default [] (DiscoverHooks ex_mode (fun _ => ReadOk) false (Some ex_hooks) ex_disk).
Definition ex_config : Config := ApplyDefaults (mkConfig true ex_hooks 0 0 0).
Definition ex_abc : string := "ba7816bf8f01cfea414140de5dae2223b00361a396177a9cb410ff61f20015ad".
Definition ex_req : ActionRequest := mkActionRequest "e1" "backup" {[ "target" := "db" ]} "30s" ex_abc None.
Definition ex_run : disk -> path -> list string -> command :=
  fun _ _ _ => Ended (mkProcess [bytes_of_string "ok"] [] None).

Lemma captured_output_witness :
  collectOutput (foldl Write_ (newLimitedWriter 4) [bytes_of_string "abc"; bytes_of_string "def"]) =
  string_of_bytes (bytes_of_string "abcd" ++ truncationSuffix).
Proof. rewrite (captured_output 4) by lia. reflexivity. Defined.

Lemma DiscoverHooks_spec_witness :
  Sorted name_le (hi_Name <$> ex_found) /\ (hi_Name <$> ex_found) = ["a..b"; "backup"].
Proof.
  split; [|vm_compute; reflexivity].
  refine (proj1 (DiscoverHooks_spec ex_mode (fun _ => ReadOk) ex_hooks ex_disk ex_found _ _)).
  - vm_compute. reflexivity.
  - by_compute.
Defined.

Lemma discovered_hook_starts_witness :
  exists b, (runHook (H := id_order) ex_config (fun _ => "") ReadOk 0 "n1" ex_req (still ex_disk) ex_run).2
  = Some (ex_hooks ++ ["backup"], buildHookEnv (H := id_order) (fun _ => "") "n1" ex_req, Some b).
Proof.
  refine (discovered_hook_starts (H := id_order) ex_mode (fun _ => ReadOk) ex_config ex_disk ex_found
    (mkHookInfo "backup" "" "local" ex_abc [] "" "") (fun _ => "") 0 "n1" ex_req ex_run
    (mkProcess [bytes_of_string "ok"] [] None) _ _ _ _ _ _ _ _).
  - vm_compute. reflexivity.
  - by_compute.
  - by_compute.
  - reflexivity.
  - reflexivity.
  - reflexivity.
  - discriminate.
  - reflexivity.
Defined.

Lemma runHook_starts_verified_witness :
  exists b, (runHook (H := id_order) ex_config (fun _ => "") ReadOk 0 "n1" ex_req (still ex_disk) ex_run).2 =
    Some (ex_hooks ++ ["backup"], buildHookEnv (H := id_order) (fun _ => "") "n1" ex_req, Some b) /\
    ex_abc = hex_EncodeToString (sha256 b).
Proof.
  destruct (runHook_starts_verified (H := id_order) ex_config (fun _ => "") ReadOk 0 "n1" ex_req (still ex_disk) ex_run
    (ex_hooks ++ ["backup"]) (buildHookEnv (H := id_order) (fun _ => "") "n1" ex_req) (Some (bytes_of_string "abc")))
    as [_ Hb].
  assert (E : (runHook (H := id_order) ex_config (fun _ => "") ReadOk 0 "n1" ex_req (still ex_disk) ex_run).2 =
    Some (ex_hooks ++ ["backup"], buildHookEnv (H := id_order) (fun _ => "") "n1" ex_req, Some (bytes_of_string "abc")))
    by (vm_compute; reflexivity).
  destruct (Hb E eq_refl) as (b & [= <-] & Hc). exists (bytes_of_string "abc"). split; [exact E|exact Hc].
Defined.

(** A file that is exchanged after the verification is started, although the
    request does not carry its checksum. *)
Lemma swapped_hook_runs :
  let d' := mkDisk (<[ex_hooks ++ ["backup"] := bytes_of_string "abd"]> (d_files ex_disk)) (d_dirs ex_disk) in
  (runHook (H := id_order) ex_config (fun _ => "") ReadOk 0 "n1" ex_req (mkDisks ex_disk ex_disk d') ex_run).2 =
    Some (ex_hooks ++ ["backup"], buildHookEnv (H := id_order) (fun _ => "") "n1" ex_req, Some (bytes_of_string "abd")) /\
  areq_Checksum ex_req <> hex_EncodeToString (sha256 (bytes_of_string "abd")).
Proof. cbv zeta. split; [vm_compute; reflexivity|]. vm_compute. discriminate. Qed.

(** A hook whose name has two dots in a row is listed but never started. *)
Lemma dotted_hook_never_starts :
  "a..b" ∈ (hi_Name <$> ex_found) /\
  forall cfg getenv rf now nodeID req ds run, areq_Action req = "a..b" ->
    (runHook (H := id_order) cfg getenv rf now nodeID req ds run).2 = None.
Proof. split; [by_compute|]. intros. unfold runHook. by rewrite H. Qed.
