(* ===== verification/Executor.v ===== *)
(** * The action executor (src/internal/actions/executor.go, handler.go)

    Requests are accepted under the executor's lock and run in goroutines; the
    step relation interleaves them with [Shutdown] and with the cancellation
    of their contexts.  What the goroutine of an action does is in
    [ActionRun]. *)

From Stdlib Require Import Ascii String.
From stdpp Require Import base strings list gmap relations.
From S2P Require Import Prelude Types Fs Integrity Duration ActionRun.

Section executor.
Context {W : Type}.

(** ** The executor *)

Record builtinEntry := mkBuiltin {
  be_fn : BuiltinFunc W;
  be_description : string;
  be_params : list ActionParam
}.

(** [active] maps an execution id to the goroutine whose cancel function is
    stored. *)
Record Executor := mkExecutor {
  x_cfg : Config;
  x_active : gmap string nat;
  x_builtins : gmap string builtinEntry;
  x_hooks : list HookInfo;
  x_shuttingDown : bool
}.

Definition NewExecutor (cfg : Config) : Executor := mkExecutor cfg ∅ ∅ [] false.

Definition set_active (a : gmap string nat) (e : Executor) : Executor :=
  mkExecutor (x_cfg e) a (x_builtins e) (x_hooks e) (x_shuttingDown e).

Definition RegisterBuiltin (name description : string) (params : list ActionParam) (fn : BuiltinFunc W)
    (e : Executor) : Executor :=
  mkExecutor (x_cfg e) (x_active e) (<[name := mkBuiltin fn description params]> (x_builtins e)) (x_hooks e)
    (x_shuttingDown e).

Definition SetHooks (hooks : list HookInfo) (e : Executor) : Executor :=
  mkExecutor (x_cfg e) (x_active e) (x_builtins e) hooks (x_shuttingDown e).

Definition Capabilities `{MapOrder} (e : Executor) : list ActionInfo * list HookInfo :=
  ((fun '(name, entry) => mkActionInfo name (be_description entry) (be_params entry)) <$> range_map (x_builtins e),
   x_hooks e).

Definition ActiveCount (e : Executor) : Z := Z.of_nat (size (x_active e)).

(** ** Goroutines *)

(** Where an accepted action is: its id is in [active]; its ack is sent; its
    goroutine is running; its result is reported; it is off [active]. *)
Inductive phase := Accepted | Acked | Running | Reported | Done.
#[global] Instance phase_eq_dec : EqDecision phase.
Proof using Type. solve_decision. Defined.

Record goroutine := mkG { g_nodeID : string; g_req : ActionRequest; g_phase : phase }.

(** What the control plane is sent.  A result is [delivered] or lost. *)
Inductive event :=
| EvAck (g : option nat) (nodeID : string) (ack : ExecutionAck)
| EvResult (g : nat) (nodeID : string) (r : ExecutionResult) (delivered : bool)
| EvViolation (v : string * IntegrityViolationReport).

(** How far [Shutdown] is; it cancels what it found in [active]. *)
Inductive shutdown_phase := NotCalled | Cancelling (gs : list nat) | Waiting | Returned.

Record state := mkState {
  s_exec : Executor;
  s_gs : list goroutine;
  s_cancelled : gset nat;
  s_wg : Z;
  s_shutdown : shutdown_phase;
  s_log : list event
}.

Definition init (cfg : Config) : state := mkState (NewExecutor cfg) [] ∅ 0 NotCalled [].

Definition emit (evs : list event) (st : state) : state :=
  mkState (s_exec st) (s_gs st) (s_cancelled st) (s_wg st) (s_shutdown st) (s_log st ++ evs).
Definition with_exec (e : Executor) (st : state) : state :=
  mkState e (s_gs st) (s_cancelled st) (s_wg st) (s_shutdown st) (s_log st).
Definition with_phase (g : nat) (x : goroutine) (p : phase) (st : state) : state :=
  mkState (s_exec st) (<[g := mkG (g_nodeID x) (g_req x) p]> (s_gs st)) (s_cancelled st) (s_wg st)
    (s_shutdown st) (s_log st).
Definition cancel (gs : gset nat) (st : state) : state :=
  mkState (s_exec st) (s_gs st) (gs ∪ s_cancelled st) (s_wg st) (s_shutdown st) (s_log st).
Definition add_wg (n : Z) (st : state) : state :=
  mkState (s_exec st) (s_gs st) (s_cancelled st) (s_wg st + n) (s_shutdown st) (s_log st).
Definition with_shutdown (p : shutdown_phase) (st : state) : state :=
  mkState (s_exec st) (s_gs st) (s_cancelled st) (s_wg st) p (s_log st).

(** ** Accepting a request *)

Definition reject (nodeID : string) (req : ActionRequest) (reason : string) (st : state) : state :=
  emit [EvAck None nodeID (mkExecutionAck (areq_ExecutionID req) "rejected" reason)] st.

Definition known (e : Executor) (action : string) : bool :=
  bool_decide (is_Some (x_builtins e !! action)) ||
  existsb (fun h => bool_decide (hi_Name h = action)) (x_hooks e).

(** [Execute] up to the release of the lock, with the rejections. *)
Definition Execute (nodeID : string) (req : ActionRequest) (st : state) : state :=
  let e := s_exec st in
  if x_shuttingDown e then reject nodeID req "shutting_down" st
  else if decide (is_Some (x_active e !! areq_ExecutionID req)) then reject nodeID req "duplicate_execution_id" st
  else if decide (Z.of_nat (size (x_active e)) >= ac_MaxConcurrent (x_cfg e)) then
    reject nodeID req "max_concurrent_reached" st
  else if negb (known e (areq_Action req)) then reject nodeID req "unknown_action" st
  else
    let g := length (s_gs st) in
    mkState (set_active (<[areq_ExecutionID req := g]> (x_active e)) e) (s_gs st ++ [mkG nodeID req Accepted])
      (s_cancelled st) (s_wg st) (s_shutdown st) (s_log st).

(** Then the ack, and then [wg.Add] and the goroutine. *)
Definition send_ack (g : nat) (x : goroutine) (st : state) : state :=
  with_phase g x Acked
    (emit [EvAck (Some g) (g_nodeID x) (mkExecutionAck (areq_ExecutionID (g_req x)) "accepted" "")] st).
Definition start (g : nat) (x : goroutine) (st : state) : state := with_phase g x Running (add_wg 1 st).

(** ** Running it *)

(** What an execution meets: the outside world, the disk and its faults, the
    process, the clock, whether the deadline would come before a cancellation
    of the context, and whether the report would reach the control plane. *)
Record call := mkCall {
  c_world : W;
  c_order : MapOrder;
  c_getenv : string -> string;
  c_disks : hook_disks;
  c_read : read_fault;
  c_run : disk -> path -> list string -> command;
  c_start : Z;
  c_end : Z;
  c_deadline_first : bool;
  c_panic : string;
  c_sent : bool
}.

Definition run_body (e : Executor) (nodeID : string) (req : ActionRequest) (c : call)
    : outcome run_result * reports :=
  match x_builtins e !! areq_Action req with
  | Some entry => (be_fn entry (c_world c) (areq_Parameters req), [])
  | None =>
      let '(r, rs, _) := runHook (H := c_order c) (x_cfg e) (c_getenv c) (c_read c) (c_start c) nodeID req
                           (c_disks c) (c_run c) in
      (Returns r, rs)
  end.

(** The result of [runAction]; a panic is recovered and reported. *)
Definition action_result (cfg : Config) (req : ActionRequest) (c : call) (cancelled : bool) (r : outcome run_result)
    : ExecutionResult :=
  match r with
  | Panics =>
      mkExecutionResult (areq_ExecutionID req) "error" 0 "" (String.append "panic: " (c_panic c)) "" (c_end c)
        (areq_TriggeredBy req)
  | Returns r =>
      let parentCtx := if cancelled then Some Canceled else None in
      let expired := bool_decide (c_start c + action_timeout cfg req <= c_end c) in
      let timeoutCtx := if expired && (c_deadline_first c || negb cancelled) then Some DeadlineExceeded
                        else parentCtx in
      mkExecutionResult (areq_ExecutionID req) (determineStatus (rr_err r) (rr_exitCode r) timeoutCtx parentCtx)
        (rr_exitCode r) (rr_stdout r) (rr_stderr r) (Duration_String (time_sub (c_end c) (c_start c))) (c_end c)
        (areq_TriggeredBy req)
  end.

(** [runAction] up to its deferred calls.  A request with a cancelled context
    is not sent. *)
Definition runAction (g : nat) (x : goroutine) (c : call) (st : state) : state :=
  let cancelled := bool_decide (g ∈ s_cancelled st) in
  let '(r, rs) := run_body (s_exec st) (g_nodeID x) (g_req x) c in
  with_phase g x Reported
    (emit ((EvViolation <$> rs) ++
           [EvResult g (g_nodeID x) (action_result (x_cfg (s_exec st)) (g_req x) c cancelled r) (c_sent c && negb cancelled)]) st).

(** The deferred calls: cancel, off [active], [wg.Done]. *)
Definition finish (g : nat) (x : goroutine) (st : state) : state :=
  let st := with_phase g x Done (add_wg (-1) (cancel {[ g ]} st)) in
  with_exec (set_active (delete (areq_ExecutionID (g_req x)) (x_active (s_exec st))) (s_exec st)) st.

(** ** Shutdown *)

Definition shutdown_begin `{MapOrder} (st : state) : state :=
  let e := s_exec st in
  with_shutdown (Cancelling (snd <$> range_map (x_active e)))
    (with_exec (mkExecutor (x_cfg e) (x_active e) (x_builtins e) (x_hooks e) true) st).
Definition shutdown_cancel (gs : list nat) (st : state) : state :=
  with_shutdown Waiting (cancel (list_to_set gs) st).

(** ** The handler *)

Inductive handler_error := ParseFailed | MissingExecutionID.

Definition HandleActionRequest (nodeID : string) (payload : option ActionRequest) (st : state)
    : option handler_error * state :=
  match payload with
  | None => (Some ParseFailed, st)
  | Some req =>
      if decide (areq_ExecutionID req = "") then (Some MissingExecutionID, st)
      else if negb (ac_Enabled (x_cfg (s_exec st))) then (None, reject nodeID req "actions_disabled" st)
      else (None, Execute nodeID req st)
  end.

(** ** Steps *)

Inductive step : state -> state -> Prop :=
| step_register name desc params fn st : step st (with_exec (RegisterBuiltin name desc params fn (s_exec st)) st)
| step_hooks hooks st : step st (with_exec (SetHooks hooks (s_exec st)) st)
| step_request nodeID payload st : step st (HandleActionRequest nodeID payload st).2
| step_ack g x st : s_gs st !! g = Some x -> g_phase x = Accepted -> step st (send_ack g x st)
| step_start g x st : s_gs st !! g = Some x -> g_phase x = Acked -> step st (start g x st)
| step_run g x c st : s_gs st !! g = Some x -> g_phase x = Running -> step st (runAction g x c st)
| step_finish g x st : s_gs st !! g = Some x -> g_phase x = Reported -> step st (finish g x st)
| step_ctx g st : step st (cancel {[ g ]} st)
| step_shutdown `{MapOrder} st : s_shutdown st = NotCalled -> step st (shutdown_begin st)
| step_cancel gs st : s_shutdown st = Cancelling gs -> step st (shutdown_cancel gs st)
| step_wait st : s_shutdown st = Waiting -> s_wg st = 0 -> step st (with_shutdown Returned st).

Definition reachable (cfg : Config) : state -> Prop := rtc step (init cfg).

(** ** The invariant *)

Definition in_wg (p : phase) : bool := match p with Running | Reported => true | _ => false end.
Definition acked (p : phase) : bool := match p with Accepted => false | _ => true end.
Definition reported (p : phase) : bool := match p with Reported | Done => true | _ => false end.

Definition is_result (g : nat) (ev : event) : bool :=
  match ev with EvResult h _ _ _ => bool_decide (h = g) | _ => false end.
Definition is_accept (g : nat) (ev : event) : bool :=
  match ev with EvAck (Some h) _ _ => bool_decide (h = g) | _ => false end.

Fixpoint count {A} (f : A -> bool) (l : list A) : Z :=
  match l with [] => 0 | x :: l => Z.b2z (f x) + count f l end.

Definition phase_at (st : state) (g : nat) : option phase := g_phase <$> s_gs st !! g.
Definition expect (f : phase -> bool) (p : option phase) : Z :=
  match p with Some p => Z.b2z (f p) | None => 0 end.

Definition unfinished (st : state) (g : nat) : Prop := exists p, phase_at st g = Some p /\ p <> Done.

Record inv (cfg : Config) (st : state) : Prop := mkInv {
  iv_cfg : x_cfg (s_exec st) = cfg;
  iv_active : forall id g, x_active (s_exec st) !! id = Some g <->
    exists x, s_gs st !! g = Some x /\ areq_ExecutionID (g_req x) = id /\ g_phase x <> Done;
  iv_bound : Z.of_nat (size (x_active (s_exec st))) <= Z.max 0 (ac_MaxConcurrent cfg);
  iv_wg : s_wg st = count (fun x => in_wg (g_phase x)) (s_gs st);
  iv_results : forall g, count (is_result g) (s_log st) = expect reported (phase_at st g);
  iv_acks : forall g, count (is_accept g) (s_log st) = expect acked (phase_at st g);
  iv_delivered : forall g n r, EvResult g n r true ∈ s_log st -> eres_Status r <> "cancelled";
  iv_down : match s_shutdown st with
            | NotCalled => True
            | Cancelling gs => x_shuttingDown (s_exec st) = true /\ forall g, unfinished st g -> g ∈ gs
            | _ => x_shuttingDown (s_exec st) = true /\ forall g, unfinished st g -> g ∈ s_cancelled st
            end
}.

Lemma count_app {A} (f : A -> bool) l k : count f (l ++ k) = count f l + count f k.
Proof using Type. induction l as [|x l IH]; cbn; [done|]. lia. Qed.

Lemma count_insert {A} (f : A -> bool) l i x y :
  l !! i = Some x -> count f (<[i := y]> l) = count f l - Z.b2z (f x) + Z.b2z (f y).
Proof using Type.
  revert i. induction l as [|z l IH]; intros [|i] Hi; try done.
  - injection Hi as ->. change (<[0%nat := y]> (x :: l)) with (y :: l). cbn [count]. lia.
  - change (<[S i := y]> (z :: l)) with (z :: <[i := y]> l). cbn [count]. rewrite (IH i) by done. lia.
Qed.

Lemma count_nonneg {A} (f : A -> bool) l : 0 <= count f l.
Proof using Type. induction l as [|x l IH]; cbn; [done|]. destruct (f x); cbn; lia. Qed.

Lemma count_violations f (vs : reports) :
  (forall v, f (EvViolation v) = false) -> count f (EvViolation <$> vs) = 0.
Proof using Type. intros Hf. induction vs as [|v vs IH]; cbn; [done|]. rewrite Hf. cbn. lia. Qed.

Lemma phase_at_insert st st' g n req p h : is_Some (s_gs st !! g) ->
  s_gs st' = <[g := mkG n req p]> (s_gs st) ->
  phase_at st' h = if decide (h = g) then Some p else phase_at st h.
Proof using Type.
  intros [x Hx] E. unfold phase_at. rewrite E. case_decide as Hh.
  - subst. rewrite list_lookup_insert_eq; [done|]. by eapply lookup_lt_Some.
  - by rewrite list_lookup_insert_ne.
Qed.

(** A goroutine moves to its next phase. *)
Lemma advance_inv cfg st st' g x p evs :
  inv cfg st -> s_gs st !! g = Some x -> g_phase x <> Done ->
  s_gs st' = <[g := mkG (g_nodeID x) (g_req x) p]> (s_gs st) -> s_log st' = s_log st ++ evs ->
  x_cfg (s_exec st') = cfg -> x_shuttingDown (s_exec st') = x_shuttingDown (s_exec st) ->
  s_shutdown st' = s_shutdown st -> s_cancelled st ⊆ s_cancelled st' ->
  s_wg st' = s_wg st - Z.b2z (in_wg (g_phase x)) + Z.b2z (in_wg p) ->
  x_active (s_exec st') =
    (if decide (p = Done) then delete (areq_ExecutionID (g_req x)) (x_active (s_exec st)) else x_active (s_exec st)) ->
  (forall h, count (is_result h) evs =
     if decide (h = g) then Z.b2z (reported p) - Z.b2z (reported (g_phase x)) else 0) ->
  (forall h, count (is_accept h) evs =
     if decide (h = g) then Z.b2z (acked p) - Z.b2z (acked (g_phase x)) else 0) ->
  (forall h n r, EvResult h n r true ∈ evs -> eres_Status r <> "cancelled") ->
  inv cfg st'.
Proof using Type.
  intros [Ic Ia Ib Iw Ir Ik Id Is] Hg Hnd Egs Elog Ecfg Esh Eshut Hcan Ewg Eact Hr Ha Hdel.
  assert (Hph : forall h, phase_at st' h = if decide (h = g) then Some p else phase_at st h)
    by (intros h; by eapply phase_at_insert).
  assert (Hpg : phase_at st g = Some (g_phase x)) by (unfold phase_at; by rewrite Hg).
  assert (Hlt : (g < length (s_gs st))%nat) by by eapply lookup_lt_Some.
  assert (Hun : forall h, unfinished st' h -> unfinished st h).
  { intros h (q & Hq & Hqd). rewrite Hph in Hq. case_decide; [subst h; by exists (g_phase x)|by exists q]. }
  assert (Hxa : x_active (s_exec st) !! areq_ExecutionID (g_req x) = Some g) by (apply Ia; eauto).
  split.
  - done.
  - intros id h. rewrite Eact, Egs. case_decide as Hp.
    + rewrite lookup_delete_Some, Ia. split.
      * intros (Hne & y & Hy & Hid & Hyd). exists y. rewrite list_lookup_insert_ne; [done|]. intros ->. congruence.
      * intros (y & Hy & Hid & Hyd). destruct (decide (h = g)) as [->|Hne].
        { rewrite list_lookup_insert_eq in Hy by done. injection Hy as <-. by rewrite Hp in Hyd. }
        rewrite list_lookup_insert_ne in Hy by done. split; [|eauto]. intros E.
        assert (x_active (s_exec st) !! id = Some h) by (apply Ia; eauto). congruence.
    + rewrite Ia. destruct (decide (h = g)) as [->|Hne]; [|by rewrite list_lookup_insert_ne].
      rewrite list_lookup_insert_eq by done. split.
      * intros (y & Hy & Hid & _). eexists. split; [done|]. cbn. by replace x with y by congruence.
      * intros (y & [= <-] & Hid & _). eauto.
  - rewrite Eact. case_decide; [|done]. rewrite map_size_delete_Some by (by rewrite Hxa). lia.
  - rewrite Ewg, Egs, Iw. symmetry. apply (count_insert (fun x => in_wg (g_phase x)) _ _ x). done.
  - intros h. rewrite Elog, count_app, Ir, Hr, Hph. destruct (decide (h = g)) as [->|]; [rewrite Hpg; cbn; lia|lia].
  - intros h. rewrite Elog, count_app, Ik, Ha, Hph. destruct (decide (h = g)) as [->|]; [rewrite Hpg; cbn; lia|lia].
  - intros h n r. rewrite Elog, elem_of_app. intros [?|?]; eauto.
  - rewrite Eshut, Esh. destruct (s_shutdown st); try done; (destruct Is as [Is1 Is2]; split; [done|]); auto.
Qed.

Lemma action_result_status cfg req c r : eres_Status (action_result cfg req c false r) <> "cancelled".
Proof using Type.
  destruct r as [r|]; [|done]. cbn. unfold determineStatus. destruct (rr_err r) as [[?|?]|]; [..|by case_decide];
    case_decide; try done; case_decide; done.
Qed.

(** The status "timeout" is only given after the timeout of the request, which
    the configuration bounds. *)
Lemma timeout_after_deadline cfg req c cancelled r :
  eres_Status (action_result cfg req c cancelled r) = "timeout" ->
  c_start c + action_timeout cfg req <= c_end c /\ action_timeout cfg req <= ac_MaxActionTimeout cfg.
Proof using Type.
  intros E. split.
  - destruct r as [r|]; [|done]. cbn in E. unfold determineStatus in E.
    destruct (bool_decide _) eqn:Eb; [by apply bool_decide_eq_true in Eb|]. cbn [andb] in E.
    destruct (rr_err r) as [e|]; [|by case_decide]. destruct cancelled; [done|]. by destruct e.
  - unfold action_timeout. case_decide; [lia|]. destruct (ParseDuration _); lia.
Qed.

(** A rejection changes nothing but the log. *)
Lemma reject_inv cfg nodeID req reason st : inv cfg st -> inv cfg (reject nodeID req reason st).
Proof using Type.
  intros [Ic Ia Ib Iw Ir Ik Id Is]. split; try done.
  - intros g. cbn. rewrite count_app. cbn. rewrite Z.add_0_r. apply Ir.
  - intros g. cbn. rewrite count_app. cbn. rewrite Z.add_0_r. apply Ik.
  - intros g n r. cbn. rewrite elem_of_app, list_elem_of_singleton. intros [?|?]; [eauto|done].
Qed.

Lemma Execute_inv cfg nodeID req st : inv cfg st -> inv cfg (Execute nodeID req st).
Proof using Type.
  intros Hi. unfold Execute. destruct (x_shuttingDown _) eqn:Esh; [by apply reject_inv|].
  case_decide as Hdup; [by apply reject_inv|]. case_decide as Hsz; [by apply reject_inv|].
  destruct (known _ _); [|by apply reject_inv]. cbn [negb].
  destruct Hi as [Ic Ia Ib Iw Ir Ik Id Is]. apply eq_None_not_Some in Hdup.
  set (g := length (s_gs st)). set (st' := mkState _ _ _ _ _ _).
  assert (Hnew : s_gs st !! g = None) by (apply lookup_ge_None; lia).
  assert (Hph : forall h, phase_at st' h = if decide (h = g) then Some Accepted else phase_at st h).
  { intros h. unfold phase_at. subst st'. cbn. case_decide as Hh.
    - subst h. by rewrite lookup_app_r, Nat.sub_diag by lia.
    - destruct (decide (h < g)%nat); [by rewrite lookup_app_l|].
      rewrite !lookup_ge_None_2; [done|lia|rewrite length_app; cbn; lia]. }
  split; cbn.
  - done.
  - intros id h. rewrite lookup_insert_Some, Ia. setoid_rewrite lookup_app_Some. split.
    + intros [[<- <-]|[Hne (x & Hx & ?)]]; [|eauto].
      eexists. split; [right; split; [lia|by rewrite Nat.sub_diag]|done].
    + intros (x & [Hx|[Hle Hx]] & Hid & Hd).
      * right. split; [|eauto]. intros E. assert (x_active (s_exec st) !! id = Some h) by (apply Ia; eauto). congruence.
      * apply list_lookup_singleton_Some in Hx as [Hx <-]. left. split; [done|]. lia.
  - rewrite map_size_insert_None by done. rewrite Ic in Hsz. lia.
  - rewrite count_app, Iw. cbn. lia.
  - intros h. rewrite Ir, Hph. case_decide as Hh; [|done]. subst h. unfold phase_at. by rewrite Hnew.
  - intros h. rewrite Ik, Hph. case_decide as Hh; [|done]. subst h. unfold phase_at. by rewrite Hnew.
  - done.
  - destruct (s_shutdown st); [done|..]; destruct Is as [Is _]; congruence.
Qed.

Lemma HandleActionRequest_inv cfg nodeID payload st :
  inv cfg st -> inv cfg (HandleActionRequest nodeID payload st).2.
Proof using Type.
  intros Hi. destruct payload as [req|]; [|done]. cbn. case_decide; [done|].
  destruct (ac_Enabled _); cbn; auto using Execute_inv, reject_inv.
Qed.

(** A step that leaves the goroutines and the log alone. *)
Lemma quiet_inv cfg st st' :
  inv cfg st -> s_gs st' = s_gs st -> s_log st' = s_log st -> s_wg st' = s_wg st ->
  x_cfg (s_exec st') = x_cfg (s_exec st) -> x_active (s_exec st') = x_active (s_exec st) ->
  match s_shutdown st' with
   | NotCalled => True
   | Cancelling gs => x_shuttingDown (s_exec st') = true /\ forall g, unfinished st g -> g ∈ gs
   | _ => x_shuttingDown (s_exec st') = true /\ forall g, unfinished st g -> g ∈ s_cancelled st'
   end ->
  inv cfg st'.
Proof using Type.
  intros [Ic Ia Ib Iw Ir Ik Id Is] Eg El Ew Ec Ea Hs.
  assert (Hph : forall g, phase_at st' g = phase_at st g) by (intros g; unfold phase_at; by rewrite Eg).
  split; rewrite ?Ec, ?Ea, ?Ew, ?El, ?Eg; try done.
  - intros g. by rewrite Hph.
  - intros g. by rewrite Hph.
  - unfold unfinished in *. destruct (s_shutdown st'); [done|..];
      (destruct Hs as [Hs1 Hs2]; split; [done|]; intros g; rewrite Hph; apply Hs2).
Qed.

Lemma runAction_inv cfg g x c st :
  inv cfg st -> s_gs st !! g = Some x -> g_phase x = Running -> inv cfg (runAction g x c st).
Proof using Type.
  intros Hi Hg Hp. unfold runAction. destruct (run_body _ _ _ _) as [r rs].
  eapply (advance_inv cfg st _ g x Reported); try done; try (by rewrite Hp); cbn; rewrite ?Hp.
  - apply (iv_cfg _ _ Hi).
  - cbn. lia.
  - intros h. rewrite count_app, count_violations by done. cbn. repeat case_decide; repeat case_bool_decide; cbn; try done; congruence.
  - intros h. rewrite count_app, count_violations by done. cbn. by case_decide.
  - intros h n r'. rewrite elem_of_app, list_elem_of_singleton, list_elem_of_fmap. intros [(? & ? & ?)|E]; [done|].
    injection E as -> -> -> E. symmetry in E. apply andb_true_iff in E as [_ E]. apply negb_true_iff in E.
    rewrite E. apply action_result_status.
Qed.

Lemma step_executor_inv cfg st st' : step st st' -> inv cfg st -> inv cfg st'.
Proof using Type.
  destruct 1 as [name desc params fn st|hooks st|nodeID payload st|g x st Hg Hp|g x st Hg Hp|g x c st Hg Hp
    |g x st Hg Hp|g st|HO st Hs|gs st Hs|st Hs Hw]; intros Hi.
  - apply (quiet_inv cfg st); try done. apply (iv_down _ _ Hi).
  - apply (quiet_inv cfg st); try done. apply (iv_down _ _ Hi).
  - by apply HandleActionRequest_inv.
  - eapply (advance_inv cfg st _ g x Acked); try done; try (by rewrite Hp); cbn; rewrite ?Hp.
    + apply (iv_cfg _ _ Hi).
    + cbn. lia.
    + intros h. by case_decide.
    + intros h. cbn. repeat case_decide; repeat case_bool_decide; cbn; try done; congruence.
    + intros h n r Hin%list_elem_of_singleton. done.
  - eapply (advance_inv cfg st _ g x Running []); try done; try (by rewrite Hp); cbn; rewrite ?Hp.
    + by rewrite app_nil_r.
    + apply (iv_cfg _ _ Hi).
    + cbn. lia.
    + intros h. by case_decide.
    + intros h. by case_decide.
    + intros h n r Hin%not_elem_of_nil. done.
  - by apply runAction_inv.
  - eapply (advance_inv cfg st _ g x Done []); try done; try (by rewrite Hp); cbn; rewrite ?Hp.
    + by rewrite app_nil_r.
    + apply (iv_cfg _ _ Hi).
    + set_solver.
    + cbn. lia.
    + intros h. by case_decide.
    + intros h. by case_decide.
    + intros h n r Hin%not_elem_of_nil. done.
  - apply (quiet_inv cfg st); try done. pose proof (iv_down _ _ Hi) as Hd. cbn.
    destruct (s_shutdown st); try done; destruct Hd as [Hd1 Hd2]; (split; [done|]); intros h Hh; specialize (Hd2 _ Hh); set_solver.
  - apply (quiet_inv cfg st); try done. cbn. split; [done|]. intros g (p & Hp & Hd).
    unfold phase_at in Hp. destruct (s_gs st !! g) as [x|] eqn:Ex; [|done]. injection Hp as <-.
    apply list_elem_of_fmap. exists (areq_ExecutionID (g_req x), g). split; [done|].
    apply elem_of_range_map, (iv_active _ _ Hi). eauto.
  - apply (quiet_inv cfg st); try done. pose proof (iv_down _ _ Hi) as Hd. rewrite Hs in Hd. cbn.
    destruct Hd as [Hd1 Hd2]. split; [done|]. intros h Hh. specialize (Hd2 _ Hh). set_solver.
  - apply (quiet_inv cfg st); try done. pose proof (iv_down _ _ Hi) as Hd. by rewrite Hs in Hd.
Qed.

Lemma reachable_executor_inv cfg st : reachable cfg st -> inv cfg st.
Proof using Type.
  intros Hr. assert (H0 : inv cfg (init cfg)).
  { split; cbn; try done.
    - intros id g. split; [done|]. by intros (x & Hx & _).
    - rewrite map_size_empty. lia.
    - intros g n r Hin%not_elem_of_nil. done. }
  revert H0. unfold reachable in Hr. induction Hr; eauto using step_executor_inv.
Qed.

Lemma reachable_step_executor cfg st st' : reachable cfg st -> step st st' -> reachable cfg st'.
Proof using Type. intros Hr Hs. by eapply rtc_r. Qed.

(** The action [g] ends, with one result, and its id is free. *)
Definition completes (g : nat) (id : string) (st : state) : Prop :=
  exists st', rtc step st st' /\ phase_at st' g = Some Done /\ count (is_result g) (s_log st') = 1 /\
    x_active (s_exec st') !! id = None.

Lemma completes_step cfg st st' g x q :
  reachable cfg st -> s_gs st !! g = Some x -> step st st' ->
  s_gs st' = <[g := mkG (g_nodeID x) (g_req x) q]> (s_gs st) ->
  (forall st, reachable cfg st -> s_gs st !! g = Some (mkG (g_nodeID x) (g_req x) q) ->
     completes g (areq_ExecutionID (g_req x)) st) ->
  completes g (areq_ExecutionID (g_req x)) st.
Proof using Type.
  intros Hr Hg Hs E Hq. destruct (Hq st') as (st2 & H1 & H2).
  - by eapply reachable_step_executor.
  - rewrite E, list_lookup_insert_eq; [done|by eapply lookup_lt_Some].
  - exists st2. split; [by eapply rtc_l|done].
Qed.

Lemma finish_completes cfg g n req st :
  reachable cfg st -> s_gs st !! g = Some (mkG n req Reported) -> completes g (areq_ExecutionID req) st.
Proof using Type.
  intros Hr Hg. pose proof (step_finish g _ st Hg eq_refl) as Hs.
  pose proof (reachable_executor_inv _ _ (reachable_step_executor _ _ _ Hr Hs)) as Hi.
  assert (Hp : phase_at (finish g (mkG n req Reported) st) g = Some Done)
    by (unfold phase_at; cbn; rewrite list_lookup_insert_eq; [done|by eapply lookup_lt_Some]).
  eexists. split; [by apply rtc_once|]. split_and!; [done| |].
  - rewrite (iv_results _ _ Hi), Hp. done.
  - cbn. by rewrite lookup_delete_eq.
Qed.

Lemma unfinished_completes (c : call) cfg st g x :
  reachable cfg st -> s_gs st !! g = Some x -> g_phase x <> Done -> completes g (areq_ExecutionID (g_req x)) st.
Proof using Type.
  destruct x as [n req p]. cbn [g_req g_phase]. intros Hr Hg Hnd.
  assert (Hrun : forall st, reachable cfg st -> s_gs st !! g = Some (mkG n req Running) ->
    completes g (areq_ExecutionID req) st).
  { intros s Hr1 Hg1. apply (completes_step cfg s _ g _ Reported Hr1 Hg1 (step_run g _ c s Hg1 eq_refl));
      [unfold runAction; by destruct (run_body _ _ _ _)|apply finish_completes]. }
  assert (Hstart : forall st, reachable cfg st -> s_gs st !! g = Some (mkG n req Acked) ->
    completes g (areq_ExecutionID req) st).
  { intros s Hr1 Hg1. by apply (completes_step cfg s _ g _ Running Hr1 Hg1 (step_start g _ s Hg1 eq_refl)). }
  destruct p; eauto using finish_completes; [|done].
  by apply (completes_step cfg st _ g _ Acked Hr Hg (step_ack g _ st Hg eq_refl)).
Qed.

(** ** Theorems *)

(** C35. Whatever the interleaving, at most MaxConcurrent actions are unfinished,
    no two of them have the same execution id, and an accepted action gets
    one ack, after it one result and never a second of either. *)
Theorem executions_controlled cfg st :
  reachable cfg st ->
  ActiveCount (s_exec st) <= Z.max 0 (ac_MaxConcurrent cfg) /\
  (forall g h x y, s_gs st !! g = Some x -> s_gs st !! h = Some y -> g_phase x <> Done -> g_phase y <> Done ->
     areq_ExecutionID (g_req x) = areq_ExecutionID (g_req y) -> g = h) /\
  (forall g x, s_gs st !! g = Some x ->
     count (is_accept g) (s_log st) = Z.b2z (acked (g_phase x)) /\
     count (is_result g) (s_log st) = Z.b2z (reported (g_phase x))).
Proof using Type.
  intros [Ic Ia Ib Iw Ir Ik Id Is]%reachable_executor_inv. split_and!; [done|..].
  - intros g h x y Hg Hh Hx Hy E.
    assert (x_active (s_exec st) !! areq_ExecutionID (g_req x) = Some g) by (apply Ia; eauto).
    assert (x_active (s_exec st) !! areq_ExecutionID (g_req y) = Some h) by (apply Ia; eauto). congruence.
  - intros g x Hg. rewrite Ik, Ir. unfold phase_at. by rewrite Hg.
Qed.

(** A cancelled action is never reported as such: the report is made with the
    context whose cancellation makes the status "cancelled". *)
Theorem cancelled_never_delivered cfg st g n r :
  reachable cfg st -> EvResult g n r true ∈ s_log st -> eres_Status r <> "cancelled".
Proof using Type. intros Hr%reachable_executor_inv. apply (iv_delivered _ _ Hr). Qed.

(** Once [Shutdown] has cancelled, every unfinished action has a cancelled
    context, and a request is turned away. *)
Theorem shutdown_cancels_all cfg st nodeID req :
  reachable cfg st -> s_shutdown st = Waiting \/ s_shutdown st = Returned ->
  (forall g, unfinished st g -> g ∈ s_cancelled st) /\
  Execute nodeID req st = reject nodeID req "shutting_down" st.
Proof using Type.
  intros Hr%reachable_executor_inv Hs. pose proof (iv_down _ _ Hr) as Hd.
  assert (x_shuttingDown (s_exec st) = true /\ (forall g, unfinished st g -> g ∈ s_cancelled st)) as [H1 H2].
  { by destruct Hs as [Hs|Hs]; rewrite Hs in Hd. }
  split; [done|]. unfold Execute. by rewrite H1.
Qed.

(** An accepted action can always run to its end, and then its execution id is
    free again. *)
Theorem action_completes cfg st g x (c : call) :
  reachable cfg st -> s_gs st !! g = Some x -> g_phase x <> Done ->
  exists st', rtc step st st' /\ phase_at st' g = Some Done /\ count (is_result g) (s_log st') = 1 /\
    x_active (s_exec st') !! areq_ExecutionID (g_req x) = None.
Proof using Type. intros Hr Hg Hnd. by eapply (unfinished_completes c). Qed.

(** [Shutdown] can return while an accepted action has not started: it is not
    yet counted when [wg.Wait] looks.  The action then runs after the return. *)
Theorem shutdown_returns_early cfg (fn : BuiltinFunc W) :
  0 < ac_MaxConcurrent cfg -> ac_Enabled cfg = true ->
  exists st, reachable cfg st /\ s_shutdown st = Returned /\ phase_at st 0 = Some Running.
Proof using Type.
  intros Hm He. set (req := mkActionRequest "e1" "info" ∅ "" "" None).
  set (s1 := with_exec (RegisterBuiltin "info" "" [] fn (s_exec (init cfg))) (init cfg)).
  set (s2 := (HandleActionRequest "n1" (Some req) s1).2).
  assert (E2 : s2 = mkState (set_active {[ "e1" := 0%nat ]} (s_exec s1)) [mkG "n1" req Accepted] ∅ 0 NotCalled []).
  { subst s2. cbn. rewrite decide_False by done. rewrite He. cbn. unfold Execute. cbn.
    rewrite decide_False by (rewrite lookup_empty; by intros [? ?]).
    rewrite decide_False by (rewrite map_size_empty; lia).
    by replace (known _ "info") with true by (vm_compute; reflexivity). }
  assert (R2 : reachable cfg s2).
  { eapply reachable_step_executor; [|apply step_request]. eapply reachable_step_executor; [apply rtc_refl|apply step_register]. }
  clearbody s2. subst s2.
  eapply reachable_step_executor in R2; [|by apply (step_ack 0 (mkG "n1" req Accepted))].
  eapply reachable_step_executor in R2; [|by apply (step_shutdown (H := id_order))].
  eapply reachable_step_executor in R2; [|by eapply step_cancel].
  eapply reachable_step_executor in R2; [|by apply step_wait].
  eapply reachable_step_executor in R2; [|by apply (step_start 0 (mkG "n1" req Acked))].
  eexists. split; [exact R2|done].
Qed.

End executor.

(** ** Witnesses *)

Definition ex_cfg : Config := mkConfig true ex_hooks 2 (10 * minute) 1024.
Definition ex_builtin : BuiltinFunc unit := fun _ _ => Returns (mkRun "ok" "" 0 None).
Definition ex_request : ActionRequest := mkActionRequest "e1" "info" ∅ "" "" None.
Definition ex_registered : state :=
  with_exec (RegisterBuiltin "info" "" [] ex_builtin (s_exec (init ex_cfg))) (init ex_cfg).
Definition ex_accepted : state := (HandleActionRequest "n1" (Some ex_request) ex_registered).2.
Definition ex_call : call :=
  mkCall tt id_order (fun _ => "") (still ex_disk) ReadOk ex_run 0 second false "" true.

Lemma ex_accepted_reachable : reachable ex_cfg ex_accepted.
Proof.
  eapply reachable_step_executor; [eapply reachable_step_executor; [apply rtc_refl|]|].
  - by apply step_register.
  - apply step_request.
Qed.

Definition ex_g (p : phase) : goroutine := mkG "n1" ex_request p.
Definition ex_running : state := start 0 (ex_g Acked) (send_ack 0 (ex_g Accepted) ex_accepted).
Definition ex_reported : state := runAction 0 (ex_g Running) ex_call ex_running.

Lemma ex_running_reachable : reachable ex_cfg ex_running.
Proof.
  eapply reachable_step_executor; [|by apply step_start].
  eapply reachable_step_executor; [apply ex_accepted_reachable|by apply step_ack].
Qed.

Lemma ex_reported_reachable : reachable ex_cfg ex_reported.
Proof. eapply reachable_step_executor; [apply ex_running_reachable|by apply step_run]. Qed.

Lemma executions_controlled_witness :
  ActiveCount (s_exec ex_reported) <= 2 /\ count (is_result 0) (s_log ex_reported) = 1.
Proof.
  destruct (executions_controlled ex_cfg ex_reported ex_reported_reachable) as (H1 & _ & H2).
  split; [exact H1|]. destruct (H2 0%nat (ex_g Reported) ltac:(by vm_compute)) as [_ H3]. exact H3.
Defined.

Definition ex_result : ExecutionResult := mkExecutionResult "e1" "success" 0 "ok" "" "1s" second None.

Lemma cancelled_never_delivered_witness : eres_Status ex_result <> "cancelled".
Proof.
  apply (cancelled_never_delivered ex_cfg ex_reported 0 "n1" ex_result ex_reported_reachable).
  change (s_log ex_reported) with
    [EvAck (Some 0%nat) "n1" (mkExecutionAck "e1" "accepted" ""); EvResult 0 "n1" ex_result true]. set_solver.
Defined.

Definition ex_waiting : state :=
  shutdown_cancel [0%nat] (shutdown_begin (H := id_order) ex_running).

Lemma ex_waiting_reachable : reachable ex_cfg ex_waiting.
Proof.
  eapply reachable_step_executor; [|by apply step_cancel].
  eapply reachable_step_executor; [apply ex_running_reachable|by apply step_shutdown].
Qed.

Lemma shutdown_cancels_all_witness : (0%nat) ∈ s_cancelled ex_waiting.
Proof.
  refine (proj1 (shutdown_cancels_all ex_cfg ex_waiting "n1" ex_request ex_waiting_reachable (or_introl eq_refl)) 0%nat _).
  exists Running. split; [by vm_compute|discriminate].
Defined.

Lemma action_completes_witness :
  exists st', rtc step ex_accepted st' /\ phase_at st' 0 = Some Done /\ count (is_result 0) (s_log st') = 1 /\
    x_active (s_exec st') !! "e1" = None.
Proof.
  refine (action_completes ex_cfg ex_accepted 0 (ex_g Accepted) ex_call ex_accepted_reachable _ _).
  - by vm_compute.
  - discriminate.
Defined.

Lemma shutdown_returns_early_witness :
  exists st, reachable (W := unit) ex_cfg st /\ s_shutdown st = Returned /\ phase_at st 0 = Some Running.
Proof. by apply (shutdown_returns_early ex_cfg ex_builtin). Defined.
