(* ===== verification/StateCache.v ===== *)
(** * The node API's state cache (src/internal/nodeapi/cache.go, events.go)

    The cache in memory and its files on disk, with a fault for every write.
    JSON encoding is the interface [Codec].  The theorems: optimistic locking
    of reports, and that the disk restores the cache. *)

From Stdlib Require Import Ascii String.
From stdpp Require Import base strings list gmap sorting.
From S2P Require Import Prelude Types Fs Json.

(** ** Keys *)

(** Entries that carry their key. *)
Class Keyed (A : Type) := { entry_key : A -> string }.
#[global] Instance data_keyed : Keyed DataEntry := {| entry_key := de_Key |}.
#[global] Instance report_keyed : Keyed ReportEntry := {| entry_key := re_Key |}.

(** Re-indenting leaves the key alone. *)
Class KeyedLaws (A : Type) `{Codec A} `{Keyed A} := {
  norm_key : forall a : A, entry_key (norm a) = entry_key a
}.

(** ** The cache *)

Record StateCache := mkCache {
  sc_dataDir : path;
  sc_metadata : gmap string string;
  sc_data : gmap string DataEntry;
  sc_secretIndex : option (list SecretRef);
  sc_reports : gmap string ReportEntry
}.

Inductive error := ErrVersionConflict | ErrNotFound | EMkdir | EParse (file : path) | ParsePayload.

Definition NewStateCache (dataDir : path) : StateCache := mkCache dataDir ∅ ∅ None ∅.

Definition stateDir (sc : StateCache) : path := Join (sc_dataDir sc) "state".

Section cache.
Context `{Codec (gmap string string)} `{Codec (list SecretRef)} `{Codec DataEntry} `{Codec ReportEntry}.

(** The loop over the entries of a directory. *)
Fixpoint load_files {A} `{Codec A} `{Keyed A} (p : path) (names : list string) (d : disk)
    (m : gmap string A) : option error * gmap string A :=
  match names with
  | [] => (None, m)
  | n :: names =>
      if negb (HasSuffix n ".json") then load_files p names d m
      else
        match d_files d !! (p ++ [n]) ≫= Unmarshal with
        | None => (Some (EParse (p ++ [n])), m)
        | Some entry => load_files p names d (<[entry_key entry := entry]> m)
        end
  end.

(** A file that may be missing. *)
Definition load_optional {A} `{Codec A} (p : path) (d : disk) : result error (option A) :=
  match d_files d !! p with
  | None => Ok None
  | Some b => match Unmarshal b with None => Err (EParse p) | Some a => Ok (Some a) end
  end.

Definition Load (sc : StateCache) (d : disk) : option error * (StateCache * disk) :=
  let sd := stateDir sc in
  let '(ok1, d) := MkdirAll (Join sd "data") d in
  if negb ok1 then (Some EMkdir, (sc, d)) else
  let '(ok2, d) := MkdirAll (Join sd "report") d in
  if negb ok2 then (Some EMkdir, (sc, d)) else
  match load_optional (A := gmap string string) (Join sd "metadata.json") d with
  | Err e => (Some e, (sc, d))
  | Ok md =>
      let sc := mkCache (sc_dataDir sc) (default (sc_metadata sc) md) (sc_data sc)
                  (sc_secretIndex sc) (sc_reports sc) in
      match load_optional (A := list SecretRef) (Join sd "secrets.json") d with
      | Err e => (Some e, (sc, d))
      | Ok refs =>
          let secrets := match refs with Some l => Some l | None => sc_secretIndex sc end in
          match load_files (A := DataEntry) (Join sd "data") (ReadDir (Join sd "data") d) d ∅ with
          | (Some e, data) =>
              (Some e, (mkCache (sc_dataDir sc) (sc_metadata sc) data secrets (sc_reports sc), d))
          | (None, data) =>
              let '(err, reports) :=
                load_files (A := ReportEntry) (Join sd "report") (ReadDir (Join sd "report") d) d ∅ in
              (err, (mkCache (sc_dataDir sc) (sc_metadata sc) data secrets reports, d))
          end
      end
  end.

(** [f] is the fault of the write to a path; an error is only logged. *)
Definition persistJSON {A} `{Codec A} (f : path -> fault) (p : path) (v : A) (d : disk) : disk :=
  match MarshalIndent v with
  | None => d
  | Some data => (WriteFileAtomic (f p) (Dir p) (Base p) data d).2
  end.

Context (f : path -> fault).

Definition UpdateMetadata (m : gmap string string) (st : StateCache * disk) : StateCache * disk :=
  let '(sc, d) := st in
  (mkCache (sc_dataDir sc) m (sc_data sc) (sc_secretIndex sc) (sc_reports sc),
   persistJSON f (Join (stateDir sc) "metadata.json") m d).

(** The loop over the new entries: the new map, the keys no longer present,
    the disk. *)
Definition store_entries (dataDir : path) (entries : list DataEntry)
    (acc : gmap string DataEntry * gmap string () * disk) : gmap string DataEntry * gmap string () * disk :=
  foldl (fun '(newData, oldKeys, d) e =>
    (<[de_Key e := e]> newData, delete (de_Key e) oldKeys,
     persistJSON f (Join dataDir (json_name (de_Key e))) e d)) acc entries.

Definition UpdateData `{MapOrder} (entries : list DataEntry) (st : StateCache * disk) : StateCache * disk :=
  let '(sc, d) := st in
  let oldKeys := (fun _ => tt) <$> sc_data sc in
  let dataDir := Join (stateDir sc) "data" in
  let '(newData, oldKeys, d) := store_entries dataDir entries (∅, oldKeys, d) in
  let d := foldl (fun d k => Remove (Join dataDir (json_name k)) d) d (range_keys oldKeys) in
  (mkCache (sc_dataDir sc) (sc_metadata sc) newData (sc_secretIndex sc) (sc_reports sc), d).

Definition UpdateSecretIndex (refs : list SecretRef) (st : StateCache * disk) : StateCache * disk :=
  let '(sc, d) := st in
  (mkCache (sc_dataDir sc) (sc_metadata sc) (sc_data sc) (Some refs) (sc_reports sc),
   persistJSON f (Join (stateDir sc) "secrets.json") refs d).

Definition GetMetadata (sc : StateCache) : gmap string string := sc_metadata sc.
Definition GetMetadataKey (sc : StateCache) (key : string) : option string := sc_metadata sc !! key.
Definition GetData (sc : StateCache) : gmap string DataEntry := sc_data sc.
Definition GetDataEntry (sc : StateCache) (key : string) : option DataEntry := sc_data sc !! key.
Definition GetSecretIndex (sc : StateCache) : option (list SecretRef) := sc_secretIndex sc.
Definition GetReports (sc : StateCache) : gmap string ReportEntry := sc_reports sc.
Definition GetReport (sc : StateCache) (key : string) : option ReportEntry := sc_reports sc !! key.

(** The version a put would store, or a conflict. *)
Definition next_version (existing : option ReportEntry) (ifMatch : option Z) : option Z :=
  match existing with
  | Some e =>
      match ifMatch with
      | Some v => if decide (v <> re_Version e) then None else Some (wrap_int (re_Version e + 1))
      | None => Some (wrap_int (re_Version e + 1))
      end
  | None =>
      match ifMatch with
      | Some v => if decide (v <> 0) then None else Some 1
      | None => Some 1
      end
  end.

Definition PutReport (now : Z) (key contentType payload : string) (ifMatch : option Z)
    (st : StateCache * disk) : result error ReportEntry * (StateCache * disk) :=
  let '(sc, d) := st in
  match next_version (sc_reports sc !! key) ifMatch with
  | None => (Err ErrVersionConflict, st)
  | Some version =>
      let entry := mkReportEntry key contentType payload version now in
      (Ok entry,
       (mkCache (sc_dataDir sc) (sc_metadata sc) (sc_data sc) (sc_secretIndex sc)
          (<[key := entry]> (sc_reports sc)),
        persistJSON f (Join (Join (stateDir sc) "report") (json_name key)) entry d))
  end.

Definition DeleteReport (key : string) (st : StateCache * disk) : option error * (StateCache * disk) :=
  let '(sc, d) := st in
  match sc_reports sc !! key with
  | None => (Some ErrNotFound, st)
  | Some _ =>
      (None,
       (mkCache (sc_dataDir sc) (sc_metadata sc) (sc_data sc) (sc_secretIndex sc)
          (delete key (sc_reports sc)),
        Remove (Join (Join (stateDir sc) "report") (json_name key)) d))
  end.

(** ** Event handlers *)

Record NodeStateUpdatePayload := mkStateUpdate {
  nsu_Metadata : gmap string string;
  nsu_Data : list DataEntry
}.

Definition HandleNodeStateUpdated `{MapOrder} (payload : option NodeStateUpdatePayload)
    (st : StateCache * disk) : option error * (StateCache * disk) :=
  match payload with
  | None => (Some ParsePayload, st)
  | Some p => (None, UpdateData (nsu_Data p) (UpdateMetadata (nsu_Metadata p) st))
  end.

Definition HandleNodeSecretsUpdated (payload : option (list SecretRef)) (st : StateCache * disk)
    : option error * (StateCache * disk) :=
  match payload with
  | None => (Some ParsePayload, st)
  | Some refs => (None, UpdateSecretIndex refs st)
  end.

End cache.

(** ** Lemmas *)

(** Keys that are safe as file names. *)
Definition is_tmp (k : string) : Prop := exists k', k = tmp_name k'.
Definition good_key (k : string) : Prop := no_slash k /\ ~ is_tmp k.

Lemma tmp_json k : tmp_name (json_name k) = json_name (tmp_name k).
Proof. unfold tmp_name, json_name. by rewrite string_app_assoc. Qed.

Lemma stateDir_eq sc : stateDir sc = sc_dataDir sc ++ ["state"].
Proof. unfold stateDir. apply Join_plain. split; [by_compute|done]. Qed.

(** ** Directories as maps *)

Section directory.
Context {A : Type} `{CA : Codec A} `{LA : !CodecLaws A} `{KA : Keyed A} `{KL : !KeyedLaws A}.

(** The directory [p] holds the files of the entries of [m] and no others. *)
Record dir_rep (p : path) (m : gmap string A) (d : disk) : Prop := mkDirRep {
  dr_file : forall k v, m !! k = Some v -> entry_key v = k /\ good_key k /\
    exists b, MarshalIndent v = Some b /\ d_files d !! (p ++ [json_name k]) = Some b;
  dr_only : forall n, is_Some (d_files d !! (p ++ [n])) -> exists k, n = json_name k /\ is_Some (m !! k)
}.

Lemma dir_rep_ext p m d d' :
  (forall n, d_files d' !! (p ++ [n]) = d_files d !! (p ++ [n])) -> dir_rep p m d -> dir_rep p m d'.
Proof.
  intros E [H1 H2]. split.
  - intros k v Hk. destruct (H1 k v Hk) as (? & ? & b & ? & ?). rewrite E. eauto 6.
  - intros n. rewrite E. apply H2.
Qed.

Lemma load_files_spec p m d names : forall acc,
  dir_rep p m d -> Forall (fun n => is_Some (d_files d !! (p ++ [n]))) names ->
  exists r, load_files p names d acc = (None, r) /\
    forall k, r !! k = if decide (json_name k ∈ names) then norm <$> m !! k else acc !! k.
Proof.
  intros acc Hr. revert acc. induction names as [|n names IH]; intros acc Hn.
  { exists acc. split; [done|]. intros k. by rewrite decide_False by (by intros ?%elem_of_nil). }
  inversion_clear Hn as [|?? Hin Hn']. destruct (dr_only _ _ _ Hr _ Hin) as (k & -> & v & Hv).
  destruct (dr_file _ _ _ Hr _ _ Hv) as (Hk & _ & b & Hb & Hf).
  cbn [load_files]. rewrite HasSuffix_json, Hf. simpl. rewrite (Unmarshal_Marshal _ _ Hb).
  destruct (IH (<[entry_key (norm v) := norm v]> acc) Hn') as (r & -> & Hspec).
  exists r. split; [done|]. intros k'. rewrite Hspec, norm_key, Hk.
  destruct (decide (json_name k' ∈ names)) as [Hin'|Hin'].
  - rewrite decide_True by (by right). done.
  - destruct (decide (k = k')) as [->|Hne].
    + rewrite lookup_insert_eq, decide_True by left. by rewrite Hv.
    + rewrite lookup_insert_ne by done. rewrite decide_False; [done|].
      intros [E|?]%elem_of_cons; [|done]. apply Hne. symmetry. by apply json_name_inj.
Qed.

(** Loading a directory gives the map back. *)
Lemma load_files_rep p m d : dir_rep p m d -> load_files p (ReadDir p d) d ∅ = (None, norm <$> m).
Proof.
  intros Hr. destruct (load_files_spec p m d (ReadDir p d) ∅ Hr) as (r & -> & Hspec).
  { apply Forall_forall. intros n. apply elem_of_ReadDir. }
  f_equal. apply map_eq. intros k. rewrite Hspec, lookup_fmap, lookup_empty.
  case_decide as Hin; [done|]. destruct (m !! k) as [v|] eqn:E; [|done].
  exfalso. apply Hin, elem_of_ReadDir. destruct (dr_file _ _ _ Hr _ _ E) as (_ & _ & b & _ & ->). eauto.
Qed.

(** A temporary file that a crash left truncated makes the load fail. *)
Lemma load_files_truncated p d names n k (v : A) b : forall acc,
  MarshalIndent v = Some b -> (n < length b)%nat ->
  d_files d !! (p ++ [json_name k]) = Some (take n b) -> json_name k ∈ names ->
  exists e, (load_files (A := A) p names d acc).1 = Some e.
Proof.
  intros acc Hb Hlen Hf. revert acc. induction names as [|x names IH]; intros acc Hin; [by apply elem_of_nil in Hin|].
  cbn [load_files]. destruct (decide (x = json_name k)) as [->|Hne].
  - rewrite HasSuffix_json, Hf. simpl. rewrite (Unmarshal_prefix _ _ _ Hb Hlen). simpl. eauto.
  - assert (json_name k ∈ names) by (apply elem_of_cons in Hin as [?|?]; [congruence|done]).
    destruct (negb _); [by apply IH|]. destruct (d_files d !! _ ≫= Unmarshal); [by apply IH|].
    simpl. eauto.
Qed.

(** The effect of persisting an entry under a good key. *)
Lemma persistJSON_ok (f : path -> fault) p n (v : A) b d :
  plain n -> p ∈ d_dirs d -> p ++ [n] ∉ d_dirs d -> p ++ [tmp_name n] ∉ d_dirs d ->
  MarshalIndent v = Some b -> f (p ++ [n]) = NoFault ->
  persistJSON f (p ++ [n]) v d =
    mkDisk (<[p ++ [n] := b]> (delete (p ++ [tmp_name n]) (d_files d))) (d_dirs d).
Proof.
  intros Hn Hp Ht Htmp Hb Hf. unfold persistJSON. rewrite Hb, Hf, Dir_snoc, Base_snoc.
  unfold WriteFileAtomic, WriteFileAtomic_ops. rewrite (Join_plain _ n) by done.
  rewrite (Join_plain _ (tmp_name n)) by (apply plain_tmp, Hn).
  rewrite decide_False.
  2:{ intros [?|Hc]; [done|]. apply Hc. split; [by rewrite Dir_snoc|done]. }
  rewrite decide_False by (intros [?|?]; done). simpl. rewrite !lookup_insert_eq. unfold Remove, set_files. simpl. f_equal.
  assert (p ++ [n] <> p ++ [tmp_name n]).
  { intros [_ E]%app_inj_tail. symmetry in E. by apply tmp_name_ne in E. }
  rewrite insert_insert_eq, delete_insert_eq, delete_insert_ne by done. by rewrite delete_delete_eq.
Qed.

Lemma dir_rep_insert p m d k v b D :
  dir_rep p m d -> good_key k -> entry_key v = k -> MarshalIndent v = Some b ->
  dir_rep p (<[k := v]> m)
    (mkDisk (<[p ++ [json_name k] := b]> (delete (p ++ [tmp_name (json_name k)]) (d_files d))) D).
Proof.
  intros [H1 H2] Hk Hv Hb. split; simpl.
  - intros k' v'. rewrite lookup_insert. case_decide as E.
    + intros [= <-]. subst k'. split; [done|]. split; [done|]. exists b. by rewrite lookup_insert_eq.
    + intros Hk'. destruct (H1 k' v' Hk') as (He & Hg & b' & Hb' & Hf). split; [done|]. split; [done|].
      exists b'. split; [done|]. rewrite lookup_insert_ne.
      2:{ intros [_ Hx%json_name_inj]%app_inj_tail. done. }
      rewrite lookup_delete_ne; [done|]. rewrite tmp_json. intros [_ Hx%json_name_inj]%app_inj_tail.
      apply Hg. exists k. done.
  - intros n. rewrite lookup_insert. case_decide as E.
    + intros _. apply app_inj_tail in E as [_ <-]. exists k. rewrite lookup_insert_eq. eauto.
    + rewrite lookup_delete. case_decide; [by intros []|]. intros Hn.
      destruct (H2 n Hn) as (k' & -> & Hk'). exists k'. split; [done|].
      rewrite lookup_insert_ne; [done|]. congruence.
Qed.

Lemma dir_rep_delete p m d k :
  dir_rep p m d -> dir_rep p (delete k m) (Remove (p ++ [json_name k]) d).
Proof.
  intros [H1 H2]. split; simpl.
  - intros k' v' [Hne Hk']%lookup_delete_Some. destruct (H1 k' v' Hk') as (? & ? & b & ? & ?).
    split; [done|]. split; [done|]. exists b. split; [done|]. rewrite lookup_delete_ne; [done|].
    intros [_ E%json_name_inj]%app_inj_tail. done.
  - intros n [b Hb]. apply lookup_delete_Some in Hb as [Hne Hb].
    destruct (H2 n ltac:(eauto)) as (k' & -> & Hk'). exists k'. split; [done|].
    rewrite lookup_delete_ne; [done|]. intros ->. done.
Qed.

End directory.

(** ** The disk represents the cache *)

Lemma elem_of_prefixes q (S : path) x :
  q ∈ prefixes (S ++ [x]) -> (length q <= length S)%nat \/ q = S ++ [x].
Proof.
  unfold prefixes. intros (n & -> & Hn)%list_elem_of_fmap. apply elem_of_seq in Hn.
  rewrite length_app in Hn. simpl in Hn. destruct (decide (n <= length S)%nat).
  - left. rewrite length_take, length_app. simpl. lia.
  - right. apply take_ge. rewrite length_app. simpl. lia.
Qed.

Section persisted.
Context `{C1 : Codec (gmap string string)} `{C2 : Codec (list SecretRef)}.
Context `{C3 : Codec DataEntry} `{C4 : Codec ReportEntry}.
Context `{L1 : !CodecLaws (gmap string string)} `{L2 : !CodecLaws (list SecretRef)}.
Context `{L3 : !CodecLaws DataEntry} `{L4 : !CodecLaws ReportEntry}.
Context `{K3 : !KeyedLaws DataEntry} `{K4 : !KeyedLaws ReportEntry}.

Abbreviation S_ dd := (dd ++ ["state"]).
Abbreviation data_ dd := ((dd ++ ["state"]) ++ ["data"]).
Abbreviation report_ dd := ((dd ++ ["state"]) ++ ["report"]).

(** The directories are there, and no directory or file is in their way. *)
Record layout (dd : path) (d : disk) : Prop := mkLayout {
  ly_state : S_ dd ∈ d_dirs d;
  ly_data : data_ dd ∈ d_dirs d;
  ly_report : report_ dd ∈ d_dirs d;
  ly_top : forall n, S_ dd ++ [n] ∈ d_dirs d -> n = "data" \/ n = "report";
  ly_sub : forall n, ((data_ dd ++ [n]) ∉ d_dirs d) /\ ((report_ dd ++ [n]) ∉ d_dirs d);
  ly_free : forall q, q ∈ prefixes (data_ dd) \/ q ∈ prefixes (report_ dd) -> d_files d !! q = None
}.

(** A single file: missing when nothing was stored, or the encoding. *)
Definition file_rep {A} `{Codec A} (p : path) (v : option A) (d : disk) : Prop :=
  match v with
  | None => d_files d !! p = None
  | Some a => exists b, MarshalIndent a = Some b /\ d_files d !! p = Some b
  end.

Record persisted (sc : StateCache) (d : disk) : Prop := mkPersisted {
  ps_layout : layout (sc_dataDir sc) d;
  ps_metadata : (sc_metadata sc = ∅ /\ d_files d !! (S_ (sc_dataDir sc) ++ ["metadata.json"]) = None) \/
    file_rep (S_ (sc_dataDir sc) ++ ["metadata.json"]) (Some (sc_metadata sc)) d;
  ps_secrets : file_rep (S_ (sc_dataDir sc) ++ ["secrets.json"]) (sc_secretIndex sc) d;
  ps_data : dir_rep (data_ (sc_dataDir sc)) (sc_data sc) d;
  ps_reports : dir_rep (report_ (sc_dataDir sc)) (sc_reports sc) d
}.

(** Writing or removing a file below the state directory keeps the layout. *)
Lemma layout_write dd d p n b :
  layout dd d -> (p = S_ dd /\ n <> "data" /\ n <> "report") \/ p = data_ dd \/ p = report_ dd ->
  layout dd (mkDisk (<[p ++ [n] := b]> (delete (p ++ [tmp_name n]) (d_files d))) (d_dirs d)).
Proof.
  intros [H1 H2 H3 H4 H5 H6] Hp. split; try done. simpl. intros q Hq.
  rewrite lookup_insert_ne; [rewrite lookup_delete; case_decide; [done|by apply H6]|].
  intros <-. destruct Hp as [(-> & ? & ?)|[-> | ->]];
    destruct Hq as [Hq|Hq]; apply elem_of_prefixes in Hq as [Hq|Hq];
    try (apply app_inj_tail in Hq as [_ ?]; done);
    try (apply (f_equal length) in Hq); rewrite ?length_app in Hq; simpl in Hq; lia.
Qed.

Lemma layout_remove dd d p : layout dd d -> layout dd (Remove p d).
Proof.
  intros [H1 H2 H3 H4 H5 H6]. split; try done. simpl. intros q Hq.
  rewrite lookup_delete. case_decide; [done|]. by apply H6.
Qed.

(** Files of another directory are not touched. *)
Lemma write_other (F : gmap path (list Z)) (p p' : path) n b m :
  p <> p' ->
  <[p ++ [n] := b]> (delete (p ++ [tmp_name n]) F) !! (p' ++ [m]) = F !! (p' ++ [m]).
Proof.
  intros Hp. rewrite lookup_insert_ne, lookup_delete_ne; [done|..]; intros [? _]%app_inj_tail; done.
Qed.

Lemma dirs_distinct dd : S_ dd <> data_ dd /\ S_ dd <> report_ dd /\ data_ dd <> report_ dd.
Proof.
  split_and!; try (intros E%(f_equal length); rewrite !length_app in E; simpl in E; lia).
  by intros [_ E]%app_inj_tail.
Qed.

(** Each update keeps the disk in step with the cache. *)
Context (f : path -> fault) (Hf : forall p, f p = NoFault).

Lemma persisted_PutReport now key ct payload im st e st' :
  persisted st.1 st.2 -> good_key key ->
  (forall v, is_Some (MarshalIndent (mkReportEntry key ct payload v now))) ->
  PutReport f now key ct payload im st = (Ok e, st') -> persisted st'.1 st'.2.
Proof using Hf L1 L2 L3 L4 K3 K4.
  destruct st as [sc d]. simpl. intros [Hl Hm Hs Hd Hr] Hk Hv. unfold PutReport.
  destruct (next_version _ _) as [ver|]; [|done]. intros [= <- <-]. simpl.
  destruct (Hv ver) as [b Hb]. destruct (dirs_distinct (sc_dataDir sc)) as (D1 & D2 & D3).
  rewrite stateDir_eq, (Join_name _ "report") by done.
  rewrite (Join_plain _ (json_name key)) by (apply plain_json, Hk).
  rewrite (persistJSON_ok f _ _ _ b);
    [|apply plain_json, Hk|apply Hl|apply (ly_sub _ _ Hl)|apply (ly_sub _ _ Hl)|done|apply Hf].
  split; simpl.
  - apply layout_write; [done|]. by right; right.
  - unfold file_rep in *. simpl. by rewrite write_other.
  - unfold file_rep in *. simpl. by rewrite write_other.
  - eapply dir_rep_ext; [|exact Hd]. intros n. by apply write_other.
  - by apply dir_rep_insert.
Qed.

(** A file of the state directory itself. *)
Lemma persist_top {A} `{Codec A} dd n (v : A) b d :
  layout dd d -> plain n -> n <> "data" -> n <> "report" -> MarshalIndent v = Some b ->
  persistJSON f (S_ dd ++ [n]) v d =
    mkDisk (<[S_ dd ++ [n] := b]> (delete (S_ dd ++ [tmp_name n]) (d_files d))) (d_dirs d).
Proof using Hf.
  intros Hl Hn N1 N2 Hb. apply persistJSON_ok; [done|apply Hl| | |done|apply Hf].
  - intros [?|?]%(ly_top _ _ Hl); done.
  - intros [?|?]%(ly_top _ _ Hl); done.
Qed.

Lemma persisted_UpdateMetadata m st :
  persisted st.1 st.2 -> is_Some (MarshalIndent m) ->
  let st' := UpdateMetadata f m st in persisted st'.1 st'.2.
Proof using Hf L1 L2 L3 L4 K3 K4.
  destruct st as [sc d]. simpl. intros [Hl Hm Hs Hd Hr] [b Hb].
  rewrite stateDir_eq, (Join_name _ "metadata.json") by done.
  destruct (dirs_distinct (sc_dataDir sc)) as (D1 & D2 & D3).
  rewrite (persist_top _ _ _ b) by (done || (split; [by_compute|done])). split; simpl.
  - apply layout_write; [done|]. by left.
  - right. exists b. simpl. by rewrite lookup_insert_eq.
  - unfold file_rep in *. simpl. rewrite lookup_insert_ne, lookup_delete_ne; [done|..];
      intros [_ ?]%app_inj_tail; done.
  - eapply dir_rep_ext; [|exact Hd]. intros n. by apply write_other.
  - eapply dir_rep_ext; [|exact Hr]. intros n. by apply write_other.
Qed.

Lemma persisted_UpdateSecretIndex refs st :
  persisted st.1 st.2 -> is_Some (MarshalIndent refs) ->
  let st' := UpdateSecretIndex f refs st in persisted st'.1 st'.2.
Proof using Hf L1 L2 L3 L4 K3 K4.
  destruct st as [sc d]. simpl. intros [Hl Hm Hs Hd Hr] [b Hb].
  rewrite stateDir_eq, (Join_name _ "secrets.json") by done.
  destruct (dirs_distinct (sc_dataDir sc)) as (D1 & D2 & D3).
  rewrite (persist_top _ _ _ b) by (done || (split; [by_compute|done])). split; simpl.
  - apply layout_write; [done|]. by left.
  - unfold file_rep in *. simpl. rewrite lookup_insert_ne, lookup_delete_ne; [done|..];
      intros [_ ?]%app_inj_tail; done.
  - exists b. simpl. by rewrite lookup_insert_eq.
  - eapply dir_rep_ext; [|exact Hd]. intros n. by apply write_other.
  - eapply dir_rep_ext; [|exact Hr]. intros n. by apply write_other.
Qed.

(** Removing files of one directory leaves everything else. *)
Lemma Remove_other (d : disk) (p p' : path) n m :
  p <> p' -> d_files (Remove (p ++ [n]) d) !! (p' ++ [m]) = d_files d !! (p' ++ [m]).
Proof. intros Hp. simpl. rewrite lookup_delete_ne; [done|]. intros [? _]%app_inj_tail. done. Qed.

Lemma persisted_DeleteReport key st st' :
  persisted st.1 st.2 -> good_key key -> DeleteReport key st = (None, st') -> persisted st'.1 st'.2.
Proof using L1 L2 L3 L4 K3 K4.
  destruct st as [sc d]. simpl. intros [Hl Hm Hs Hd Hr] Hk.
  destruct (sc_reports sc !! key); [|done]. intros [= <-]. simpl.
  destruct (dirs_distinct (sc_dataDir sc)) as (D1 & D2 & D3).
  rewrite stateDir_eq, (Join_name _ "report") by done.
  rewrite (Join_plain _ (json_name key)) by (apply plain_json, Hk). split.
  - by apply layout_remove.
  - unfold file_rep in *. simpl sc_dataDir. by rewrite Remove_other.
  - unfold file_rep in *. simpl sc_dataDir. by rewrite Remove_other.
  - eapply dir_rep_ext; [|exact Hd]. intros n. by apply Remove_other.
  - by apply dir_rep_delete.
Qed.

(** The loop of [UpdateData] over the new entries: the directory holds the new
    entries and the old ones not yet replaced. *)
Lemma store_entries_rep dd m0 entries : forall new old d,
  layout dd d -> dir_rep (data_ dd) (new ∪ m0) d ->
  (forall k, is_Some (old !! k) <-> is_Some (m0 !! k) /\ new !! k = None) ->
  Forall (fun e => good_key (de_Key e) /\ is_Some (MarshalIndent e)) entries ->
  let '(new', old', d') := store_entries f (data_ dd) entries (new, old, d) in
  layout dd d' /\ dir_rep (data_ dd) (new' ∪ m0) d' /\
  (forall k, is_Some (old' !! k) <-> is_Some (m0 !! k) /\ new' !! k = None) /\
  (forall p m, p <> data_ dd -> d_files d' !! (p ++ [m]) = d_files d !! (p ++ [m])).
Proof using Hf L3 K3.
  induction entries as [|e entries IH]; intros new old d Hl Hr Ho He; [by simpl|].
  inversion_clear He as [|?? [Hk [b Hb]] He']. unfold store_entries. simpl.
  rewrite (Join_plain _ (json_name (de_Key e))) by (apply plain_json, Hk).
  rewrite (persistJSON_ok f _ _ _ b);
    [|apply plain_json, Hk|apply Hl|apply (ly_sub _ _ Hl)|apply (ly_sub _ _ Hl)|done|apply Hf].
  set (d1 := mkDisk _ _).
  assert (Hl1 : layout dd d1) by (apply layout_write; [done|by right; left]).
  assert (Hr1 : dir_rep (data_ dd) (<[de_Key e := e]> new ∪ m0) d1).
  { rewrite <- insert_union_l. by apply dir_rep_insert. }
  assert (Ho1 : forall k, is_Some (delete (de_Key e) old !! k) <->
                  is_Some (m0 !! k) /\ <[de_Key e := e]> new !! k = None).
  { intros k. rewrite lookup_delete, lookup_insert. case_decide; [|apply Ho].
    split; [by intros []|by intros []]. }
  specialize (IH _ _ _ Hl1 Hr1 Ho1 He'). unfold store_entries in IH. destruct (foldl _ _ _) as [[new' old'] d'].
  destruct IH as (IL & IR & IO & IF). split_and!; try done. intros p m Hp.
  rewrite IF by done. by apply write_other.
Qed.

Lemma remove_keys_rep dd ks : forall (m : gmap string DataEntry) d,
  layout dd d -> dir_rep (data_ dd) m d -> Forall good_key ks ->
  let d' := foldl (fun d k => Remove (Join (data_ dd) (json_name k)) d) d ks in
  layout dd d' /\ dir_rep (data_ dd) (foldl (fun m k => delete k m) m ks) d' /\
  (forall p n, p <> data_ dd -> d_files d' !! (p ++ [n]) = d_files d !! (p ++ [n])).
Proof using L3 K3.
  induction ks as [|k ks IH]; intros m d Hl Hr Hk; [done|]. simpl.
  inversion_clear Hk as [|?? Hg Hk']. rewrite (Join_plain _ (json_name k)) by (apply plain_json, Hg).
  destruct (IH (delete k m) (Remove (data_ dd ++ [json_name k]) d)) as (IL & IR & IF);
    [by apply layout_remove|by apply dir_rep_delete|done|].
  split_and!; try done. intros p n Hp. rewrite IF by done. by apply Remove_other.
Qed.

Lemma store_entries_map dd entries : forall new old d,
  (store_entries f (data_ dd) entries (new, old, d)).1.1 =
  foldl (fun m e => <[de_Key e := e]> m) new entries.
Proof. induction entries as [|e entries IH]; intros new old d; [done|]. apply IH. Qed.

Lemma persisted_UpdateData `{MapOrder} entries st :
  persisted st.1 st.2 ->
  Forall (fun e => good_key (de_Key e) /\ is_Some (MarshalIndent e)) entries ->
  let st' := UpdateData f entries st in
  persisted st'.1 st'.2 /\ sc_data st'.1 = build_map de_Key (fun e => e) entries.
Proof using Hf L1 L2 L3 L4 K3 K4.
  destruct st as [sc d]. simpl. intros [Hl Hm Hs Hd Hr] He.
  rewrite stateDir_eq, (Join_name _ "data") by done. set (dd := sc_dataDir sc) in *.
  set (old := (fun _ => tt) <$> sc_data sc).
  assert (Ho : forall k, is_Some (old !! k) <-> is_Some (sc_data sc !! k) /\ (∅ : gmap string DataEntry) !! k = None).
  { intros k. subst old. rewrite lookup_fmap, fmap_is_Some, lookup_empty. naive_solver. }
  assert (Hd0 : dir_rep (data_ dd) (∅ ∪ sc_data sc) d) by (by rewrite (left_id_L ∅ (∪))).
  pose proof (store_entries_rep dd (sc_data sc) entries ∅ old d Hl Hd0 Ho He) as HS.
  pose proof (store_entries_map dd entries ∅ old d) as HM.
  destruct (store_entries f (data_ dd) entries (∅, old, d)) as [[new old'] d1]. simpl in HM.
  destruct HS as (Hl1 & Hr1 & Ho1 & HF1). simpl.
  destruct (remove_keys_rep dd (range_keys old') (new ∪ sc_data sc) d1 Hl1 Hr1) as (Hl2 & Hr2 & HF2).
  { apply Forall_forall. intros k [v Hk]%elem_of_range_keys%Ho1%proj1.
    by destruct (dr_file _ _ _ Hd _ _ Hk) as (_ & ? & _). }
  set (d2 := foldl _ d1 _) in *. split; [|exact HM].
  destruct (dirs_distinct dd) as (D1 & D2 & D3).
  split; simpl; fold dd; unfold file_rep in *.
  - done.
  - rewrite HF2, HF1 by done. done.
  - rewrite HF2, HF1 by done. done.
  - replace new with (foldl (fun m k => delete k m) (new ∪ sc_data sc) (range_keys old')); [done|].
    apply map_eq. intros k. rewrite foldl_delete_lookup.
    destruct (new !! k) as [v|] eqn:En.
    + rewrite decide_False; [by rewrite (lookup_union_Some_l _ _ _ _ En)|].
      intros [_ Hn]%elem_of_range_keys%Ho1. congruence.
    + destruct (decide (k ∈ range_keys old')) as [|Hk]; [done|]. rewrite lookup_union_r by done.
      destruct (sc_data sc !! k) eqn:Ek; [|done]. exfalso. apply Hk, elem_of_range_keys, Ho1. eauto.
  - eapply dir_rep_ext; [|exact Hr]. intros n. by rewrite HF2, HF1 by done.
Qed.

(** What a cache is after a restart. *)
Record restored (sc sc' : StateCache) : Prop := mkRestored {
  rd_metadata : sc_metadata sc' = norm (sc_metadata sc) \/ (sc_metadata sc = ∅ /\ sc_metadata sc' = ∅);
  rd_data : sc_data sc' = norm <$> sc_data sc;
  rd_secrets : sc_secretIndex sc' = norm <$> sc_secretIndex sc;
  rd_reports : sc_reports sc' = norm <$> sc_reports sc
}.

Lemma MkdirAll_ok p d :
  (forall q, q ∈ prefixes p -> d_files d !! q = None) ->
  MkdirAll p d = (true, mkDisk (d_files d) (list_to_set (prefixes p) ∪ d_dirs d)).
Proof.
  intros Hq. unfold MkdirAll. rewrite decide_False; [done|].
  intros (q & Hin & [b Hb])%Exists_exists. by rewrite Hq in Hb.
Qed.

(** The directories after [Load] made its tree. *)
Definition load_dirs (dd : path) (d : disk) : gset path :=
  list_to_set (prefixes (report_ dd)) ∪ (list_to_set (prefixes (data_ dd)) ∪ d_dirs d).

(** [Load] up to the two directories, whose contents are loaded last. *)
Lemma Load_layout dd d sc :
  sc_dataDir sc = dd ->
  (forall q, q ∈ prefixes (data_ dd) \/ q ∈ prefixes (report_ dd) -> d_files d !! q = None) ->
  let d' := mkDisk (d_files d) (load_dirs dd d) in
  Load sc d =
  match load_optional (A := gmap string string) (S_ dd ++ ["metadata.json"]) d' with
  | Err e => (Some e, (sc, d'))
  | Ok md =>
      let sc := mkCache dd (default (sc_metadata sc) md) (sc_data sc) (sc_secretIndex sc) (sc_reports sc) in
      match load_optional (A := list SecretRef) (S_ dd ++ ["secrets.json"]) d' with
      | Err e => (Some e, (sc, d'))
      | Ok refs =>
          let secrets := match refs with Some l => Some l | None => sc_secretIndex sc end in
          match load_files (A := DataEntry) (data_ dd) (ReadDir (data_ dd) d') d' ∅ with
          | (Some e, data) => (Some e, (mkCache dd (sc_metadata sc) data secrets (sc_reports sc), d'))
          | (None, data) =>
              let '(err, reports) :=
                load_files (A := ReportEntry) (report_ dd) (ReadDir (report_ dd) d') d' ∅ in
              (err, (mkCache dd (sc_metadata sc) data secrets reports, d'))
          end
      end
  end.
Proof using.
  intros <- Hq. unfold Load. rewrite stateDir_eq.
  rewrite !(Join_name _ "data"), !(Join_name _ "report"), !(Join_name _ "metadata.json"),
    !(Join_name _ "secrets.json") by done.
  rewrite MkdirAll_ok by eauto. cbn [negb]. rewrite MkdirAll_ok by (simpl; eauto). done.
Qed.

(** A cache the disk represents is restored by a restart. *)
Lemma Load_restores sc d :
  persisted sc d ->
  exists sc' d', Load (NewStateCache (sc_dataDir sc)) d = (None, (sc', d')) /\ restored sc sc'.
Proof using L1 L2 L3 L4 K3 K4.
  intros [Hl Hm Hs Hd Hr]. 
  rewrite (Load_layout (sc_dataDir sc) _ (NewStateCache (sc_dataDir sc)) eq_refl (ly_free _ _ Hl)).
  cbn zeta. set (D := load_dirs _ _).
  assert (Hm' : exists md, load_optional (A := gmap string string)
      (S_ (sc_dataDir sc) ++ ["metadata.json"]) (mkDisk (d_files d) D) = Ok md /\
      (default ∅ md = norm (sc_metadata sc) \/ (sc_metadata sc = ∅ /\ default ∅ md = ∅))).
  { unfold load_optional. simpl. destruct Hm as [[-> ->]|(b & Hb & ->)].
    - exists None. eauto.
    - rewrite (Unmarshal_Marshal _ _ Hb). eexists. split; [done|]. by left. }
  destruct Hm' as (md & -> & Hmd).
  assert (Hs' : load_optional (A := list SecretRef) (S_ (sc_dataDir sc) ++ ["secrets.json"])
      (mkDisk (d_files d) D) = Ok (norm <$> sc_secretIndex sc)).
  { unfold load_optional, file_rep in *. simpl. destruct (sc_secretIndex sc) as [l|]; [|by rewrite Hs].
    destruct Hs as (b & Hb & ->). by rewrite (Unmarshal_Marshal _ _ Hb). }
  rewrite Hs'.
  rewrite (load_files_rep _ (sc_data sc)) by (eapply dir_rep_ext; [|exact Hd]; done).
  rewrite (load_files_rep _ (sc_reports sc)) by (eapply dir_rep_ext; [|exact Hr]; done).
  eexists _, _. split; [reflexivity|]. split; simpl; try done.
  by destruct (norm <$> sc_secretIndex sc).
Qed.

(** A truncated temporary file in the report directory stops the restart. *)
Lemma Load_truncated sc d key v b n :
  persisted sc d -> MarshalIndent v = Some b -> (n < length b)%nat ->
  let p := report_ (sc_dataDir sc) in
  let d' := set_files d (<[p ++ [tmp_name (json_name key)] := take n b]> (d_files d)) in
  exists e, (Load (NewStateCache (sc_dataDir sc)) d').1 = Some e.
Proof using L4.
  intros [Hl Hm Hs Hd Hr] Hb Hn p d'.
  rewrite (Load_layout (sc_dataDir sc) _ (NewStateCache (sc_dataDir sc)) eq_refl).
  2:{ intros q Hq. simpl. rewrite lookup_insert_ne; [by apply (ly_free _ _ Hl)|]. intros <-.
    destruct Hq as [Hq|Hq]; apply elem_of_prefixes in Hq as [Hq|Hq];
      try apply (f_equal length) in Hq; unfold p in Hq; rewrite !length_app in Hq; simpl in Hq; lia. }
  cbn zeta. set (D := load_dirs _ _).
  destruct (load_optional _ _) as [md|]; [|simpl; eauto].
  destruct (load_optional _ _) as [refs|]; [|simpl; eauto].
  destruct (load_files (data_ _) _ _ _) as [[e|] data]; [simpl; eauto|].
  destruct (load_files_truncated p (mkDisk (d_files d') D) (ReadDir p (mkDisk (d_files d') D))
    n (tmp_name key) v b ∅ Hb Hn) as [e He].
  - simpl. by rewrite <- tmp_json, lookup_insert_eq.
  - apply elem_of_ReadDir. simpl. rewrite <- tmp_json, lookup_insert_eq. eauto.
  - fold p. destruct (load_files p _ _ _) as [err reports]. simpl in He |- *. eauto.
Qed.

Lemma dir_rep_empty {A} `{Codec A} `{Keyed A} p D : dir_rep (A := A) p ∅ (mkDisk ∅ D).
Proof.
  split; simpl.
  - intros k v. by rewrite lookup_empty.
  - intros n. rewrite lookup_empty. by intros [].
Qed.

(** The first start, on a disk without files. *)
Lemma Load_fresh dd D0 :
  (forall q, q ∈ D0 -> (length q <= length dd)%nat) ->
  let d := mkDisk ∅ D0 in
  exists d', Load (NewStateCache dd) d = (None, (NewStateCache dd, d')) /\ persisted (NewStateCache dd) d'.
Proof using L3 L4 K3 K4.
  intros HD d. rewrite (Load_layout dd d (NewStateCache dd) eq_refl) by (intros; apply lookup_empty).
  cbn zeta. set (D := load_dirs dd d). unfold load_optional. simpl. rewrite !lookup_empty.
  rewrite (load_files_rep (A := DataEntry) _ ∅) by apply dir_rep_empty.
  rewrite (load_files_rep (A := ReportEntry) _ ∅) by apply dir_rep_empty.
  rewrite !fmap_empty. eexists. split; [reflexivity|].
  assert (HDin : forall q, q ∈ D <-> q ∈ prefixes (report_ dd) \/ q ∈ prefixes (data_ dd) \/ q ∈ D0).
  { intros q. unfold D, load_dirs. rewrite !elem_of_union, !elem_of_list_to_set. done. }
  assert (Hpre : forall (S : path) x n, (n <= length (S ++ [x]))%nat -> take n (S ++ [x]) ∈ prefixes (S ++ [x])).
  { intros S x n Hn. apply list_elem_of_fmap. exists n. split; [done|]. apply elem_of_seq. lia. }
  assert (Hfull : forall (S : path) x, (S ++ [x]) ∈ prefixes (S ++ [x])).
  { intros S x. rewrite <- (firstn_all (S ++ [x])) at 1. apply Hpre. lia. }
  apply mkPersisted; simpl.
  - apply mkLayout; simpl; [|by apply HDin; auto|by apply HDin; auto|..].
    + apply HDin. right; left. rewrite <- (take_app_length (S_ dd) ["data"]) at 1. apply Hpre.
      rewrite (length_app (S_ dd)). lia.
    + intros n [Hn|[Hn|Hn]]%HDin.
      * apply elem_of_prefixes in Hn as [Hn|Hn]; [rewrite !length_app in Hn; simpl in Hn; lia|].
        apply app_inj_tail in Hn as [_ ->]. by right.
      * apply elem_of_prefixes in Hn as [Hn|Hn]; [rewrite !length_app in Hn; simpl in Hn; lia|].
        apply app_inj_tail in Hn as [_ ->]. by left.
      * apply HD in Hn. rewrite !length_app in Hn. simpl in Hn. lia.
    + intros n. split; intros [Hn|[Hn|Hn]]%HDin; try (apply HD in Hn);
        try (apply elem_of_prefixes in Hn as [Hn|Hn]; [|apply (f_equal length) in Hn]);
        rewrite !length_app in Hn; simpl in Hn; lia.
    + intros q _. apply lookup_empty.
  - left. split; [done|]. by rewrite lookup_empty.
  - by rewrite lookup_empty.
  - apply dir_rep_empty.
  - apply dir_rep_empty.
Qed.

(** Operations on the cache, and when their keys are safe and their values
    can be encoded. *)
Inductive cache_op :=
| OMetadata (m : gmap string string)
| OData (l : list DataEntry)
| OSecrets (l : list SecretRef)
| OPut (now : Z) (key contentType payload : string) (ifMatch : option Z)
| ODelete (key : string).

Definition safe_op (o : cache_op) : Prop :=
  match o with
  | OMetadata m => is_Some (MarshalIndent m)
  | OData l => Forall (fun e => good_key (de_Key e) /\ is_Some (MarshalIndent e)) l
  | OSecrets l => is_Some (MarshalIndent l)
  | OPut now key ct p _ => good_key key /\ forall v, is_Some (MarshalIndent (mkReportEntry key ct p v now))
  | ODelete key => good_key key
  end.

Definition run_op `{MapOrder} (st : StateCache * disk) (o : cache_op) : StateCache * disk :=
  match o with
  | OMetadata m => UpdateMetadata f m st
  | OData l => UpdateData f l st
  | OSecrets l => UpdateSecretIndex f l st
  | OPut now key ct p im => (PutReport f now key ct p im st).2
  | ODelete key => (DeleteReport key st).2
  end.

Lemma run_op_persisted `{MapOrder} st o :
  persisted st.1 st.2 -> safe_op o -> persisted (run_op st o).1 (run_op st o).2.
Proof using Hf L1 L2 L3 L4 K3 K4.
  intros Hp Ho. destruct o as [m|l|l|now key ct p im|key]; simpl in Ho |- *.
  - by apply persisted_UpdateMetadata.
  - by apply persisted_UpdateData.
  - by apply persisted_UpdateSecretIndex.
  - destruct Ho as [Hk Hm]. destruct (PutReport f now key ct p im st) as [[e|e] st'] eqn:E; simpl.
    + by eapply persisted_PutReport.
    + destruct st as [sc d]. simpl in E. destruct (next_version _ _); by simplify_eq.
  - destruct (DeleteReport key st) as [[e|] st'] eqn:E; simpl.
    + destruct st as [sc d]. simpl in E. destruct (sc_reports sc !! key); by simplify_eq.
    + by eapply persisted_DeleteReport.
Qed.

Lemma run_op_dir `{MapOrder} st o : sc_dataDir (run_op st o).1 = sc_dataDir st.1.
Proof.
  destruct st as [sc d], o as [m|l|l|now key ct p im|key]; simpl; try done.
  - by destruct (store_entries _ _ _ _) as [[? ?] ?].
  - by destruct (next_version _ _).
  - by destruct (sc_reports sc !! key).
Qed.

Lemma run_ops_persisted `{MapOrder} ops : forall st,
  persisted st.1 st.2 -> Forall safe_op ops ->
  persisted (foldl run_op st ops).1 (foldl run_op st ops).2 /\
  sc_dataDir (foldl run_op st ops).1 = sc_dataDir st.1.
Proof using Hf L1 L2 L3 L4 K3 K4.
  induction ops as [|o ops IH]; intros st Hp Ho; [done|]. inversion_clear Ho as [|?? Ho' Hops].
  simpl. destruct (IH (run_op st o)) as [Hp' Hd']; [by apply run_op_persisted|done|].
  split; [done|]. by rewrite Hd', run_op_dir.
Qed.

End persisted.

(** ** A concrete encoding, for the witnesses *)

#[global] Instance DataEntry_countable : Countable DataEntry.
Proof.
  refine (inj_countable' (fun e => (de_Key e, de_ContentType e, de_Payload e, de_Version e, de_UpdatedAt e))
    (fun '(a, b, c, d, e) => mkDataEntry a b c d e) _). by intros [].
Defined.
#[global] Instance ReportEntry_countable : Countable ReportEntry.
Proof.
  refine (inj_countable' (fun e => (re_Key e, re_ContentType e, re_Payload e, re_Version e, re_UpdatedAt e))
    (fun '(a, b, c, d, e) => mkReportEntry a b c d e) _). by intros [].
Defined.
#[global] Instance SecretRef_countable : Countable SecretRef.
Proof.
  refine (inj_countable' (fun e => (sr_Key e, sr_Version e)) (fun '(a, b) => mkSecretRef a b) _).
  by intros [].
Defined.

Import SimCodec.
#[global] Instance sim_data_keyed : KeyedLaws DataEntry.
Proof. by split. Qed.
#[global] Instance sim_report_keyed : KeyedLaws ReportEntry.
Proof. by split. Qed.

Definition no_fault (p : path) : fault := NoFault.
Definition ex_dir : path := ["var"; "lib"; "plexd"].
Definition ex_disk : disk := mkDisk ∅ {[ []; ["var"]; ["var"; "lib"] ]}.
Definition ex_start : StateCache * disk := (Load (NewStateCache ex_dir) ex_disk).2.
Definition ex_ops : list cache_op :=
  [OMetadata {[ "region" := "eu" ]}; OData [mkDataEntry "a" "json" "1" 1 0; mkDataEntry "b" "json" "2" 1 0];
   OPut 5 "health" "json" "ok" None; OSecrets [mkSecretRef "db" 3];
   OPut 6 "health" "json" "bad" (Some 1); OPut 7 "disk" "json" "90" None; ODelete "disk";
   OData [mkDataEntry "b" "json" "3" 2 0]].

(** ** Theorems *)

(** C15. Restart: begin on a disk without files and apply any sequence of
    updates, puts and deletes whose keys are safe as file names and do not
    start with the temporary prefix, with no failing system call.  A new
    process that loads the disk then gets the cache that was in memory, up to
    the indentation of embedded JSON, for every iteration order. *)
Theorem restart_restores `{MapOrder}
    `{C1 : Codec (gmap string string), L1 : !CodecLaws (gmap string string)}
    `{C2 : Codec (list SecretRef), L2 : !CodecLaws (list SecretRef)}
    `{C3 : Codec DataEntry, L3 : !CodecLaws DataEntry, K3 : !KeyedLaws DataEntry}
    `{C4 : Codec ReportEntry, L4 : !CodecLaws ReportEntry, K4 : !KeyedLaws ReportEntry}
    f dd D0 ops sc0 d0 :
  (forall p, f p = NoFault) -> (forall q, q ∈ D0 -> (length q <= length dd)%nat) ->
  Load (NewStateCache dd) (mkDisk ∅ D0) = (None, (sc0, d0)) ->
  Forall safe_op ops ->
  let st := foldl (run_op f) (sc0, d0) ops in
  exists sc' d', Load (NewStateCache dd) st.2 = (None, (sc', d')) /\ restored st.1 sc'.
Proof.
  intros Hf HD HL Hops st. destruct (Load_fresh dd D0 HD) as (d' & HL' & Hp).
  rewrite HL' in HL. injection HL as <- <-.
  destruct (run_ops_persisted f Hf ops (NewStateCache dd, d') Hp Hops) as [Hp' Hd'].
  fold st in Hp', Hd'. simpl in Hd'. rewrite <- Hd'. by apply Load_restores.
Qed.

Lemma restart_restores_witness :
  let st := foldl (run_op (H := id_order) no_fault) ex_start ex_ops in
  exists sc' d', Load (NewStateCache ex_dir) st.2 = (None, (sc', d')) /\ restored st.1 sc' /\
    (re_Payload <$> sc_reports st.1 !! "health") = Some "bad".
Proof.
  intros st.
  assert (E : Load (NewStateCache ex_dir) ex_disk = (None, (ex_start.1, ex_start.2)))
    by (vm_compute; reflexivity).
  assert (HD : forall q : path, q ∈ ({[ []; ["var"]; ["var"; "lib"] ]} : gset path) ->
            (length q <= length ex_dir)%nat).
  { intros q Hq. rewrite !elem_of_union, !elem_of_singleton in Hq.
    destruct Hq as [[-> | ->]| ->]; simpl; lia. }
  assert (G : forall k, bool_decide (no_slash k) = true ->
            (forall c s, k = String c s -> c <> "."%char) -> good_key k).
  { intros k Hk Hc. split; [exact (bool_decide_eq_true_1 _ Hk)|]. intros [k' ->].
    exact (Hc "."%char _ eq_refl eq_refl). }
  assert (Ho : Forall safe_op ex_ops).
  { assert (GA : good_key "a" /\ good_key "b" /\ good_key "health" /\ good_key "disk")
      by (split_and!; apply G; [reflexivity|intros ? ? [= <- _]; discriminate|reflexivity
         |intros ? ? [= <- _]; discriminate|reflexivity|intros ? ? [= <- _]; discriminate
         |reflexivity|intros ? ? [= <- _]; discriminate]).
    destruct GA as (Ga & Gb & Gh & Gd).
    unfold ex_ops. repeat (apply Forall_cons; split); try apply Forall_nil_2; simpl; eauto. }
  destruct (restart_restores (H := id_order) no_fault ex_dir _ ex_ops ex_start.1 ex_start.2
    (fun _ => eq_refl) HD E Ho) as (sc' & d' & P1 & P2).
  exists sc', d'. split; [exact P1|]. split; [exact P2|]. vm_compute. reflexivity.
Defined.

(** The version of a report, 0 when there is none. *)
Definition current_version (sc : StateCache) (key : string) : Z :=
  match GetReport sc key with Some e => re_Version e | None => 0 end.

Lemma wrap_int_succ_ne z : wrap_int (z + 1) <> z.
Proof.
  unfold wrap_int. intros E. set (M := 2 ^ 64) in *. assert (HM : M > 1) by done.
  assert (Hy : (z + 2 ^ 63 + 1) mod M = z + 2 ^ 63) by (replace (z + 2 ^ 63 + 1) with (z + 1 + 2 ^ 63) by lia; lia).
  pose proof (Z.mod_pos_bound (z + 2 ^ 63 + 1) M ltac:(lia)).
  pose proof (Z.div_mod (z + 2 ^ 63 + 1) M ltac:(lia)) as Hd. rewrite Hy in Hd.
  assert (M * ((z + 2 ^ 63 + 1) / M) = 1) by lia. nia.
Qed.

Lemma next_version_match sc key v :
  next_version (sc_reports sc !! key) (Some v) =
  if decide (v = current_version sc key) then
    Some (match GetReport sc key with Some e => wrap_int (re_Version e + 1) | None => 1 end)
  else None.
Proof.
  unfold next_version, current_version, GetReport. destruct (sc_reports sc !! key) as [e|];
    repeat case_decide; done.
Qed.

(** C17. Optimistic locking of reports: a put with If-Match stores the report,
    under the next version and leaving the other reports alone, exactly when
    it names the current version (0 for a report that does not exist), and
    otherwise changes nothing; and of two writers that name the same version
    the second gets a conflict, whatever it tries to write. *)
Theorem PutReport_locking `{Codec ReportEntry} f now key ct payload v st :
  let '(r, st') := PutReport f now key ct payload (Some v) st in
  if decide (v = current_version st.1 key) then
    exists e, r = Ok e /\ re_Payload e = payload /\
      re_Version e = (match GetReport st.1 key with Some e0 => wrap_int (re_Version e0 + 1) | None => 1 end) /\
      sc_reports st'.1 = <[key := e]> (sc_reports st.1) /\
      forall f' now' ct' payload',
        PutReport f' now' key ct' payload' (Some v) st' = (Err ErrVersionConflict, st')
  else r = Err ErrVersionConflict /\ st' = st.
Proof.
  destruct st as [sc d]. unfold PutReport at 1. rewrite next_version_match. simpl fst.
  case_decide as Hv; [|done]. eexists. split_and!; try done.
  intros f' now' ct' payload'. unfold PutReport. rewrite next_version_match.
  rewrite decide_False; [done|]. unfold current_version, GetReport. simpl. rewrite lookup_insert_eq. simpl.
  rewrite Hv. unfold current_version, GetReport. destruct (sc_reports sc !! key) as [e|]; [|done].
  intros E. symmetry in E. by apply wrap_int_succ_ne in E.
Qed.

(** A crash can make the node's state unreadable: when the process dies
    while it writes a report, after some but not all bytes of the temporary
    file, every later [Load] fails, because [Load] reads all files whose name
    ends in .json and the temporary name keeps that ending. *)
Theorem crash_breaks_load
    `{C1 : Codec (gmap string string)} `{C2 : Codec (list SecretRef)} `{C3 : Codec DataEntry}
    `{C4 : Codec ReportEntry, L4 : !CodecLaws ReportEntry} sc d key entry b n :
  persisted sc d -> good_key key -> MarshalIndent entry = Some b -> (n < length b)%nat ->
  let dir := Join (stateDir sc) "report" in
  exists d', crash dir (json_name key) b d d' /\
    exists e, (Load (NewStateCache (sc_dataDir sc)) d').1 = Some e.
Proof.
  intros Hp Hk Hb Hn dir.
  assert (Ed : dir = (sc_dataDir sc ++ ["state"]) ++ ["report"])
    by (subst dir; by rewrite stateDir_eq, (Join_name _ "report")).
  assert (Ht : Join dir (tmp_name (json_name key)) = dir ++ [tmp_name (json_name key)])
    by (apply Join_plain, plain_tmp, plain_json, Hk).
  eexists. split.
  - apply (crash_writing _ _ _ _ n). split; rewrite Ht, ?Dir_snoc, Ed;
      [apply (ly_report _ _ (ps_layout _ _ Hp))|apply (ly_sub _ _ (ps_layout _ _ Hp))].
  - rewrite Ht, Ed. by apply (Load_truncated _ _ _ entry).
Qed.

Lemma crash_breaks_load_witness :
  let entry := mkReportEntry "health" "json" "ok" 1 5 in
  exists b d d', MarshalIndent entry = Some b /\
    Load (NewStateCache ex_dir) ex_disk = (None, (NewStateCache ex_dir, d)) /\
    crash (Join (stateDir (NewStateCache ex_dir)) "report") (json_name "health") b d d' /\
    exists e, (Load (NewStateCache ex_dir) d').1 = Some e.
Proof.
  intros entry.
  assert (HD : forall q : path, q ∈ ({[ []; ["var"]; ["var"; "lib"] ]} : gset path) ->
            (length q <= length ex_dir)%nat).
  { intros q Hq. rewrite !elem_of_union, !elem_of_singleton in Hq.
    destruct Hq as [[-> | ->]| ->]; simpl; lia. }
  destruct (Load_fresh ex_dir _ HD) as (d & HL & Hp).
  assert (Hk : good_key "health").
  { split; [by_compute|]. intros [k' E]. discriminate E. }
  set (b := digits (encode entry)).
  assert (Hn : (3 < length b)%nat) by by_compute.
  destruct (crash_breaks_load (NewStateCache ex_dir) d "health" entry b 3 Hp Hk eq_refl Hn) as (d' & P1 & P2).
  exists b, d, d'. split; [reflexivity|]. split; [exact HL|]. split; [exact P1|exact P2].
Defined.

(** A report whose key starts with the temporary prefix is accepted by the
    cache; writing the report without the prefix then deletes its file. *)
Lemma tmp_key_lost :
  let st := (PutReport no_fault 1 ".tmp-x" "json" "1" None ex_start).2 in
  let st := (PutReport no_fault 2 "x" "json" "2" None st).2 in
  let file := Join (Join (stateDir st.1) "report") (json_name ".tmp-x") in
  is_Some (GetReport st.1 ".tmp-x") /\ d_files st.2 !! file = None.
Proof. split; [exists (mkReportEntry ".tmp-x" "json" "1" 1 1)|]; vm_compute; reflexivity. Qed.

(** The key of a data entry is not checked: with dots and a slash it writes
    over another file of the state directory. *)
Lemma data_key_escapes :
  let st := UpdateMetadata no_fault {[ "region" := "eu" ]} ex_start in
  let st := UpdateData (H3 := id_order) no_fault [mkDataEntry "../metadata" "json" "1" 1 0] st in
  d_files st.2 !! Join (stateDir st.1) "metadata.json" = MarshalIndent (mkDataEntry "../metadata" "json" "1" 1 0).
Proof. vm_compute. reflexivity. Qed.
