(* ===== verification/Forwarder.v ===== *)
(** * Buffered forwarding (src/internal/logfwd, auditfwd, metrics; the report
    syncer src/internal/nodeapi/sync.go)

    The three forwarders share one text: sources are collected into a bounded
    buffer, which is reported in batches and refilled when a report fails.
    They are modelled once over the type of entries; the modules [Log],
    [Audit] and [Metrics] hold what differs.  The theorems say what can get
    lost, and that nothing is acknowledged twice or out of order. *)

From stdpp Require Import base strings list.
From S2P Require Import Prelude Types.

(** ** Configuration *)

Record Config := mkConfig {
  Enabled : bool;
  CollectInterval : Z;
  ReportInterval : Z;
  BatchSize : Z
}.

Inductive config_error := CollectTooShort | ReportTooShort | ReportBeforeCollect | BatchTooSmall.

(** Defaults for fields that are zero; enabled when all of them are. *)
Definition apply_defaults (collect report batch : Z) (c : Config) : Config :=
  mkConfig
    (if decide (CollectInterval c = 0 /\ ReportInterval c = 0 /\ BatchSize c = 0) then true else Enabled c)
    (if decide (CollectInterval c = 0) then collect else CollectInterval c)
    (if decide (ReportInterval c = 0) then report else ReportInterval c)
    (if decide (BatchSize c = 0) then batch else BatchSize c).

(** [minReport] is [None] where the package has no such check. *)
Definition validate (minCollect : Z) (minReport : option Z) (c : Config) : option config_error :=
  if negb (Enabled c) then None
  else if decide (CollectInterval c < minCollect) then Some CollectTooShort
  else if decide (ReportInterval c < default (ReportInterval c) minReport) then Some ReportTooShort
  else if decide (ReportInterval c < CollectInterval c) then Some ReportBeforeCollect
  else if decide (BatchSize c < 1) then Some BatchTooSmall
  else None.

(** ** The forwarder *)

(** What a source does: return entries, fail, or panic. *)
Inductive collected (A : Type) := Entries (l : list A) | Failed (msg : string) | Panicked.
Arguments Entries {A} _.
Arguments Failed {A} _.
Arguments Panicked {A}.

Section forwarder.
Context {A W : Type}.
Context (sources : list (W -> collected A * W)).
(** The reporter: [true] when the control plane took the batch. *)
Context (report : list A -> W -> bool * W).

Definition safeCollect (s : W -> collected A * W) (w : W) : option (list A) * W :=
  match s w with
  | (Entries l, w) => (Some l, w)
  | (Failed _, w) | (Panicked, w) => (None, w)
  end.

(** [l[n:]], which panics for an index outside the slice. *)
Definition slice_from (l : list A) (n : Z) : outcome (list A) :=
  if decide (0 <= n <= Z.of_nat (length l)) then Returns (drop (Z.to_nat n) l) else Panics.

Definition enforceCapacity (cfg : Config) (buffer : list A) : outcome (list A) :=
  let limit := wrap_int (2 * BatchSize cfg) in
  if decide (Z.of_nat (length buffer) > limit)
  then slice_from buffer (Z.of_nat (length buffer) - limit) else Returns buffer.

(** The loop over the sources. *)
Fixpoint collect_sources (cfg : Config) (ss : list (W -> collected A * W)) (buffer : list A) (w : W)
    : outcome (list A) * W :=
  match ss with
  | [] => (Returns buffer, w)
  | s :: ss =>
      match safeCollect s w with
      | (None, w) => collect_sources cfg ss buffer w
      | (Some entries, w) =>
          match enforceCapacity cfg (buffer ++ entries) with
          | Panics => (Panics, w)
          | Returns buffer => collect_sources cfg ss buffer w
          end
      end
  end.

Definition collect (cfg : Config) (buffer : list A) (w : W) : outcome (list A) * W :=
  collect_sources cfg sources buffer w.

(** The loop of [flush]: the batches that were taken, the new buffer.  [None]:
    out of fuel, or for a batch size of zero an endless loop. *)
Fixpoint flush_loop (fuel : nat) (cfg : Config) (batch buffer : list A) (w : W)
    : option (list (list A) * outcome (list A) * W) :=
  match fuel with
  | O => None
  | S fuel =>
      if decide (batch = []) then Some ([], Returns buffer, w)
      else
        let n := Z.min (BatchSize cfg) (Z.of_nat (length batch)) in
        if decide (n < 0) then Some ([], Panics, w)
        else
          let chunk := take (Z.to_nat n) batch in
          match report chunk w with
          | (false, w) => Some ([], enforceCapacity cfg (batch ++ buffer), w)
          | (true, w) =>
              match flush_loop fuel cfg (drop (length chunk) batch) buffer w with
              | None => None
              | Some (sent, res, w) => Some (chunk :: sent, res, w)
              end
          end
  end.

(** One unit of fuel per entry and one for the end. *)
Definition flush (cfg : Config) (buffer : list A) (w : W)
    : option (list (list A) * outcome (list A) * W) :=
  flush_loop (S (length buffer)) cfg buffer [] w.

(** Events of [Run]: the two tickers; at the end the context is cancelled
    and the buffer flushed once more. *)
Inductive tick := CollectTick | ReportTick.

(** State of a run: the buffer, the batches delivered so far, the world. *)
Definition run_tick (cfg : Config) (t : tick) (st : list A * list (list A) * W)
    : option (outcome (list A * list (list A) * W)) :=
  let '(buffer, sent, w) := st in
  match t with
  | CollectTick =>
      match collect cfg buffer w with
      | (Returns buffer, w) => Some (Returns (buffer, sent, w))
      | (Panics, _) => Some Panics
      end
  | ReportTick =>
      match flush cfg buffer w with
      | None => None
      | Some (_, Panics, _) => Some Panics
      | Some (new, Returns buffer, w) => Some (Returns (buffer, sent ++ new, w))
      end
  end.

Fixpoint run_ticks (cfg : Config) (ts : list tick) (st : list A * list (list A) * W)
    : option (outcome (list A * list (list A) * W)) :=
  match ts with
  | [] => Some (Returns st)
  | t :: ts =>
      match run_tick cfg t st with
      | Some (Returns st) => run_ticks cfg ts st
      | r => r
      end
  end.

(** [Run] until the context is cancelled after the ticks [ts]: a collection,
    the two tickers, for which [time.NewTicker] panics on an interval that is
    not positive, and the loop. *)
Definition Run (cfg : Config) (ts : list tick) (w : W) : option (outcome (list A * list (list A) * W)) :=
  if negb (Enabled cfg) then Some (Returns ([], [], w))
  else
    match run_tick cfg CollectTick ([], [], w) with
    | Some (Returns st) =>
        if decide (CollectInterval cfg <= 0 \/ ReportInterval cfg <= 0) then Some Panics
        else run_ticks cfg (ts ++ [ReportTick]) st
    | r => r
    end.

End forwarder.

(** ** The packages *)

Module Log.
Definition DefaultCollectInterval : Z := 10 * second.
Definition DefaultReportInterval : Z := 30 * second.
Definition DefaultBatchSize : Z := 200.
Definition ApplyDefaults : Config -> Config :=
  apply_defaults DefaultCollectInterval DefaultReportInterval DefaultBatchSize.
Definition Validate : Config -> option config_error := validate (5 * second) None.
(** [NewForwarder] applies the defaults. *)
Definition Forwarder_Run {W} (cfg : Config) sources report ts (w : W) :=
  Run (A := LogEntry) sources report (ApplyDefaults cfg) ts w.
End Log.

Module Audit.
Definition DefaultCollectInterval : Z := 5 * second.
Definition DefaultReportInterval : Z := 15 * second.
Definition DefaultBatchSize : Z := 500.
Definition ApplyDefaults : Config -> Config :=
  apply_defaults DefaultCollectInterval DefaultReportInterval DefaultBatchSize.
Definition Validate : Config -> option config_error := validate second None.
Definition Forwarder_Run {W} (cfg : Config) sources report ts (w : W) :=
  Run (A := AuditEntry) sources report (ApplyDefaults cfg) ts w.
End Audit.

Module Metrics.
Definition DefaultCollectInterval : Z := 15 * second.
Definition DefaultReportInterval : Z := 60 * second.
Definition DefaultBatchSize : Z := 100.
Definition ApplyDefaults : Config -> Config :=
  apply_defaults DefaultCollectInterval DefaultReportInterval DefaultBatchSize.
Definition Validate : Config -> option config_error := validate (5 * second) (Some (10 * second)).
Definition Manager_Run {W} (cfg : Config) collectors report ts (w : W) :=
  Run (A := MetricPoint) collectors report (ApplyDefaults cfg) ts w.
End Metrics.

(** ** Lemmas *)

Section lemmas.
Context {A W : Type} (sources : list (W -> collected A * W)) (report : list A -> W -> bool * W).
Context (cfg : Config) (HB : 1 <= BatchSize cfg < 2 ^ 62).
Implicit Types (buf l : list A) (w : W).

(** What the sources return when they are asked in order. *)
Fixpoint source_entries (ss : list (W -> collected A * W)) (w : W) : list A * W :=
  match ss with
  | [] => ([], w)
  | s :: ss =>
      let '(r, w) := safeCollect s w in
      let '(l, w) := source_entries ss w in (default [] r ++ l, w)
  end.

Lemma enforceCapacity_ok buf :
  exists k, enforceCapacity cfg buf = Returns (drop k buf) /\
    Z.of_nat (length (drop k buf)) <= 2 * BatchSize cfg /\
    (Z.of_nat (length buf) <= 2 * BatchSize cfg -> k = 0%nat).
Proof using HB.
  unfold enforceCapacity. rewrite wrap_int_id by (unfold min_int64, max_int64; lia).
  case_decide as Hd; [|exists 0%nat; rewrite drop_0; split_and!; [done|lia|done]].
  unfold slice_from. rewrite decide_True by lia. eexists. split; [reflexivity|].
  rewrite length_drop. split; [lia|intros; lia].
Qed.

Lemma collect_sources_ok ss : forall buf w,
  Z.of_nat (length buf) <= 2 * BatchSize cfg ->
  let '(got, w') := source_entries ss w in
  exists buf', collect_sources cfg ss buf w = (Returns buf', w') /\
    Z.of_nat (length buf') <= 2 * BatchSize cfg /\ buf' `suffix_of` (buf ++ got) /\
    (Z.of_nat (length (buf ++ got)) <= 2 * BatchSize cfg -> buf' = buf ++ got).
Proof using HB.
  induction ss as [|s ss IH]; intros buf w Hb; simpl.
  { exists buf. rewrite app_nil_r. done. }
  destruct (safeCollect s w) as [[e|] w1] eqn:Es; simpl.
  - destruct (enforceCapacity_ok (buf ++ e)) as (k & -> & Hk & Hk0).
    specialize (IH (drop k (buf ++ e)) w1 Hk). destruct (source_entries ss w1) as [got w2].
    destruct IH as (buf' & E & H1 & H2 & H3). exists buf'. split_and!; [done|done| |].
    + rewrite app_assoc. etrans; [exact H2|]. exists (take k (buf ++ e)).
      by rewrite app_assoc, take_drop.
    + intros Hlen. rewrite (Hk0 ltac:(rewrite !length_app in *; lia)), drop_0 in H3.
      rewrite app_assoc. apply H3. by rewrite <- app_assoc.
  - specialize (IH buf w1 Hb). destruct (source_entries ss w1) as [got w2]. done.
Qed.

Lemma flush_loop_ok fuel : forall batch w,
  Z.of_nat (length batch) <= 2 * BatchSize cfg -> (length batch < fuel)%nat ->
  exists sent rest w', flush_loop report fuel cfg batch [] w = Some (sent, Returns rest, w') /\
    concat sent ++ rest = batch /\
    Forall (fun c => c <> [] /\ Z.of_nat (length c) <= BatchSize cfg) sent.
Proof using HB.
  induction fuel as [|fuel IH]; intros batch w Hl Hf; [lia|]. cbn [flush_loop].
  case_decide as He; [subst; by exists [], [], w|].
  assert (0 < length batch)%nat by (destruct batch; [done|simpl; lia]).
  rewrite decide_False by lia. set (chunk := take _ batch).
  assert (Hc : (0 < length chunk)%nat /\ Z.of_nat (length chunk) <= BatchSize cfg)
    by (subst chunk; rewrite length_take; lia).
  destruct (report chunk w) as [[] w1].
  - destruct (IH (drop (length chunk) batch) w1) as (sent & rest & w' & -> & E & HF);
      [rewrite length_drop; lia..|].
    exists (chunk :: sent), rest, w'. split; [done|]. simpl. split.
    + rewrite <- app_assoc, E. subst chunk. rewrite length_take, Nat.min_l by lia. apply take_drop.
    + constructor; [|done]. split; [|lia]. intros E0. rewrite E0 in Hc. simpl in Hc. lia.
  - rewrite app_nil_r. destruct (enforceCapacity_ok batch) as (k & -> & _ & Hk).
    rewrite (Hk Hl), drop_0. by exists [], batch, w1.
Qed.

(** The entries all sources returned during a run. *)
Fixpoint gathered (ts : list tick) (st : list A * list (list A) * W) : list A :=
  match ts with
  | [] => []
  | t :: ts =>
      (match t with CollectTick => (source_entries sources st.2).1 | ReportTick => [] end) ++
      match run_tick sources report cfg t st with
      | Some (Returns st) => gathered ts st
      | _ => []
      end
  end.

(** One tick, as a relation between what is pending before and after. *)
Lemma run_tick_ok t buf sent w :
  Z.of_nat (length buf) <= 2 * BatchSize cfg ->
  let got := match t with CollectTick => (source_entries sources w).1 | ReportTick => [] end in
  exists buf' new w', run_tick sources report cfg t (buf, sent, w) = Some (Returns (buf', sent ++ new, w')) /\
    Z.of_nat (length buf') <= 2 * BatchSize cfg /\
    (concat new ++ buf') `sublist_of` (buf ++ got) /\
    (Z.of_nat (length (buf ++ got)) <= 2 * BatchSize cfg -> concat new ++ buf' = buf ++ got) /\
    Forall (fun c => c <> [] /\ Z.of_nat (length c) <= BatchSize cfg) new.
Proof using HB.
  intros Hb. destruct t; unfold run_tick.
  - unfold collect. pose proof (collect_sources_ok sources buf w Hb) as H.
    destruct (source_entries sources w) as [got w']. destruct H as (buf' & -> & H1 & H2 & H3).
    exists buf', [], w'. rewrite app_nil_r. simpl. split_and!; try done. destruct H2 as [k ->].
    by apply sublist_inserts_l.
  - unfold flush. destruct (flush_loop_ok (S (length buf)) buf w Hb ltac:(lia)) as (new & rest & w' & -> & E & HF).
    exists rest, new, w'. rewrite app_nil_r, E. split_and!; try done.
    rewrite <- E, length_app in Hb. lia.
Qed.

Lemma run_ticks_ok ts : forall buf sent w,
  Z.of_nat (length buf) <= 2 * BatchSize cfg ->
  let got := gathered ts (buf, sent, w) in
  exists buf' new w', run_ticks sources report cfg ts (buf, sent, w) = Some (Returns (buf', sent ++ new, w')) /\
    Z.of_nat (length buf') <= 2 * BatchSize cfg /\
    (concat new ++ buf') `sublist_of` (buf ++ got) /\
    (Z.of_nat (length (buf ++ got)) <= 2 * BatchSize cfg -> concat new ++ buf' = buf ++ got) /\
    Forall (fun c => c <> [] /\ Z.of_nat (length c) <= BatchSize cfg) new.
Proof using HB.
  induction ts as [|t ts IH]; intros buf sent w Hb.
  { exists buf, [], w. simpl. rewrite !app_nil_r. split_and!; try done. }
  cbn [gathered run_ticks].
  destruct (run_tick_ok t buf sent w Hb) as (buf1 & new1 & w1 & E1 & B1 & S1 & Q1 & F1). rewrite E1.
  destruct (IH buf1 (sent ++ new1) w1 B1) as (buf' & new & w' & E & B & S & Q & F).
  exists buf', (new1 ++ new), w'. rewrite app_assoc, concat_app.
  simpl snd. set (got1 := match t with CollectTick => _ | ReportTick => [] end) in *.
  set (got := gathered ts _) in *. split_and!; [done|done| | |by apply Forall_app].
  - rewrite <- app_assoc, (app_assoc buf). etrans; [by apply sublist_app; [done|exact S]|].
    rewrite app_assoc. by apply sublist_app.
  - intros Hlen. assert (L1 : Z.of_nat (length (buf ++ got1)) <= 2 * BatchSize cfg)
      by (rewrite !length_app in *; lia).
    rewrite (app_assoc buf), <- (Q1 L1), <- !app_assoc. f_equal. apply Q.
    pose proof (f_equal length (Q1 L1)) as El. rewrite !length_app in *. lia.
Qed.

End lemmas.

(** ** Theorems *)

(** C21. Delivery of the forwarders (logs, audit events, metrics), with a
    configuration that [Validate] accepts and a batch size below 2^62 (a larger
    one overflows the capacity): for every sequence of ticks, sources that fail
    or panic and reports that fail, a run ends normally; every batch the control
    plane acknowledged has between one and [BatchSize] entries; the entries
    acknowledged, followed by those still buffered, are a subsequence of what
    the sources returned, so none is invented, acknowledged twice or reordered;
    the buffer never exceeds two batches; and when no more than two batches were
    collected in all, nothing is lost.  A batch that was answered with an error
    is sent again, whether the control plane has stored it or not. *)
Theorem Run_delivers {A W} (sources : list (W -> collected A * W)) report minCollect minReport cfg ts w :
  0 < minCollect -> validate minCollect minReport cfg = None -> BatchSize cfg < 2 ^ 62 -> Enabled cfg = true ->
  let got := gathered sources report cfg (CollectTick :: ts ++ [ReportTick]) ([], [], w) in
  exists buf sent w', Run sources report cfg ts w = Some (Returns (buf, sent, w')) /\
    Forall (fun c => c <> [] /\ Z.of_nat (length c) <= BatchSize cfg) sent /\
    (concat sent ++ buf) `sublist_of` got /\
    Z.of_nat (length buf) <= 2 * BatchSize cfg /\
    (Z.of_nat (length got) <= 2 * BatchSize cfg -> concat sent ++ buf = got).
Proof.
  intros Hm Hv HB He got. unfold validate in Hv. rewrite He in Hv. cbn [negb] in Hv. repeat (case_decide; [done|]).
  unfold Run. rewrite He. cbn [negb].
  destruct (run_ticks_ok sources report cfg ltac:(lia) (CollectTick :: ts ++ [ReportTick]) [] [] w)
    as (buf & new & w' & Hr & B & S & Q & F); [simpl; lia|].
  exists buf, new, w'. split; [|done]. change new with ([] ++ new) at 1. rewrite <- Hr. cbn [run_ticks].
  destruct (run_tick _ _ _ _ _) as [[st|]|]; [|done..]. by rewrite decide_False by lia.
Qed.

(** A source that counts up and one that panics; a control plane that refuses
    the second report. *)
Definition ex_sources : list (nat -> collected nat * nat) :=
  [(fun w => (Entries [w; S w; S (S w)], S (S (S w)))); (fun w => (Panicked, w))].
Definition ex_report (l : list nat) (w : nat) : bool * nat := (bool_decide (l <> [2%nat]), w).
Definition ex_config : Config := mkConfig true (5 * second) (10 * second) 2.

Lemma Run_delivers_witness :
  exists buf sent w', Run ex_sources ex_report ex_config [ReportTick; CollectTick] 0%nat =
      Some (Returns (buf, sent, w')) /\
    sent = [[0; 1]; [2; 3]; [4; 5]]%nat /\
    (concat sent ++ buf) `sublist_of`
      gathered ex_sources ex_report ex_config (CollectTick :: [ReportTick; CollectTick] ++ [ReportTick]) ([], [], 0%nat).
Proof.
  destruct (Run_delivers ex_sources ex_report (5 * second) None ex_config [ReportTick; CollectTick] 0%nat
    ltac:(by_compute) ltac:(by vm_compute) ltac:(by_compute) eq_refl)
    as (buf & sent & w' & E & _ & S & _).
  exists buf, sent, w'. split; [exact E|]. split; [|exact S].
  assert (E' : Run ex_sources ex_report ex_config [ReportTick; CollectTick] 0%nat =
    Some (Returns ([], [[0; 1]; [2; 3]; [4; 5]]%nat, 6%nat))) by (vm_compute; reflexivity).
  rewrite E' in E. injection E as _ <- _. reflexivity.
Defined.

(** Without [Validate] a negative batch size makes the first collection panic. *)
Lemma negative_batch_panics :
  Run ex_sources ex_report (Log.ApplyDefaults (mkConfig true 0 0 (-1))) [] 0%nat = Some Panics.
Proof. vm_compute. reflexivity. Qed.

(** And a negative interval makes [time.NewTicker] panic. *)
Lemma negative_interval_panics :
  Run ex_sources ex_report (Log.ApplyDefaults (mkConfig true (-1) 0 10)) [] 0%nat = Some Panics.
Proof. by vm_compute. Qed.
