(* ===== verification/NodeApi.v ===== *)
(** * The node API's handlers and report syncer
    (src/internal/nodeapi/handler.go, server.go, sync.go, decrypt.go)

    Requests that reached their handler, with the path value and the decoded
    body; responses as a status and a body.  Report mutations notify the
    syncer, a state machine that debounces, sends and buffers again. *)

From Stdlib Require Import Ascii String.
From stdpp Require Import base strings list gmap relations.
From S2P Require Import Prelude Base64 Types Diff Reconcile Verifier Sse Fs Json StateCache.

(** ** Responses *)

Record dataKeySummary := mkDataSummary { dks_Key : string; dks_Version : Z; dks_ContentType : string }.
Record keySummary := mkKeySummary { ks_Key : string; ks_Version : Z }.

Record StateSummary := mkStateSummary {
  ss_Metadata : gmap string string;
  ss_DataKeys : list dataKeySummary;
  ss_SecretKeys : list keySummary;
  ss_ReportKeys : list keySummary
}.

Inductive body :=
| BState (s : StateSummary)
| BMetadata (m : gmap string string)
| BKeyValue (key value : string)
| BDataKeys (l : list dataKeySummary)
| BData (e : DataEntry)
| BSecrets (l : list SecretRef)
| BSecret (key value : string) (version : Z)
| BReportKeys (l : list keySummary)
| BReport (e : ReportEntry)
| BError (msg : string)
| BEmpty.

Record response := mkResponse { rp_status : Z; rp_body : body }.

Definition StatusOK : Z := 200.
Definition StatusNoContent : Z := 204.
Definition StatusBadRequest : Z := 400.
Definition StatusNotFound : Z := 404.
Definition StatusConflict : Z := 409.
Definition StatusInternalServerError : Z := 500.
Definition StatusServiceUnavailable : Z := 503.

Definition writeJSON (status : Z) (b : body) : response := mkResponse status b.
Definition writeError (status : Z) (msg : string) : response := writeJSON status (BError msg).

(** ** Reading handlers *)

Definition data_summary (d : DataEntry) : dataKeySummary :=
  mkDataSummary (de_Key d) (de_Version d) (de_ContentType d).
Definition report_summary (r : ReportEntry) : keySummary := mkKeySummary (re_Key r) (re_Version r).
Definition secret_summary (s : SecretRef) : keySummary := mkKeySummary (sr_Key s) (sr_Version s).

Definition handleGetState `{MapOrder} (sc : StateCache) : response :=
  writeJSON StatusOK (BState (mkStateSummary (GetMetadata sc)
    (data_summary <$> (range_map (GetData sc)).*2)
    (secret_summary <$> default [] (GetSecretIndex sc))
    (report_summary <$> (range_map (GetReports sc)).*2))).

Definition handleGetMetadataAll (sc : StateCache) : response :=
  writeJSON StatusOK (BMetadata (GetMetadata sc)).

Definition handleGetMetadataKey (sc : StateCache) (key : string) : response :=
  match GetMetadataKey sc key with
  | None => writeError StatusNotFound "not found"
  | Some val => writeJSON StatusOK (BKeyValue key val)
  end.

Definition handleGetDataAll `{MapOrder} (sc : StateCache) : response :=
  writeJSON StatusOK (BDataKeys (data_summary <$> (range_map (GetData sc)).*2)).

Definition handleGetDataKey (sc : StateCache) (key : string) : response :=
  match GetDataEntry sc key with
  | None => writeError StatusNotFound "not found"
  | Some entry => writeJSON StatusOK (BData entry)
  end.

Definition handleGetSecretsList (sc : StateCache) : response :=
  writeJSON StatusOK (BSecrets (default [] (GetSecretIndex sc))).

Definition handleGetReportAll `{MapOrder} (sc : StateCache) : response :=
  writeJSON StatusOK (BReportKeys (report_summary <$> (range_map (GetReports sc)).*2)).

(** ** Secrets *)

(** AES-GCM with a 12-byte nonce: opening returns the plaintext or fails. *)
Definition gcm_nonce_size : nat := 12.

Section secrets.
Context (gcm_Open : list Z -> list Z -> list Z -> option (list Z)).

(** Every failure is the same error. *)
Definition DecryptSecret (nsk : list Z) (ciphertext nonce : string) : option string :=
  if decide (length nsk <> 32%nat) then None
  else
    match DecodeString ciphertext with
    | None => None
    | Some ciphertextBytes =>
        match DecodeString nonce with
        | None => None
        | Some nonceBytes =>
            if decide (length nonceBytes <> gcm_nonce_size) then None
            else string_of_bytes <$> gcm_Open nsk nonceBytes ciphertextBytes
        end
    end.

(** The fetched secret: key, ciphertext, nonce, version; an error is the
    control plane's not-found or any other. *)
Record SecretResponse := mkSecretResponse {
  sec_Key : string; sec_Ciphertext : string; sec_Nonce : string; sec_Version : Z
}.
Inductive fetch_error := FetchNotFound | FetchFailed.

Definition handleGetSecretValue (nsk : list Z) (fetched : result fetch_error SecretResponse) : response :=
  match fetched with
  | Err FetchNotFound => writeError StatusNotFound "not found"
  | Err FetchFailed => writeError StatusServiceUnavailable "control plane unavailable"
  | Ok resp =>
      match DecryptSecret nsk (sec_Ciphertext resp) (sec_Nonce resp) with
      | None => writeError StatusInternalServerError "internal error"
      | Some plaintext => writeJSON StatusOK (BSecret (sec_Key resp) plaintext (sec_Version resp))
      end
  end.

End secrets.

(** ** Reports *)

Definition validReportKey (key : string) : bool :=
  bool_decide (key <> "") && bool_decide (key <> ".") && bool_decide (key <> "..") &&
  forallb (fun c => negb (bool_decide (c = "/"%char)) && negb (bool_decide (c = "\"%char)))
    (String.list_ascii_of_string key).

Definition handleGetReportKey (sc : StateCache) (key : string) : response :=
  if negb (validReportKey key) then writeError StatusBadRequest "invalid report key"
  else
    match GetReport sc key with
    | None => writeError StatusNotFound "not found"
    | Some entry => writeJSON StatusOK (BReport entry)
    end.

(** The decoded body of a put: [None] when decoding failed, also because the
    body exceeds 1 MiB. *)
Record reportPutRequest := mkPutRequest { prq_ContentType : string; prq_Payload : string }.

Section reports.
Context `{Codec ReportEntry} (f : path -> fault) (json_Valid : string -> bool).

Definition handlePutReport (now : Z) (key ifMatchHeader : string) (req : option reportPutRequest)
    (st : StateCache * disk) : response * (StateCache * disk) :=
  if negb (validReportKey key) then (writeError StatusBadRequest "invalid report key", st)
  else
    match req with
    | None => (writeError StatusBadRequest "invalid JSON body", st)
    | Some req =>
        if decide (prq_ContentType req = "") then
          (writeError StatusBadRequest "content_type is required", st)
        else if bool_decide (prq_Payload req = "") || negb (json_Valid (prq_Payload req)) then
          (writeError StatusBadRequest "payload must be valid JSON", st)
        else
          let ifMatch :=
            if decide (ifMatchHeader <> "") then
              match Atoi ifMatchHeader with None => None | Some v => Some (Some v) end
            else Some None in
          match ifMatch with
          | None => (writeError StatusBadRequest "If-Match must be an integer", st)
          | Some ifMatch =>
              match PutReport f now key (prq_ContentType req) (prq_Payload req) ifMatch st with
              | (Err ErrVersionConflict, st) => (writeError StatusConflict "version conflict", st)
              | (Err _, st) => (writeError StatusInternalServerError "internal error", st)
              | (Ok entry, st) => (writeJSON StatusOK (BReport entry), st)
              end
          end
    end.

Definition handleDeleteReport (key : string) (st : StateCache * disk) : response * (StateCache * disk) :=
  if negb (validReportKey key) then (writeError StatusBadRequest "invalid report key", st)
  else
    match DeleteReport key st with
    | (Some ErrNotFound, st) => (writeError StatusNotFound "not found", st)
    | (Some _, st) => (writeError StatusInternalServerError "internal error", st)
    | (None, st) => (mkResponse StatusNoContent BEmpty, st)
    end.

(** ** Notification of the syncer *)

(** A mutating request that the mux routed to its handler, and what the
    middleware tells the syncer after it: changed entries and deleted keys. *)
Inductive request :=
| PutRequest (now : Z) (key ifMatch : string) (req : option reportPutRequest)
| DeleteRequest (key : string).

Definition reportNotifyMiddleware (r : request) (st : StateCache * disk)
    : response * option (list ReportEntry * list string) * (StateCache * disk) :=
  match r with
  | PutRequest now key ifMatch req =>
      let '(resp, st) := handlePutReport now key ifMatch req st in
      (resp,
       if decide (rp_status resp = StatusOK) then
         match GetReport st.1 key with Some entry => Some ([entry], []) | None => None end
       else None, st)
  | DeleteRequest key =>
      let '(resp, st) := handleDeleteReport key st in
      (resp, if decide (rp_status resp = StatusNoContent) then Some ([], [key]) else None, st)
  end.

End reports.

(** ** The reconcile handler of the server *)

(** Each of the three updates holds the lock of the cache for itself. *)
Definition reconcile_metadata `{Codec (gmap string string)} (f : path -> fault) (desired : StateResponse)
    (diff : StateDiff) (st : StateCache * disk) : StateCache * disk :=
  if MetadataChanged diff then UpdateMetadata f (st_Metadata desired) st else st.

Definition reconcile_data `{MapOrder} `{Codec DataEntry} (f : path -> fault) (desired : StateResponse)
    (diff : StateDiff) (st : StateCache * disk) : StateCache * disk :=
  if DataChanged diff then UpdateData f (st_Data desired) st else st.

Definition reconcile_secrets `{Codec (list SecretRef)} (f : path -> fault) (desired : StateResponse)
    (diff : StateDiff) (st : StateCache * disk) : StateCache * disk :=
  if SecretRefsChanged diff then UpdateSecretIndex f (st_SecretRefs desired) st else st.

Definition NodeApi_ReconcileHandler `{MapOrder} `{Codec (gmap string string)} `{Codec (list SecretRef)}
    `{Codec DataEntry} (f : path -> fault) (desired : StateResponse) (diff : StateDiff)
    (st : StateCache * disk) : handler_outcome (E := unit) * (StateCache * disk) :=
  let st := reconcile_metadata f desired diff st in
  let st := reconcile_data f desired diff st in
  let st := reconcile_secrets f desired diff st in
  (HReturns None, st).

(** ** Registration of the event handlers (events.go)

    The payload of an event is decoded by the handler; the server's state is
    part of a world [W], read with [get] and written with [set]. *)

Record NodeSecretsUpdatePayload := mkSecretsUpdate { nsp_SecretRefs : list SecretRef }.

Section events.
Context `{MapOrder} `{Codec (gmap string string)} `{Codec (list SecretRef)} `{Codec DataEntry}.
Context `{Codec NodeStateUpdatePayload} `{Codec NodeSecretsUpdatePayload}.
Context {W : Type} (f : W -> path -> fault) (get : W -> StateCache * disk) (set : StateCache * disk -> W -> W).

Definition on_server (h : (path -> fault) -> StateCache * disk -> option StateCache.error * (StateCache * disk)) (w : W)
    : option StateCache.error * W :=
  let '(e, st) := h (f w) (get w) in (e, set st w).

Definition handle_state_event : EventHandler (W := W) (E := StateCache.error) := fun env =>
  on_server (fun f => HandleNodeStateUpdated f (Unmarshal (bytes_of_string (ev_Payload env)))).
Definition handle_secrets_event : EventHandler (W := W) (E := StateCache.error) := fun env =>
  on_server (fun f => HandleNodeSecretsUpdated f (nsp_SecretRefs <$> Unmarshal (bytes_of_string (ev_Payload env)))).

Definition RegisterEventHandlers (dispatcher : EventDispatcher (W := W) (E := StateCache.error)) : EventDispatcher :=
  Register (Register dispatcher (event_name EventNodeStateUpdated) handle_state_event)
    (event_name EventNodeSecretsUpdated) handle_secrets_event.

End events.

(** ** The syncer *)

(** [notifyCh] holds at most one signal. *)
Record ReportSyncer := mkSyncer {
  sy_entries : list ReportEntry;
  sy_deleted : list string;
  sy_pending : bool;
  sy_notifyCh : bool
}.

Definition NewReportSyncer : ReportSyncer := mkSyncer [] [] false false.

Definition NotifyChange (entries : list ReportEntry) (deleted : list string) (s : ReportSyncer)
    : ReportSyncer :=
  mkSyncer (sy_entries s ++ entries) (sy_deleted s ++ deleted) true true.

(** [flush] up to the call of [SyncReports]: the request, if there is one. *)
Definition flush_take (s : ReportSyncer) : option (list ReportEntry * list string) * ReportSyncer :=
  let s' := mkSyncer [] [] false (sy_notifyCh s) in
  (if decide (sy_entries s = [] /\ sy_deleted s = []) then None
   else Some (sy_entries s, sy_deleted s), s').

(** [flush] after a failed call: the request is buffered again, before what
    arrived in the meantime. *)
Definition flush_failed (req : list ReportEntry * list string) (s : ReportSyncer) : ReportSyncer :=
  mkSyncer (req.1 ++ sy_entries s) (req.2 ++ sy_deleted s) true true.

(** Where [Run] is: at the outer select, in the debounce, in [SyncReports], or
    returned. *)
Inductive phase :=
| Waiting | Debouncing | Sending (req : list ReportEntry * list string) | Returned.

(** The syncer, its loop, the requests the control plane took, and everything
    [NotifyChange] was called with. *)
Record sync_state := mkSync {
  sn_syncer : ReportSyncer;
  sn_phase : phase;
  sn_taken : list (list ReportEntry * list string);
  sn_notified : list ReportEntry * list string
}.

Inductive sync_step : sync_state -> sync_state -> Prop :=
| sync_notify es ds s ph t n :
    sync_step (mkSync s ph t n) (mkSync (NotifyChange es ds s) ph t (n.1 ++ es, n.2 ++ ds))
| sync_wake s t n : sy_notifyCh s = true ->
    sync_step (mkSync s Waiting t n)
      (mkSync (mkSyncer (sy_entries s) (sy_deleted s) (sy_pending s) false) Debouncing t n)
| sync_timer s t n :
    sync_step (mkSync s Debouncing t n)
      (mkSync (flush_take s).2
         (match (flush_take s).1 with Some req => Sending req | None => Waiting end) t n)
| sync_sent req s t n : sync_step (mkSync s (Sending req) t n) (mkSync s Waiting (t ++ [req]) n)
| sync_failed req s t n :
    sync_step (mkSync s (Sending req) t n) (mkSync (flush_failed req s) Waiting t n)
| sync_cancelled s ph t n : sync_step (mkSync s ph t n) (mkSync s Returned t n).

Definition sync_init : sync_state := mkSync NewReportSyncer Waiting [] ([], []).

(** What is on its way to the control plane. *)
Definition in_flight (ph : phase) : list ReportEntry * list string :=
  match ph with Sending req => req | _ => ([], []) end.

Record sync_inv (st : sync_state) : Prop := mkSyncInv {
  si_entries : sn_phase st <> Returned ->
    concat (sn_taken st).*1 ++ (in_flight (sn_phase st)).1 ++ sy_entries (sn_syncer st) = (sn_notified st).1;
  si_deleted : sn_phase st <> Returned ->
    concat (sn_taken st).*2 ++ (in_flight (sn_phase st)).2 ++ sy_deleted (sn_syncer st) = (sn_notified st).2;
  si_signal : sn_phase st <> Debouncing -> sn_phase st <> Returned ->
    sy_entries (sn_syncer st) <> [] \/ sy_deleted (sn_syncer st) <> [] -> sy_notifyCh (sn_syncer st) = true
}.

Lemma sync_inv_step st st' : sync_step st st' -> sync_inv st -> sync_inv st'.
Proof.
  intros Hs [H1 H2 H3]. destruct Hs as [es ds s ph t n|s t n Hn|s t n|req s t n|req s t n|s ph t n]; simpl in *.
  - split; simpl; try done; intros Hp; [rewrite <- H1 by done|rewrite <- H2 by done];
      by rewrite <- !app_assoc.
  - split; simpl; [by intros _; apply H1|by intros _; apply H2|done].
  - unfold flush_take. case_decide as He; simpl.
    + destruct He as [E1 E2]. rewrite E1 in H1. rewrite E2 in H2.
      split; simpl; [by intros _; apply H1|by intros _; apply H2|by intros _ _ []].
    + split; simpl; rewrite ?app_nil_r; [by intros _; apply H1|by intros _; apply H2|by intros _ _ []].
  - split; simpl; [| |].
    + intros _. rewrite <- H1 by done. rewrite fmap_app, concat_app. simpl. by rewrite app_nil_r, <- app_assoc.
    + intros _. rewrite <- H2 by done. rewrite fmap_app, concat_app. simpl. by rewrite app_nil_r, <- app_assoc.
    + intros _ _. by apply H3.
  - split; simpl; [by intros _; apply H1|by intros _; apply H2|done].
  - split; simpl; done.
Qed.

Lemma sync_reachable_inv st : rtc sync_step sync_init st -> sync_inv st.
Proof.
  intros Hr. assert (Hi : sync_inv sync_init) by (split; simpl; try done; by intros _ _ []).
  induction Hr; eauto using sync_inv_step.
Qed.

(** ** Lemmas on reports *)

Lemma validReportKey_plain key : validReportKey key = true -> plain key.
Proof.
  unfold validReportKey. rewrite !andb_true_iff, !bool_decide_eq_true. intros [[[H1 H2] H3] H4].
  split; [|done]. unfold no_slash. apply Forall_forall. intros c Hc ->.
  rewrite forallb_forall in H4. apply list_elem_of_In, H4 in Hc. done.
Qed.

Lemma handlePutReport_cases `{Codec ReportEntry} f json_Valid now key im req st resp st' :
  handlePutReport f json_Valid now key im req st = (resp, st') ->
  (rp_status resp <> StatusOK /\ st' = st) \/
  (rp_status resp = StatusOK /\ validReportKey key = true /\
   exists e, rp_body resp = BReport e /\ re_Key e = key /\
     sc_reports st'.1 = <[key := e]> (sc_reports st.1)).
Proof.
  unfold handlePutReport. destruct (validReportKey key) eqn:Hk; simpl; [|by intros [= <- <-]; left].
  destruct req as [req|]; [|by intros [= <- <-]; left].
  case_decide; [by intros [= <- <-]; left|]. destruct (_ || _); [by intros [= <- <-]; left|].
  destruct (if decide (im <> "") then _ else _) as [ifm|]; [|by intros [= <- <-]; left].
  destruct st as [sc d]. unfold PutReport.
  destruct (next_version _ _) as [v|]; intros [= <- <-]; [|by left].
  right. split; [done|]. split; [done|]. eexists. done.
Qed.

(** ** Theorems *)

(** Entries and deletions are buffered in two lists: the request does not show
    whether a key was written before it was deleted or after. *)
Lemma put_delete_order_lost e key s :
  NotifyChange [] [key] (NotifyChange [e] [] s) = NotifyChange [e] [] (NotifyChange [] [key] s).
Proof. unfold NotifyChange. simpl. by rewrite !app_nil_r. Qed.

(** C22. The report syncer: in every reachable state of the loop that has not
    been cancelled, the entries the control plane took, those being sent and
    those buffered, in this order, are exactly the entries [NotifyChange] was
    given, several for one key included, and so, as a second list, for the
    deleted keys, whatever reports fail and whenever changes arrive; and no
    change is forgotten: when something is buffered and the loop waits, its
    signal is there, and waking up, debouncing and a report that succeeds
    deliver all of it.  The order of an entry and a deletion is not kept
    ([put_delete_order_lost]). *)
Theorem syncer_delivers st :
  rtc sync_step sync_init st -> sn_phase st <> Returned ->
  concat (sn_taken st).*1 ++ (in_flight (sn_phase st)).1 ++ sy_entries (sn_syncer st) = (sn_notified st).1 /\
  concat (sn_taken st).*2 ++ (in_flight (sn_phase st)).2 ++ sy_deleted (sn_syncer st) = (sn_notified st).2 /\
  (sn_phase st = Waiting -> sy_entries (sn_syncer st) <> [] \/ sy_deleted (sn_syncer st) <> [] ->
   sy_notifyCh (sn_syncer st) = true /\
   exists st', rtc sync_step st st' /\ sn_phase st' = Waiting /\
     concat (sn_taken st').*1 = (sn_notified st).1 /\ concat (sn_taken st').*2 = (sn_notified st).2).
Proof.
  intros Hr Hp. destruct (sync_reachable_inv st Hr) as [H1 H2 H3]. split_and!; [auto|auto|].
  intros Hw Hb. assert (Hn : sy_notifyCh (sn_syncer st) = true) by (apply H3; rewrite ?Hw; done).
  split; [done|]. destruct st as [s ph t n]. simpl in *. subst ph. simpl in *.
  exists (mkSync (mkSyncer [] [] false false) Waiting (t ++ [(sy_entries s, sy_deleted s)]) n).
  split; [|simpl; rewrite !fmap_app, !concat_app; simpl; rewrite !app_nil_r; auto].
  eapply rtc_l; [by apply sync_wake|]. eapply rtc_l; [apply sync_timer|].
  unfold flush_take. simpl. rewrite decide_False by naive_solver. apply rtc_once, sync_sent.
Qed.

(** One change that failed to be sent, then a deletion. *)
Definition ex_entry : ReportEntry := mkReportEntry "health" "json" "1" 1 0.
Definition ex_sync : sync_state :=
  mkSync (NotifyChange [] ["old"] (flush_failed ([ex_entry], []) (mkSyncer [] [] false false)))
    Waiting [] ([ex_entry], ["old"]).

Lemma ex_sync_reachable : rtc sync_step sync_init ex_sync.
Proof.
  eapply rtc_l; [exact (sync_notify [ex_entry] [] _ _ _ _)|].
  eapply rtc_l; [apply sync_wake; reflexivity|].
  eapply rtc_l; [exact (sync_timer _ _ _)|].
  eapply rtc_l; [exact (sync_failed ([ex_entry], []) _ _ _)|].
  eapply rtc_l; [exact (sync_notify [] ["old"] _ _ _ _)|].
  apply rtc_refl.
Defined.

Lemma syncer_delivers_witness :
  exists st', rtc sync_step ex_sync st' /\ concat (sn_taken st').*1 = [ex_entry] /\
    concat (sn_taken st').*2 = ["old"].
Proof.
  destruct (syncer_delivers ex_sync ex_sync_reachable ltac:(discriminate)) as (_ & _ & P).
  destruct (P eq_refl ltac:(left; discriminate)) as (_ & st' & P1 & _ & P2 & P3).
  exists st'. split; [exact P1|]. split; [exact P2|exact P3].
Defined.

(** Report requests: a put or delete that is not answered with success
    changes neither cache nor disk and notifies nobody; a successful put
    stores the report under the requested key and notifies the syncer of
    exactly the stored entry; a successful delete removes it and notifies its
    key; and the key of a successful request is one plain path component, so
    that its file lies in the report directory. *)
Theorem report_requests_notify `{Codec ReportEntry} f json_Valid r st :
  let '(resp, note, st') := reportNotifyMiddleware f json_Valid r st in
  match r with
  | PutRequest _ key _ _ =>
      (rp_status resp <> StatusOK /\ note = None /\ st' = st) \/
      (plain key /\ exists e, rp_body resp = BReport e /\ re_Key e = key /\ note = Some ([e], []) /\
         GetReports st'.1 = <[key := e]> (GetReports st.1))
  | DeleteRequest key =>
      (rp_status resp <> StatusNoContent /\ note = None /\ st' = st) \/
      (plain key /\ is_Some (GetReport st.1 key) /\ note = Some ([], [key]) /\
         GetReports st'.1 = delete key (GetReports st.1))
  end.
Proof.
  destruct r as [now key im req|key]; unfold reportNotifyMiddleware.
  - destruct (handlePutReport _ _ _ _ _ _ _) as [resp st'] eqn:E. apply handlePutReport_cases in E.
    destruct E as [[Hs ->]|(Hs & Hk & e & He & Hkey & Hr)].
    + left. by rewrite decide_False.
    + right. split; [by apply validReportKey_plain|]. exists e. rewrite decide_True by done.
      unfold GetReport, GetReports. by rewrite Hr, lookup_insert_eq.
  - unfold handleDeleteReport. destruct (validReportKey key) eqn:Hk; simpl; [|by left].
    destruct st as [sc d]. simpl. destruct (sc_reports sc !! key) as [e|] eqn:Er; simpl; [|by left].
    right. split; [by apply validReportKey_plain|]. unfold GetReport. by rewrite Er.
Qed.
