(* ===== verification/NodeAuth.v ===== *)
(** * Access to the node API (src/internal/nodeapi: auth.go, auth_unix.go,
      socket_perms_linux.go, config.go, and routing and listeners of
      handler.go and server.go)

    The routes of the server, the notification of the syncer from the path of
    a request, the bearer token of the TCP listener, the peer credentials of
    the Unix socket, and which handlers the listeners get.  The user database
    is an interface. *)

From Stdlib Require Import Ascii String.
From stdpp Require Import base strings list gmap pretty.
From S2P Require Import Prelude Base64 Net Types Sse Fs Json Identity.
From S2P Require Registration.
From S2P Require Import Client StateCache NodeApi.

(** ** Configuration (config.go) *)

Record Config := mkConfig {
  nc_SocketPath : string;
  nc_HTTPEnabled : bool;
  nc_HTTPListen : string;
  nc_HTTPTokenFile : string;
  nc_DebouncePeriod : Z;
  nc_ShutdownTimeout : Z;
  nc_DataDir : string;
  nc_SecretAuthEnabled : bool
}.

Definition DefaultSocketPath : string := "/var/run/plexd/api.sock".
Definition DefaultHTTPListen : string := "127.0.0.1:9100".
Definition DefaultDebouncePeriod : Z := 5 * second.
Definition DefaultShutdownTimeout : Z := 5 * second.

Definition ApplyDefaults (c : Config) : Config :=
  mkConfig (if decide (nc_SocketPath c = "") then DefaultSocketPath else nc_SocketPath c)
    (nc_HTTPEnabled c)
    (if decide (nc_HTTPListen c = "") then DefaultHTTPListen else nc_HTTPListen c)
    (nc_HTTPTokenFile c)
    (if decide (nc_DebouncePeriod c = 0) then DefaultDebouncePeriod else nc_DebouncePeriod c)
    (if decide (nc_ShutdownTimeout c = 0) then DefaultShutdownTimeout else nc_ShutdownTimeout c)
    (nc_DataDir c) (nc_SecretAuthEnabled c).

Definition Validate (c : Config) : option string :=
  if decide (nc_DataDir c = "") then Some "nodeapi: config: DataDir is required"
  else if decide (nc_DebouncePeriod c <= 0) then Some "nodeapi: config: DebouncePeriod must be positive"
  else if decide (nc_ShutdownTimeout c <= 0) then Some "nodeapi: config: ShutdownTimeout must be positive"
  else None.

(** ** Connections and peer credentials (auth_unix.go, socket_perms_linux.go) *)

Record PeerCredentials := mkCred { pc_PID : Z; pc_UID : Z; pc_GID : Z }.

(** What the kernel knows about the other end: a [unix.Ucred] has an int32
    process and uint32 ids. *)
Record Ucred := mkUcred { uc_Pid : Z; uc_Uid : Z; uc_Gid : Z }.

(** A connection, with the answers of [SyscallConn], [Control] and
    [GetsockoptUcred]. *)
Record conn := mkConn {
  cn_unix : bool;
  cn_syscall : bool;
  cn_control : bool;
  cn_ucred : option Ucred
}.

Inductive cred_error := NotUnixSocket | SyscallConnFailed | ControlFailed | GetsockoptFailed.

(** The conversion [uint32(x)]. *)
Definition to_uint32 (x : Z) : Z := x mod 2 ^ 32.

Definition GetPeerCredentials (c : conn) : result cred_error PeerCredentials :=
  if negb (cn_unix c) then Err NotUnixSocket
  else if negb (cn_syscall c) then Err SyscallConnFailed
  else if negb (cn_control c) then Err ControlFailed
  else
    match cn_ucred c with
    | None => Err GetsockoptFailed
    | Some cred => Ok (mkCred (to_uint32 (uc_Pid cred)) (to_uint32 (uc_Uid cred)) (to_uint32 (uc_Gid cred)))
    end.

(** The context of a connection, of which only the value under [peerCredKey]
    is used: the credentials, when they could be had. *)
Definition context : Type := option PeerCredentials.

Definition connContextWithPeerCred (ctx : context) (c : conn) : context :=
  match GetPeerCredentials c with
  | Err _ => ctx
  | Ok cred => Some cred
  end.

(** ** Requests *)

(** [rq_escapedPath] is [URL.EscapedPath()]; [rq_ctx] is the context, which the
    server makes for the connection. *)
Record http_req := mkReq {
  rq_method : string;
  rq_escapedPath : string;
  rq_Authorization : string;
  rq_ctx : context;
  rq_ifMatch : string;
  rq_body : option reportPutRequest
}.

(** [contextPeerCredGetter.GetPeerCredentials]. *)
Definition contextPeerCred (q : http_req) : option PeerCredentials := rq_ctx q.

(** [WithContext]. *)
Definition with_ctx (ctx : context) (q : http_req) : http_req :=
  mkReq (rq_method q) (rq_escapedPath q) (rq_Authorization q) ctx (rq_ifMatch q) (rq_body q).

(** [URL.Path]; net/http refuses a request whose path does not decode. *)
Definition URL_Path (q : http_req) : option string := PathUnescape (rq_escapedPath q).

(** ** Routes (Handler.Mux over http.ServeMux) *)

Inductive route :=
| RState | RMetadataAll | RMetadataKey (key : string) | RDataAll | RDataKey (key : string)
| RSecretsList | RSecretValue (key : string) | RReportAll | RReportKey (key : string)
| RPutReport (key : string) | RDeleteReport (key : string).

Definition StatusMovedPermanently : Z := 301.
Definition StatusUnauthorized : Z := 401.
Definition StatusForbidden : Z := 403.
Definition StatusMethodNotAllowed : Z := 405.

(** [cleanPath] of net/http: [path.Clean] that keeps a trailing slash. *)
Definition cleanPath (p : string) : string :=
  let p := match p with
           | String c _ => if decide (c = "/"%char) then p else String "/" p
           | EmptyString => "/"
           end in
  let np := String "/" (join "/" (Join [] p)) in
  if HasSuffix p "/" && negb (bool_decide (np = "/")) then String.append np "/" else np.

(** The segments of a clean path, decoded; an empty last one is a trailing
    slash, which matches no wildcard. *)
Definition segment (s : string) : string :=
  if decide (s = "") then "/" else default s (PathUnescape s).
Definition segments (p : string) : list string :=
  match split_slash "" p with
  | _ :: segs => segment <$> segs
  | [] => []
  end.

Definition match_segments (method : string) (segs : list string) : option route :=
  match segs with
  | a :: b :: rest =>
      if decide (a <> "v1" \/ b <> "state") then None
      else
        match rest with
        | [] => if decide (method = "GET") then Some RState else None
        | [c] =>
            if decide (method <> "GET") then None
            else if decide (c = "metadata") then Some RMetadataAll
            else if decide (c = "data") then Some RDataAll
            else if decide (c = "secrets") then Some RSecretsList
            else if decide (c = "report") then Some RReportAll
            else None
        | [c; key] =>
            if decide (key = "/") then None
            else if decide (method = "GET") then
              if decide (c = "metadata") then Some (RMetadataKey key)
              else if decide (c = "data") then Some (RDataKey key)
              else if decide (c = "secrets") then Some (RSecretValue key)
              else if decide (c = "report") then Some (RReportKey key)
              else None
            else if decide (method = "PUT" /\ c = "report") then Some (RPutReport key)
            else if decide (method = "DELETE" /\ c = "report") then Some (RDeleteReport key)
            else None
        | _ => None
        end
  | _ => None
  end.

Inductive muxed := Routed (r : route) | MRedirect | MNotAllowed | MNotFound.

(** A GET pattern matches HEAD too. *)
Definition Mux (method p : string) : muxed :=
  if decide (method <> "CONNECT" /\ cleanPath p <> p) then MRedirect
  else
    match match_segments (if decide (method = "HEAD") then "GET" else method) (segments p) with
    | Some r => Routed r
    | None =>
        if existsb (fun m => bool_decide (is_Some (match_segments m (segments p)))) ["GET"; "PUT"; "DELETE"]
        then MNotAllowed else MNotFound
    end.

(** ** The user database (auth_unix.go) *)

(** [os/user]: a group's id, the ids of a user's groups. *)
Class UserDB := {
  LookupGroup : string -> option string;
  LookupId : string -> option (option (list string)) (* the user, then its GroupIds *)
}.

(** [strconv.ParseUint(s, 10, 32)]. *)
Definition ParseUint32 (s : string) : option Z :=
  if decide (s = "") then None
  else n ← digits_value s 0; if decide (n < 2 ^ 32) then Some n else None.

Definition IsInGroup `{UserDB} (uid gid : Z) (groupName : string) : bool :=
  match LookupGroup groupName with
  | None => false
  | Some grpGid =>
      match ParseUint32 grpGid with
      | None => false
      | Some groupGID =>
          if decide (gid = groupGID) then true
          else
            match LookupId (pretty uid) with
            | Some (Some groupIDs) => existsb (fun g => bool_decide (g = grpGid)) groupIDs
            | _ => false
            end
      end
  end.

(** The socket file, and the calls that can fail. *)
Record socket_file := mkSocket { sk_uid : Z; sk_gid : Z; sk_mode : Z }.

Definition SetSocketPermissions `{UserDB} (chown_ok chmod_ok : bool) (s : socket_file) : bool * socket_file :=
  match LookupGroup "plexd" with
  | None => if chmod_ok then (true, mkSocket (sk_uid s) (sk_gid s) 0x1B6) else (false, s)
  | Some g =>
      match Atoi g with
      | None => (false, s)
      | Some gid =>
          if chown_ok then
            let s := mkSocket 0 gid (sk_mode s) in
            if chmod_ok then (true, mkSocket 0 gid 0x1B0) else (false, s)
          else (false, s)
      end
  end.

(** Only warns. *)
Definition applySocketPermissions `{UserDB} (chown_ok chmod_ok : bool) (s : socket_file) : socket_file :=
  (SetSocketPermissions chown_ok chmod_ok s).2.

(** ** The server (server.go) *)

(** [NewServer]: the configuration with its defaults and an empty cache. *)
Definition NewServer (cfg : Config) : Config * StateCache :=
  let cfg := ApplyDefaults cfg in (cfg, NewStateCache (Registration.abs_path (nc_DataDir cfg))).

Inductive start_error := BadConfig (msg : string) | CacheError (e : StateCache.error) | SocketDirError | UnixListenError
| TokenError | TCPListenError.

(** What the environment answers during the start: whether the socket file can
    be removed, its directory made, the listeners opened; owner and mode of a
    new socket, and whether they can be changed; the token file. *)
Record start_env := mkStartEnv {
  se_remove : bool; se_mkdir : bool; se_unix : bool; se_tcp : bool;
  se_socket : socket_file; se_chown : bool; se_chmod : bool;
  se_read : string -> Registration.file_read
}.

Definition readTokenFile (read : string -> Registration.file_read) (path : string) : option string :=
  if decide (path = "") then None
  else match read path with
       | Registration.FileContent data =>
           let token := TrimSpace data in if decide (token = "") then None else Some token
       | _ => None
       end.

(** [os.Remove] of the socket file, whose error is ignored. *)
Definition remove_socket (env : start_env) (sock : option socket_file) : option socket_file :=
  if se_remove env then None else sock.

(** The open listeners: whether the socket checks secrets, the TCP token. *)
Record listeners := mkListeners { ls_secretAuth : bool; ls_token : option string }.

(** [Start] up to the open listeners, with the file at the socket path; the
    rest is [Lifecycle.Server].  Listening fails on a path that exists. *)
Definition Start `{Codec (gmap string string)} `{Codec (list SecretRef)} `{Codec DataEntry} `{Codec ReportEntry} `{UserDB}
    (cfg : Config) (env : start_env) (st : StateCache * disk) (sock : option socket_file)
    : result start_error listeners * (StateCache * disk) * option socket_file :=
  match Validate cfg with
  | Some e => (Err (BadConfig e), st, sock)
  | None =>
      match Load st.1 st.2 with
      | (Some e, st) => (Err (CacheError e), st, sock)
      | (None, st) =>
          let sock := remove_socket env sock in
          if negb (se_mkdir env) then (Err SocketDirError, st, sock)
          else if negb (se_unix env) || bool_decide (is_Some sock) then (Err UnixListenError, st, sock)
          else
            let sock := Some (applySocketPermissions (se_chown env) (se_chmod env) (se_socket env)) in
            if nc_HTTPEnabled cfg then
              match readTokenFile (se_read env) (nc_HTTPTokenFile cfg) with
              | None => (Err TokenError, st, remove_socket env sock)
              | Some token =>
                  if negb (se_tcp env) then (Err TCPListenError, st, remove_socket env sock)
                  else (Ok (mkListeners (nc_SecretAuthEnabled cfg) (Some token)), st, sock)
              end
            else (Ok (mkListeners (nc_SecretAuthEnabled cfg) None), st, sock)
      end
  end.

(** ** Handlers and middleware *)

Definition notification : Type := option (list ReportEntry * list string).

Definition writeAuthError : response := writeJSON StatusUnauthorized (BError "unauthorized").
Definition writeSecretAuthError : response :=
  writeJSON StatusForbidden (BError "forbidden: insufficient privileges for secret access").

(** [strings.HasPrefix], [strings.Count] of slashes, [strings.Split] at them. *)
Definition HasPrefix (s p : string) : bool := String.prefix p s.
Definition slashes (s : string) : nat :=
  length (filter (fun c => c = "/"%char) (String.list_ascii_of_string s)).

Definition isReportPath (path : string) : bool :=
  HasPrefix path "/v1/state/report/" && bool_decide (slashes path = 4%nat).
Definition extractReportKey (path : string) : string :=
  let parts := split_slash "" path in
  if decide (5 <= length parts)%nat then default "" (parts !! 4%nat) else "".

Section server.
Context `{MapOrder} `{Codec ReportEntry} `{UserDB} (f : path -> fault) (json_Valid : string -> bool).
Context (gcm_Open : list Z -> list Z -> list Z -> option (list Z)) (nsk : list Z).
Context (fetch : string -> result fetch_error NodeApi.SecretResponse) (now : Z).

Abbreviation server_state := (StateCache * disk)%type.
Abbreviation handler := (http_req -> server_state -> response * notification * server_state).

Definition handle_route (r : route) (q : http_req) (st : server_state) : response * server_state :=
  match r with
  | RState => (handleGetState st.1, st)
  | RMetadataAll => (handleGetMetadataAll st.1, st)
  | RMetadataKey key => (handleGetMetadataKey st.1 key, st)
  | RDataAll => (handleGetDataAll st.1, st)
  | RDataKey key => (handleGetDataKey st.1 key, st)
  | RSecretsList => (handleGetSecretsList st.1, st)
  | RSecretValue key => (handleGetSecretValue gcm_Open nsk (fetch key), st)
  | RReportAll => (handleGetReportAll st.1, st)
  | RReportKey key => (handleGetReportKey st.1 key, st)
  | RPutReport key => handlePutReport f json_Valid now key (rq_ifMatch q) (rq_body q) st
  | RDeleteReport key => handleDeleteReport key st
  end.

Definition mux_ServeHTTP (q : http_req) (st : server_state) : response * server_state :=
  match Mux (rq_method q) (rq_escapedPath q) with
  | Routed r => handle_route r q st
  | MRedirect => (mkResponse StatusMovedPermanently BEmpty, st)
  | MNotAllowed => (writeError StatusMethodNotAllowed "Method Not Allowed", st)
  | MNotFound => (writeError StatusNotFound "404 page not found", st)
  end.

(** [statusRecorder]: the calls a handler makes on its response writer, and the
    status that is recorded. *)
Inductive write_call := WriteHeader (code : Z) | Write.

Definition record_status (status : Z) (c : write_call) : Z :=
  match c with
  | WriteHeader code => code
  | Write => if decide (status = 0) then StatusOK else status
  end.

Definition writes (resp : response) : list write_call :=
  WriteHeader (rp_status resp) :: match rp_body resp with BEmpty => [] | _ => [Write] end.

Definition recorded_status (resp : response) : Z := foldl record_status 0 (writes resp).

(** As server.go has it, from the method and the decoded path. *)
Definition notify_ServeHTTP (path : string) : handler := fun q st =>
  let isPutReport := bool_decide (rq_method q = "PUT") && isReportPath path in
  let isDeleteReport := bool_decide (rq_method q = "DELETE") && isReportPath path in
  let '(resp, st) := mux_ServeHTTP q st in
  let key := extractReportKey path in
  (resp,
   if isPutReport && bool_decide (recorded_status resp = StatusOK) then
     match GetReport st.1 key with Some entry => Some ([entry], []) | None => None end
   else if isDeleteReport && bool_decide (recorded_status resp = StatusNoContent) then Some ([], [key])
   else None, st).

(** The token of an Authorization header. *)
Definition bearer_token (auth : string) : option string :=
  match cut 32 (bytes_of_string auth) with
  | Some (scheme, token) =>
      if decide (ascii_lower <$> scheme = bytes_of_string "bearer") then Some (string_of_bytes token) else None
  | None => None
  end.

Definition BearerAuthMiddleware (token : string) (next : handler) : handler := fun q st =>
  if decide (rq_Authorization q = "") then (writeAuthError, None, st)
  else
    match bearer_token (rq_Authorization q) with
    | None => (writeAuthError, None, st)
    | Some t => if decide (t = token) then next q st else (writeAuthError, None, st)
    end.

Definition SecretAuthMiddleware (next : handler) : handler := fun q st =>
  match contextPeerCred q with
  | None => (writeSecretAuthError, None, st)
  | Some cred =>
      if decide (pc_UID cred = 0) then next q st
      else if IsInGroup (pc_UID cred) (pc_GID cred) "plexd-secrets" then next q st
      else (writeSecretAuthError, None, st)
  end.

Definition wrapSecretAuth (path : string) (next : handler) : handler := fun q st =>
  if HasPrefix path "/v1/state/secrets" then SecretAuthMiddleware next q st else next q st.

(** The listener a request comes in by; only the socket's server has a
    [ConnContext]. *)
Inductive via := Unix (c : conn) | Tcp.

(** What an open listener does with a request; nothing when it is not open
    or the request is refused before any handler. *)
Definition serve (ls : listeners) (v : via) (q : http_req) (st : server_state)
    : option (response * notification * server_state) :=
  path ← URL_Path q;
  match v with
  | Unix c =>
      let q := with_ctx (connContextWithPeerCred None c) q in
      Some (if ls_secretAuth ls then wrapSecretAuth path (notify_ServeHTTP path) q st
            else notify_ServeHTTP path q st)
  | Tcp => token ← ls_token ls;
      Some (BearerAuthMiddleware token (notify_ServeHTTP path) (with_ctx None q) st)
  end.

End server.

(** ** Lemmas on paths *)

Lemma unescape_slash a b :
  unescape (a ++ 47 :: b) = (x ← unescape a; y ← unescape b; Some (x ++ 47 :: y)).
Proof.
  remember (length a) as n eqn:En. revert a En. induction (lt_wf n) as [n _ IH]. intros a ->.
  destruct a as [|c a]; cbn [app unescape].
  - rewrite decide_False by done. by destruct (unescape b).
  - destruct (decide (c = 37)).
    + assert (H47 : hexdigit 47 = None) by done.
      destruct a as [|x a]; cbn [app]; [destruct b; cbn; by rewrite ?H47|].
      destruct a as [|y a]; cbn [app]; [rewrite H47; by destruct (hexdigit x)|].
      destruct (hexdigit x), (hexdigit y); try done. rewrite (IH (length a)) by (cbn; lia || done).
      destruct (unescape a), (unescape b); done.
    + rewrite (IH (length a)) by (cbn; lia || done). destruct (unescape a), (unescape b); done.
Qed.

Lemma PathUnescape_slash a b :
  PathUnescape (String.append a (String "/" b))
  = (x ← PathUnescape a; y ← PathUnescape b; Some (String.append x (String "/" y))).
Proof.
  unfold PathUnescape. rewrite bytes_of_string_app.
  change (bytes_of_string (String "/" b)) with (47 :: bytes_of_string b). rewrite unescape_slash.
  destruct (unescape (bytes_of_string a)) as [x|], (unescape (bytes_of_string b)) as [y|]; try done.
  cbn. by rewrite string_of_bytes_app.
Qed.

Lemma split_slash_nonempty s : forall acc, split_slash acc s <> [].
Proof. induction s as [|c s IH]; intros acc; cbn; [done|]. by case_decide. Qed.

Lemma join_cons x l : l <> [] -> join "/" (x :: l) = String.append x (String "/" (join "/" l)).
Proof. by destruct l. Qed.

Lemma join_split s : forall acc, join "/" (split_slash acc s) = String.append acc s.
Proof.
  induction s as [|c s IH]; intros acc; cbn [split_slash].
  - cbn. by rewrite string_app_nil_r.
  - case_decide as Hc.
    + rewrite join_cons, IH by apply split_slash_nonempty. by rewrite Hc.
    + rewrite IH, string_app_assoc. done.
Qed.

Lemma segment_unescape s u : segment s <> "/" -> PathUnescape s = Some u -> segment s = u.
Proof. unfold segment. intros Hs Hu. case_decide; [done|]. by rewrite Hu. Qed.

Lemma unescape_join l u : l <> [] -> Forall (fun s => segment s <> "/") l ->
  PathUnescape (join "/" l) = Some u -> u = join "/" (segment <$> l).
Proof.
  intros Hne Hf. revert u Hne. induction Hf as [|s l Hs Hf IH]; intros u Hne Hu; [done|].
  destruct l as [|s' l].
  - cbn in *. by rewrite (segment_unescape _ _ Hs Hu).
  - rewrite join_cons, PathUnescape_slash in Hu by done.
    destruct (PathUnescape s) as [x|] eqn:Ex; [|done]. cbn [mbind option_bind] in Hu.
    destruct (PathUnescape (join _ _)) as [y|] eqn:Ey; [|done]. injection Hu as <-.
    rewrite fmap_cons, join_cons by done. rewrite (segment_unescape _ _ Hs Ex). by rewrite (IH y).
Qed.

(** The literal path and method of a route. *)
Definition route_segments (r : route) : list string :=
  "v1" :: "state" ::
  match r with
  | RState => []
  | RMetadataAll => ["metadata"] | RMetadataKey k => ["metadata"; k]
  | RDataAll => ["data"] | RDataKey k => ["data"; k]
  | RSecretsList => ["secrets"] | RSecretValue k => ["secrets"; k]
  | RReportAll => ["report"] | RReportKey k | RPutReport k | RDeleteReport k => ["report"; k]
  end.
Definition route_method (r : route) : string :=
  match r with RPutReport _ => "PUT" | RDeleteReport _ => "DELETE" | _ => "GET" end.

Lemma match_segments_route m segs r : match_segments m segs = Some r ->
  segs = route_segments r /\ Forall (fun s => s <> "/") segs /\ m = route_method r.
Proof.
  unfold match_segments. destruct segs as [|a [|b rest]]; try done.
  destruct (decide (a <> "v1" \/ b <> "state")) as [|Hab]; [done|].
  assert (a = "v1" /\ b = "state") as [-> ->] by (split; apply dec_stable; intros ?; apply Hab; auto).
  destruct rest as [|c [|k [|? ?]]]; intros Hm; try done.
  - case_decide; simplify_eq. split_and!; [done|by repeat constructor|done].
  - case_decide as Hg; [done|].
    repeat case_decide; simplify_eq; (split_and!; [done|by repeat constructor|done]).
  - case_decide as Hk; [done|].
    repeat case_decide; simplify_eq; destruct_and?; subst; (split_and!; [done|by repeat constructor|done]).
Qed.

Lemma Mux_routed m p r : Mux m p = Routed r ->
  route_method r = (if decide (m = "HEAD") then "GET" else m) /\ segments p = route_segments r /\
  Forall (fun s => s <> "/") (segments p) /\ exists p', p = String "/" p'.
Proof.
  unfold Mux. destruct (decide _) as [|Hc]; [done|].
  destruct (match_segments _ _) as [r'|] eqn:Em; [|by destruct (existsb _ _)]. intros [= ->].
  apply match_segments_route in Em as (Hs & Hf & Hm). split_and!; [done|done|done|].
  assert (m <> "CONNECT") by (intros ->; rewrite decide_False in Hm by done; by destruct r).
  assert (cleanPath p = p) as <- by (apply dec_stable; intros ?; apply Hc; auto).
  unfold cleanPath. destruct (_ && _); by eexists.
Qed.

(** The decoded path of a routed request is the one of its route. *)
Lemma routed_path m p r path : Mux m p = Routed r -> PathUnescape p = Some path ->
  path = String "/" (join "/" (route_segments r)).
Proof.
  intros (_ & Hs & Hf & p' & ->)%Mux_routed Hu.
  change (String "/" p') with (String.append "" (String "/" p')) in Hu. rewrite PathUnescape_slash in Hu.
  change (PathUnescape "") with (Some "") in Hu. cbn [mbind option_bind] in Hu.
  destruct (PathUnescape p') as [u|] eqn:Eu; [|done]. injection Hu as <-.
  rewrite <- Hs. unfold segments in *. cbn [split_slash] in *. rewrite decide_True in * by done.
  change (String.append "" (String "/" u)) with (String "/" u). f_equal.
  apply unescape_join; [apply split_slash_nonempty| |].
  - exact (proj1 (Forall_fmap segment (fun s => s <> "/") _) Hf).
  - by rewrite join_split.
Qed.

Lemma prefix_app a b : String.prefix a (String.append a b) = true.
Proof.
  induction a as [|c a IH]; [by destruct b|].
  change (String.append (String c a) b) with (String c (String.append a b)). cbn [String.prefix].
  by destruct (ascii_dec c c).
Qed.

Lemma slashes_app a b : slashes (String.append a b) = (slashes a + slashes b)%nat.
Proof. unfold slashes. by rewrite string_app_list, filter_app, length_app. Qed.

Lemma slashes_none s : no_slash s -> slashes s = 0%nat.
Proof.
  unfold no_slash, slashes. generalize (String.list_ascii_of_string s) as l.
  induction 1 as [|c l Hc _ IH]; [done|]. by rewrite filter_cons_False.
Qed.

Lemma report_path k : no_slash k ->
  let path := String.append "/v1/state/report/" k in isReportPath path = true /\ extractReportKey path = k.
Proof.
  intros Hk. cbn zeta. split.
  - unfold isReportPath, HasPrefix. rewrite prefix_app, slashes_app, (slashes_none k) by done.
    by rewrite bool_decide_eq_true_2.
  - unfold extractReportKey.
    change (String.append "/v1/state/report/" k) with (String.append "" (String "/" (String.append "v1" (String "/"
      (String.append "state" (String "/" (String.append "report" (String "/" k)))))))).
    rewrite !split_slash_app, split_no_slash by (done || by_compute). by rewrite decide_True by (cbn; lia).
Qed.

Lemma recorded_status_eq resp : rp_status resp <> 0 -> recorded_status resp = rp_status resp.
Proof.
  intros Hs. unfold recorded_status, writes. destruct (rp_body resp); cbn; by rewrite ?decide_False.
Qed.

Lemma handlePutReport_status `{Codec ReportEntry} f json_Valid now key im req st :
  rp_status (handlePutReport f json_Valid now key im req st).1 <> 0.
Proof. unfold handlePutReport. by repeat case_match. Qed.

(** ** Theorems *)

Section theorems.
Context `{MapOrder} `{Codec ReportEntry} `{UserDB} (f : path -> fault) (json_Valid : string -> bool).
Context (gcm_Open : list Z -> list Z -> list Z -> option (list Z)) (nsk : list Z).
Context (fetch : string -> result fetch_error NodeApi.SecretResponse) (now : Z).

Abbreviation mux_serve := (mux_ServeHTTP f json_Valid gcm_Open nsk fetch now).
Abbreviation notify_serve := (notify_ServeHTTP f json_Valid gcm_Open nsk fetch now).
Abbreviation serve_on := (serve f json_Valid gcm_Open nsk fetch now).

(** The middleware that looks at method and path tells the syncer exactly
    what the routed report request changed, and nothing for any other. *)
Theorem notify_refines q path st : URL_Path q = Some path ->
  notify_serve path q st =
    match Mux (rq_method q) (rq_escapedPath q) with
    | Routed (RPutReport k) =>
        reportNotifyMiddleware f json_Valid (PutRequest now k (rq_ifMatch q) (rq_body q)) st
    | Routed (RDeleteReport k) => reportNotifyMiddleware f json_Valid (DeleteRequest k) st
    | _ => let '(resp, st) := mux_serve q st in (resp, None, st)
    end.
Proof.
  intros Hu. unfold notify_ServeHTTP, mux_ServeHTTP.
  destruct (Mux (rq_method q) (rq_escapedPath q)) as [r| | |] eqn:Em; [|by rewrite !andb_false_r..].
  pose proof (routed_path _ _ _ _ Em Hu) as Hp. apply Mux_routed in Em as (Hm & _).
  assert (Hm' : rq_method q <> "HEAD" -> rq_method q = route_method r) by (intros ?; by rewrite decide_False in Hm).
  assert (Hg : route_method r = "GET" -> bool_decide (rq_method q = "PUT") = false /\
    bool_decide (rq_method q = "DELETE") = false).
  { intros Hr. rewrite !bool_decide_eq_false. destruct (decide (rq_method q = "HEAD")) as [->|]; [done|].
    rewrite Hm', Hr by done. done. }
  destruct r as [| |k| |k| |k| |k|k|k]; try (destruct (Hg eq_refl) as [-> ->]; by destruct (handle_route _ _ _ _ _ _ _ _ _)).
  - rewrite Hm' by (intros E; by rewrite decide_True in Hm). cbn [route_method handle_route].
    change (bool_decide ("PUT" = "PUT")) with true. change (bool_decide ("PUT" = "DELETE")) with false. cbn [andb].
    pose proof (handlePutReport_status f json_Valid now k (rq_ifMatch q) (rq_body q) st) as Hrs.
    unfold reportNotifyMiddleware. destruct (handlePutReport _ _ _ _ _ _ _) as [resp st'] eqn:Eh.
    cbn [fst] in Hrs. rewrite (recorded_status_eq _ Hrs).
    apply handlePutReport_cases in Eh as [[Hs ->]|(Hs & Hk & _)].
    + rewrite bool_decide_eq_false_2 by done. rewrite decide_False by done. by rewrite andb_false_r.
    + destruct (report_path k) as [Hi Hx]; [by apply validReportKey_plain in Hk as []|].
      change (String "/" _) with (String.append "/v1/state/report/" k) in Hp. rewrite Hp, Hi, Hx, Hs. done.
  - rewrite Hm' by (intros E; by rewrite decide_True in Hm). cbn [route_method handle_route].
    change (bool_decide ("DELETE" = "PUT")) with false. change (bool_decide ("DELETE" = "DELETE")) with true. cbn [andb].
    unfold reportNotifyMiddleware, handleDeleteReport. destruct (validReportKey k) eqn:Hk; cbn [negb];
      [|by rewrite andb_false_r].
    destruct (report_path k) as [Hi Hx]; [by apply validReportKey_plain in Hk as []|].
    change (String "/" _) with (String.append "/v1/state/report/" k) in Hp. rewrite Hp, Hi, Hx.
    destruct (DeleteReport k st) as [[[]|] st']; done.
Qed.

(** A body with the value of a secret. *)
Definition reveals (b : body) : Prop :=
  match b with BSecret _ _ _ => True | _ => False end.

Definition is_secret (r : route) : Prop :=
  match r with RSecretsList | RSecretValue _ => True | _ => False end.

(** Root, or a member of plexd-secrets, in the context of a request. *)
Definition authorised_ctx (ctx : context) : Prop :=
  exists cred, ctx = Some cred /\ (pc_UID cred = 0 \/ IsInGroup (pc_UID cred) (pc_GID cred) "plexd-secrets" = true).

(** The same of the process the kernel names as the other end of the socket. *)
Definition authorised (c : conn) : Prop :=
  cn_unix c = true /\ exists u, cn_ucred c = Some u /\
    (uc_Uid u = 0 \/ IsInGroup (uc_Uid u) (uc_Gid u) "plexd-secrets" = true).

(** The ids of a [unix.Ucred] are uint32. *)
Definition wf_conn (c : conn) : Prop :=
  forall u, cn_ucred c = Some u -> 0 <= uc_Uid u < 2 ^ 32 /\ 0 <= uc_Gid u < 2 ^ 32.

Lemma authorised_conn c : wf_conn c -> authorised_ctx (connContextWithPeerCred None c) -> authorised c.
Proof.
  intros Hw (cred & Hc & Ha). unfold connContextWithPeerCred, GetPeerCredentials in Hc.
  destruct (cn_unix c) eqn:Eu; [|done]. destruct (cn_syscall c); [|done]. destruct (cn_control c); [|done].
  cbn [negb] in Hc. destruct (cn_ucred c) as [u|] eqn:Ec; [|done]. injection Hc as <-. cbn [pc_UID pc_GID] in Ha.
  destruct (Hw u Ec) as [Hu Hg]. unfold to_uint32 in Ha. rewrite !Z.mod_small in Ha by done. split; eauto.
Qed.

Lemma authorised_cred c cred : wf_conn c -> GetPeerCredentials c = Ok cred -> authorised c -> authorised_ctx (Some cred).
Proof.
  intros Hw Hc (Hun & u & Hu & Ha). unfold GetPeerCredentials in Hc. rewrite Hun in Hc.
  destruct (cn_syscall c); [|done]. destruct (cn_control c); [|done]. cbn [negb] in Hc. rewrite Hu in Hc.
  injection Hc as <-. eexists. split; [done|]. cbn [pc_UID pc_GID].
  destruct (Hw u Hu) as [Hu' Hg']. unfold to_uint32. by rewrite !Z.mod_small.
Qed.

Lemma reveals_route q st : reveals (rp_body (mux_serve q st).1) ->
  exists r, Mux (rq_method q) (rq_escapedPath q) = Routed r /\ is_secret r.
Proof.
  unfold mux_ServeHTTP. destruct (Mux _ _) as [r| | |]; [|done..]. intros Hr. exists r. split; [done|]. revert Hr.
  destruct r as [| |k| |k| |k| |k|k|k]; cbn [handle_route is_secret]; try done.
  - unfold handleGetMetadataKey. by destruct (GetMetadataKey _ _).
  - unfold handleGetDataKey. by destruct (GetDataEntry _ _).
  - unfold handleGetReportKey. destruct (negb _); [done|]. by destruct (GetReport _ _).
  - unfold handlePutReport. repeat case_match; done.
  - unfold handleDeleteReport. repeat case_match; done.
Qed.

Lemma notify_response path q st : (notify_serve path q st).1.1 = (mux_serve q st).1.
Proof. unfold notify_ServeHTTP. by destruct (mux_serve q st). Qed.

Lemma secret_prefix m p r path : Mux m p = Routed r -> is_secret r -> PathUnescape p = Some path ->
  HasPrefix path "/v1/state/secrets" = true.
Proof.
  intros Hm Hs Hu. rewrite (routed_path _ _ _ _ Hm Hu). unfold HasPrefix.
  destruct r as [| |k| |k| |k| |k|k|k]; done.
Qed.

Lemma SecretAuth_cases next q st :
  (authorised_ctx (rq_ctx q) /\ SecretAuthMiddleware next q st = next q st) \/
  (~ authorised_ctx (rq_ctx q) /\ SecretAuthMiddleware next q st = (writeSecretAuthError, None, st)).
Proof.
  unfold SecretAuthMiddleware, authorised_ctx, contextPeerCred. destruct (rq_ctx q) as [cred|].
  - case_decide; [left; eauto|]. destruct (IsInGroup _ _ _) eqn:Eg; [left; eauto|].
    right. split; [|done]. intros (c & [= <-] & [?|?]); congruence.
  - right. split; [|done]. by intros (? & ? & _).
Qed.

Lemma Bearer_cases token next q st : token <> "" ->
  (bearer_token (rq_Authorization q) = Some token /\ BearerAuthMiddleware token next q st = next q st) \/
  (bearer_token (rq_Authorization q) <> Some token /\
     BearerAuthMiddleware token next q st = (writeAuthError, None, st)).
Proof.
  intros Ht. unfold BearerAuthMiddleware. case_decide as Ha.
  - right. rewrite Ha. split; [by vm_compute|done].
  - destruct (bearer_token _) as [t|]; [|by right]. case_decide; [left; by subst|right; split; [congruence|done]].
Qed.

Lemma Start_ok `{Codec (gmap string string)} `{Codec (list SecretRef)} `{Codec DataEntry} cfg env st sock ls st' sock' :
  Start cfg env st sock = (Ok ls, st', sock') ->
  ls_secretAuth ls = nc_SecretAuthEnabled cfg /\
  ls_token ls = (if nc_HTTPEnabled cfg then readTokenFile (se_read env) (nc_HTTPTokenFile cfg) else None) /\
  (forall t, ls_token ls = Some t -> t <> "").
Proof.
  unfold Start. repeat (case_match; try done); intros [= <- <- <-]; cbn.
  - split_and!; [done|done|]. intros t [= <-]. unfold readTokenFile in *. by repeat (case_match || case_decide; simplify_eq).
  - done.
Qed.

(** C11. What requests get from a started server.  With [SecretAuthEnabled],
    which is off by default and which [plexd up] turns on, the value of a secret
    leaves the socket only to a process the kernel says is root or of the group
    plexd-secrets; other processes are refused on both secret routes and change
    nothing there; an authorised process gets the handler's answer.  The names
    and versions of the secrets are no secret: [GET /v1/state] shows them to
    every process on the socket.  Without the setting every process gets every
    handler's answer.  Over TCP a request gets the handler's answer exactly with
    the token of the token file, which is not empty, and is refused without
    effect otherwise. *)
Theorem access_control `{Codec (gmap string string)} `{Codec (list SecretRef)} `{Codec DataEntry}
    cfg env st0 sock ls st1 sock' v q st resp note st' :
  Start cfg env st0 sock = (Ok ls, st1, sock') ->
  serve_on ls v q st = Some (resp, note, st') ->
  match v with
  | Unix c => wf_conn c ->
      if nc_SecretAuthEnabled cfg then
        (reveals (rp_body resp) -> authorised c) /\
        (forall r, Mux (rq_method q) (rq_escapedPath q) = Routed r -> is_secret r -> ~ authorised c ->
           resp = writeSecretAuthError /\ note = None /\ st' = st) /\
        (forall cred, GetPeerCredentials c = Ok cred -> authorised c -> resp = (mux_serve (with_ctx (Some cred) q) st).1) /\
        (Mux (rq_method q) (rq_escapedPath q) = Routed RState -> resp = handleGetState st.1)
      else resp = (mux_serve (with_ctx (connContextWithPeerCred None c) q) st).1
  | Tcp =>
      exists token, token <> "" /\ readTokenFile (se_read env) (nc_HTTPTokenFile cfg) = Some token /\
        (bearer_token (rq_Authorization q) = Some token -> resp = (mux_serve (with_ctx None q) st).1) /\
        (bearer_token (rq_Authorization q) <> Some token -> resp = writeAuthError /\ note = None /\ st' = st)
  end.
Proof.
  intros (Hsa & Ht & Hne)%Start_ok. unfold serve.
  destruct (URL_Path q) as [path|] eqn:Hu; [|done]. cbn [mbind option_bind]. destruct v as [c|].
  - rewrite Hsa. set (q' := with_ctx (connContextWithPeerCred None c) q).
    assert (Hn : (notify_serve path q' st).1.1 = (mux_serve q' st).1) by apply notify_response.
    destruct (nc_SecretAuthEnabled cfg); intros [= Hs] Hw; [|by rewrite Hs in Hn].
    unfold wrapSecretAuth in Hs.
    assert (Hsec : forall r, Mux (rq_method q) (rq_escapedPath q) = Routed r -> is_secret r ->
      HasPrefix path "/v1/state/secrets" = true) by (intros r Hr Hi; exact (secret_prefix _ _ _ _ Hr Hi Hu)).
    assert (Hst : Mux (rq_method q) (rq_escapedPath q) = Routed RState -> resp = handleGetState st.1).
    { intros Hm. rewrite (routed_path _ _ _ _ Hm Hu) in Hs, Hn. change (HasPrefix _ _) with false in Hs.
      cbv iota in Hs. rewrite Hs in Hn. cbn [fst] in Hn. rewrite Hn. unfold mux_ServeHTTP. cbn [rq_method rq_escapedPath q' with_ctx].
      by rewrite Hm. }
    destruct (SecretAuth_cases (notify_serve path) q' st) as [[Ha E]|[Ha E]]; rewrite E in Hs.
    + apply (authorised_conn c Hw) in Ha. split_and!; [done|done| |done]. intros cred Ec _.
      assert (Hs' : notify_serve path q' st = (resp, note, st')) by by destruct (HasPrefix path _).
      rewrite Hs' in Hn. cbn [fst] in Hn. rewrite Hn. subst q'. unfold connContextWithPeerCred. by rewrite Ec.
    + split_and!; [| | |done].
      * intros Hr. destruct (HasPrefix path _) eqn:Hp; [by simplify_eq|].
        rewrite Hs in Hn. cbn [fst] in Hn. rewrite Hn in Hr.
        apply reveals_route in Hr as (r & Hm & Hi). by specialize (Hsec r Hm Hi).
      * intros r Hm Hi _. rewrite (Hsec r Hm Hi) in Hs. by simplify_eq.
      * intros cred Ec Hc. destruct Ha. subst q'. unfold connContextWithPeerCred. rewrite Ec.
        by apply (authorised_cred c cred Hw Ec).
  - destruct (ls_token ls) as [token|]; [|done]. cbn [mbind option_bind]. intros [= Hs].
    specialize (Hne token eq_refl). exists token.
    pose proof (notify_response path (with_ctx None q) st) as Hn.
    destruct (Bearer_cases token (notify_serve path) (with_ctx None q) st Hne) as [[Hb E]|[Hb E]]; rewrite E in Hs;
      (split_and!; [done|by destruct (nc_HTTPEnabled cfg)|intros Hb'|intros Hb']); try done.
    + by rewrite Hs in Hn.
    + by simplify_eq.
Qed.

(** A start that fails after the socket was opened leaves no socket file
    behind, if files can be removed, and one that fails before does not make
    one; a successful start has a socket that is not open to all, provided the
    group plexd exists and owner and mode can be set. *)
Theorem Start_socket `{Codec (gmap string string)} `{Codec (list SecretRef)} `{Codec DataEntry}
    cfg env st sock r st' sock' :
  Start cfg env st sock = (r, st', sock') -> se_remove env = true ->
  match r with
  | Err (BadConfig _) | Err (CacheError _) => sock' = sock
  | Err _ => sock' = None
  | Ok _ => exists s, sock' = Some s /\
      (forall g gid, LookupGroup "plexd" = Some g -> Atoi g = Some gid -> se_chown env = true -> se_chmod env = true ->
         s = mkSocket 0 gid 0x1B0)
  end.
Proof.
  unfold Start, remove_socket. intros Hs Hr. rewrite Hr in Hs.
  assert (Hp : forall g gid, LookupGroup "plexd" = Some g -> Atoi g = Some gid -> se_chown env = true ->
    se_chmod env = true -> applySocketPermissions (se_chown env) (se_chmod env) (se_socket env) = mkSocket 0 gid 0x1B0).
  { intros g gid Hg Hi -> ->. unfold applySocketPermissions, SetSocketPermissions. by rewrite Hg, Hi. }
  repeat (case_match; simplify_eq; try done); eexists; (split; [reflexivity|exact Hp]).
Qed.

End theorems.

(** ** Witnesses *)

Import SimCodec.

#[local] Instance ex_order : MapOrder := id_order.
#[local] Instance ex_users : UserDB := {|
  LookupGroup := fun g => if decide (g = "plexd-secrets") then Some "990" else None;
  LookupId := fun u => if decide (u = "1001") then Some (Some ["100"; "990"]) else Some (Some ["100"])
|}.

Definition ex_nodeapi : Config := ApplyDefaults (mkConfig "" true "" "/etc/plexd/http-token" 0 0 "/var/lib/plexd" true).
Definition ex_start : start_env :=
  mkStartEnv true true true true (mkSocket 0 0 0x1ED) true true (fun _ => Registration.FileContent "s3cret").
Definition ex_listeners : listeners := mkListeners true (Some "s3cret").
Definition ex_fetch (key : string) : result fetch_error NodeApi.SecretResponse :=
  Ok (NodeApi.mkSecretResponse key "AAAA" "AAAAAAAAAAAAAAAA" 1).
Definition ex_open (nsk nonce c : list Z) : option (list Z) := Some [104; 105].

(** A percent-encoded path to a secret, and a process of another group. *)
Definition ex_secret_req : http_req := mkReq "GET" "/v1/state/%73ecrets/db%2Fpassword" "" None "" None.
Definition ex_conn (uid : Z) : conn := mkConn true true true (Some (mkUcred 7 uid 100)).
Definition ex_state : StateCache * disk := (NewStateCache [], mkDisk ∅ {[ [] ]}).
Definition ex_serve : listeners -> via -> http_req -> (StateCache * disk) -> _ :=
  serve (fun _ => NoFault) (fun _ => true) ex_open (replicate 32 1) ex_fetch 0.
Definition ex_started : (StateCache * disk) * option socket_file :=
  let r := Start ex_nodeapi ex_start ex_state None in (r.1.2, r.2).

Lemma ex_server_starts : Start ex_nodeapi ex_start ex_state None = (Ok ex_listeners, ex_started.1, ex_started.2).
Proof.
  unfold ex_started. assert (E : (Start ex_nodeapi ex_start ex_state None).1.1 = Ok ex_listeners) by by vm_compute.
  destruct (Start _ _ _ _) as [[r st] sock]. cbn in *. by rewrite E.
Qed.

Lemma ex_conn_wf uid : 0 <= uid < 2 ^ 32 -> wf_conn (ex_conn uid).
Proof. intros Hu u [= <-]. cbn. lia. Qed.

Lemma access_control_witness :
  (exists n st, ex_serve ex_listeners (Unix (ex_conn 1002)) ex_secret_req ex_state = Some (writeSecretAuthError, n, st)) /\
  (exists n st, ex_serve ex_listeners (Unix (ex_conn 1001)) ex_secret_req ex_state
     = Some (mkResponse 200 (BSecret "db/password" "hi" 1), n, st)).
Proof.
  destruct (ex_serve ex_listeners (Unix (ex_conn 1002)) ex_secret_req ex_state) as [[[resp n] st]|] eqn:E;
    [|by vm_compute in E].
  destruct (access_control (fun _ => NoFault) (fun _ => true) ex_open (replicate 32 1) ex_fetch 0
    ex_nodeapi ex_start ex_state None ex_listeners ex_started.1 ex_started.2 (Unix (ex_conn 1002)) ex_secret_req
    ex_state resp n st ex_server_starts E (ex_conn_wf 1002 ltac:(lia))) as (_ & Hd & _).
  destruct (Hd (RSecretValue "db/password") ltac:(by vm_compute) I) as (-> & -> & ->).
  - intros (_ & u & [= <-] & [?|Hg]); [done|by vm_compute in Hg].
  - split; [by eauto|]. by do 2 eexists.
Defined.

Lemma Start_socket_witness : exists s, ex_started.2 = Some s.
Proof.
  destruct (Start_socket ex_nodeapi ex_start ex_state None _ _ _ ex_server_starts eq_refl) as (s & Hs & _). eauto.
Defined.

Definition ex_put : http_req :=
  mkReq "PUT" "/v1/state/report/health" "" None "" (Some (mkPutRequest "text/plain" "1")).
Lemma ex_put_path : URL_Path ex_put = Some "/v1/state/report/health".
Proof. by vm_compute. Qed.

Lemma notify_refines_witness :
  notify_ServeHTTP (fun _ => NoFault) (fun _ => true) ex_open [] ex_fetch 5 "/v1/state/report/health" ex_put ex_state
  = reportNotifyMiddleware (fun _ => NoFault) (fun _ => true)
      (PutRequest 5 "health" "" (Some (mkPutRequest "text/plain" "1"))) ex_state.
Proof.
  exact (notify_refines (fun _ => NoFault) (fun _ => true) ex_open [] ex_fetch 5 ex_put
    "/v1/state/report/health" ex_state ex_put_path).
Defined.
