(* ===== verification/Agent.v ===== *)
(** * The agent (src/internal/agent: heartbeat.go, config.go)

    The heartbeat service, whose callbacks act on a world, and the
    configuration that holds those of all components.  The YAML decoder is an
    argument. *)

From Stdlib Require Import String.
From stdpp Require Import base strings list gmap.
From S2P Require Import Prelude Types Reconnect.
From S2P Require Reconcile WireGuard Policy NatTraversal BridgeCfg Tunnel Integrity Registration ActionRun Forwarder NodeAuth.

(** ** Heartbeats (heartbeat.go) *)

Definition DefaultHeartbeatInterval : Z := 30 * second.

Record HeartbeatConfig := mkHeartbeatConfig { hc_Interval : Z; hc_NodeID : string }.

Definition HeartbeatConfig_ApplyDefaults (c : HeartbeatConfig) : HeartbeatConfig :=
  mkHeartbeatConfig (if decide (hc_Interval c = 0) then DefaultHeartbeatInterval else hc_Interval c) (hc_NodeID c).

Definition HeartbeatConfig_Validate (c : HeartbeatConfig) : option string :=
  if decide (hc_NodeID c = "") then Some "agent: heartbeat config: NodeID is required" else None.

Definition zero_request : HeartbeatRequest := mkHeartbeatRequest "" 0 "" "" "" None None None None None None.

Section heartbeat.
Context {W : Type}.

(** A callback that is not set is [None]. *)
Record HeartbeatService := mkHeartbeatService {
  hs_cfg : HeartbeatConfig;
  hs_client : string -> HeartbeatRequest -> W -> result go_error HeartbeatResponse * W;
  hs_reconciler : option (W -> W);
  hs_onAuthFailure : option (W -> W);
  hs_onRotateKeys : option (W -> W);
  hs_buildRequest : option (W -> HeartbeatRequest * W)
}.

Definition NewHeartbeatService cfg client : HeartbeatService :=
  mkHeartbeatService (HeartbeatConfig_ApplyDefaults cfg) client None None None None.

Definition SetReconcileTrigger (rt : W -> W) (s : HeartbeatService) : HeartbeatService :=
  mkHeartbeatService (hs_cfg s) (hs_client s) (Some rt) (hs_onAuthFailure s) (hs_onRotateKeys s) (hs_buildRequest s).
Definition SetOnAuthFailure (fn : W -> W) (s : HeartbeatService) : HeartbeatService :=
  mkHeartbeatService (hs_cfg s) (hs_client s) (hs_reconciler s) (Some fn) (hs_onRotateKeys s) (hs_buildRequest s).
Definition SetOnRotateKeys (fn : W -> W) (s : HeartbeatService) : HeartbeatService :=
  mkHeartbeatService (hs_cfg s) (hs_client s) (hs_reconciler s) (hs_onAuthFailure s) (Some fn) (hs_buildRequest s).
Definition SetBuildRequest (fn : W -> HeartbeatRequest * W) (s : HeartbeatService) : HeartbeatService :=
  mkHeartbeatService (hs_cfg s) (hs_client s) (hs_reconciler s) (hs_onAuthFailure s) (hs_onRotateKeys s) (Some fn).

Definition call (fn : option (W -> W)) (w : W) : W := match fn with Some f => f w | None => w end.

Definition sendHeartbeat (s : HeartbeatService) (w : W) : W :=
  let '(req, w) := match hs_buildRequest s with Some b => b w | None => (zero_request, w) end in
  match hs_client s (hc_NodeID (hs_cfg s)) req w with
  | (Err err, w) => if errors_Is err ErrUnauthorized then call (hs_onAuthFailure s) w else w
  | (Ok resp, w) =>
      let w := if hbr_Reconcile resp then call (hs_reconciler s) w else w in
      if hbr_RotateKeys resp then call (hs_onRotateKeys s) w else w
  end.

(** What the select takes: a tick, or the cancelled context; the world may
    change in between.  [None]: still running at the end of the list. *)
Inductive beat := Tick (between : W -> W) | Done.

Fixpoint beat_loop (s : HeartbeatService) (l : list beat) (w : W) : option unit * W :=
  match l with
  | [] => (None, w)
  | Done :: _ => (Some tt, w)
  | Tick between :: l => beat_loop s l (sendHeartbeat s (between w))
  end.

(** [time.NewTicker] panics on an interval that is not positive. *)
Definition Run (s : HeartbeatService) (l : list beat) (w : W) : outcome (option unit) * W :=
  let w := sendHeartbeat s w in
  if decide (hc_Interval (hs_cfg s) <= 0) then (Panics, w)
  else let '(r, w) := beat_loop s l w in (Returns r, w).

End heartbeat.

(** ** Configuration (config.go) *)

Definition DefaultMode : string := "node".
Definition DefaultLogLevel : string := "info".
Definition DefaultDataDir : string := "/var/lib/plexd".

Record AgentConfig := mkAgentConfig {
  ag_Mode : string;
  ag_LogLevel : string;
  ag_DataDir : string;
  ag_API : Reconnect.Config;
  ag_Registration : Registration.Config;
  ag_Reconcile : Reconcile.Config;
  ag_NodeAPI : NodeAuth.Config;
  ag_Actions : ActionRun.Config;
  ag_Policy : Policy.Config;
  ag_WireGuard : WireGuard.Config;
  ag_Metrics : Forwarder.Config;
  ag_LogFwd : Forwarder.Config;
  ag_AuditFwd : Forwarder.Config;
  ag_Integrity : Integrity.Config;
  ag_Tunnel : Tunnel.Config;
  ag_NAT : NatTraversal.Config.t;
  ag_PeerExchange : NatTraversal.Config.t;
  ag_Bridge : BridgeCfg.Config;
  ag_Heartbeat : HeartbeatConfig
}.

Definition ApplyDefaults (c : AgentConfig) : AgentConfig :=
  let str s def := if decide (s = "") then def else s in
  mkAgentConfig (str (ag_Mode c) DefaultMode) (str (ag_LogLevel c) DefaultLogLevel) (str (ag_DataDir c) DefaultDataDir)
    (Reconnect.ApplyDefaults (ag_API c))
    (Registration.ApplyDefaults (ag_Registration c))
    (Reconcile.ApplyDefaults (ag_Reconcile c))
    (NodeAuth.ApplyDefaults (ag_NodeAPI c))
    (ActionRun.ApplyDefaults (ag_Actions c))
    (Policy.ApplyDefaults (ag_Policy c))
    (WireGuard.ApplyDefaults (ag_WireGuard c))
    (Forwarder.Metrics.ApplyDefaults (ag_Metrics c))
    (Forwarder.Log.ApplyDefaults (ag_LogFwd c))
    (Forwarder.Audit.ApplyDefaults (ag_AuditFwd c))
    (Integrity.ApplyDefaults (ag_Integrity c))
    (Tunnel.ApplyDefaults (ag_Tunnel c))
    (NatTraversal.Config.ApplyDefaults (ag_NAT c))
    (NatTraversal.Config.ApplyDefaults (ag_PeerExchange c))
    (BridgeCfg.ApplyDefaults (ag_Bridge c))
    (HeartbeatConfig_ApplyDefaults (ag_Heartbeat c)).

(** The component whose configuration was refused. *)
Inductive section :=
| SAPI | SRegistration | SReconcile | SNodeAPI | SActions | SPolicy | SWireGuard | SMetrics | SLogFwd | SAuditFwd
| SIntegrity | STunnel | SNAT | SPeerExchange | SBridge | SHeartbeat.

Inductive config_error := InvalidMode (m : string) | InvalidSection (s : section) | ReadFailed | ParseFailed.

Definition sections (c : AgentConfig) : list (section * bool) :=
  let bad {E} (e : option E) := bool_decide (is_Some e) in
  [ (SAPI, bad (Reconnect.Validate (ag_API c)));
    (SRegistration, bad (Registration.Validate (ag_Registration c)));
    (SReconcile, bad (Reconcile.Validate (ag_Reconcile c)));
    (SNodeAPI, bad (NodeAuth.Validate (ag_NodeAPI c)));
    (SActions, bad (ActionRun.Validate (ag_Actions c)));
    (SPolicy, bad (Policy.Validate (ag_Policy c)));
    (SWireGuard, bad (WireGuard.Validate (ag_WireGuard c)));
    (SMetrics, bad (Forwarder.Metrics.Validate (ag_Metrics c)));
    (SLogFwd, bad (Forwarder.Log.Validate (ag_LogFwd c)));
    (SAuditFwd, bad (Forwarder.Audit.Validate (ag_AuditFwd c)));
    (SIntegrity, bad (Integrity.Validate (ag_Integrity c)));
    (STunnel, bad (Tunnel.Validate (ag_Tunnel c)));
    (SNAT, bad (NatTraversal.Config.Validate (ag_NAT c)));
    (SPeerExchange, bad (NatTraversal.Config.Validate (ag_PeerExchange c)));
    (SBridge, bad (BridgeCfg.Validate (ag_Bridge c)));
    (SHeartbeat, bad (HeartbeatConfig_Validate (ag_Heartbeat c))) ].

(** The first section that is refused. *)
Fixpoint first_bad (l : list (section * bool)) : option config_error :=
  match l with
  | [] => None
  | (s, bad) :: l => if bad : bool then Some (InvalidSection s) else first_bad l
  end.

Definition Validate (c : AgentConfig) : option config_error :=
  if decide (ag_Mode c <> "node" /\ ag_Mode c <> "bridge") then Some (InvalidMode (ag_Mode c))
  else first_bad (sections c).

(** [file] is what reading the path gives. *)
Definition ParseConfig (yaml_Unmarshal : list Z -> option AgentConfig) (file : option (list Z))
    : result config_error AgentConfig :=
  match file with
  | None => Err ReadFailed
  | Some data =>
      match yaml_Unmarshal data with
      | None => Err ParseFailed
      | Some cfg =>
          let cfg := ApplyDefaults cfg in
          match Validate cfg with
          | Some e => Err e
          | None => Ok cfg
          end
      end
  end.

(** ** Lemmas *)

Lemma first_bad_None l : first_bad l = None <-> Forall (fun sb => sb.2 = false) l.
Proof.
  induction l as [|[s []] l IH]; cbn; [done|split; [done|by inversion 1]|].
  rewrite Forall_cons. naive_solver.
Qed.

Lemma first_bad_Some l s : first_bad l = Some (InvalidSection s) -> (s, true) ∈ l.
Proof.
  induction l as [|[s' []] l IH]; cbn; [done| |]; intros Hs.
  - injection Hs as ->. left.
  - right. by apply IH.
Qed.

Lemma not_bad {E} (e : option E) : bool_decide (is_Some e) = false -> e = None.
Proof. intros H%bool_decide_eq_false. destruct e; [destruct H; eauto|done]. Qed.

(** Applying defaults twice, section by section. *)
Lemma dflt_idem {A} `{EqDecision A} (x z d : A) :
  (if decide ((if decide (x = z) then d else x) = z) then d else if decide (x = z) then d else x)
  = if decide (x = z) then d else x.
Proof. by repeat case_decide. Qed.

Lemma forwarder_idem a b n c : a <> 0 -> 
  Forwarder.apply_defaults a b n (Forwarder.apply_defaults a b n c) = Forwarder.apply_defaults a b n c.
Proof.
  intros Ha. destruct c as [e x y z]. unfold Forwarder.apply_defaults. cbn. rewrite !dflt_idem. f_equal.
  destruct (decide (x = 0 /\ y = 0 /\ z = 0)) as [(-> & -> & ->)|Hn]; cbn; [by repeat case_decide|].
  destruct (decide (_ /\ _)) as [(Hx & _)|]; [|done]. by case_decide.
Qed.

Lemma nat_idem c : NatTraversal.Config.ApplyDefaults (NatTraversal.Config.ApplyDefaults c) = NatTraversal.Config.ApplyDefaults c.
Proof.
  destruct c as [e srv r t]. unfold NatTraversal.Config.ApplyDefaults. cbn. rewrite !dflt_idem. by destruct srv.
Qed.

(** One heartbeat after another, with what happens in between. *)
Definition beats {W} (s : HeartbeatService (W := W)) (l : list (W -> W)) (w : W) : W :=
  foldl (fun w between => sendHeartbeat s (between w)) w l.

Lemma beat_loop_ticks {W} (s : HeartbeatService (W := W)) l rest w :
  beat_loop s ((Tick <$> l) ++ rest) w = beat_loop s rest (beats s l w).
Proof. revert w. induction l as [|b l IH]; intros w; [done|]. cbn. by rewrite IH. Qed.

(** ** Theorems *)

(** What [ParseConfig] accepts: the operating mode and every section of the
    result are valid, also those of parts that are switched off or that the
    caller fills in later: data directories and node id cannot be empty. *)
Theorem ParseConfig_spec yaml file cfg : ParseConfig yaml file = Ok cfg ->
  (ag_Mode cfg = "node" \/ ag_Mode cfg = "bridge") /\ Forall (fun sb => sb.2 = false) (sections cfg) /\
  Reconnect.BaseURL (ag_API cfg) <> "" /\ Registration.rc_DataDir (ag_Registration cfg) <> "" /\
  NodeAuth.nc_DataDir (ag_NodeAPI cfg) <> "" /\ hc_NodeID (ag_Heartbeat cfg) <> "" /\
  exists data dec, file = Some data /\ yaml data = Some dec /\ cfg = ApplyDefaults dec.
Proof.
  unfold ParseConfig. destruct file as [data|]; [|done]. destruct (yaml data) as [dec|] eqn:Ey; [|done].
  unfold Validate. destruct (decide _) as [|Hm]; [done|].
  destruct (first_bad _) eqn:Ef; [done|]. intros [= <-]. apply first_bad_None in Ef.
  assert (Hs : forall i s b, sections (ApplyDefaults dec) !! i = Some (s, b) -> b = false)
    by (intros i s b Hi; exact (Forall_lookup_1 _ _ i (s, b) Ef Hi)).
  split_and!; [|exact Ef|..|by eauto].
  - destruct (decide (ag_Mode (ApplyDefaults dec) = "node")); [by left|right]. apply dec_stable. naive_solver.
  - pose proof (not_bad _ (Hs 0%nat SAPI _ eq_refl)) as E.
    unfold Reconnect.Validate in E. by case_decide.
  - pose proof (not_bad _ (Hs 1%nat SRegistration _ eq_refl)) as E.
    unfold Registration.Validate in E. by case_decide.
  - pose proof (not_bad _ (Hs 3%nat SNodeAPI _ eq_refl)) as E.
    unfold NodeAuth.Validate in E. by case_decide.
  - pose proof (not_bad _ (Hs 15%nat SHeartbeat _ eq_refl)) as E.
    unfold HeartbeatConfig_Validate in E. by case_decide.
Qed.

(** Applying defaults twice is applying them once, in every section: the
    constructors, which apply them again, keep the validated values. *)
Theorem ApplyDefaults_idempotent c : ApplyDefaults (ApplyDefaults c) = ApplyDefaults c.
Proof.
  destruct c as [mode lvl dir api reg rec nodeapi acts pol wg met logf aud int tun nat pex br hb].
  unfold ApplyDefaults. cbn. rewrite !dflt_idem. f_equal.
  - destruct api. unfold Reconnect.ApplyDefaults, or_default. cbn. by rewrite !dflt_idem.
  - destruct reg. unfold Registration.ApplyDefaults. cbn. by rewrite !dflt_idem.
  - destruct rec. unfold Reconcile.ApplyDefaults. cbn. by repeat case_decide.
  - destruct nodeapi. unfold NodeAuth.ApplyDefaults. cbn. by rewrite !dflt_idem.
  - destruct acts as [e d x y z]. unfold ActionRun.ApplyDefaults. cbn. rewrite !dflt_idem. f_equal.
    destruct (decide (x = 0 /\ y = 0 /\ z = 0)) as [|Hn]; [by repeat case_decide|].
    destruct (decide (_ /\ _)) as [(Hx & _)|]; [|done]. by case_decide.
  - destruct pol. unfold Policy.ApplyDefaults. cbn. by repeat (case_decide; cbn in * ).
  - destruct wg. unfold WireGuard.ApplyDefaults. cbn. by repeat (case_decide; cbn in * ).
  - by apply forwarder_idem.
  - by apply forwarder_idem.
  - by apply forwarder_idem.
  - destruct int. unfold Integrity.ApplyDefaults. cbn. by repeat (case_decide; cbn in * ).
  - destruct tun. unfold Tunnel.ApplyDefaults. cbn. by repeat (case_decide; cbn in * ).
  - apply nat_idem.
  - apply nat_idem.
  - destruct br. unfold BridgeCfg.ApplyDefaults, BridgeCfg.or_default. cbn. by rewrite !dflt_idem.
  - destruct hb. unfold HeartbeatConfig_ApplyDefaults. cbn. by rewrite !dflt_idem.
Qed.

(** With a positive interval the service beats once at the start and once per
    tick, and returns when the context is cancelled; a negative one, which no
    validation refuses, panics after the first beat. *)
Theorem Run_beats {W} (s : HeartbeatService (W := W)) l w :
  Run s ((Tick <$> l) ++ [Done]) w =
    if decide (hc_Interval (hs_cfg s) <= 0) then (Panics, sendHeartbeat s w)
    else (Returns (Some tt), beats s l (sendHeartbeat s w)).
Proof. unfold Run. case_decide; [done|]. by rewrite beat_loop_ticks. Qed.

Definition with_interval (d : Z) (c : AgentConfig) : AgentConfig :=
  mkAgentConfig (ag_Mode c) (ag_LogLevel c) (ag_DataDir c) (ag_API c) (ag_Registration c) (ag_Reconcile c)
    (ag_NodeAPI c) (ag_Actions c) (ag_Policy c) (ag_WireGuard c) (ag_Metrics c) (ag_LogFwd c) (ag_AuditFwd c)
    (ag_Integrity c) (ag_Tunnel c) (ag_NAT c) (ag_PeerExchange c) (ag_Bridge c)
    (mkHeartbeatConfig d (hc_NodeID (ag_Heartbeat c))).

(** No interval is ever refused. *)
Lemma interval_unchecked d c : Validate (with_interval d c) = Validate c.
Proof. by destruct c. Qed.

(** ** Witnesses *)

(** The zero value of every section, with the required fields. *)
Definition ex_decoded (url regdir nodedir node : string) : AgentConfig :=
  mkAgentConfig "" "" "" (Reconnect.mkConfig url false 0 0 0)
    (Registration.mkConfig regdir "" "" "" false "" 0 "" ∅ 0) (Reconcile.mkConfig 0)
    (NodeAuth.mkConfig "" false "" "" 0 0 nodedir false) (ActionRun.mkConfig false [] 0 0 0)
    (Policy.mkConfig false "") (WireGuard.mkConfig "" 0 0) (Forwarder.mkConfig false 0 0 0)
    (Forwarder.mkConfig false 0 0 0) (Forwarder.mkConfig false 0 0 0) (Integrity.mkConfig false [] [] 0)
    (Tunnel.mkConfig false 0 0 "" "") (NatTraversal.Config.mk false None 0 0) (NatTraversal.Config.mk false None 0 0)
    (BridgeCfg.mkConfig false "" [] None false 0 0 0 false "" 0 0 false 0 0 false "" 0 0)
    (mkHeartbeatConfig 0 node).

Definition ex_yaml (data : list Z) : option AgentConfig :=
  if decide (data = [1]) then Some (ex_decoded "https://cp" "/d" "/d" "n1") else None.
Definition ex_agent_config : AgentConfig := ApplyDefaults (ex_decoded "https://cp" "/d" "/d" "n1").
Lemma ex_parsed : ParseConfig ex_yaml (Some [1]) = Ok ex_agent_config.
Proof. by vm_compute. Qed.

Lemma ParseConfig_spec_witness :
  ag_Mode ex_agent_config = "node" /\ Forall (fun sb => sb.2 = false) (sections ex_agent_config).
Proof. destruct (ParseConfig_spec ex_yaml (Some [1]) ex_agent_config ex_parsed) as (_ & Hs & _). by split. Defined.
