(* ===== verification/Up.v ===== *)
(** * Starting the agent (src/cmd/plexd/cmd: up.go, join.go, deregister.go)

    What the commands do with configuration, identity and control plane, and
    the callbacks that connect heartbeat, registration, verifier and
    reconciler.  Goroutines and their shutdown are not modelled; what they run
    is, in the files of the components. *)

From Stdlib Require Import String.
From stdpp Require Import base strings list gmap.
From S2P Require Import Prelude Base64 Types Diff Verifier Sse Reconnect Fs Json Integrity Identity.
From S2P Require Reconcile NodeAuth.
From S2P Require Import Registration.
From S2P Require Client.
From S2P Require Import Agent.

(** ** Flags and configuration *)

Record flags := mkFlags { fl_api : string; fl_mode : string; fl_logLevel : string; fl_tokenFile : string }.

Definition set_BaseURL (url : string) (c : Reconnect.Config) : Reconnect.Config :=
  Reconnect.mkConfig url (TLSInsecureSkipVerify c) (ConnectTimeout c) (RequestTimeout c) (SSEIdleTimeout c).
Definition set_DataDir (dir : string) (c : Registration.Config) : Registration.Config :=
  mkConfig dir (rc_TokenFile c) (rc_TokenEnv c) (rc_TokenValue c) (rc_UseMetadata c) (rc_MetadataTokenPath c)
    (rc_MetadataTimeout c) (rc_Hostname c) (rc_Metadata c) (rc_MaxRetryDuration c).
Definition set_TokenFile (file : string) (c : Registration.Config) : Registration.Config :=
  mkConfig (rc_DataDir c) file (rc_TokenEnv c) (rc_TokenValue c) (rc_UseMetadata c) (rc_MetadataTokenPath c)
    (rc_MetadataTimeout c) (rc_Hostname c) (rc_Metadata c) (rc_MaxRetryDuration c).

Definition or_flag (flag cfg : string) : string := if decide (flag = "") then cfg else flag.

(** Flags override the parsed configuration. *)
Definition override (fl : flags) (c : AgentConfig) : AgentConfig :=
  mkAgentConfig (or_flag (fl_mode fl) (ag_Mode c)) (or_flag (fl_logLevel fl) (ag_LogLevel c)) (ag_DataDir c)
    (set_BaseURL (or_flag (fl_api fl) (BaseURL (ag_API c))) (ag_API c)) (ag_Registration c) (ag_Reconcile c)
    (ag_NodeAPI c) (ag_Actions c) (ag_Policy c) (ag_WireGuard c) (ag_Metrics c) (ag_LogFwd c) (ag_AuditFwd c)
    (ag_Integrity c) (ag_Tunnel c) (ag_NAT c) (ag_PeerExchange c) (ag_Bridge c) (ag_Heartbeat c).

(** The configuration of the client, of the registrar and of the node API that
    the commands use. *)
Definition api_cfg (fl : flags) (cfg : AgentConfig) : Reconnect.Config :=
  set_BaseURL (or_flag (fl_api fl) (BaseURL (ag_API cfg))) (ag_API cfg).
Definition registrar_cfg (cfg : AgentConfig) : Registration.Config :=
  Registration.ApplyDefaults (set_DataDir (ag_DataDir cfg) (ag_Registration cfg)).
Definition join_cfg (fl : flags) (cfg : AgentConfig) : Registration.Config :=
  let c := set_DataDir (ag_DataDir cfg) (ag_Registration cfg) in
  Registration.ApplyDefaults (set_TokenFile (or_flag (fl_tokenFile fl) (rc_TokenFile c)) c).
Definition nodeapi_cfg (cfg : AgentConfig) : NodeAuth.Config :=
  let c := ag_NodeAPI cfg in
  NodeAuth.ApplyDefaults (NodeAuth.mkConfig (NodeAuth.nc_SocketPath c) (NodeAuth.nc_HTTPEnabled c)
    (NodeAuth.nc_HTTPListen c) (NodeAuth.nc_HTTPTokenFile c) (NodeAuth.nc_DebouncePeriod c)
    (NodeAuth.nc_ShutdownTimeout c) (ag_DataDir cfg) true).
Definition heartbeat_cfg (cfg : AgentConfig) (id : NodeIdentity) : HeartbeatConfig :=
  HeartbeatConfig_ApplyDefaults (mkHeartbeatConfig (hc_Interval (ag_Heartbeat cfg)) (id_NodeID id)).

(** ** Signing keys *)

Definition ed25519_PublicKeySize : nat := 32.

(** A key that is absent or does not decode is nil. *)
Definition decode_key (s : string) : list Z := if decide (s = "") then [] else default [] (DecodeString s).
Definition decodeSigningKeys (keys : SigningKeys) : list Z * list Z * Z :=
  (decode_key (sk_Current keys), decode_key (sk_Previous keys), default 0 (sk_TransitionExpires keys)).

Definition rotate (keys : SigningKeys) (v : Ed25519Verifier) : Ed25519Verifier :=
  let '(current, prev, expires) := decodeSigningKeys keys in SetKeys v current prev expires.

(** ** The running agent *)

Inductive up_error :=
| UpConfig (e : Agent.config_error) | UpClient (msg : string) | UpRegistration (e : reg_error)
| UpDecodeKey | UpKeyLength (n : nat) | UpLoadIdentity (e : Identity.error) | UpDeregister (e : go_error).

(** What step 1 to 9 of [runUp] build. *)
Record agent := mkAgent {
  a_cfg : AgentConfig;
  a_client : Client.ControlPlane;
  a_identity : NodeIdentity;
  a_heartbeat : HeartbeatConfig;
  a_nodeapi : NodeAuth.Config;
  a_nsk : list Z
}.

Section up.
Context {N : Type} `{RegEnv N} `{Codec identity_json} `{Codec SigningKeys}.

(** What the callbacks share: the client's token, the disk and the network
    ([reg_state]), the verifier, and whether a reconcile is pending. *)
Record up_state := mkUp { u_reg : reg_state (W := N); u_verifier : Ed25519Verifier; u_trigger : bool }.

Definition set_reg (r : reg_state (W := N)) (u : up_state) : up_state := mkUp r (u_verifier u) (u_trigger u).
Definition trigger (u : up_state) : up_state := mkUp (u_reg u) (u_verifier u) true.

#[global] Instance up_verifier : HasVerifier up_state := {|
  get_verifier := u_verifier;
  set_verifier := fun v u => mkUp (u_reg u) v (u_trigger u);
  get_set_verifier := fun _ _ => eq_refl
|}.

(** The handler of signing_key_rotated events; the error is its message. *)
Definition handleSigningKeyRotated (env : SignedEnvelope) (u : up_state) : option string * up_state :=
  match Unmarshal (bytes_of_string (ev_Payload env)) with
  | None => (Some "plexd up: parse signing_key_rotated", u)
  | Some keys => (None, set_verifier (rotate keys (u_verifier u)) u)
  end.

(** The reconcile handler for signing keys. *)
Definition handleSigningKeysDiff (desired : StateResponse) (diff : StateDiff) (u : up_state)
    : Reconcile.handler_outcome (E := string) * up_state :=
  (Reconcile.HReturns None,
   match SigningKeysChanged diff, NewSigningKeys diff with
   | true, Some keys => set_verifier (rotate keys (u_verifier u)) u
   | _, _ => u
   end).

(** Registers again; the client's token is set on success. *)
Definition onAuthFailure (fuel : nat) (cfg : AgentConfig) (i : reg_input) (u : up_state) : up_state :=
  match Registration.Register fuel (registrar_cfg cfg) None i (u_reg u) with
  | (Some (Ok id), r) => set_reg (mkReg (id_NodeSecretKey id) (rs_disk r) (rs_world r)) u
  | (_, r) => set_reg r u
  end.

(** The heartbeat call of the client with the token it has. *)
Definition client_Heartbeat (call : string -> string -> HeartbeatRequest -> N -> result go_error HeartbeatResponse * N)
    (nodeID : string) (req : HeartbeatRequest) (u : up_state) : result go_error HeartbeatResponse * up_state :=
  let r := u_reg u in
  let '(resp, n) := call (rs_auth r) nodeID req (rs_world r) in
  (resp, set_reg (mkReg (rs_auth r) (rs_disk r) n) u).

Definition heartbeat_service (fuel : nat) (cfg : AgentConfig) (id : NodeIdentity) (i : reg_input)
    (call : string -> string -> HeartbeatRequest -> N -> result go_error HeartbeatResponse * N)
    : HeartbeatService (W := up_state) :=
  SetOnRotateKeys trigger (SetOnAuthFailure (onAuthFailure fuel cfg i)
    (SetReconcileTrigger trigger (NewHeartbeatService (heartbeat_cfg cfg id) (client_Heartbeat call)))).

(** ** plexd up *)

(** [None]: registration is still retrying after [fuel] rounds. *)
Definition runUp (fuel : nat) (yaml : list Z -> option AgentConfig) (file : option (list Z)) (fl : flags)
    (version : string) (i : reg_input) (now : Z) (st : reg_state (W := N))
    : option (result up_error (agent * up_state)) * reg_state (W := N) :=
  match ParseConfig yaml file with
  | Err e => (Some (Err (UpConfig e)), st)
  | Ok cfg =>
      let cfg := override fl cfg in
      match Client.NewControlPlane (ag_API cfg) version with
      | Err e => (Some (Err (UpClient e)), st)
      | Ok client =>
          match Registration.Register fuel (registrar_cfg cfg) None i st with
          | (None, st) => (None, st)
          | (Some (Err e), st) => (Some (Err (UpRegistration e)), st)
          | (Some (Ok ident), st) =>
              let st := mkReg (id_NodeSecretKey ident) (rs_disk st) (rs_world st) in
              match DecodeString (id_SigningPublicKey ident) with
              | None => (Some (Err UpDecodeKey), st)
              | Some sigKey =>
                  if decide (length sigKey <> ed25519_PublicKeySize) then
                    (Some (Err (UpKeyLength (length sigKey))), st)
                  else
                    (Some (Ok (mkAgent cfg (Client.SetAuthToken (id_NodeSecretKey ident) client) ident
                       (heartbeat_cfg cfg ident) (nodeapi_cfg cfg) (bytes_of_string (id_NodeSecretKey ident)),
                       mkUp st (NewEd25519Verifier sigKey now) false)), st)
              end
          end
      end
  end.

(** ** plexd join *)

Definition runJoin (fuel : nat) (yaml : list Z -> option AgentConfig) (file : option (list Z)) (fl : flags)
    (version : string) (i : reg_input) (st : reg_state (W := N))
    : option (result up_error NodeIdentity) * reg_state (W := N) :=
  match ParseConfig yaml file with
  | Err e => (Some (Err (UpConfig e)), st)
  | Ok cfg =>
      match Client.NewControlPlane (api_cfg fl cfg) version with
      | Err e => (Some (Err (UpClient e)), st)
      | Ok client =>
          match Registration.Register fuel (join_cfg fl cfg) None i st with
          | (None, st) => (None, st)
          | (Some (Err e), st) => (Some (Err (UpRegistration e)), st)
          | (Some (Ok ident), st) => (Some (Ok ident), st)
          end
      end
  end.

(** ** plexd deregister *)

(** [os.RemoveAll], when it succeeds. *)
Definition RemoveAll (p : path) (d : disk) : disk :=
  mkDisk (filter (fun '(q, _) => take (length p) q <> p) (d_files d))
         (filter (fun q => take (length p) q <> p) (d_dirs d)).

(** [deregister] is the client's call with the identity's token and node;
    [can_remove] whether the data directory can be removed. *)
Definition runDeregister (yaml : list Z -> option AgentConfig) (file : option (list Z)) (fl : flags) (version : string)
    (purge can_remove : bool) (rf : string -> read_fault)
    (deregister : string -> string -> N -> option go_error * N) (d : disk) (n : N)
    : result up_error string * (disk * N) :=
  match ParseConfig yaml file with
  | Err e => (Err (UpConfig e), (d, n))
  | Ok cfg =>
      match LoadIdentity rf (abs_path (ag_DataDir cfg)) d with
      | Err e => (Err (UpLoadIdentity e), (d, n))
      | Ok ident =>
          match Client.NewControlPlane (api_cfg fl cfg) version with
          | Err e => (Err (UpClient e), (d, n))
          | Ok _ =>
              match deregister (id_NodeSecretKey ident) (id_NodeID ident) n with
              | (Some e, n) => (Err (UpDeregister e), (d, n))
              | (None, n) =>
                  let d := if purge then
                             let d := if can_remove then RemoveAll (abs_path (ag_DataDir cfg)) d else d in
                             let tokenPath := rc_TokenFile (ag_Registration cfg) in
                             if decide (tokenPath = "") then d else Remove (abs_path tokenPath) d
                           else d in
                  (Ok (id_NodeID ident), (d, n))
              end
          end
      end
  end.

End up.

(** ** Lemmas *)

Lemma NewControlPlane_ok c version : BaseURL c <> "" -> exists client, Client.NewControlPlane c version = Ok client.
Proof.
  intros Hb. unfold Client.NewControlPlane, Reconnect.Validate, Reconnect.ApplyDefaults. cbn [BaseURL].
  rewrite decide_False by done. eauto.
Qed.

Lemma or_flag_nonempty f c : c <> "" -> or_flag f c <> "".
Proof. unfold or_flag. by case_decide. Qed.

(** Keys that [ed25519.Verify] takes. *)
Definition wf_keys (v : Ed25519Verifier) : Prop :=
  length (vf_currentKey v) = 32%nat /\ (vf_previousKey v = [] \/ length (vf_previousKey v) = 32%nat).
Definition wf_rotation (keys : SigningKeys) : Prop :=
  length (decode_key (sk_Current keys)) = 32%nat /\
  (decode_key (sk_Previous keys) = [] \/ length (decode_key (sk_Previous keys)) = 32%nat).

Lemma Verify_returns `{SigScheme} v e c : wf_keys v ->
  (Verify v e c).1 <> Panics /\ wf_keys (Verify v e c).2.
Proof.
  intros Hk. pose proof Hk as [Hc Hp]. unfold Verify. do 5 (case_match; [done|]).
  destruct (DecodeString _); [|done]. destruct (json_Marshal _); [|done].
  unfold ed25519_Verify. rewrite decide_True by done.
  destruct (sig_ok (vf_currentKey v) _ _); cbn [negb andb]; [by destruct (Add _ _ _ _)|].
  destruct Hp as [->|Hp]; [by rewrite bool_decide_eq_true_2|].
  destruct (bool_decide _); cbn [negb andb]; [done|]. destruct (time_before _ _); [|done].
  rewrite decide_True by done. destruct (sig_ok (vf_previousKey v) _ _); [by destruct (Add _ _ _ _)|done].
Qed.

Lemma RemoveAll_gone dir name d : plain name ->
  d_files (RemoveAll dir d) !! Join dir name = None /\ Join dir name ∉ d_dirs (RemoveAll dir d).
Proof.
  intros Hp. rewrite Join_plain by done. split; cbn.
  - apply map_lookup_filter_None. right. intros b _ Ht. by rewrite take_app_length in Ht.
  - intros [Ht _]%elem_of_filter. by rewrite take_app_length in Ht.
Qed.

Lemma LoadIdentity_missing `{Codec identity_json} dir d :
  d_files d !! Join dir f_identity = None /\ Join dir f_identity ∉ d_dirs d ->
  LoadIdentity all_read dir d = Err ErrNotRegistered.
Proof.
  intros [Hf Hd]. unfold LoadIdentity, ReadFile, not_exist, all_read. rewrite Hf.
  by rewrite bool_decide_eq_true_2.
Qed.

(** ** Theorems *)

Section theorems.
Context {N : Type} `{RegEnv N} `{CodecLaws identity_json} `{Codec SigningKeys} `{SigScheme}.

(** What happens to the verifier of a running agent: envelopes are verified,
    keys rotated by an event or by the reconciler. *)
Inductive verifier_op := VVerify (e : SignedEnvelope) (c : readings) | VRotate (keys : SigningKeys).
Definition verifier_step (v : Ed25519Verifier) (o : verifier_op) : Ed25519Verifier :=
  match o with VVerify e c => (Verify v e c).2 | VRotate keys => rotate keys v end.

(** The verifier that [runUp] creates never panics as long as every rotation
    brings a current key of 32 bytes and a previous key of 32 bytes or none. *)
Theorem verifier_never_panics fuel yaml file fl version i now st ag u st' ops e c :
  runUp (N := N) fuel yaml file fl version i now st = (Some (Ok (ag, u)), st') ->
  (forall keys, VRotate keys ∈ ops -> wf_rotation keys) ->
  (Verify (foldl verifier_step (u_verifier u) ops) e c).1 <> Panics.
Proof.
  intros Hu Hops. assert (Hw : wf_keys (u_verifier u)).
  { unfold runUp in Hu. repeat (case_match; try done). simplify_eq. split; [|by left].
    apply dec_stable. done. }
  apply Verify_returns. clear Hu. revert Hw. generalize (u_verifier u) as v.
  induction ops as [|o ops IH]; intros v Hw; [done|]. cbn [foldl]. apply IH; [intros; apply Hops; by right|].
  destruct o as [e' c'|keys]; [by apply Verify_returns|]. apply (Hops keys). by left.
Qed.

(** One rotation without such a current key is enough: the handler reports no
    error, and every envelope that reaches the signature check ends the
    process. *)
Lemma bad_rotation_panics keys v e c msg sig :
  length (decode_key (sk_Current keys)) <> 32%nat ->
  ev_Signature e <> "" -> ev_Nonce e <> "" -> ev_IssuedAt e <> 0 ->
  time_sub (t_since c) (ev_IssuedAt e) <= DefaultStalenessWindow ->
  ev_IssuedAt e <= t_future c + DefaultStalenessWindow ->
  DecodeString (ev_Signature e) = Some sig -> json_Marshal (canonical_of e) = Some msg ->
  (Verify (rotate keys v) e c).1 = Panics.
Proof.
  intros Hk H1' H2' H3' H4' H5' Hs Hm. unfold Verify, is_zero_time, time_after.
  rewrite !decide_False by (done || lia). rewrite !bool_decide_eq_false_2 by (done || lia). rewrite Hs, Hm.
  unfold ed25519_Verify, rotate, decodeSigningKeys. cbn. by rewrite decide_False.
Qed.

(** C20. A node that has joined starts with what it got: [plexd up] on the disk
    that a successful [plexd join] left makes no call to the control plane, takes
    the identity and the secret as the client's token from the files, and starts
    with a verifier that holds the control plane's signing key; it refuses to
    start exactly when that key is not 32 bytes in base64, which [plexd join]
    does not check.  The identity is one that files can hold ([storable]: node
    id and mesh address not blank, no white space around the keys), the files
    can be read, and the token file is not one of those in the data
    directory. *)
Theorem join_then_up fuel yaml file fl version i st id st' fuel' fl' i' now st2 :
  runJoin (N := N) fuel yaml file fl version i st = (Some (Ok id), st') -> storable id ->
  (forall n, in_read i n = ReadOk) -> (forall n, in_read i' n = ReadOk) ->
  (forall cfg n, ParseConfig yaml file = Ok cfg ->
     abs_path (rc_TokenFile (join_cfg fl cfg)) <> abs_path (ag_DataDir cfg) ++ [n]) ->
  rs_disk st2 = rs_disk st' ->
  let '(r, st3) := runUp fuel' yaml file fl' version i' now st2 in
  st3 = mkReg (id_NodeSecretKey id) (rs_disk st2) (rs_world st2) /\
  match DecodeString (id_SigningPublicKey id) with
  | None => r = Some (Err UpDecodeKey)
  | Some k =>
      if decide (length k = ed25519_PublicKeySize) then
        exists ag, r = Some (Ok (ag, mkUp st3 (NewEd25519Verifier k now) false)) /\
          a_identity ag = id /\ Client.cp_authToken (a_client ag) = id_NodeSecretKey id
      else r = Some (Err (UpKeyLength (length k)))
  end.
Proof.
  unfold runJoin, runUp. intros Hj Hst Hr Hr' Htok Hd2.
  destruct (ParseConfig yaml file) as [cfg|] eqn:Ep; [|done].
  pose proof (ParseConfig_spec _ _ _ Ep) as (_ & _ & Hb & _).
  destruct (NewControlPlane_ok (ag_API (override fl' cfg)) version) as [client Hc]; [by apply or_flag_nonempty|].
  rewrite Hc. destruct (Client.NewControlPlane _ _) as [client0|]; [|done].
  destruct (Registration.Register fuel _ None i st) as [[[id'|]|] st1] eqn:Er; [|done..]. injection Hj as -> ->.
  destruct (Register_stored _ _ _ _ _ _ _ Er Hst Hr (fun n => Htok cfg n eq_refl)) as [Hl _].
  assert (Hreg : Registration.Register fuel' (registrar_cfg (override fl' cfg)) None i' st2
    = (Some (Ok id), mkReg (id_NodeSecretKey id) (rs_disk st2) (rs_world st2))).
  { unfold Registration.Register. rewrite (LoadIdentity_ok _ _ _ Hr'), Hd2.
    change (data_dir (registrar_cfg (override fl' cfg))) with (data_dir (join_cfg fl cfg)). by rewrite Hl. }
  rewrite Hreg. destruct (DecodeString (id_SigningPublicKey id)) as [k|]; [|done].
  repeat case_decide; try done. split; [done|by eexists].
Qed.

(** Deregistering without purge leaves the identity on disk, and joining or
    starting again takes it up without asking the control plane; with purge
    the node is not registered any more. *)
Theorem deregister_spec yaml file fl version purge deregister d (n : N) node d' n' :
  runDeregister yaml file fl version purge true all_read deregister d n = (Ok node, (d', n')) ->
  exists cfg id, ParseConfig yaml file = Ok cfg /\ id_NodeID id = node /\
    LoadIdentity all_read (abs_path (ag_DataDir cfg)) d = Ok id /\
    if purge then LoadIdentity all_read (abs_path (ag_DataDir cfg)) d' = Err ErrNotRegistered
    else d' = d /\ forall fuel i tok, (forall n, in_read i n = ReadOk) ->
      (runJoin fuel yaml file fl version i (mkReg tok d' n')).1 = Some (Ok id) /\
      rs_world (runJoin fuel yaml file fl version i (mkReg tok d' n')).2 = n'.
Proof.
  unfold runDeregister, runJoin. destruct (ParseConfig yaml file) as [cfg|] eqn:Ep; [|done].
  destruct (LoadIdentity _ _ _) as [id|] eqn:El; [|done]. destruct (Client.NewControlPlane _ _) as [client|]; [|done].
  destruct (deregister _ _ n) as [[e|] n1]; [done|]. intros [= <- <- <-]. exists cfg, id. split_and!; [done..|].
  destruct purge.
  - set (dir := abs_path (ag_DataDir cfg)). apply LoadIdentity_missing.
    destruct (RemoveAll_gone dir f_identity d) as [Hf Hd]; [by_compute|].
    destruct (decide _); split; cbn; [done..| |done]. apply lookup_delete_None. by right.
  - split; [done|]. intros fuel i tok Hr. unfold Registration.Register. cbn [rs_disk].
    rewrite (LoadIdentity_ok _ _ _ Hr). change (data_dir (join_cfg fl cfg)) with (abs_path (ag_DataDir cfg)).
    by rewrite El.
Qed.

(** When the control plane stops accepting the node's token, registering again
    does not help: it finds the identity on disk, so the token stays the same
    and the world sees nothing but heartbeats, however many follow. *)
Theorem auth_failure_repeats fuel cfg id i call (u : up_state (N := N)) k :
  LoadIdentity (in_read i) (abs_path (ag_DataDir cfg)) (rs_disk (u_reg u)) = Ok id ->
  rs_auth (u_reg u) = id_NodeSecretKey id ->
  (forall node req n, exists e, (call (id_NodeSecretKey id) node req n).1 = Err e /\ errors_Is e ErrUnauthorized = true) ->
  Nat.iter k (sendHeartbeat (heartbeat_service fuel cfg id i call)) u
  = mkUp (mkReg (id_NodeSecretKey id) (rs_disk (u_reg u))
           (Nat.iter k (fun n => (call (id_NodeSecretKey id) (id_NodeID id) zero_request n).2) (rs_world (u_reg u))))
      (u_verifier u) (u_trigger u).
Proof.
  intros Hl Ha Hc. induction k as [|k IH]; [by destruct u as [[? ? ?] ? ?]; cbn in *; subst|].
  rewrite !Nat.iter_succ, IH. set (n := Nat.iter k _ _).
  unfold sendHeartbeat, heartbeat_service, SetOnRotateKeys, SetOnAuthFailure, SetReconcileTrigger, NewHeartbeatService.
  cbn [hs_buildRequest hs_client hs_cfg hs_onAuthFailure]. unfold client_Heartbeat. cbn [u_reg rs_auth rs_world].
  change (hc_NodeID (HeartbeatConfig_ApplyDefaults (heartbeat_cfg cfg id))) with (id_NodeID id).
  destruct (Hc (id_NodeID id) zero_request n) as (e & He & Hu).
  destruct (call _ _ _ n) as [r n']. cbn in He. subst r. rewrite Hu. unfold Agent.call, onAuthFailure.
  cbn [u_reg set_reg]. unfold Registration.Register. cbn [rs_disk].
  change (data_dir (registrar_cfg cfg)) with (abs_path (ag_DataDir cfg)). by rewrite Hl.
Qed.

(** The settings that [runUp] replaces: data directories and node id. *)
Definition blank (c : AgentConfig) : AgentConfig :=
  mkAgentConfig (ag_Mode c) (ag_LogLevel c) (ag_DataDir c) (ag_API c) (set_DataDir "" (ag_Registration c))
    (ag_Reconcile c)
    (let a := ag_NodeAPI c in NodeAuth.mkConfig (NodeAuth.nc_SocketPath a) (NodeAuth.nc_HTTPEnabled a)
       (NodeAuth.nc_HTTPListen a) (NodeAuth.nc_HTTPTokenFile a) (NodeAuth.nc_DebouncePeriod a)
       (NodeAuth.nc_ShutdownTimeout a) "" (NodeAuth.nc_SecretAuthEnabled a))
    (ag_Actions c) (ag_Policy c) (ag_WireGuard c) (ag_Metrics c) (ag_LogFwd c) (ag_AuditFwd c)
    (ag_Integrity c) (ag_Tunnel c) (ag_NAT c) (ag_PeerExchange c) (ag_Bridge c)
    (mkHeartbeatConfig (hc_Interval (ag_Heartbeat c)) "").

(** A configuration file without the settings that the command replaces anyway
    is refused, although they make no difference to what is started. *)
Theorem required_settings_unused yaml data dec :
  yaml data = Some (blank dec) ->
  (exists e, ParseConfig yaml (Some data) = Err e) /\
  forall fl id, registrar_cfg (override fl (blank dec)) = registrar_cfg (override fl dec) /\
    nodeapi_cfg (override fl (blank dec)) = nodeapi_cfg (override fl dec) /\
    heartbeat_cfg (override fl (blank dec)) id = heartbeat_cfg (override fl dec) id /\
    ag_API (override fl (blank dec)) = ag_API (override fl dec).
Proof.
  intros Hy. split; [|done]. destruct (ParseConfig yaml (Some data)) as [cfg|e] eqn:Ep; [|eauto].
  apply ParseConfig_spec in Ep as (_ & _ & _ & Hd & _ & _ & data' & dec' & [= <-] & Hy' & ->).
  rewrite Hy in Hy'. by injection Hy' as <-.
Qed.

End theorems.

(** ** Witnesses *)

Import SimCodec.

(** The network counts its calls; a registration is answered at once. *)
Definition ex_signing : string := EncodeToString (replicate 32 7).
#[local] Instance ex_env : RegEnv nat := {|
  rg_ctxErr := fun n => (false, n);
  rg_now := fun n => (0, n);
  rg_register := fun _ n => (Ok (mkRegisterResponse "n1" "10.0.0.1" ex_signing "secret" []), S n);
  rg_rand := fun n => (0, n);
  rg_wait := fun _ n => (false, n)
|}.

Definition ex_up_input : reg_input :=
  mkInput (fun _ => "tok") (Some "host") None (Some (replicate 32 7)) (fun _ => Some [1; 2]) all_read ReadOk
    (fun _ => NoFault) true.
Definition ex_flags : flags := mkFlags "" "" "" "".
Definition ex_fresh : reg_state := mkReg (W := nat) "" ex_empty 0%nat.
Definition ex_joined := runJoin (N := nat) 5 ex_yaml (Some [1]) ex_flags "1.0" ex_up_input ex_fresh.
Definition ex_node : NodeIdentity := mkIdentity "n1" "10.0.0.1" ex_signing (clamp (replicate 32 7)) "secret".
Definition ex_started := runUp (N := nat) 5 ex_yaml (Some [1]) ex_flags "1.0" ex_up_input 0 ex_joined.2.

Lemma ex_joins : runJoin (N := nat) 5 ex_yaml (Some [1]) ex_flags "1.0" ex_up_input ex_fresh = (Some (Ok ex_node), ex_joined.2).
Proof.
  assert (E : ex_joined.1 = Some (Ok ex_node)) by (vm_compute; reflexivity).
  rewrite <- E. apply surjective_pairing.
Qed.
Lemma ex_node_storable : storable ex_node.
Proof. split; try discriminate; try (vm_compute; reflexivity). repeat constructor; done. Qed.
Lemma ex_token_apart cfg n : ParseConfig ex_yaml (Some [1]) = Ok cfg ->
  abs_path (rc_TokenFile (join_cfg ex_flags cfg)) <> abs_path (ag_DataDir cfg) ++ [n].
Proof. rewrite ex_parsed. intros [= <-]. vm_compute. discriminate. Qed.

Lemma join_then_up_witness : exists ag u,
  ex_started.1 = Some (Ok (ag, u)) /\ a_identity ag = ex_node /\ rs_world (u_reg u) = 1%nat.
Proof.
  pose proof (join_then_up (N := nat) (H := ex_env) (H0 := sim_codec) 5 ex_yaml (Some [1]) ex_flags "1.0" ex_up_input
    ex_fresh ex_node ex_joined.2 5 ex_flags ex_up_input 0 ex_joined.2 ex_joins ex_node_storable
    (fun _ => eq_refl) (fun _ => eq_refl) ex_token_apart eq_refl) as Hup.
  change (runUp _ _ _ _ _ _ _ _) with ex_started in Hup.
  destruct ex_started as [r st3]. destruct Hup as [-> Hup].
  assert (Hk : exists k, DecodeString (id_SigningPublicKey ex_node) = Some k /\ length k = ed25519_PublicKeySize)
    by (vm_compute; eauto).
  destruct Hk as (k & Hk & Hlen). rewrite Hk, decide_True in Hup by done. destruct Hup as (ag & -> & Hi & _).
  eexists ag, _. split_and!; [done|exact Hi|]. vm_compute. reflexivity.
Defined.

#[local] Existing Instance ex_scheme.
Definition ex_rotation : SigningKeys := mkSigningKeys ex_signing "" None.

Lemma ex_starts : exists ag u,
  runUp (N := nat) 5 ex_yaml (Some [1]) ex_flags "1.0" ex_up_input 0 ex_joined.2 = (Some (Ok (ag, u)), ex_started.2).
Proof.
  assert (E : match ex_started.1 with Some (Ok _) => true | _ => false end = true) by (vm_compute; reflexivity).
  unfold ex_started in *. destruct (runUp _ _ _ _ _ _ _ _) as [[[[ag u]|e]|] st]; [by exists ag, u|done..].
Qed.

Lemma verifier_never_panics_witness : exists u,
  (Verify (foldl verifier_step u [VRotate ex_rotation; VVerify ex_forged (at_time ex_issued)]) ex_envelope
     (at_time ex_issued)).1 <> Panics.
Proof.
  destruct ex_starts as (ag & u & Hs). exists (u_verifier u).
  refine (verifier_never_panics (N := nat) 5 ex_yaml (Some [1]) ex_flags "1.0" ex_up_input 0 ex_joined.2 ag u
    ex_started.2 _ ex_envelope (at_time ex_issued) Hs _).
  intros keys Hk. inversion Hk as [|? ? ? Hk']; subst; [|by inversion Hk' as [|? ? ? Hn]; inversion Hn].
  split; [vm_compute; reflexivity|by left].
Defined.

Lemma ex_loads : LoadIdentity all_read (abs_path (ag_DataDir ex_agent_config)) (rs_disk ex_joined.2) = Ok ex_node.
Proof. vm_compute. reflexivity. Qed.

Definition ex_deregister (token node : string) (n : nat) : option go_error * nat := (None, S n).

Lemma deregister_spec_witness :
  exists d, runDeregister ex_yaml (Some [1]) ex_flags "1.0" false true all_read ex_deregister (rs_disk ex_joined.2) 1%nat
    = (Ok "n1", (d, 2%nat)) /\
  rs_world (runJoin 5 ex_yaml (Some [1]) ex_flags "1.0" ex_up_input (mkReg "" d 2%nat)).2 = 2%nat.
Proof.
  exists (rs_disk ex_joined.2).
  assert (E : runDeregister ex_yaml (Some [1]) ex_flags "1.0" false true all_read ex_deregister
    (rs_disk ex_joined.2) 1%nat = (Ok "n1", (rs_disk ex_joined.2, 2%nat))).
  { unfold runDeregister. rewrite ex_parsed, ex_loads.
    by destruct (NewControlPlane_ok (api_cfg ex_flags ex_agent_config) "1.0") as [c ->]; [vm_compute|]. }
  split; [exact E|].
  destruct (deregister_spec (N := nat) ex_yaml (Some [1]) ex_flags "1.0" false ex_deregister (rs_disk ex_joined.2) 1%nat
    "n1" (rs_disk ex_joined.2) 2%nat E) as (cfg & id & _ & _ & _ & _ & Hj).
  apply Hj. done.
Defined.

(** The control plane refuses every heartbeat. *)
Definition ex_refuse (token node : string) (req : HeartbeatRequest) (n : nat) : result go_error HeartbeatResponse * nat :=
  (Err (errorFromResponse 401 "" ""), S n).
Definition ex_up : up_state (N := nat) :=
  mkUp (mkReg "secret" (rs_disk ex_joined.2) 0%nat) (NewEd25519Verifier [] 0) false.
Lemma auth_failure_repeats_witness :
  rs_auth (u_reg (Nat.iter 7 (sendHeartbeat (heartbeat_service 5 ex_agent_config ex_node ex_up_input ex_refuse)) ex_up))
    = "secret" /\
  rs_world (u_reg (Nat.iter 7 (sendHeartbeat (heartbeat_service 5 ex_agent_config ex_node ex_up_input ex_refuse)) ex_up))
    = 7%nat.
Proof.
  rewrite (auth_failure_repeats (N := nat) (H := ex_env) (H0 := sim_codec) 5 ex_agent_config ex_node ex_up_input
    ex_refuse ex_up 7 ex_loads eq_refl (fun _ _ _ => ex_intro _ _ (conj eq_refl eq_refl))).
  by split.
Defined.

Definition ex_blank_yaml (data : list Z) : option AgentConfig := Some (blank (ex_decoded "https://cp" "/d" "/d" "n1")).
Lemma required_settings_unused_witness : exists e, ParseConfig ex_blank_yaml (Some [1]) = Err e.
Proof.
  exact (proj1 (required_settings_unused ex_blank_yaml [1] (ex_decoded "https://cp" "/d" "/d" "n1") eq_refl)).
Defined.
