(* ===== verification/KubeAudit.v ===== *)
(** * Audit sources (src/internal/kubernetes/auditreader.go,
      src/internal/auditfwd: k8saudit.go, auditd.go)

    The reader of the Kubernetes audit log, which continues where it stopped
    the last time, and how entries become the control plane's.  JSON and the
    parser of time stamps are arguments. *)

From Stdlib Require Import Ascii String.
From stdpp Require Import base strings list gmap.
From S2P Require Import Prelude Types Sse Forwarder.

(** ** Entries (k8saudit.go) *)

Record K8sUser := mkUser { ku_Username : string; ku_Groups : list string }.
Record K8sObjectRef := mkRef { ko_Resource : string; ko_Namespace : string; ko_Name : string }.

Record K8sAuditEntry := mkEntry {
  ke_Timestamp : Z;
  ke_Verb : string;
  ke_User : K8sUser;
  ke_ObjectRef : K8sObjectRef;
  ke_RequestURI : string;
  ke_ResponseStatus : Z;
  ke_Raw : string
}.

(** ** The log (auditreader.go) *)

Record k8sAuditEvent := mkEvent {
  kv_Verb : string;
  kv_RequestURI : string;
  kv_User : K8sUser;
  kv_ObjectRef : option K8sObjectRef;
  kv_ResponseStatus : option Z;
  kv_RequestReceivedTimestamp : string;
  kv_StageTimestamp : string
}.

Record K8sAuditLogReader := mkReader { ar_offset : nat }.
Definition NewK8sAuditLogReader : K8sAuditLogReader := mkReader 0.

Inductive read_error := EOpen | EScan.

Fixpoint sdrop (n : nat) (s : string) : string :=
  match n, s with
  | S n, String _ s => sdrop n s
  | _, _ => s
  end.

Section reader.
Context (unmarshal : string -> option k8sAuditEvent) (time_Parse : string -> option Z).

Definition entry_of (line : string) (evt : k8sAuditEvent) : K8sAuditEntry :=
  mkEntry
    (match time_Parse (kv_StageTimestamp evt) with
     | Some ts => ts
     | None => default 0 (time_Parse (kv_RequestReceivedTimestamp evt))
     end)
    (kv_Verb evt) (kv_User evt) (default (mkRef "" "" "") (kv_ObjectRef evt)) (kv_RequestURI evt)
    (default 0 (kv_ResponseStatus evt)) line.

(** Empty and malformed lines are skipped. *)
Definition parse_line (line : string) : option K8sAuditEntry :=
  if decide (line = "") then None else entry_of line <$> unmarshal line.

Definition too_long (l : string) : bool := bool_decide (MaxScanTokenSize <= Z.of_nat (String.length l)).

(** [file]: the content of the log, if it can be opened.  The scanner reads to
    the end, which is the next offset. *)
Definition ReadEvents (file : option string) (r : K8sAuditLogReader)
    : result read_error (list K8sAuditEntry) * K8sAuditLogReader :=
  match file with
  | None => (Err EOpen, r)
  | Some data =>
      let offset := if decide (String.length data < ar_offset r)%nat then 0%nat else ar_offset r in
      let lines := lines_of (sdrop offset data) in
      if existsb too_long lines then (Err EScan, mkReader offset)
      else (Ok (omap parse_line (drop_cr <$> lines)), mkReader (String.length data))
  end.

End reader.

(** ** Sources (k8saudit.go, auditd.go) *)

Definition formatObjectRef (ref : K8sObjectRef) : string :=
  let obj := ko_Resource ref in
  let obj := if decide (ko_Namespace ref = "") then obj else ko_Namespace ref +:+ "/" +:+ obj in
  if decide (ko_Name ref = "") then obj else obj +:+ "/" +:+ ko_Name ref.

Definition k8sResult (statusCode : Z) : string :=
  if decide (200 <= statusCode /\ statusCode < 300) then "success" else "failure".

Section k8s_source.
Context (marshal_user : K8sUser -> string) (marshal_string : string -> string).

Definition k8s_audit (hostname : string) (e : K8sAuditEntry) : AuditEntry :=
  mkAuditEntry (ke_Timestamp e) "k8s-audit" (ke_Verb e) (marshal_user (ke_User e))
    (marshal_string (formatObjectRef (ke_ObjectRef e))) (ke_Verb e) (k8sResult (ke_ResponseStatus e)) hostname (ke_Raw e).

(** As a source of the forwarder; the file and the reader are its world. *)
Definition K8sAuditSource_Collect (unmarshal : string -> option k8sAuditEvent) (time_Parse : string -> option Z)
    (hostname : string) (w : option string * K8sAuditLogReader)
    : collected AuditEntry * (option string * K8sAuditLogReader) :=
  match ReadEvents unmarshal time_Parse w.1 w.2 with
  | (Err _, r) => (Failed "auditfwd: k8s-audit", (w.1, r))
  | (Ok entries, r) => (Entries (k8s_audit hostname <$> entries), (w.1, r))
  end.

End k8s_source.

Record AuditdEntry := mkAuditd {
  ad_Timestamp : Z; ad_Type : string; ad_UID : Z; ad_GID : Z; ad_PID : Z;
  ad_Syscall : string; ad_Object : string; ad_Path : string; ad_Success : bool; ad_Raw : string
}.

Record auditdSubject := mkSubject { as_UID : Z; as_GID : Z; as_PID : Z }.

Definition auditdResult (success : bool) : string := if success then "success" else "failure".
Definition auditdAction (syscall typ : string) : string := if decide (syscall = "") then typ else syscall.

Section auditd_source.
Context {W : Type} (read : W -> result string (list AuditdEntry) * W).
Context (marshal_subject : auditdSubject -> string) (marshal_string : string -> string).

Definition auditd_audit (hostname : string) (e : AuditdEntry) : AuditEntry :=
  mkAuditEntry (ad_Timestamp e) "auditd" (ad_Type e) (marshal_subject (mkSubject (ad_UID e) (ad_GID e) (ad_PID e)))
    (marshal_string (ad_Object e)) (auditdAction (ad_Syscall e) (ad_Type e)) (auditdResult (ad_Success e))
    hostname (ad_Raw e).

Definition AuditdSource_Collect (hostname : string) (w : W) : collected AuditEntry * W :=
  match read w with
  | (Err e, w) => (Failed ("auditfwd: auditd: " +:+ e), w)
  | (Ok entries, w) => (Entries (auditd_audit hostname <$> entries), w)
  end.

End auditd_source.

(** ** Lemmas *)

(** The text ends with a line end. *)
Fixpoint closed (s : string) : bool :=
  match s with
  | EmptyString => true
  | String c s' => if decide (s' = "") then bool_decide (c = LF) else closed s'
  end.

Lemma lines_of_nonempty s : s <> "" -> lines_of s <> [].
Proof. destruct s as [|c s]; [done|]. intros _. cbn. case_decide; [done|]. by destruct (lines_of s). Qed.

Lemma lines_of_closed a b : closed a = true -> lines_of (a +:+ b) = lines_of a ++ lines_of b.
Proof.
  induction a as [|c a IH]; [done|]. intros Hc. change ((String c a +:+ b)%string) with (String c (a +:+ b)).
  cbn [closed lines_of] in *. destruct (decide (a = "")) as [->|Ha].
  - apply bool_decide_eq_true in Hc as ->. by rewrite !decide_True.
  - rewrite IH by done. case_decide; [done|]. pose proof (lines_of_nonempty a Ha). by destruct (lines_of a).
Qed.

Lemma length_sapp a b : String.length (a +:+ b) = (String.length a + String.length b)%nat.
Proof.
  induction a as [|c a IH]; [done|]. change ((String c a +:+ b)%string) with (String c (a +:+ b)).
  cbn [String.length]. by rewrite IH.
Qed.

Lemma sdrop_app a b : sdrop (String.length a) (a +:+ b) = b.
Proof. by induction a. Qed.

Section theorems.
Context (unmarshal : string -> option k8sAuditEvent) (time_Parse : string -> option Z).
Abbreviation read := (ReadEvents unmarshal time_Parse).
Abbreviation events s := (omap (parse_line unmarshal time_Parse) (drop_cr <$> lines_of s)).

(** Successive reads of a log that grows by [chunks]. *)
Fixpoint read_growing (log : string) (chunks : list string) (r : K8sAuditLogReader)
    : list (result read_error (list K8sAuditEntry)) * K8sAuditLogReader :=
  match chunks with
  | [] => ([], r)
  | c :: chunks =>
      let '(res, r) := read (Some (log +:+ c)) r in
      let '(rest, r) := read_growing (log +:+ c) chunks r in (res :: rest, r)
  end.

Definition sconcat (l : list string) : string := foldr String.append "" l.

Lemma read_at log c : existsb too_long (lines_of c) = false ->
  read (Some (log +:+ c)) (mkReader (String.length log)) = (Ok (events c), mkReader (String.length (log +:+ c))).
Proof.
  intros Hl. unfold ReadEvents. cbn [ar_offset]. rewrite decide_False by (rewrite length_sapp; lia).
  by rewrite sdrop_app, Hl.
Qed.

Lemma events_closed a b : closed a = true -> events (a +:+ b) = events a ++ events b.
Proof. intros Ha. by rewrite lines_of_closed, fmap_app, omap_app. Qed.

(** A log that grows by whole lines is read completely: the reads return the
    events of what was added since the one before, so that together they
    return every event of the log once and in order. *)
Theorem ReadEvents_incremental log chunks :
  Forall (fun c => closed c = true /\ existsb too_long (lines_of c) = false) chunks ->
  read_growing log chunks (mkReader (String.length log))
    = ((fun c => Ok (events c)) <$> chunks, mkReader (String.length (log +:+ sconcat chunks))) /\
  concat ((fun c => events c) <$> chunks) = events (sconcat chunks).
Proof.
  intros Hc. split.
  - revert log. induction Hc as [|c chunks [_ Hl] _ IH]; intros log; cbn [read_growing sconcat foldr fmap list_fmap].
    + by rewrite string_app_nil_r.
    + by rewrite read_at, IH, string_app_assoc.
  - induction Hc as [|c chunks [Hc _] _ IH]; [done|]. rewrite fmap_cons. cbn [concat]. rewrite IH.
    change (sconcat (c :: chunks)) with (c +:+ sconcat chunks). by rewrite events_closed.
Qed.

(** One line of 64 KiB stops the reader for good: whatever is appended, every
    read fails at that line and returns nothing. *)
Theorem long_line_blocks log rest more :
  closed rest = true -> existsb too_long (lines_of rest) = true ->
  read (Some (log +:+ rest +:+ more)) (mkReader (String.length log)) = (Err EScan, mkReader (String.length log)).
Proof.
  intros Hc Hl. unfold ReadEvents. cbn [ar_offset]. rewrite decide_False by (rewrite length_sapp; lia).
  by rewrite sdrop_app, lines_of_closed, existsb_app, Hl.
Qed.

End theorems.

(** ** Witnesses and examples *)

Definition ex_unmarshal_event (s : string) : option k8sAuditEvent :=
  if decide (s = "{a}") then Some (mkEvent "get" "/a" (mkUser "u" []) None (Some 200) "" "1") else None.
Definition nl : string := String LF "".

Lemma ReadEvents_incremental_witness :
  (read_growing ex_unmarshal_event (fun _ => Some 7) "" ["{a}" +:+ nl; nl +:+ "junk" +:+ nl; "{a}" +:+ nl]
     NewK8sAuditLogReader).1
  = [Ok [mkEntry 7 "get" (mkUser "u" []) (mkRef "" "" "") "/a" 200 "{a}"]; Ok [];
     Ok [mkEntry 7 "get" (mkUser "u" []) (mkRef "" "" "") "/a" 200 "{a}"]].
Proof.
  refine (eq_trans (f_equal fst (proj1 (ReadEvents_incremental ex_unmarshal_event (fun _ => Some 7) ""
    ["{a}" +:+ nl; nl +:+ "junk" +:+ nl; "{a}" +:+ nl] _))) _); [by repeat constructor|by vm_compute].
Defined.

Definition long_text : string := string_of_list_ascii (replicate (Z.to_nat MaxScanTokenSize) "x"%char).
Definition long_line : string := long_text +:+ nl.

Lemma closed_nl s : closed (s +:+ nl) = true.
Proof.
  induction s as [|c s IH]; [done|]. change ((String c s +:+ nl)%string) with (String c (s +:+ nl)).
  cbn [closed]. rewrite decide_False; [done|]. by destruct s.
Qed.

Lemma length_chars l : String.length (string_of_list_ascii l) = length l.
Proof. induction l as [|c l IH]; [done|]. cbn. by rewrite IH. Qed.

Lemma long_line_bad : closed long_line = true /\ existsb too_long (lines_of long_line) = true.
Proof.
  split; [apply closed_nl|]. unfold long_line, nl. rewrite (lines_of_app long_text "").
  - cbn [existsb]. unfold too_long. rewrite bool_decide_eq_true_2; [done|].
    unfold long_text. rewrite length_chars, length_replicate, Z2Nat.id by done. done.
  - unfold long_text. rewrite list_ascii_of_string_of_list_ascii. by apply Forall_replicate.
Qed.

Lemma long_line_blocks_witness :
  (ReadEvents ex_unmarshal_event (fun _ => None) (Some ("{a}" +:+ long_line +:+ "{a}"))
     (mkReader (String.length "{a}"))).1 = Err EScan.
Proof.
  by rewrite (long_line_blocks ex_unmarshal_event (fun _ => None) "{a}" long_line "{a}"
    (proj1 long_line_bad) (proj2 long_line_bad)).
Defined.

(** A read in the middle of a line loses the event: both halves are skipped. *)
Lemma split_line_lost :
  (read_growing ex_unmarshal_event (fun _ => None) "" ["{a"; "}" +:+ nl] NewK8sAuditLogReader).1 = [Ok []; Ok []].
Proof. by vm_compute. Qed.

(** A log that is replaced by one at least as long is read from the old
    offset: the first events of the new log are lost. *)
Lemma rotated_log_lost :
  let log := "{a}" +:+ nl in
  let r := (ReadEvents ex_unmarshal_event (fun _ => None) (Some ("old" +:+ nl)) NewK8sAuditLogReader).2 in
  (ReadEvents ex_unmarshal_event (fun _ => None) (Some log) r).1 = Ok [].
Proof. by vm_compute. Qed.
