(* ===== verification/KubeAuth.v ===== *)
(** * Kubernetes: environment, configuration, token review
      (src/internal/kubernetes: detect.go, config.go, auth.go)

    The bearer token of a request is reviewed by the Kubernetes API server.
    HTTP, JSON, environment and files are arguments. *)

From Stdlib Require Import Ascii String.
From stdpp Require Import base strings list gmap.
From S2P Require Import Prelude Base64 Types Fs Json Identity.
From S2P Require Registration.

(** ** Detection (detect.go) *)

Definition ServiceAccountBasePath : string := "/var/run/secrets/kubernetes.io/serviceaccount".
Definition DefaultTokenPath : string := ServiceAccountBasePath +:+ "/token".
Definition DefaultNamespacePath : string := ServiceAccountBasePath +:+ "/namespace".

Record KubernetesEnvironment := mkKubeEnv {
  kn_InCluster : bool;
  kn_Namespace : string;
  kn_PodName : string;
  kn_NodeName : string;
  kn_ServiceAccountToken : string
}.

Definition Detect (getenv : string -> string) (exists_file : string -> bool) (read : string -> option string)
    : KubernetesEnvironment :=
  if decide (getenv "KUBERNETES_SERVICE_HOST" = "") then mkKubeEnv false "" "" "" ""
  else if negb (exists_file DefaultTokenPath) then mkKubeEnv false "" "" "" ""
  else mkKubeEnv true (default "" (read DefaultNamespacePath)) (getenv "HOSTNAME") (getenv "MY_NODE_NAME")
         DefaultTokenPath.

(** ** Configuration (config.go) *)

Record Config := mkConfig {
  kc_Enabled : bool;
  kc_CRDEnabled : bool;
  kc_Namespace : string;
  kc_AuditLogPath : string;
  kc_CRDSyncInterval : Z;
  kc_TokenPath : string
}.

Definition DefaultAuditLogPath : string := "/var/log/kubernetes/audit/audit.log".
Definition DefaultCRDSyncInterval : Z := 10 * second.

Definition ApplyDefaults (env : option KubernetesEnvironment) (c : Config) : Config :=
  let '(enabled, crd, ns) :=
    match env with
    | Some e => if kn_InCluster e
                then (true, true, if decide (kc_Namespace c = "") then kn_Namespace e else kc_Namespace c)
                else (kc_Enabled c, kc_CRDEnabled c, kc_Namespace c)
    | None => (kc_Enabled c, kc_CRDEnabled c, kc_Namespace c)
    end in
  mkConfig enabled crd ns
    (if decide (kc_AuditLogPath c = "") then DefaultAuditLogPath else kc_AuditLogPath c)
    (if decide (kc_CRDSyncInterval c = 0) then DefaultCRDSyncInterval else kc_CRDSyncInterval c)
    (if decide (kc_TokenPath c = "") then DefaultTokenPath else kc_TokenPath c).

Definition Validate (c : Config) : option string :=
  if negb (kc_Enabled c) then None
  else if decide (kc_Namespace c = "") then Some "kubernetes: config: Namespace is required when Kubernetes is enabled"
  else if decide (kc_AuditLogPath c = "") then Some "kubernetes: config: AuditLogPath must not be empty"
  else if decide (kc_CRDSyncInterval c < second) then Some "kubernetes: config: CRDSyncInterval must be at least 1s"
  else if decide (kc_TokenPath c = "") then Some "kubernetes: config: TokenPath must not be empty"
  else None.

(** ** Token review (auth.go) *)

Record TokenReviewResult := mkReview {
  tv_Authenticated : bool;
  tv_Username : string;
  tv_UID : string;
  tv_Groups : list string;
  tv_Audiences : list string
}.

(** The wire format of the API server. *)
Record tokenReviewSpec := mkSpec { rs_Token : string; rs_Audiences : list string }.
Record tokenReviewRequest := mkReviewRequest { rr_APIVersion : string; rr_Kind : string; rr_Spec : tokenReviewSpec }.
Record tokenReviewUser := mkReviewUser { ru_Username : string; ru_UID : string; ru_Groups : list string }.
Record tokenReviewStatus := mkStatus {
  ts_Authenticated : bool; ts_User : option tokenReviewUser; ts_Audiences : list string; ts_Error : string
}.

Inductive review_error :=
| EmptyToken | NoServiceAccount | MarshalFailed | RequestFailed | ReadFailed | BadStatus (s : Z) | BadResponse
| APIError (msg : string) | NotAuthenticated | AudienceMismatch.

(** A request to the API server and its answer; the body is [None] when reading
    it failed. *)
Record api_request := mkApi { aq_url : string; aq_auth : string; aq_body : list Z }.
Record api_response := mkApiResp { ap_status : Z; ap_body : option (list Z) }.

Record HTTPTokenReviewClient := mkReviewClient { rc_apiServer : string; rc_saToken : string }.

Definition NewHTTPTokenReviewClient (apiServer saTokenPath : string) : HTTPTokenReviewClient :=
  mkReviewClient (Registration.TrimRight_slash apiServer) saTokenPath.

Section review.
Context {W : Type} (Do : api_request -> W -> option api_response * W) (read : string -> option string).
Context `{Codec tokenReviewRequest} `{Codec tokenReviewStatus}.

Definition review_request (token : string) : tokenReviewRequest :=
  mkReviewRequest "authentication.k8s.io/v1" "TokenReview" (mkSpec token []).

Definition result_of (st : tokenReviewStatus) : TokenReviewResult :=
  match ts_User st with
  | Some u => mkReview (ts_Authenticated st) (ru_Username u) (ru_UID u) (ru_Groups u) (ts_Audiences st)
  | None => mkReview (ts_Authenticated st) "" "" [] (ts_Audiences st)
  end.

Definition Review (c : HTTPTokenReviewClient) (token : string) (w : W)
    : result review_error TokenReviewResult * W :=
  match read (rc_saToken c) with
  | None => (Err NoServiceAccount, w)
  | Some saToken =>
      match MarshalIndent (review_request token) with
      | None => (Err MarshalFailed, w)
      | Some bodyBytes =>
          match Do (mkApi (rc_apiServer c +:+ "/apis/authentication.k8s.io/v1/tokenreviews")
                      ("Bearer " +:+ TrimSpace saToken) bodyBytes) w with
          | (None, w) => (Err RequestFailed, w)
          | (Some resp, w) =>
              match ap_body resp with
              | None => (Err ReadFailed, w)
              | Some respBody =>
                  if decide (ap_status resp <> 200 /\ ap_status resp <> 201) then (Err (BadStatus (ap_status resp)), w)
                  else
                    match Unmarshal respBody with
                    | None => (Err BadResponse, w)
                    | Some st =>
                        if decide (ts_Error st <> "") then (Err (APIError (ts_Error st)), w)
                        else (Ok (result_of st), w)
                    end
              end
          end
      end
  end.

(** A set of the actual audiences, searched for the expected ones. *)
Definition audienceMatch (expected actual : list string) : bool :=
  let set := foldl (fun s a => {[a]} ∪ s) (∅ : gset string) actual in
  existsb (fun e => bool_decide (e ∈ set)) expected.

Definition Authenticate (c : HTTPTokenReviewClient) (audiences : list string) (token : string) (w : W)
    : result review_error TokenReviewResult * W :=
  if decide (token = "") then (Err EmptyToken, w)
  else
    match Review c token w with
    | (Err e, w) => (Err e, w)
    | (Ok r, w) =>
        if negb (tv_Authenticated r) then (Err NotAuthenticated, w)
        else if decide (audiences <> []) then
          if audienceMatch audiences (tv_Audiences r) then (Ok r, w) else (Err AudienceMismatch, w)
        else (Ok r, w)
    end.

(** [strings.TrimPrefix] after [strings.HasPrefix]. *)
Definition bearer (header : string) : option string :=
  if String.prefix "Bearer " header then Some (String.substring 7 (String.length header - 7) header) else None.

(** What a request gets: 401, or the next handler with the identity. *)
Inductive middleware := Refused (status : Z) | Passed (identity : TokenReviewResult).

Definition TokenReviewMiddleware (c : HTTPTokenReviewClient) (audiences : list string) (header : string) (w : W)
    : middleware * W :=
  match bearer header with
  | None => (Refused 401, w)
  | Some token =>
      match Authenticate c audiences token w with
      | (Err _, w) => (Refused 401, w)
      | (Ok r, w) => (Passed r, w)
      end
  end.

End review.

(** ** Lemmas *)

Lemma audienceMatch_spec expected actual :
  audienceMatch expected actual = true <-> exists a, a ∈ expected /\ a ∈ actual.
Proof.
  unfold audienceMatch.
  assert (Hs : forall s a, a ∈ foldl (fun s a => {[a]} ∪ s) (s : gset string) actual <-> a ∈ s \/ a ∈ actual).
  { induction actual as [|x actual IH]; intros s a; cbn; [set_solver|]. rewrite IH. set_solver. }
  rewrite existsb_exists. split.
  - intros (a & Ha & He%bool_decide_eq_true). apply Hs in He as [He|He]; [set_solver|].
    exists a. split; [by apply list_elem_of_In|done].
  - intros (a & Ha & He). exists a. split; [by apply list_elem_of_In|]. apply bool_decide_eq_true, Hs. by right.
Qed.

Lemma substring_full s : String.substring 0 (String.length s) s = s.
Proof. induction s as [|c s IH]; [done|]. cbn. by rewrite IH. Qed.

Lemma bearer_spec header token : bearer header = Some token -> header = "Bearer " +:+ token.
Proof.
  unfold bearer. destruct (String.prefix _ _) eqn:Ep; [|done]. intros [= <-].
  do 7 (destruct header as [|? header]; [done|]; cbn [String.prefix] in Ep;
    destruct (ascii_dec _ _) as [<-|]; [|done]).
  cbn [String.length Nat.sub String.substring]. by rewrite Nat.sub_0_r, substring_full.
Qed.

(** ** Theorems *)

Section theorems.
Context {W : Type} (Do : api_request -> W -> option api_response * W) (read : string -> option string).
Context `{Codec tokenReviewRequest} `{Codec tokenReviewStatus}.

(** C31. A request passes only with a token that the API server, asked about
    exactly this token with the service account's credentials, answered to be
    authentic without an error, and with one of the configured audiences; the
    identity handed on is the server's. *)
Theorem middleware_sound c audiences header w identity w' :
  TokenReviewMiddleware Do read c audiences header w = (Passed identity, w') ->
  exists token sa body resp data st,
    header = "Bearer " +:+ token /\ token <> "" /\ read (rc_saToken c) = Some sa /\
    MarshalIndent (review_request token) = Some body /\
    Do (mkApi (rc_apiServer c +:+ "/apis/authentication.k8s.io/v1/tokenreviews") ("Bearer " +:+ TrimSpace sa) body) w
      = (Some resp, w') /\
    (ap_status resp = 200 \/ ap_status resp = 201) /\ ap_body resp = Some data /\ Unmarshal data = Some st /\
    ts_Error st = "" /\ ts_Authenticated st = true /\ identity = result_of st /\
    (audiences <> [] -> exists a, a ∈ audiences /\ a ∈ ts_Audiences st).
Proof.
  unfold TokenReviewMiddleware, Authenticate, Review. intros Hm.
  destruct (bearer header) as [token|] eqn:Eb; [|done]. apply bearer_spec in Eb.
  case_decide as Ht; [done|]. destruct (read _) as [sa|] eqn:Er; [|done].
  destruct (MarshalIndent _) as [body|] eqn:Em; [|done]. destruct (Do _ w) as [[resp|] w1] eqn:Ed; [|done].
  destruct (ap_body resp) as [data|] eqn:Ea; [|done]. destruct (decide (_ /\ _)) as [|Hs]; [done|].
  destruct (Unmarshal data) as [st|] eqn:Eu; [|done]. destruct (decide (ts_Error st <> "")) as [|He]; [done|].
  assert (Haud : tv_Audiences (result_of st) = ts_Audiences st) by (unfold result_of; by destruct (ts_User st)).
  assert (Hauth : tv_Authenticated (result_of st) = ts_Authenticated st) by (unfold result_of; by destruct (ts_User st)).
  rewrite Hauth, Haud in Hm. destruct (ts_Authenticated st) eqn:Et; [|done]. cbn [negb] in Hm.
  assert (Hok : identity = result_of st /\ w' = w1 /\ (audiences <> [] -> audienceMatch audiences (ts_Audiences st) = true)).
  { destruct (decide (audiences <> [])); [destruct (audienceMatch _ _); [|done]|]; by simplify_eq. }
  destruct Hok as (-> & -> & Hmatch). exists token, sa, body, resp, data, st. split_and!; try done.
  - destruct (decide (ap_status resp = 200)); [by left|right]. apply dec_stable. tauto.
  - by apply dec_stable.
  - intros Hne. by apply audienceMatch_spec, Hmatch.
Qed.

(** The audiences the authenticator expects are never sent. *)
Lemma audiences_not_sent token : rs_Audiences (rr_Spec (review_request token)) = [].
Proof. done. Qed.

(** Detection gives a valid configuration when the namespace file is readable
    and not empty. *)
Lemma detected_config_valid getenv exists_file readf c ns :
  kn_InCluster (Detect getenv exists_file readf) = true -> readf DefaultNamespacePath = Some ns -> ns <> "" ->
  kc_CRDSyncInterval c = 0 \/ second <= kc_CRDSyncInterval c ->
  Validate (ApplyDefaults (Some (Detect getenv exists_file readf)) c) = None.
Proof.
  intros Hi Hn Hne Hc. unfold ApplyDefaults. rewrite Hi. unfold Detect in *. case_decide; [done|].
  destruct (negb _); [done|]. rewrite Hn. cbn. unfold Validate. cbn.
  repeat case_decide; try done; unfold DefaultCRDSyncInterval, second in *; lia.
Qed.

End theorems.

(** ** Witness *)

#[local] Instance ex_request_codec : Codec tokenReviewRequest := {|
  MarshalIndent := fun r => Some (bytes_of_string (rs_Token (rr_Spec r)));
  Unmarshal := fun l => Some (review_request (string_of_bytes l));
  norm := fun r => r
|}.
Definition ex_status : tokenReviewStatus := mkStatus true (Some (mkReviewUser "sa" "1" [])) ["plexd"] "".
#[local] Instance ex_status_codec : Codec tokenReviewStatus := {|
  MarshalIndent := fun _ => None;
  Unmarshal := fun l => if decide (l = [1]) then Some ex_status else None;
  norm := fun r => r
|}.
Definition ex_Do (q : api_request) (w : nat) : option api_response * nat :=
  (if decide (aq_body q = bytes_of_string "tok") then Some (mkApiResp 201 (Some [1])) else None, S w).
Definition ex_kube : HTTPTokenReviewClient := NewHTTPTokenReviewClient "https://k8s/" DefaultTokenPath.

Lemma middleware_sound_witness :
  (TokenReviewMiddleware ex_Do (fun _ => Some "sa-token") ex_kube ["plexd"] "Bearer bad" 0%nat).1 = Refused 401 /\
  exists a, a ∈ ["plexd"] /\ a ∈ ts_Audiences ex_status.
Proof.
  split; [by vm_compute|].
  destruct (middleware_sound ex_Do (fun _ => Some "sa-token") ex_kube ["plexd"] "Bearer tok" 0%nat (result_of ex_status)
    1%nat) as (token & sa & body & resp & data & st & _ & _ & _ & _ & _ & _ & _ & Hst & _ & _ & _ & Ha).
  - vm_compute. reflexivity.
  - unfold Unmarshal, ex_status_codec in Hst. case_decide; [|done]. injection Hst as <-. by apply Ha.
Defined.
