(* ===== verification/CrdController.v ===== *)
(** * The controller of the PlexdNodeState resource
      (src/internal/kubernetes: interfaces.go, crdcontroller.go)

    The Kubernetes API is an interface with the laws its comments state; the
    controller keeps the node's resource and the Secrets it has created. *)

From Stdlib Require Import Ascii String.
From stdpp Require Import base strings list gmap.
From S2P Require Import Prelude KubeAuth.

(** ** Resources (interfaces.go) *)

Record DataEntry := mkDataEntry {
  de_Key : string; de_ContentType : string; de_Payload : string; de_Version : Z; de_UpdatedAt : string
}.
Record SecretRef := mkSecretRef { sr_Key : string; sr_SecretName : string; sr_Version : Z }.

Record PlexdNodeStateSpec := mkNodeSpec {
  sp_NodeID : string;
  sp_MeshIP : string;
  sp_Metadata : gmap string string;
  sp_Data : list DataEntry;
  sp_SecretRefs : list SecretRef
}.

Record PlexdNodeState := mkNodeState {
  ps_Name : string;
  ps_Namespace : string;
  ps_UID : string;
  ps_ResourceVersion : string;
  ps_Labels : gmap string string;
  ps_Spec : PlexdNodeStateSpec;
  ps_Report : list DataEntry; (* the status *)
  ps_LastUpdate : Z
}.

Record KubeSecret := mkSecret {
  ks_Name : string;
  ks_Namespace : string;
  ks_Labels : gmap string string;
  ks_Data : gmap string (list Z);
  ks_OwnerRefName : string;
  ks_OwnerRefUID : string
}.

Inductive kube_error := ErrNotFound | ErrAlreadyExists | EOther (msg : string).

#[global] Instance kube_error_eq_dec : EqDecision kube_error.
Proof. solve_decision. Defined.

Class KubeClient (W : Type) := {
  GetNodeState : string -> string -> W -> result kube_error PlexdNodeState * W;
  CreateNodeState : PlexdNodeState -> W -> option kube_error * W;
  UpdateNodeState : PlexdNodeState -> W -> option kube_error * W;
  CreateSecret : KubeSecret -> W -> option kube_error * W;
  UpdateSecret : KubeSecret -> W -> option kube_error * W;
  DeleteSecret : string -> string -> W -> option kube_error * W
}.

(** What the interface promises: the objects of the cluster, and which call
    changes what.  A failing call changes nothing. *)
Class KubeLaws (W : Type) `{KubeClient W}
    (states : W -> gmap (string * string) PlexdNodeState) (secrets : W -> gmap (string * string) KubeSecret) := {
  law_get ns n w : states (GetNodeState ns n w).2 = states w /\ secrets (GetNodeState ns n w).2 = secrets w /\
    match (GetNodeState ns n w).1 with
    | Ok s => states w !! (ns, n) = Some s
    | Err ErrNotFound => states w !! (ns, n) = None
    | Err _ => True
    end;
  law_create_state s w : secrets (CreateNodeState s w).2 = secrets w /\
    match (CreateNodeState s w).1 with
    | None => exists s', ps_Spec s' = ps_Spec s /\ states (CreateNodeState s w).2 = <[(ps_Namespace s, ps_Name s) := s']> (states w)
    | Some e => states (CreateNodeState s w).2 = states w /\
        (e = ErrAlreadyExists -> is_Some (states w !! (ps_Namespace s, ps_Name s)))
    end;
  law_update_state s w : secrets (UpdateNodeState s w).2 = secrets w /\
    match (UpdateNodeState s w).1 with
    | None => exists s', ps_Spec s' = ps_Spec s /\ states (UpdateNodeState s w).2 = <[(ps_Namespace s, ps_Name s) := s']> (states w)
    | Some e => states (UpdateNodeState s w).2 = states w
    end;
  law_create_secret s w : states (CreateSecret s w).2 = states w /\
    secrets (CreateSecret s w).2 =
      (match (CreateSecret s w).1 with
       | None => <[(ks_Namespace s, ks_Name s) := s]> (secrets w)
       | Some _ => secrets w
       end) /\
    ((CreateSecret s w).1 = Some ErrAlreadyExists -> is_Some (secrets w !! (ks_Namespace s, ks_Name s)));
  law_update_secret s w : states (UpdateSecret s w).2 = states w /\
    secrets (UpdateSecret s w).2 =
      match (UpdateSecret s w).1 with
      | None => <[(ks_Namespace s, ks_Name s) := s]> (secrets w)
      | Some _ => secrets w
      end;
  law_delete_secret ns n w : states (DeleteSecret ns n w).2 = states w /\
    secrets (DeleteSecret ns n w).2 =
      match (DeleteSecret ns n w).1 with
      | None => delete (ns, n) (secrets w)
      | Some _ => secrets w
      end
}.

(** ** The controller *)

Record CRDController := mkController {
  cc_cfg : Config;
  cc_namespace : string;
  cc_nodeID : string;
  cc_meshIP : string;
  cc_currentSecrets : gmap string string;
  cc_lastReport : list DataEntry
}.

Definition NewCRDController (cfg : Config) (nodeID meshIP namespace : string) : CRDController :=
  mkController (ApplyDefaults None cfg) namespace nodeID meshIP ∅ [].

Definition resourceName (c : CRDController) : string := "node-" +:+ cc_nodeID c.
Definition secretName (c : CRDController) (key : string) : string :=
  "plexd-secret-" +:+ cc_nodeID c +:+ "-" +:+ key.

Definition set_current (m : gmap string string) (c : CRDController) : CRDController :=
  mkController (cc_cfg c) (cc_namespace c) (cc_nodeID c) (cc_meshIP c) m (cc_lastReport c).

Definition set_spec (f : PlexdNodeStateSpec -> PlexdNodeStateSpec) (now : Z) (s : PlexdNodeState) : PlexdNodeState :=
  mkNodeState (ps_Name s) (ps_Namespace s) (ps_UID s) (ps_ResourceVersion s) (ps_Labels s) (f (ps_Spec s))
    (ps_Report s) now.

Definition set_identity (nodeID meshIP : string) (p : PlexdNodeStateSpec) : PlexdNodeStateSpec :=
  mkNodeSpec nodeID meshIP (sp_Metadata p) (sp_Data p) (sp_SecretRefs p).
Definition set_Metadata (m : gmap string string) (p : PlexdNodeStateSpec) : PlexdNodeStateSpec :=
  mkNodeSpec (sp_NodeID p) (sp_MeshIP p) m (sp_Data p) (sp_SecretRefs p).
Definition set_Data (d : list DataEntry) (p : PlexdNodeStateSpec) : PlexdNodeStateSpec :=
  mkNodeSpec (sp_NodeID p) (sp_MeshIP p) (sp_Metadata p) d (sp_SecretRefs p).
Definition set_SecretRefs (r : list SecretRef) (p : PlexdNodeStateSpec) : PlexdNodeStateSpec :=
  mkNodeSpec (sp_NodeID p) (sp_MeshIP p) (sp_Metadata p) (sp_Data p) r.

Section controller.
Context {W : Type} `{KubeClient W} `{MapOrder}.

Definition ensureResource (c : CRDController) (now : Z) (w : W) : option kube_error * W :=
  let state := mkNodeState (resourceName c) (cc_namespace c) "" "" {["plexd.plexsphere.com/node-id" := cc_nodeID c]}
                 (mkNodeSpec (cc_nodeID c) (cc_meshIP c) ∅ [] []) [] now in
  match GetNodeState (cc_namespace c) (resourceName c) w with
  | (Err e, w) =>
      if decide (e <> ErrNotFound) then (Some e, w)
      else
        match CreateNodeState state w with
        | (None, w) => (None, w)
        | (Some createErr, w) =>
            if decide (createErr <> ErrAlreadyExists) then (Some createErr, w)
            else UpdateNodeState state w
        end
  | (Ok existing, w) => UpdateNodeState (set_spec (set_identity (cc_nodeID c) (cc_meshIP c)) now existing) w
  end.

(** [UpdateMetadata] and [UpdateData] read, change and write the resource. *)
Definition update_spec (f : PlexdNodeStateSpec -> PlexdNodeStateSpec) (c : CRDController) (now : Z) (w : W)
    : option kube_error * W :=
  match GetNodeState (cc_namespace c) (resourceName c) w with
  | (Err e, w) => (Some e, w)
  | (Ok existing, w) => UpdateNodeState (set_spec f now existing) w
  end.
Definition UpdateMetadata (m : gmap string string) := update_spec (set_Metadata m).
Definition UpdateData (d : list DataEntry) := update_spec (set_Data d).

(** Secrets of keys that are no longer wanted: a failed deletion is logged. *)
Definition delete_secrets (wanted : list string) (c : CRDController) (w : W) : CRDController * W :=
  foldl (fun '(c, w) '(key, name) =>
    if decide (key ∈ wanted) then (c, w)
    else
      let '(_, w) := DeleteSecret (cc_namespace c) name w in
      (set_current (delete key (cc_currentSecrets c)) c, w))
    (c, w) (range_map (cc_currentSecrets c)).

Definition secret_for (c : CRDController) (uid key : string) (secretData : gmap string (list Z)) : KubeSecret :=
  mkSecret (secretName c key) (cc_namespace c)
    {["app.kubernetes.io/managed-by" := "plexd"; "plexd.plexsphere.com/node-id" := cc_nodeID c]}
    {["ciphertext" := default [] (secretData !! key)]} (resourceName c) uid.

(** Create the Secret, or update the one that is tracked or already there. *)
Definition put_secret (c : CRDController) (secret : KubeSecret) (tracked : bool) (w : W) : option kube_error * W :=
  if tracked then UpdateSecret secret w
  else
    match CreateSecret secret w with
    | (None, w) => (None, w)
    | (Some e, w) => if decide (e <> ErrAlreadyExists) then (Some e, w) else UpdateSecret secret w
    end.

(** The second loop; [refs] is the caller's slice, whose names are filled in. *)
Fixpoint put_secrets (uid : string) (secretData : gmap string (list Z)) (refs : list SecretRef) (c : CRDController)
    (w : W) : option kube_error * list SecretRef * CRDController * W :=
  match refs with
  | [] => (None, [], c, w)
  | ref :: rest =>
      let name := secretName c (sr_Key ref) in
      let ref' := mkSecretRef (sr_Key ref) name (sr_Version ref) in
      match put_secret c (secret_for c uid (sr_Key ref) secretData)
              (bool_decide (is_Some (cc_currentSecrets c !! sr_Key ref))) w with
      | (Some e, w) => (Some e, ref' :: rest, c, w)
      | (None, w) =>
          let c := set_current (<[sr_Key ref := name]> (cc_currentSecrets c)) c in
          let '(err, rest, c, w) := put_secrets uid secretData rest c w in (err, ref' :: rest, c, w)
      end
  end.

Definition UpdateSecretIndex (refs : list SecretRef) (secretData : gmap string (list Z)) (now : Z)
    (c : CRDController) (w : W) : option kube_error * list SecretRef * CRDController * W :=
  match GetNodeState (cc_namespace c) (resourceName c) w with
  | (Err e, w) => (Some e, refs, c, w)
  | (Ok existing, w) =>
      let '(c, w) := delete_secrets (sr_Key <$> refs) c w in
      match put_secrets (ps_UID existing) secretData refs c w with
      | (Some e, refs, c, w) => (Some e, refs, c, w)
      | (None, refs, c, w) =>
          let '(err, w) := UpdateNodeState (set_spec (set_SecretRefs refs) now existing) w in (err, refs, c, w)
      end
  end.

(** ** Reports *)

Definition reportEqual (a b : list DataEntry) : bool :=
  if decide (length a <> length b) then false
  else
    let m := build_map de_Key de_Version a in
    forallb (fun e => match m !! de_Key e with Some v => bool_decide (v = de_Version e) | None => false end) b.

(** [true]: the report notifier is called. *)
Definition handleStatusChange (report : list DataEntry) (c : CRDController) : bool * CRDController :=
  if reportEqual (cc_lastReport c) report then (false, c)
  else (true, mkController (cc_cfg c) (cc_namespace c) (cc_nodeID c) (cc_meshIP c) (cc_currentSecrets c) report).

(** The watch: events until the channel closes; the reports that were passed
    on. *)
Inductive watch_event := Modified (report : list DataEntry) | OtherEvent.

Fixpoint watch_loop (events : list watch_event) (c : CRDController) : list (list DataEntry) * CRDController :=
  match events with
  | [] => ([], c)
  | OtherEvent :: events => watch_loop events c
  | Modified report :: events =>
      let '(notified, c) := handleStatusChange report c in
      let '(l, c) := watch_loop events c in
      (if notified : bool then report :: l else l, c)
  end.

(** [watch] is what WatchNodeState gives: its events, or an error. *)
Definition Start (now : Z) (watch : result kube_error (list watch_event)) (c : CRDController) (w : W)
    : option kube_error * list (list DataEntry) * CRDController * W :=
  match ensureResource c now w with
  | (Some e, w) => (Some e, [], c, w)
  | (None, w) =>
      match watch with
      | Err e => (Some e, [], c, w)
      | Ok events => let '(l, c) := watch_loop events c in (None, l, c, w)
      end
  end.

End controller.

(** ** Lemmas *)

Lemma secretName_inj c k k' : secretName c k = secretName c k' -> k = k'.
Proof. unfold secretName. intros E. by do 3 apply (inj _) in E. Qed.

Lemma secret_key_inj (ns ns' : string) c k k' : (ns, secretName c k) = (ns', secretName c k') -> k = k'.
Proof. intros E%(f_equal snd). by apply secretName_inj in E. Qed.

Section laws.
Context {W : Type} `{KubeLaws W states secrets} `{MapOrder}.

(** Every tracked key has its Secret in the cluster. *)
Definition tracked (c : CRDController) (w : W) : Prop := forall key name,
  cc_currentSecrets c !! key = Some name ->
  name = secretName c key /\ is_Some (secrets w !! (cc_namespace c, name)).

(** The controller tracks each key with the name of its Secret. *)
Definition named (c : CRDController) : Prop := forall key name,
  cc_currentSecrets c !! key = Some name -> name = secretName c key.

(** The same node in the same namespace. *)
Definition same_node (c c' : CRDController) : Prop :=
  cc_namespace c' = cc_namespace c /\ cc_nodeID c' = cc_nodeID c.

Lemma same_node_names c c' uid key data : same_node c c' ->
  secretName c' key = secretName c key /\ resourceName c' = resourceName c /\ secret_for c' uid key data = secret_for c uid key data.
Proof. intros [E1 E2]. unfold secret_for, secretName, resourceName. by rewrite E1, E2. Qed.

Lemma put_secret_spec c s t w :
  states (put_secret c s t w).2 = states w /\
  secrets (put_secret c s t w).2 =
    match (put_secret c s t w).1 with
    | None => <[(ks_Namespace s, ks_Name s) := s]> (secrets w)
    | Some _ => secrets w
    end.
Proof.
  unfold put_secret. destruct t; [apply law_update_secret|].
  destruct (law_create_secret s w) as (Hs & Hc & _). destruct (CreateSecret s w) as [[e|] w1]; cbn in *; [|done].
  case_decide; [done|]. destruct (law_update_secret s w1) as [Hs' Hu]. by rewrite Hs', Hu, Hs, Hc.
Qed.

(** One step of the deletion loop and the loop over any entries. *)
Abbreviation delete_step wanted := (fun '(c, w) '(key, name) =>
    if decide (key ∈ wanted) then (c, w)
    else
      let '(_, w) := DeleteSecret (cc_namespace c) name w in
      (set_current (delete key (cc_currentSecrets c)) c, w)).

Lemma delete_loop_spec (wanted : list string) (l : list (string * string)) : forall c w,
  let '(c', w') := foldl (delete_step wanted) (c, w) l in
  same_node c c' /\ states w' = states w /\
  (forall k, cc_currentSecrets c' !! k = if decide (k ∈ l.*1 /\ k ∉ wanted) then None else cc_currentSecrets c !! k) /\
  (forall p, (forall k n, (k, n) ∈ l -> k ∉ wanted -> p <> (cc_namespace c, n)) -> secrets w' !! p = secrets w !! p).
Proof.
  induction l as [|[key name] l IH]; intros c w; cbn [foldl].
  { split_and!; [done|done| |done].
    intros k. rewrite decide_False; [done|]. by intros [Hin%elem_of_nil _]. }
  assert (Hfst : forall k, k ∈ ((key, name) :: l).*1 <-> k = key \/ k ∈ l.*1) by (intros k; apply elem_of_cons).
  destruct (decide (key ∈ wanted)) as [Hw|Hw].
  - specialize (IH c w). destruct (foldl _ _ _) as [c' w']. destruct IH as (I1 & I2 & I3 & I4).
    split_and!; [done|done| |].
    + intros k. rewrite I3. apply decide_ext. rewrite Hfst. split; [tauto|]. intros [[->|?] ?]; tauto.
    + intros p Hp. apply I4. intros k n Hin. apply Hp. by right.
  - destruct (law_delete_secret (cc_namespace c) name w) as [Hs Hd].
    destruct (DeleteSecret (cc_namespace c) name w) as [e w1] eqn:Ed. cbn [fst snd] in *.
    specialize (IH (set_current (delete key (cc_currentSecrets c)) c) w1).
    destruct (foldl _ _ _) as [c' w']. destruct IH as (I1 & I2 & I3 & I4). cbn in I1, I3, I4.
    assert (Hkeep : forall p, p <> (cc_namespace c, name) -> secrets w1 !! p = secrets w !! p).
    { intros p Hp. rewrite Hd. destruct e; [done|]. by rewrite lookup_delete_ne. }
    split_and!; [done|congruence| |].
    + intros k. rewrite I3. destruct (decide (k = key)) as [->|Hk].
      * rewrite lookup_delete_eq, (decide_True _ _ (P := key ∈ ((key, name) :: l).*1 /\ key ∉ wanted)) by (rewrite Hfst; tauto). by case_decide.
      * rewrite lookup_delete_ne by done. apply decide_ext. rewrite Hfst. tauto.
    + intros p Hp. rewrite I4; [apply Hkeep; eapply Hp; [left|done]|]. intros k n Hin. apply Hp. by right.
Qed.

(** The names whose deletion fails when the loop runs over [l]. *)
Fixpoint failed_deletes (wanted : list string) (ns : string) (l : list (string * string)) (w : W) : list string :=
  match l with
  | [] => []
  | (key, name) :: l =>
      if decide (key ∈ wanted) then failed_deletes wanted ns l w
      else
        let '(e, w) := DeleteSecret ns name w in
        match e with Some _ => [name] | None => [] end ++ failed_deletes wanted ns l w
  end.

Lemma failed_deletes_sub wanted ns l : forall w n, n ∈ failed_deletes wanted ns l w -> n ∈ l.*2.
Proof.
  induction l as [|[key name] l IH]; intros w n; cbn [failed_deletes]; [done|]. rewrite fmap_cons, elem_of_cons.
  case_decide; [eauto|]. destruct (DeleteSecret ns name w) as [[e|] w1].
  - intros [->%list_elem_of_singleton|Hn%IH]%elem_of_app; auto.
  - intros Hn%IH. auto.
Qed.

(** A dropped Secret is gone, unless its deletion failed. *)
Lemma delete_loop_gone (wanted : list string) (l : list (string * string)) : forall c w,
  NoDup l.*2 -> forall k n, (k, n) ∈ l -> k ∉ wanted ->
  secrets (foldl (delete_step wanted) (c, w) l).2 !! (cc_namespace c, n) =
    if decide (n ∈ failed_deletes wanted (cc_namespace c) l w) then secrets w !! (cc_namespace c, n) else None.
Proof.
  induction l as [|[key name] l IH]; intros c w Hnd k n; [by intros ?%elem_of_nil|].
  rewrite fmap_cons in Hnd. apply NoDup_cons in Hnd as [Hnin Hnd]. cbn [foldl failed_deletes].
  destruct (decide (key ∈ wanted)) as [Hw|Hw]; [intros [[= -> ->]|Hin]%elem_of_cons Hk; [done|by apply (IH c w Hnd k)]|].
  destruct (law_delete_secret (cc_namespace c) name w) as [_ Hd].
  destruct (DeleteSecret (cc_namespace c) name w) as [e w1]. cbn [fst snd] in Hd.
  set (c1 := set_current _ c). intros [[= -> ->]|Hin]%elem_of_cons Hk.
  - pose proof (delete_loop_spec wanted l c1 w1) as Hl. destruct (foldl _ (c1, w1) l) as [c' w'].
    destruct Hl as (_ & _ & _ & Hl). cbn [snd]. rewrite Hl.
    2:{ intros k' n' Hin _ [= ->]. apply Hnin. apply list_elem_of_fmap. by exists (k', n'). }
    rewrite Hd. destruct e as [e|].
    + rewrite decide_True by (apply elem_of_app; left; by left). done.
    + rewrite decide_False by (by intros ?%failed_deletes_sub). by rewrite lookup_delete_eq.
  - change (cc_namespace c) with (cc_namespace c1). rewrite (IH c1 w1 Hnd k n Hin Hk).
    assert (Hne : n <> name) by (intros ->; apply Hnin; apply list_elem_of_fmap; by exists (k, name)).
    change (cc_namespace c1) with (cc_namespace c). rewrite Hd.
    destruct e as [e|]; cbn [app]; [apply decide_ext; rewrite elem_of_cons; tauto|].
    by rewrite lookup_delete_ne by (by intros [= <-]).
Qed.

Lemma range_map_In (m : gmap string string) k n : (k, n) ∈ range_map m <-> m !! k = Some n.
Proof. unfold range_map. rewrite map_order_perm. apply elem_of_map_to_list. Qed.

Lemma NoDup_names c : named c -> NoDup (range_map (cc_currentSecrets c)).*2.
Proof.
  intros Hn. assert (E : (range_map (cc_currentSecrets c)).*2 = secretName c <$> (range_map (cc_currentSecrets c)).*1).
  { rewrite <- list_fmap_compose. apply list_fmap_ext. intros i [k n] Hk%list_elem_of_lookup_2.
    apply range_map_In in Hk. cbn. by apply Hn. }
  rewrite E. apply NoDup_fmap_2; [intros k k'; apply secretName_inj|]. unfold range_map. rewrite map_order_perm.
  apply NoDup_fst_map_to_list.
Qed.

Lemma delete_secrets_spec (wanted : list string) c w :
  let '(c', w') := delete_secrets wanted c w in
  same_node c c' /\ states w' = states w /\
  (forall k, cc_currentSecrets c' !! k = if decide (k ∈ wanted) then cc_currentSecrets c !! k else None) /\
  (tracked c w -> tracked c' w') /\
  (named c -> forall k, is_Some (cc_currentSecrets c !! k) -> k ∉ wanted ->
     secrets w' !! (cc_namespace c, secretName c k) =
       if decide (secretName c k ∈ failed_deletes wanted (cc_namespace c) (range_map (cc_currentSecrets c)) w)
       then secrets w !! (cc_namespace c, secretName c k) else None) /\
  (named c -> forall p, (forall k, is_Some (cc_currentSecrets c !! k) -> k ∉ wanted -> p <> (cc_namespace c, secretName c k)) ->
     secrets w' !! p = secrets w !! p).
Proof.
  unfold delete_secrets. pose proof (delete_loop_spec wanted (range_map (cc_currentSecrets c)) c w) as Hl.
  pose proof (delete_loop_gone wanted (range_map (cc_currentSecrets c)) c w) as Hg.
  destruct (foldl _ _ _) as [c' w']. destruct Hl as (L1 & L2 & L3 & L4). cbn [snd] in Hg.
  assert (Hcur : forall k, cc_currentSecrets c' !! k = if decide (k ∈ wanted) then cc_currentSecrets c !! k else None).
  { intros k. rewrite L3. destruct (decide (k ∈ wanted)) as [Hw|Hw].
    - rewrite decide_False by tauto. done.
    - destruct (cc_currentSecrets c !! k) as [n|] eqn:E; case_decide as Hd; try done. exfalso. apply Hd. split; [|done].
      apply list_elem_of_fmap. exists (k, n). split; [done|]. by apply range_map_In. }
  split_and!; [done|done|done| | |].
  - intros Ht k n Hk. rewrite Hcur in Hk. case_decide as Hw; [|done]. destruct (Ht k n Hk) as [-> Hs].
    destruct (same_node_names c c' "" k ∅ L1) as (En & _ & _). destruct L1 as [-> _]. split; [done|].
    rewrite L4; [done|]. intros k' n' Hin%range_map_In Hw' [= E]. destruct (Ht k' n' Hin) as [-> _].
    apply secretName_inj in E as ->. done.
  - intros Hn k [n Hk] Hw. rewrite <- (Hn k n Hk). apply (Hg (NoDup_names c Hn) k); [by apply range_map_In|done].
  - intros Hn p Hp. apply L4. intros k n Hin%range_map_In Hw. rewrite (Hn k n Hin). apply Hp; [by eexists|done].
Qed.

Lemma put_secrets_spec uid data refs : forall c w,
  let '(err, refs', c', w') := put_secrets uid data refs c w in
  same_node c c' /\ states w' = states w /\ (tracked c w -> tracked c' w') /\
  (forall p, (forall ref, ref ∈ refs -> p <> (cc_namespace c, secretName c (sr_Key ref))) -> secrets w' !! p = secrets w !! p) /\
  (err = None ->
    refs' = (fun r => mkSecretRef (sr_Key r) (secretName c (sr_Key r)) (sr_Version r)) <$> refs /\
    (forall k, cc_currentSecrets c' !! k =
       if decide (k ∈ sr_Key <$> refs) then Some (secretName c k) else cc_currentSecrets c !! k) /\
    forall k, k ∈ sr_Key <$> refs -> secrets w' !! (cc_namespace c, secretName c k) = Some (secret_for c uid k data)).
Proof.
  induction refs as [|ref refs IH]; intros c w; cbn [put_secrets].
  { split_and!; [done..|]. intros _. split_and!; [done|done|set_solver]. }
  set (s := secret_for c uid (sr_Key ref) data).
  destruct (put_secret_spec c s (bool_decide (is_Some (cc_currentSecrets c !! sr_Key ref))) w) as [Hst Hse].
  destruct (put_secret _ _ _ _) as [[e|] w1]; cbn [fst snd] in *.
  { split_and!; [done|done| |by intros; rewrite Hse|done]. intros Ht k n Hk. rewrite Hse. by apply Ht. }
  set (c1 := set_current _ c). specialize (IH c1 w1).
  destruct (put_secrets uid data refs c1 w1) as [[[err refs'] c'] w']. destruct IH as (I1 & I2 & I3 & I4 & I5).
  change (secrets w1 = <[(cc_namespace c, secretName c (sr_Key ref)) := s]> (secrets w)) in Hse.
  split_and!; [done|congruence| | |].
  - intros Ht. apply I3. intros k n Hk. cbn in Hk. rewrite Hse. change (cc_namespace c1) with (cc_namespace c).
    change (secretName c1 k) with (secretName c k).
    apply lookup_insert_Some in Hk as [[<- <-]|[Hne Hk]]; [split; [done|]; by rewrite lookup_insert_eq|].
    destruct (Ht k n Hk) as [-> Hs]. split; [done|]. rewrite lookup_insert_ne; [done|]. by intros E%secret_key_inj.
  - intros p Hp. rewrite I4; [|intros r Hr; apply Hp; by right]. rewrite Hse, lookup_insert_ne; [done|].
    intros <-. eapply Hp; [left|done].
  - intros He. destruct (I5 He) as (-> & Hc & Hs). split_and!; [done| |].
    + intros k. rewrite Hc, fmap_cons. cbn [cc_currentSecrets c1 set_current].
      destruct (decide (k = sr_Key ref)) as [->|Hk].
      * rewrite lookup_insert_eq, (decide_True _ _ (P := sr_Key ref ∈ sr_Key ref :: _)) by left. by case_decide.
      * rewrite lookup_insert_ne by done. repeat case_decide; [done| | |done]; set_solver.
    + intros k Hk. destruct (decide (k ∈ sr_Key <$> refs)) as [Hin|Hn]; [by apply Hs|].
      assert (k = sr_Key ref) as -> by set_solver. rewrite I4, Hse; [by rewrite lookup_insert_eq|].
      intros r Hr E. apply (secret_key_inj _ _ c (sr_Key ref) (sr_Key r)) in E. apply Hn. rewrite E. by apply list_elem_of_fmap_2.
Qed.

(** ** Theorems *)

(** Whatever fails, every Secret the controller tracks is in the cluster under
    the name of its key. *)
Theorem UpdateSecretIndex_tracked refs data now c w :
  tracked c w -> let '(_, _, c', w') := UpdateSecretIndex refs data now c w in tracked c' w'.
Proof.
  intros Ht. unfold UpdateSecretIndex. destruct (law_get (cc_namespace c) (resourceName c) w) as (_ & Hg & _).
  destruct (GetNodeState _ _ w) as [[ex|e] w1]; cbn [fst snd] in Hg.
  2: { intros k n Hk. rewrite Hg. by apply Ht. }
  assert (Ht1 : tracked c w1) by (intros k n Hk; rewrite Hg; by apply Ht).
  pose proof (delete_secrets_spec (sr_Key <$> refs) c w1) as Hd.
  destruct (delete_secrets _ c w1) as [c2 w2]. destruct Hd as (_ & _ & _ & Hd & _ & _).
  pose proof (put_secrets_spec (ps_UID ex) data refs c2 w2) as Hp.
  destruct (put_secrets _ _ refs c2 w2) as [[[[e|] refs3] c3] w3]; destruct Hp as (_ & _ & Hp & _); [by auto|].
  destruct (law_update_state (set_spec (set_SecretRefs refs3) now ex) w3) as [Hu _].
  destruct (UpdateNodeState _ w3) as [err w4]. cbn [snd] in Hu. intros k n Hk. rewrite Hu. by apply Hp; auto.
Qed.

(** C30. A successful update of the Secret index, for a controller that tracks
    its keys with the names of their Secrets, as a new one does and as every
    successful update leaves it.  Each referenced key has its Secret, with its
    ciphertext and owner, and the controller tracks exactly these keys; the
    Secret of a key that was tracked and is not referenced is gone, unless its
    deletion failed, in which case it is as before; every other Secret is as
    before; and the resource lists the references with the names of their
    Secrets.  A failed deletion is not reported and not tried again:
    [failed_delete_forgotten]. *)
Theorem UpdateSecretIndex_exact refs data now c w refs' c' w' :
  named c -> UpdateSecretIndex refs data now c w = (None, refs', c', w') ->
  let wanted := sr_Key <$> refs in
  let failed := failed_deletes wanted (cc_namespace c) (range_map (cc_currentSecrets c))
                  (GetNodeState (cc_namespace c) (resourceName c) w).2 in
  named c' /\ (forall k, is_Some (cc_currentSecrets c' !! k) <-> k ∈ wanted) /\
  (forall k, is_Some (cc_currentSecrets c !! k) -> k ∉ wanted ->
     secrets w' !! (cc_namespace c, secretName c k) =
       if decide (secretName c k ∈ failed) then secrets w !! (cc_namespace c, secretName c k) else None) /\
  (forall p, (forall k, is_Some (cc_currentSecrets c !! k) \/ k ∈ wanted -> p <> (cc_namespace c, secretName c k)) ->
     secrets w' !! p = secrets w !! p) /\
  exists ex s', states w !! (cc_namespace c, resourceName c) = Some ex /\
    (forall k, k ∈ wanted ->
       secrets w' !! (cc_namespace c, secretName c k) = Some (secret_for c (ps_UID ex) k data)) /\
    states w' !! (ps_Namespace ex, ps_Name ex) = Some s' /\ sp_SecretRefs (ps_Spec s') = refs' /\
    refs' = (fun r => mkSecretRef (sr_Key r) (secretName c (sr_Key r)) (sr_Version r)) <$> refs.
Proof.
  intros Hna. unfold UpdateSecretIndex.
  destruct (law_get (cc_namespace c) (resourceName c) w) as (Hgs & Hg & Hget).
  destruct (GetNodeState _ _ w) as [[ex|e] w1]; cbn [fst snd] in *; [|done].
  pose proof (delete_secrets_spec (sr_Key <$> refs) c w1) as Hd.
  destruct (delete_secrets _ c w1) as [c2 w2]. destruct Hd as (N2 & S2 & Hcur & _ & Hgone & Hkeep).
  pose proof (put_secrets_spec (ps_UID ex) data refs c2 w2) as Hp.
  destruct (put_secrets _ _ refs c2 w2) as [[[[e|] refs3] c3] w3]; [done|]. destruct Hp as (N3 & S3 & _ & Hother & Hp).
  destruct (Hp eq_refl) as (-> & Hcur3 & Hs3).
  assert (Hn : forall k uid, secretName c2 k = secretName c k /\ secret_for c2 uid k data = secret_for c uid k data)
    by (intros k uid; by destruct (same_node_names c c2 uid k data N2) as (? & _ & ?)).
  assert (Hns : cc_namespace c2 = cc_namespace c) by apply N2.
  set (refs3 := _ <$> refs). destruct (law_update_state (set_spec (set_SecretRefs refs3) now ex) w3) as [Hu Hst].
  destruct (UpdateNodeState _ w3) as [[e|] w4]; [done|]. cbn [fst snd] in *. intros [= <- <- <-]. set (wanted := sr_Key <$> refs) in *.
  destruct Hst as (s' & Hspec & Hst).
  assert (Hout : forall p, (forall k, k ∈ wanted -> p <> (cc_namespace c, secretName c k)) -> secrets w4 !! p = secrets w2 !! p).
  { intros p Hq. rewrite Hu. apply Hother. intros r Hr. rewrite Hns, (proj1 (Hn _ "")). apply Hq. by apply list_elem_of_fmap_2. }
  split; [|split; [|split; [|split]]].
  - intros k n Hk. destruct (same_node_names c2 c3 "" k ∅ N3) as (-> & _). rewrite Hcur3, Hcur, (proj1 (Hn k "")) in *.
    repeat case_decide; naive_solver.
  - intros k. rewrite Hcur3, Hcur. fold wanted. repeat case_decide; split; try done; by intros [? ?].
  - intros k Hk Hnr. rewrite Hout; [by rewrite (Hgone Hna k Hk Hnr), Hg|]. intros k' Hk' ->%secret_key_inj. done.
  - intros p Hq. rewrite Hout by auto. rewrite (Hkeep Hna) by auto. by rewrite Hg.
  - exists ex, s'. split_and!; [done| | | |].
    + intros k Hk. rewrite Hu. specialize (Hs3 k Hk). destruct (Hn k (ps_UID ex)) as [<- <-]. by rewrite <- Hns.
    + rewrite Hst. by rewrite lookup_insert_eq.
    + by rewrite Hspec.
    + subst refs3. apply list_fmap_ext. intros i r _. f_equal. apply (Hn _ "").
Qed.

(** After [ensureResource] the resource is there with the node's id and mesh
    address, also when another process creates it in between. *)
Theorem ensureResource_spec c now w w' : ensureResource c now w = (None, w') ->
  (forall s, states w !! (cc_namespace c, resourceName c) = Some s ->
     ps_Namespace s = cc_namespace c /\ ps_Name s = resourceName c) ->
  secrets w' = secrets w /\
  exists s, states w' !! (cc_namespace c, resourceName c) = Some s /\
    sp_NodeID (ps_Spec s) = cc_nodeID c /\ sp_MeshIP (ps_Spec s) = cc_meshIP c.
Proof.
  unfold ensureResource. intros E Hn. destruct (law_get (cc_namespace c) (resourceName c) w) as (_ & Hg & Hget).
  destruct (GetNodeState _ _ w) as [[ex|e] w1]; cbn [fst snd] in *.
  - destruct (Hn ex Hget) as [Hns Hnm]. set (s := set_spec _ now ex) in E.
    destruct (law_update_state s w1) as [Hu Hs]. rewrite E in Hu, Hs. cbn in Hu, Hs.
    destruct Hs as (s' & Hspec & ->). split; [congruence|]. exists s'. rewrite Hns, Hnm, lookup_insert_eq, Hspec. done.
  - case_decide as He; [done|]. set (s := mkNodeState _ _ _ _ _ _ _ _) in E.
    destruct (law_create_state s w1) as [Hc Hs]. destruct (CreateNodeState s w1) as [[e'|] w2]; cbn [fst snd] in *.
    + case_decide; [done|]. destruct (law_update_state s w2) as [Hu Hs2]. rewrite E in Hu, Hs2. cbn in Hu, Hs2.
      destruct Hs2 as (s' & Hspec & ->). split; [congruence|]. exists s'. rewrite lookup_insert_eq, Hspec. done.
    + injection E as <-. destruct Hs as (s' & Hspec & ->). split; [congruence|]. exists s'.
      by rewrite lookup_insert_eq, Hspec.
Qed.

End laws.

Definition key_version (e : DataEntry) : string * Z := (de_Key e, de_Version e).

(** For reports without duplicate keys, [reportEqual] compares the keys with
    their versions, in any order. *)
Theorem reportEqual_spec a b : NoDup (de_Key <$> a) -> NoDup (de_Key <$> b) ->
  reportEqual a b = true <-> key_version <$> a ≡ₚ key_version <$> b.
Proof.
  intros Ha Hb. unfold reportEqual.
  assert (Hfst : forall l, de_Key <$> l = (key_version <$> l).*1) by (intros l; by rewrite <- list_fmap_compose).
  assert (Hin : forall e, (match build_map de_Key de_Version a !! de_Key e with
    | Some v => bool_decide (v = de_Version e) | None => false end) = true <-> key_version e ∈ key_version <$> a).
  { intros e. split.
    - destruct (build_map _ _ a !! _) as [v|] eqn:E; [|done]. intros Hv%bool_decide_eq_true.
      apply build_map_Some_inv in E as (x & Hx & Hk & Hxv). apply list_elem_of_fmap. exists x. split; [|done].
      unfold key_version. congruence.
    - intros (x & [= Hk Hv] & Hx)%list_elem_of_fmap. rewrite Hk, build_map_NoDup, Hv by done.
      by apply bool_decide_eq_true. }
  assert (Hnb : NoDup (key_version <$> b)) by (rewrite Hfst in Hb; by eapply NoDup_fmap_1).
  split.
  - case_decide as Hl; [done|]. intros Hf. symmetry. apply submseteq_length_Permutation; [|rewrite !length_fmap; lia].
    apply NoDup_submseteq; [done|]. intros kv (e & -> & He)%list_elem_of_fmap. apply Hin.
    rewrite forallb_forall in Hf. apply Hf. by apply list_elem_of_In.
  - intros Hp. rewrite decide_False.
    + apply forallb_forall. intros e He%list_elem_of_In. apply Hin. rewrite Hp. by apply list_elem_of_fmap_2.
    + apply Permutation_length in Hp. rewrite !length_fmap in Hp. lia.
Qed.

(** With duplicate keys a report can change unnoticed. *)
Lemma duplicate_key_unnoticed :
  let e k v := mkDataEntry k "" "" v "" in
  reportEqual [e "a" 1; e "b" 1] [e "a" 1; e "a" 1] = true.
Proof. by vm_compute. Qed.

(** ** Witnesses: a cluster whose Secrets cannot be deleted when [stuck] *)

Definition cluster : Type := gmap (string * string) PlexdNodeState * gmap (string * string) KubeSecret.

Definition put_state (must : bool) (s : PlexdNodeState) (w : cluster) : option kube_error * cluster :=
  let key := (ps_Namespace s, ps_Name s) in
  match w.1 !! key, must with
  | None, true => (Some ErrNotFound, w)
  | Some _, false => (Some ErrAlreadyExists, w)
  | _, _ => (None, (<[key := s]> w.1, w.2))
  end.
Definition put_kube_secret (must : bool) (s : KubeSecret) (w : cluster) : option kube_error * cluster :=
  let key := (ks_Namespace s, ks_Name s) in
  match w.2 !! key, must with
  | None, true => (Some ErrNotFound, w)
  | Some _, false => (Some ErrAlreadyExists, w)
  | _, _ => (None, (w.1, <[key := s]> w.2))
  end.

Definition sim_kube (stuck : bool) : KubeClient cluster := {|
  GetNodeState := fun ns n w => (match w.1 !! (ns, n) with Some s => Ok s | None => Err ErrNotFound end, w);
  CreateNodeState := put_state false;
  UpdateNodeState := put_state true;
  CreateSecret := put_kube_secret false;
  UpdateSecret := put_kube_secret true;
  DeleteSecret := fun ns n w => if stuck then (Some (EOther "timeout"), w) else (None, (w.1, delete (ns, n) w.2))
|}.
#[local] Instance sim_kube_laws stuck : KubeLaws cluster (H := sim_kube stuck) fst snd.
Proof.
  split; cbn.
  - intros ns n w. split_and!; [done..|]. by destruct (w.1 !! (ns, n)).
  - intros s w. unfold put_state. destruct (w.1 !! _) eqn:E; cbn; split; try done; eauto.
  - intros s w. unfold put_state. destruct (w.1 !! _) eqn:E; cbn; split; try done; eauto.
  - intros s w. unfold put_kube_secret. destruct (w.2 !! _) eqn:E; cbn; split_and!; try done; eauto.
  - intros s w. unfold put_kube_secret. by destruct (w.2 !! _) eqn:E; cbn.
  - intros ns n w. by destruct stuck.
Qed.

#[local] Instance ex_map_order : MapOrder := id_order.
#[local] Existing Instance sim_kube.

Definition ex_controller : CRDController :=
  NewCRDController (mkConfig true true "plexd" "" 0 "") "n1" "10.0.0.1" "plexd".
Definition ex_node_state : PlexdNodeState :=
  mkNodeState "node-n1" "plexd" "uid" "" ∅ (mkNodeSpec "n1" "" ∅ [] []) [] 0.
Definition ex_cluster : cluster := ({[("plexd", "node-n1") := ex_node_state]}, ∅).
Definition ex_ref (key : string) : SecretRef := mkSecretRef key "" 1.

(** The first update creates the Secrets of two keys. *)
Definition ex_first (stuck : bool) :=
  UpdateSecretIndex (H := sim_kube stuck) [ex_ref "a"; ex_ref "b"] {["a" := [1]; "b" := [2]]} 0 ex_controller ex_cluster.

Lemma ex_untracked : tracked (secrets := snd) ex_controller ex_cluster.
Proof. intros key name Hk. cbn in Hk. by rewrite lookup_empty in Hk. Qed.

Lemma UpdateSecretIndex_tracked_witness :
  tracked (secrets := snd) (ex_first false).1.2 (ex_first false).2 /\
  (ex_first false).1.2.(cc_currentSecrets) !! "b" = Some "plexd-secret-n1-b".
Proof.
  split; [|by vm_compute].
  pose proof (UpdateSecretIndex_tracked (H := sim_kube false) (states := fst) (secrets := snd) [ex_ref "a"; ex_ref "b"]
    {["a" := [1]; "b" := [2]]} 0 ex_controller ex_cluster ex_untracked) as Ht.
  unfold ex_first. by destruct (UpdateSecretIndex _ _ _ _ _) as [[[err refs] c] w].
Defined.

Lemma ex_first_ok : ex_first false
  = (None, (ex_first false).1.1.2, (ex_first false).1.2, (ex_first false).2).
Proof.
  assert (E : (ex_first false).1.1.1 = None) by (vm_compute; reflexivity).
  destruct (ex_first false) as [[[err refs] c] w]. cbn in *. by subst.
Qed.

(** The second update drops a key; the Secret goes, or stays when its deletion fails. *)
Definition ex_second (stuck : bool) :=
  UpdateSecretIndex (H := sim_kube stuck) [ex_ref "a"] {["a" := [1]]} 0 (ex_first stuck).1.2 (ex_first stuck).2.

Lemma ex_second_ok stuck : ex_second stuck
  = (None, (ex_second stuck).1.1.2, (ex_second stuck).1.2, (ex_second stuck).2).
Proof.
  assert (E : (ex_second stuck).1.1.1 = None) by (destruct stuck; vm_compute; reflexivity).
  destruct (ex_second stuck) as [[[err refs] c] w]. cbn in *. by subst.
Qed.

Lemma ex_first_named stuck : named (ex_first stuck).1.2.
Proof.
  intros k n. replace (cc_currentSecrets (ex_first stuck).1.2) with
    (<["b" := "plexd-secret-n1-b"]> {["a" := "plexd-secret-n1-a"]} : gmap string string) by (destruct stuck; by vm_compute).
  destruct stuck; intros [[<- <-]|[_ [<- <-]%lookup_singleton_Some]]%lookup_insert_Some; by vm_compute.
Qed.

Lemma UpdateSecretIndex_exact_witness :
  (ex_second false).2.2 !! ("plexd", "plexd-secret-n1-b") = None /\
  (ex_second true).2.2 !! ("plexd", "plexd-secret-n1-b") = (ex_first true).2.2 !! ("plexd", "plexd-secret-n1-b") /\
  (ex_second false).2.2 !! ("plexd", "plexd-secret-n1-a") = Some (secret_for ex_controller "uid" "a" {["a" := [1]]}).
Proof.
  pose proof (fun stuck => UpdateSecretIndex_exact (H := sim_kube stuck) (states := fst) (secrets := snd) [ex_ref "a"]
    {["a" := [1]]} 0 (ex_first stuck).1.2 (ex_first stuck).2 _ _ _ (ex_first_named stuck) (ex_second_ok stuck)) as P.
  assert (En : forall stuck k, (cc_namespace (ex_first stuck).1.2, secretName (ex_first stuck).1.2 k) =
    ("plexd", String.append "plexd-secret-n1-" k)) by (intros [] k; reflexivity).
  split_and!.
  - destruct (P false) as (_ & _ & Hg & _).
    specialize (Hg "b" ltac:(by vm_compute; eexists) ltac:(by_compute)). rewrite En in Hg.
    rewrite decide_False in Hg by by_compute. exact Hg.
  - destruct (P true) as (_ & _ & Hg & _).
    specialize (Hg "b" ltac:(by vm_compute; eexists) ltac:(by_compute)). rewrite En in Hg.
    rewrite decide_True in Hg by by_compute. exact Hg.
  - destruct (P false) as (_ & _ & _ & _ & ex & s' & Hex & Hs & _). specialize (Hs "a" ltac:(left)).
    rewrite En in Hs. assert (ps_UID ex = "uid") as E by (vm_compute in Hex; by injection Hex as <-).
    rewrite E in Hs. exact Hs.
Defined.

(** A deletion that fails is forgotten: the Secret of the dropped key stays in
    the cluster and is tracked no more. *)
Lemma failed_delete_forgotten :
  let '(_, _, c, w) := ex_first true in
  let '(err, _, c', w') := UpdateSecretIndex (H := sim_kube true) [ex_ref "a"] {["a" := [1]]} 0 c w in
  err = None /\ cc_currentSecrets c' !! "b" = None /\ is_Some (w'.2 !! ("plexd", "plexd-secret-n1-b")).
Proof. vm_compute. split_and!; [done|done|by eexists]. Qed.

Lemma ensureResource_spec_witness :
  exists s, (ensureResource (H := sim_kube false) ex_controller 5 ex_cluster).2.1 !! ("plexd", "node-n1") = Some s /\
    sp_MeshIP (ps_Spec s) = "10.0.0.1".
Proof.
  assert (E : ensureResource (H := sim_kube false) ex_controller 5 ex_cluster
    = (None, (ensureResource (H := sim_kube false) ex_controller 5 ex_cluster).2)).
  { assert (E1 : (ensureResource (H := sim_kube false) ex_controller 5 ex_cluster).1 = None) by (vm_compute; reflexivity).
    destruct (ensureResource _ _ _) as [err w']. cbn in *. by subst. }
  destruct (ensureResource_spec (H := sim_kube false) (states := fst) (secrets := snd) ex_controller 5 ex_cluster _ E)
    as (_ & s & Hs & _ & Hm).
  - intros s. cbn. rewrite lookup_singleton_eq. by intros [= <-].
  - exists s. split; [exact Hs|exact Hm].
Defined.

Definition ex_report (vs : list (string * Z)) : list DataEntry := (fun '(k, v) => mkDataEntry k "" "" v "") <$> vs.
Lemma reportEqual_spec_witness :
  reportEqual (ex_report [("a", 1); ("b", 2)]) (ex_report [("b", 2); ("a", 1)]) = true.
Proof.
  apply reportEqual_spec; [by vm_compute; repeat constructor; set_solver..|]. apply Permutation_swap.
Defined.
