(* ===== verification/Installer.v ===== *)
(** * Installing the service (src/internal/packaging)

    The installer on the disk of [Fs], with systemd as an interface: what
    [Install] and [Uninstall] leave behind, and what the agent makes of the
    configuration file they write.  File modes are not modelled. *)

From Stdlib Require Import Ascii String.
From stdpp Require Import base strings list gmap.
From S2P Require Import Prelude Base64 Types Sse Fs Json Identity.
From S2P Require Reconnect.
From S2P Require Import Registration Agent Up.

(** ** Configuration (config.go) *)

Record InstallConfig := mkInstall {
  pk_BinaryPath : string;
  pk_ConfigDir : string;
  pk_DataDir : string;
  pk_RunDir : string;
  pk_UnitFilePath : string;
  pk_ServiceName : string;
  pk_APIBaseURL : string;
  pk_TokenValue : string;
  pk_TokenFile : string
}.

Definition DefaultBinaryPath : string := "/usr/local/bin/plexd".
Definition DefaultConfigDir : string := "/etc/plexd".
Definition DefaultDataDir : string := "/var/lib/plexd".
Definition DefaultRunDir : string := "/var/run/plexd".
Definition DefaultServiceName : string := "plexd".
Definition DefaultUnitFilePath : string := "/etc/systemd/system/plexd.service".

Definition ApplyDefaults (c : InstallConfig) : InstallConfig :=
  let str s def := if decide (s = "") then def else s in
  mkInstall (str (pk_BinaryPath c) DefaultBinaryPath) (str (pk_ConfigDir c) DefaultConfigDir)
    (str (pk_DataDir c) DefaultDataDir) (str (pk_RunDir c) DefaultRunDir)
    (str (pk_UnitFilePath c) DefaultUnitFilePath) (str (pk_ServiceName c) DefaultServiceName)
    (pk_APIBaseURL c) (pk_TokenValue c) (pk_TokenFile c).

Definition Validate (c : InstallConfig) : option string :=
  if decide (pk_BinaryPath c = "") then Some "packaging: config: BinaryPath is required"
  else if decide (pk_ConfigDir c = "") then Some "packaging: config: ConfigDir is required"
  else if decide (pk_DataDir c = "") then Some "packaging: config: DataDir is required"
  else if decide (pk_RunDir c = "") then Some "packaging: config: RunDir is required"
  else if decide (pk_ServiceName c = "") then Some "packaging: config: ServiceName is required"
  else if decide (pk_UnitFilePath c = "") then Some "packaging: config: UnitFilePath is required"
  else None.

(** ** Generated files (defaultconfig.go, unitfile.go) *)

Definition GenerateDefaultConfig (apiBaseURL : string) : string :=
  let apiLine := if decide (apiBaseURL = "") then "# api_url: https://your-control-plane.example.com"
                 else "api_url: " +:+ apiBaseURL in
  unlines ["# plexd configuration"; "# See documentation for all available options."; ""; apiLine;
           "data_dir: /var/lib/plexd"; "log_level: info"; "token_file: /etc/plexd/bootstrap-token"].

(** A cleaned path as a string. *)
Definition path_string (p : path) : string := "/" +:+ join "/" p.

Definition GenerateUnitFile (cfg : InstallConfig) : string :=
  let cfg := ApplyDefaults cfg in
  let configPath := path_string (Join (abs_path (pk_ConfigDir cfg)) "config.yaml") in
  let envPath := path_string (Join (abs_path (pk_ConfigDir cfg)) "environment") in
  unlines ["[Unit]"; "Description=plexd node agent"; "After=network-online.target"; "Wants=network-online.target";
    "StartLimitBurst=5"; "StartLimitIntervalSec=60"; ""; "[Service]"; "Type=simple";
    "ExecStart=" +:+ pk_BinaryPath cfg +:+ " up --config " +:+ configPath; "Restart=always"; "RestartSec=5s";
    "LimitNOFILE=65536"; "EnvironmentFile=-" +:+ envPath; "AmbientCapabilities=CAP_NET_ADMIN CAP_NET_RAW";
    "CapabilityBoundingSet=CAP_NET_ADMIN CAP_NET_RAW"; "ProtectSystem=full"; "ProtectHome=true";
    "ReadWritePaths=" +:+ pk_DataDir cfg +:+ " " +:+ pk_RunDir cfg; ""; "[Install]"; "WantedBy=multi-user.target"].

(** ** The installer (installer.go) *)

(** interfaces.go; [true] is success. *)
Class SystemdController (W : Type) := {
  IsAvailable : W -> bool;
  DaemonReload : W -> bool * W;
  Enable : string -> W -> bool * W;
  Disable : string -> W -> bool * W;
  Stop : string -> W -> bool * W;
  IsActive : string -> W -> bool * W
}.

(** systemd.go: the commands of [systemctl] on a system [S], with their output
    and whether they succeed. *)
Class Systemctl (S : Type) := {
  LookPath : string -> S -> bool;
  exec_run : string -> list string -> S -> (string * bool) * S
}.

Inductive systemctl_error := SystemctlFailed (command output : string).

(** [run]: a failed command is reported with its trimmed output. *)
Definition run {S} `{Systemctl S} (args : list string) (s : S) : option systemctl_error * S :=
  let '((output, ok), s) := exec_run "systemctl" args s in
  (if ok : bool then None else Some (SystemctlFailed (default "" (head args)) (TrimSpace output)), s).

Definition succeeds {S} `{Systemctl S} (args : list string) (s : S) : bool * S :=
  let '(err, s) := run args s in (bool_decide (err = None), s).

Definition NewSystemdController (S : Type) `{Systemctl S} : SystemdController S := {|
  IsAvailable := LookPath "systemctl";
  DaemonReload := succeeds ["daemon-reload"];
  Enable service := succeeds ["enable"; service];
  Disable service := succeeds ["disable"; service];
  Stop service := succeeds ["stop"; service];
  IsActive service s :=
    let '((_, ok), s) := exec_run "systemctl" ["is-active"; "--quiet"; service] s in (ok, s)
|}.

(** [NewRootChecker]. *)
Definition IsRoot (uid : Z) : bool := bool_decide (uid = 0).

Inductive install_error :=
| ENotRoot | ENoSystemd | ECreateDir (dir : string) | EExecutable | EBinaryDir | EOpenSource | EOpenDest | ECopy
| EStatConfig | EWriteConfig | EReadToken | ETokenLength | ETokenChars | EWriteToken | EUnitDir | EWriteUnit
| EDaemonReload | ERemoveUnit | ERemoveBinary | ERemoveDir (dir : string).

#[global] Instance install_error_eq_dec : EqDecision install_error.
Proof. solve_decision. Defined.

(** What the system answers: whether the caller is root, the path of the
    running binary with links resolved, and the calls that fail although the
    disk allows them. *)
Record install_env := mkInstallEnv {
  ie_root : bool;
  ie_exe : option string;
  ie_mkdir : path -> bool;
  ie_fault : path -> fault;
  ie_stat : path -> bool;
  ie_remove : path -> bool
}.

(** The system calls.  A path below a file is an error other than "does not
    exist". *)
Inductive stat_result := StatOk | StatNotExist | StatError.

Definition below_file (p : path) (d : disk) : bool :=
  existsb (fun q => bool_decide (is_Some (d_files d !! q))) (prefixes (Dir p)).

Definition Stat (fails : path -> bool) (p : path) (d : disk) : stat_result :=
  if fails p || below_file p d then StatError
  else if decide (is_Some (d_files d !! p) \/ p ∈ d_dirs d) then StatOk else StatNotExist.

Definition mkdir (fails : path -> bool) (p : path) (d : disk) : bool * disk :=
  if fails p then (false, d) else MkdirAll p d.

(** [os.WriteFile]: truncates, then writes. *)
Definition WriteFile (f : fault) (p : path) (data : list Z) (d : disk) : bool * disk :=
  if decide (f = OpenFails \/ ~ can_create p d) then (false, d)
  else
    match f with
    | WriteFails n => (false, set_files d (<[p := take n data]> (d_files d)))
    | CloseFails => (false, set_files d (<[p := data]> (d_files d)))
    | _ => (true, set_files d (<[p := data]> (d_files d)))
    end.

(** [os.Remove] takes a file or an empty directory; the answer is [true] also
    when there is nothing at the path, which the installer accepts. *)
Definition below (p q : path) : Prop := take (length p) q = p.
#[global] Instance below_dec p q : Decision (below p q).
Proof. unfold below. apply _. Defined.
Definition is_empty (p : path) (d : disk) : bool :=
  forallb (fun q => bool_decide (~ (below p q /\ q <> p))) ((map_to_list (d_files d)).*1 ++ elements (d_dirs d)).

Definition os_Remove (fails : path -> bool) (p : path) (d : disk) : bool * disk :=
  if below_file p d then (false, d)
  else if decide (is_Some (d_files d !! p)) then if fails p then (false, d) else (true, Remove p d)
  else if decide (p ∈ d_dirs d) then
    if fails p || negb (is_empty p d) then (false, d) else (true, mkDisk (d_files d) (d_dirs d ∖ {[p]}))
  else (true, d).

(** [os.RemoveAll] removes what it can: what the system refuses stays, with the
    directories above it. *)
Definition refused (fails : path -> bool) (p : path) (d : disk) : list path :=
  filter (fun q => below p q /\ fails q = true) ((map_to_list (d_files d)).*1 ++ elements (d_dirs d)).

Definition os_RemoveAll (fails : path -> bool) (p : path) (d : disk) : bool * disk :=
  if below_file p d then (false, d)
  else
    let stay := refused fails p d in
    (bool_decide (stay = []),
     mkDisk (filter (fun '(q, _) => ~ below p q \/ q ∈ stay) (d_files d))
            (filter (fun q => ~ below p q \/ Exists (fun r => below q r) stay) (d_dirs d))).

(** A path of the configuration, which is absolute. *)
Definition file (s : string) : path := abs_path s.
Definition config_path (c : InstallConfig) : path := Join (file (pk_ConfigDir c)) "config.yaml".
Definition token_path (c : InstallConfig) : path := Join (file (pk_ConfigDir c)) "bootstrap-token".

(** The destination is truncated before the copy, closing it is not checked;
    a running binary cannot be opened for writing. *)
Definition copyBinary (c : InstallConfig) (env : install_env) (d : disk) : option install_error * disk :=
  match ie_exe env with
  | None => (Some EExecutable, d)
  | Some srcPath =>
      let dstPath := pk_BinaryPath c in
      if decide (srcPath = dstPath) then (None, d)
      else
        match mkdir (ie_mkdir env) (Dir (file dstPath)) d with
        | (false, d) => (Some EBinaryDir, d)
        | (true, d) =>
            match d_files d !! file srcPath with
            | None => (Some EOpenSource, d)
            | Some content =>
                let f := ie_fault env (file dstPath) in
                if decide (f = OpenFails \/ ~ can_create (file dstPath) d \/ file srcPath = file dstPath) then
                  (Some EOpenDest, d)
                else
                  match f with
                  | WriteFails n => (Some ECopy, set_files d (<[file dstPath := take n content]> (d_files d)))
                  | _ => (None, set_files d (<[file dstPath := content]> (d_files d)))
                  end
            end
        end
  end.

Definition maxTokenLength : nat := 512.

Definition validateInstallToken (token : string) : option install_error :=
  let l := bytes_of_string token in
  if decide (maxTokenLength < length l)%nat then Some ETokenLength
  else if existsb (fun c => (c <? 0x20) || (0x7E <? c)) l then Some ETokenChars
  else None.

Definition token_value (c : InstallConfig) (d : disk) : result install_error string :=
  if decide (pk_TokenValue c <> "") then Ok (TrimSpace (pk_TokenValue c))
  else if decide (pk_TokenFile c <> "") then
    match d_files d !! file (pk_TokenFile c) with
    | None => Err EReadToken
    | Some data => Ok (TrimSpace (string_of_bytes data))
    end
  else Ok "".

Definition writeToken (c : InstallConfig) (env : install_env) (d : disk) : option install_error * disk :=
  match token_value c d with
  | Err e => (Some e, d)
  | Ok tokenValue =>
      if decide (tokenValue = "") then (None, d)
      else
        match validateInstallToken tokenValue with
        | Some e => (Some e, d)
        | None =>
            match WriteFile (ie_fault env (token_path c)) (token_path c) (bytes_of_string tokenValue) d with
            | (false, d) => (Some EWriteToken, d)
            | (true, d) => (None, d)
            end
        end
  end.

Fixpoint make_dirs (env : install_env) (dirs : list string) (d : disk) : option install_error * disk :=
  match dirs with
  | [] => (None, d)
  | dir :: dirs =>
      match mkdir (ie_mkdir env) (file dir) d with
      | (false, d) => (Some (ECreateDir dir), d)
      | (true, d) => make_dirs env dirs d
      end
  end.

Definition write_config (c : InstallConfig) (env : install_env) (d : disk) : option install_error * disk :=
  match Stat (ie_stat env) (config_path c) d with
  | StatNotExist =>
      match WriteFile (ie_fault env (config_path c)) (config_path c)
              (bytes_of_string (GenerateDefaultConfig (pk_APIBaseURL c))) d with
      | (false, d) => (Some EWriteConfig, d)
      | (true, d) => (None, d)
      end
  | StatOk => (None, d)
  | StatError => (Some EStatConfig, d)
  end.

Definition write_unit (c : InstallConfig) (env : install_env) (d : disk) : option install_error * disk :=
  match mkdir (ie_mkdir env) (Dir (file (pk_UnitFilePath c))) d with
  | (false, d) => (Some EUnitDir, d)
  | (true, d) =>
      match WriteFile (ie_fault env (file (pk_UnitFilePath c))) (file (pk_UnitFilePath c))
              (bytes_of_string (GenerateUnitFile c)) d with
      | (false, d) => (Some EWriteUnit, d)
      | (true, d) => (None, d)
      end
  end.

Fixpoint purge_dirs (env : install_env) (dirs : list string) (d : disk) : option install_error * disk :=
  match dirs with
  | [] => (None, d)
  | dir :: dirs =>
      match os_RemoveAll (ie_remove env) (file dir) d with
      | (false, d) => (Some (ERemoveDir dir), d)
      | (true, d) => purge_dirs env dirs d
      end
  end.

(** One step after another, up to the first error. *)
Fixpoint run_steps (l : list (disk -> option install_error * disk)) (d : disk) : option install_error * disk :=
  match l with
  | [] => (None, d)
  | step :: l => match step d with (Some e, d) => (Some e, d) | (None, d) => run_steps l d end
  end.

Definition install_steps (c : InstallConfig) (env : install_env) : list (disk -> option install_error * disk) :=
  [make_dirs env [pk_ConfigDir c; pk_DataDir c; pk_RunDir c]; copyBinary c env; write_config c env;
   writeToken c env; write_unit c env].

Section installer.
Context {W : Type} `{SystemdController W}.

(** [NewInstaller] applies the defaults; its methods run on the result. *)
Definition Install (cfg : InstallConfig) (env : install_env) (d : disk) (w : W) : option install_error * disk * W :=
  let c := ApplyDefaults cfg in
  if negb (ie_root env) then (Some ENotRoot, d, w)
  else if negb (IsAvailable w) then (Some ENoSystemd, d, w)
  else
    match run_steps (install_steps c env) d with
    | (Some e, d) => (Some e, d, w)
    | (None, d) =>
        let '(ok, w) := DaemonReload w in
        ((if ok : bool then None else Some EDaemonReload), d, w)
    end.

Definition Uninstall (cfg : InstallConfig) (purge : bool) (env : install_env) (d : disk) (w : W)
    : option install_error * disk * W :=
  let c := ApplyDefaults cfg in
  if negb (ie_root env) then (Some ENotRoot, d, w)
  else
    match Stat (ie_stat env) (file (pk_UnitFilePath c)) d with
    | StatNotExist => (None, d, w)
    | _ =>
        let w := (Stop (pk_ServiceName c) w).2 in
        let w := (Disable (pk_ServiceName c) w).2 in
        match os_Remove (ie_remove env) (file (pk_UnitFilePath c)) d with
        | (false, d) => (Some ERemoveUnit, d, w)
        | (true, d) =>
            let '(ok, w) := DaemonReload w in
            if negb ok then (Some EDaemonReload, d, w)
            else
              match os_Remove (ie_remove env) (file (pk_BinaryPath c)) d with
              | (false, d) => (Some ERemoveBinary, d, w)
              | (true, d) =>
                  if purge then let '(e, d) := purge_dirs env [pk_DataDir c; pk_ConfigDir c] d in (e, d, w)
                  else (None, d, w)
              end
        end
    end.

(** plexd install and plexd uninstall (cmd/plexd/cmd): the paths are the
    default ones. *)
Definition runInstall (apiURL token tokenFile : string) : install_env -> disk -> W -> option install_error * disk * W :=
  Install (mkInstall "" "" "" "" "" "" apiURL token tokenFile).

Definition runUninstall (purge : bool) : install_env -> disk -> W -> option install_error * disk * W :=
  Uninstall (mkInstall "" "" "" "" "" "" "" "" "") purge.

End installer.

(** ** Plain YAML documents *)

(** The key of a line [key: value] of lower-case letters and underscores. *)
Fixpoint line_key (acc s : string) : option string :=
  match s with
  | String.String ":" (String.String " " _) => if decide (acc = "") then None else Some acc
  | String.String c s =>
      if decide (97 <= ascii_code c <= 122 \/ c = "_"%char) then line_key (acc +:+ String.String c "") s else None
  | String.EmptyString => None
  end.

Definition is_comment (s : string) : bool :=
  match s with String.EmptyString => true | String.String c _ => bool_decide (c = "#"%char) end.

Definition printable (s : string) : Prop := Forall (fun c => 0x20 <= c <= 0x7E) (bytes_of_string s).
#[global] Instance printable_dec s : Decision (printable s).
Proof. unfold printable. apply _. Defined.

(** A document of such lines, comments and blank lines, with its keys. *)
Definition block_line (key : option string) (l : string) : Prop :=
  printable l /\ if is_comment l then key = None else line_key "" l = key /\ is_Some key.
Definition plain_document (text : string) (keys : list (option string)) : Prop :=
  exists ls, text = unlines ls /\ Forall2 block_line keys ls.

(** ** Lemmas *)

(** A step changes no file but those at the given paths. *)
Definition touches (ps : list path) (step : disk -> option install_error * disk) : Prop :=
  forall d q, q ∉ ps -> d_files (step d).2 !! q = d_files d !! q.

Lemma mkdir_files fails p d : d_files (mkdir fails p d).2 = d_files d.
Proof. unfold mkdir, MkdirAll. by repeat case_match. Qed.

Lemma mkdir_dirs fails p d : d_dirs d ⊆ d_dirs (mkdir fails p d).2.
Proof. unfold mkdir, MkdirAll. repeat case_match; simpl; try done. apply union_subseteq_r. Qed.

Lemma mkdir_ok fails p d : (mkdir fails p d).1 = true -> p ∈ d_dirs (mkdir fails p d).2.
Proof.
  unfold mkdir, MkdirAll. repeat case_match; cbn [fst snd d_dirs]; try done. intros _.
  apply elem_of_union_l, elem_of_list_to_set. unfold prefixes. apply list_elem_of_fmap.
  exists (length p). split; [by rewrite take_ge|]. apply elem_of_seq. lia.
Qed.

Lemma WriteFile_dirs f p data d : d_dirs (WriteFile f p data d).2 = d_dirs d.
Proof. unfold WriteFile. case_decide; [done|]. by destruct f. Qed.

Lemma WriteFile_ne f p data d q : q <> p -> d_files (WriteFile f p data d).2 !! q = d_files d !! q.
Proof.
  intros Hq. unfold WriteFile. case_decide; [done|].
  destruct f; simpl; by rewrite lookup_insert_ne.
Qed.

Lemma WriteFile_ok f p data d d' : WriteFile f p data d = (true, d') -> d_files d' = <[p := data]> (d_files d).
Proof. unfold WriteFile. case_decide; [done|]. destruct f; by intros [= <-]. Qed.

Lemma make_dirs_files env dirs d : d_files (make_dirs env dirs d).2 = d_files d.
Proof.
  revert d. induction dirs as [|x dirs IH]; intros d; [done|]. simpl.
  pose proof (mkdir_files (ie_mkdir env) (file x) d). destruct (mkdir _ _ d) as [[] d']; simpl in *; [|done].
  by rewrite IH.
Qed.

Lemma make_dirs_ok env dirs d d' : make_dirs env dirs d = (None, d') ->
  d_dirs d ⊆ d_dirs d' /\ Forall (fun x => file x ∈ d_dirs d') dirs.
Proof.
  revert d. induction dirs as [|x dirs IH]; intros d; simpl; [by intros [= ->]|].
  pose proof (mkdir_dirs (ie_mkdir env) (file x) d). pose proof (mkdir_ok (ie_mkdir env) (file x) d).
  destruct (mkdir _ _ d) as [[] d1]; simpl in *; [|done]. intros [Hd Hf]%IH.
  split; [by etrans|]. constructor; [|done]. by apply Hd, H0.
Qed.

Lemma make_dirs_touches env dirs : touches [] (make_dirs env dirs).
Proof. intros d q _. by rewrite make_dirs_files. Qed.

Lemma copyBinary_touches c env : touches [file (pk_BinaryPath c)] (copyBinary c env).
Proof.
  intros d q Hq%not_elem_of_cons. destruct Hq as [Hq _]. unfold copyBinary. destruct (ie_exe env); [|done].
  case_decide; [done|]. pose proof (mkdir_files (ie_mkdir env) (Dir (file (pk_BinaryPath c))) d) as E.
  destruct (mkdir _ _ d) as [[] d1]; simpl in *; [|by rewrite E]. rewrite <- E.
  destruct (d_files d1 !! _); [|done]. case_decide; [done|].
  destruct (ie_fault env _); simpl; by rewrite lookup_insert_ne.
Qed.

Lemma write_config_touches c env : touches [config_path c] (write_config c env).
Proof.
  intros d q Hq%not_elem_of_cons. destruct Hq as [Hq _]. unfold write_config. destruct (Stat _ _ d); try done.
  pose proof (WriteFile_ne (ie_fault env (config_path c)) (config_path c)
    (bytes_of_string (GenerateDefaultConfig (pk_APIBaseURL c))) d q Hq) as E.
  by destruct (WriteFile _ _ _ d) as [[] d1].
Qed.

Lemma writeToken_touches c env : touches [token_path c] (writeToken c env).
Proof.
  intros d q Hq%not_elem_of_cons. destruct Hq as [Hq _]. unfold writeToken.
  destruct (token_value c d) as [t|]; [|done]. case_decide; [done|]. destruct (validateInstallToken t); [done|].
  pose proof (WriteFile_ne (ie_fault env (token_path c)) (token_path c) (bytes_of_string t) d q Hq) as E.
  by destruct (WriteFile _ _ _ d) as [[] d1].
Qed.

Lemma write_unit_touches c env : touches [file (pk_UnitFilePath c)] (write_unit c env).
Proof.
  intros d q Hq%not_elem_of_cons. destruct Hq as [Hq _]. unfold write_unit.
  pose proof (mkdir_files (ie_mkdir env) (Dir (file (pk_UnitFilePath c))) d) as E.
  destruct (mkdir _ _ d) as [[] d1]; simpl in E; [|simpl; by rewrite E]. rewrite <- E.
  pose proof (WriteFile_ne (ie_fault env (file (pk_UnitFilePath c))) (file (pk_UnitFilePath c))
    (bytes_of_string (GenerateUnitFile c)) d1 q Hq) as E'.
  by destruct (WriteFile _ _ _ d1) as [[] d2].
Qed.

Lemma run_steps_touches ps l d q : Forall (touches ps) l -> q ∉ ps -> d_files (run_steps l d).2 !! q = d_files d !! q.
Proof.
  intros Hl Hq. revert d. induction Hl as [|step l Hs Hl IH]; intros d; [done|]. simpl.
  specialize (Hs d q Hq). destruct (step d) as [[e|] d1]; simpl in *; [done|]. by rewrite IH.
Qed.

Lemma touches_more ps qs step : touches ps step -> ps ⊆ qs -> touches qs step.
Proof. intros Hs Hsub d q Hq. apply Hs. naive_solver. Qed.

Definition grows (step : disk -> option install_error * disk) : Prop := forall d, d_dirs d ⊆ d_dirs (step d).2.

Lemma install_steps_grow c env : Forall grows (drop 1 (install_steps c env)).
Proof.
  repeat constructor; intros d.
  - unfold copyBinary. destruct (ie_exe env); [|done]. case_decide; [done|].
    pose proof (mkdir_dirs (ie_mkdir env) (Dir (file (pk_BinaryPath c))) d) as E.
    destruct (mkdir _ _ d) as [[] d1]; cbn [snd] in *; [|done].
    destruct (d_files d1 !! _); [|done]. case_decide; [done|]. by destruct (ie_fault env _).
  - unfold write_config. destruct (Stat _ _ d); try done.
    pose proof (WriteFile_dirs (ie_fault env (config_path c)) (config_path c)
      (bytes_of_string (GenerateDefaultConfig (pk_APIBaseURL c))) d) as E.
    destruct (WriteFile _ _ _ d) as [[] d1]; cbn [snd] in *; by rewrite E.
  - unfold writeToken. destruct (token_value c d) as [t|]; [|done]. case_decide; [done|].
    destruct (validateInstallToken t); [done|].
    pose proof (WriteFile_dirs (ie_fault env (token_path c)) (token_path c) (bytes_of_string t) d) as E.
    destruct (WriteFile _ _ _ d) as [[] d1]; cbn [snd] in *; by rewrite E.
  - unfold write_unit. pose proof (mkdir_dirs (ie_mkdir env) (Dir (file (pk_UnitFilePath c))) d) as E.
    destruct (mkdir _ _ d) as [[] d1]; cbn [snd] in *; [|done].
    pose proof (WriteFile_dirs (ie_fault env (file (pk_UnitFilePath c))) (file (pk_UnitFilePath c))
      (bytes_of_string (GenerateUnitFile c)) d1) as E'.
    destruct (WriteFile _ _ _ d1) as [[] d2]; cbn [snd] in *; by rewrite E'.
Qed.

Lemma run_steps_grow l d : Forall grows l -> d_dirs d ⊆ d_dirs (run_steps l d).2.
Proof.
  intros Hl. revert d. induction Hl as [|step l Hs Hl IH]; intros d; [done|]. simpl.
  specialize (Hs d). destruct (step d) as [[e|] d1]; cbn [snd] in *; [done|]. by etrans.
Qed.

Lemma copyBinary_ok c env d d' : copyBinary c env d = (None, d') ->
  exists src, ie_exe env = Some src /\
    (src = pk_BinaryPath c \/
     is_Some (d_files d !! file src) /\ d_files d' !! file (pk_BinaryPath c) = d_files d !! file src).
Proof.
  unfold copyBinary. destruct (ie_exe env) as [src|]; [|done]. intros Hc. exists src. split; [done|].
  case_decide as Hs; [by left|right]. pose proof (mkdir_files (ie_mkdir env) (Dir (file (pk_BinaryPath c))) d) as E.
  destruct (mkdir _ _ d) as [[] d1]; cbn [snd] in *; [|done]. rewrite <- E.
  destruct (d_files d1 !! file src) as [content|]; [|done]. case_decide; [done|]. split; [done|].
  destruct (ie_fault env _); simplify_eq; cbn; by rewrite lookup_insert_eq.
Qed.

Lemma write_config_ok c env d d' : write_config c env d = (None, d') ->
  match d_files d !! config_path c with
  | Some b => d_files d' !! config_path c = Some b
  | None => config_path c ∈ d_dirs d' \/
            d_files d' !! config_path c = Some (bytes_of_string (GenerateDefaultConfig (pk_APIBaseURL c)))
  end.
Proof.
  unfold write_config, Stat. destruct (_ || _); [done|]. case_decide as Hs.
  - intros [= <-]. destruct (d_files d !! config_path c) eqn:E; [done|].
    destruct Hs as [[? ?]|Hs]; [done|by left].
  - destruct (d_files d !! config_path c) eqn:E; [destruct Hs; eauto|].
    destruct (WriteFile _ _ _ d) as [[] d1] eqn:Ew; [|done]. intros [= <-]. right.
    apply WriteFile_ok in Ew. by rewrite Ew, lookup_insert_eq.
Qed.

(** The installer's check is the one the agent makes of its token. *)
Lemma validateInstallToken_None t : validateInstallToken t = None -> validateToken t = None.
Proof.
  unfold validateInstallToken, validateToken, maxTokenLength, Registration.maxTokenLength.
  repeat case_decide; try done. by destruct (existsb _ _).
Qed.

Lemma writeToken_ok c env d d' : writeToken c env d = (None, d') ->
  exists t, token_value c d = Ok t /\
    (t = "" /\ d_files d' !! token_path c = d_files d !! token_path c \/
     t <> "" /\ validateToken t = None /\ d_files d' !! token_path c = Some (bytes_of_string t)).
Proof.
  unfold writeToken. destruct (token_value c d) as [t|e]; [|done]. intros Hw. exists t. split; [done|].
  case_decide as Ht; [left; by simplify_eq|right].
  destruct (validateInstallToken t) eqn:Hv; [done|]. apply validateInstallToken_None in Hv.
  destruct (WriteFile _ _ _ d) as [[] d1] eqn:Ew; simplify_eq.
  apply WriteFile_ok in Ew. by rewrite Ew, lookup_insert_eq.
Qed.

Lemma write_unit_ok c env d d' : write_unit c env d = (None, d') ->
  d_files d' !! file (pk_UnitFilePath c) = Some (bytes_of_string (GenerateUnitFile c)).
Proof.
  unfold write_unit. destruct (mkdir _ _ d) as [[] d1]; [|done].
  destruct (WriteFile _ _ _ d1) as [[] d2] eqn:Ew; [|done]. intros [= <-].
  apply WriteFile_ok in Ew. by rewrite Ew, lookup_insert_eq.
Qed.

Lemma token_value_eq c d d' : d_files d' !! file (pk_TokenFile c) = d_files d !! file (pk_TokenFile c) ->
  token_value c d' = token_value c d.
Proof. intros E. unfold token_value. by rewrite E. Qed.

(** The paths the installer writes to. *)
Definition targets (c : InstallConfig) : list path :=
  [file (pk_BinaryPath c); config_path c; token_path c; file (pk_UnitFilePath c)].

Lemma install_steps_touch c env : Forall (touches (targets c)) (install_steps c env).
Proof.
  repeat constructor; eapply touches_more;
    eauto using make_dirs_touches, copyBinary_touches, write_config_touches, writeToken_touches, write_unit_touches.
  all: unfold targets; intros x; rewrite ?elem_of_cons, ?elem_of_nil; tauto.
Qed.

Lemma os_Remove_files fails p d d' : os_Remove fails p d = (true, d') -> d_files d' = delete p (d_files d).
Proof.
  unfold os_Remove. destruct (below_file p d); [done|]. case_decide as Hp.
  { destruct (fails p); [done|]. by intros [= <-]. }
  assert (E : d_files d = delete p (d_files d)).
  { symmetry. apply delete_id. by apply eq_None_not_Some. }
  case_decide; [destruct (_ || _); [done|]|]; intros [= <-]; done.
Qed.

Lemma os_Remove_ne fails p d q : q <> p -> d_files (os_Remove fails p d).2 !! q = d_files d !! q.
Proof.
  intros Hq. unfold os_Remove. repeat (case_match; try done). cbn. by rewrite lookup_delete_ne.
Qed.

Lemma os_RemoveAll_ne fails p d q : ~ below p q -> d_files (os_RemoveAll fails p d).2 !! q = d_files d !! q.
Proof.
  intros Hq. unfold os_RemoveAll. destruct (below_file p d); [done|]. cbn [snd d_files].
  destruct (d_files d !! q) as [b|] eqn:E.
  - apply map_lookup_filter_Some. split; [done|by left].
  - apply map_lookup_filter_None. by left.
Qed.

Lemma os_RemoveAll_gone fails p d d' q : os_RemoveAll fails p d = (true, d') -> below p q -> d_files d' !! q = None.
Proof.
  unfold os_RemoveAll. destruct (below_file p d); [done|]. intros [= Hs <-] Hq. cbn.
  apply bool_decide_eq_true in Hs. apply map_lookup_filter_None. right. intros b _ [?|Hin]; [done|].
  rewrite Hs in Hin. by apply elem_of_nil in Hin.
Qed.

(** Nothing refused: [RemoveAll] as the deregistration uses it. *)
Lemma os_RemoveAll_all p d : below_file p d = false -> os_RemoveAll (fun _ => false) p d = (true, RemoveAll p d).
Proof.
  intros Hb. unfold os_RemoveAll, RemoveAll. rewrite Hb.
  assert (Hr : refused (fun _ => false) p d = []).
  { unfold refused. generalize ((map_to_list (d_files d)).*1 ++ elements (d_dirs d)). intros l.
    induction l as [|x l IH]; [done|]. rewrite filter_cons, decide_False; [done|]. by intros [_ ?]. }
  rewrite Hr. rewrite bool_decide_eq_true_2 by done. f_equal. f_equal.
  - apply map_filter_ext. intros q b _. unfold below. rewrite elem_of_nil. tauto.
  - apply set_eq. intros q. rewrite !elem_of_filter, Exists_nil. unfold below. tauto.
Qed.

Lemma printable_app a b : printable a -> printable b -> printable (a +:+ b).
Proof. intros Ha Hb. unfold printable. rewrite bytes_of_string_app. by apply Forall_app. Qed.

(** The keys of the generated configuration; [api] is not one of them. *)
Lemma default_config_keys url : printable url ->
  exists keys, plain_document (GenerateDefaultConfig url) keys /\ Some "api" ∉ keys.
Proof.
  intros Hu. set (k := if decide (url = "") then None else Some "api_url").
  exists [None; None; None; k; Some "data_dir"; Some "log_level"; Some "token_file"]. split.
  - eexists. split; [reflexivity|]. subst k.
    repeat (apply Forall2_cons; split); try apply Forall2_nil; try done; try (split; [by_compute|done]);
      try (split; [by_compute|split; [done|eauto]]).
    destruct (decide (url = "")); [split; [by_compute|done]|].
    split; [apply printable_app; [by_compute|done]|]. split; [done|eauto].
  - subst k. destruct (decide (url = "")); by_compute.
Qed.

Section install_theorems.
Context {W : Type} `{SystemdController W}.

Lemma Install_steps cfg env d w : let c := ApplyDefaults cfg in
  (Install cfg env d w).1.2 = d \/ (Install cfg env d w).1.2 = (run_steps (install_steps c env) d).2.
Proof.
  intros c. unfold Install. fold c. destruct (ie_root env); [|by left]. destruct (IsAvailable w); [|by left]. right.
  cbn [negb]. destruct (run_steps _ d) as [[e|] d1]; [done|]. by destruct (DaemonReload w) as [[] ?].
Qed.

Lemma Install_inv cfg env d w d' w' : Install cfg env d w = (None, d', w') ->
  ie_root env = true /\ IsAvailable w = true /\ run_steps (install_steps (ApplyDefaults cfg) env) d = (None, d') /\
  DaemonReload w = (true, w').
Proof.
  unfold Install. destruct (ie_root env); [|done]. destruct (IsAvailable w); [|done]. cbn [negb].
  destruct (run_steps _ d) as [[e|] d1]; [done|]. destruct (DaemonReload w) as [[] ?]; [|done]. by intros [= -> ->].
Qed.

Lemma run_steps_inv step l d d' : run_steps (step :: l) d = (None, d') ->
  exists d1, step d = (None, d1) /\ run_steps l d1 = (None, d').
Proof. simpl. destruct (step d) as [[e|] d1]; [done|]. eauto. Qed.

(** What a step leaves alone, when it succeeds. *)
Lemma touches_None p step d d' : touches [p] step -> step d = (None, d') ->
  forall q, q <> p -> d_files d' !! q = d_files d !! q.
Proof. intros Ht E q Hq. specialize (Ht d q). rewrite E in Ht. apply Ht. by rewrite list_elem_of_singleton. Qed.

Lemma targets_distinct c : NoDup (targets c) ->
  file (pk_BinaryPath c) <> config_path c /\ file (pk_BinaryPath c) <> token_path c /\
  file (pk_BinaryPath c) <> file (pk_UnitFilePath c) /\ config_path c <> token_path c /\
  config_path c <> file (pk_UnitFilePath c) /\ token_path c <> file (pk_UnitFilePath c).
Proof. unfold targets. rewrite !NoDup_cons, !not_elem_of_cons. tauto. Qed.

(** Whatever happens during an installation, no file but the four the
    installer owns changes, and a configuration file that is already there is
    kept as it is. *)
Theorem Install_preserves cfg env d w q : let c := ApplyDefaults cfg in
  q ∉ targets c \/
  (q = config_path c /\ is_Some (d_files d !! q) /\ q ∉ [file (pk_BinaryPath c); token_path c; file (pk_UnitFilePath c)]) ->
  d_files (Install cfg env d w).1.2 !! q = d_files d !! q.
Proof.
  intros c Hq. destruct (Install_steps cfg env d w) as [-> | ->]; [done|]. fold c.
  destruct Hq as [Hq|(-> & [b Hb] & Hq)].
  { apply run_steps_touches with (targets c); [apply install_steps_touch|done]. }
  assert (Hsteps : forall l d, Forall (fun step => forall d, d_files d !! config_path c = Some b ->
      d_files (step d).2 !! config_path c = Some b) l ->
    d_files d !! config_path c = Some b -> d_files (run_steps l d).2 !! config_path c = Some b).
  { intros l d0 Hl. revert d0. induction Hl as [|step l Hs Hl IH]; intros d0 E; [done|]. simpl.
    specialize (Hs d0 E). destruct (step d0) as [[e|] d1]; [done|]. by apply IH. }
  assert (Hkeep : forall p step, touches [p] step -> config_path c <> p -> forall d,
      d_files d !! config_path c = Some b -> d_files (step d).2 !! config_path c = Some b).
  { intros p step Ht Hp d0 <-. apply Ht. by rewrite list_elem_of_singleton. }
  rewrite !not_elem_of_cons in Hq. destruct Hq as (H1 & H2 & H3 & _).
  rewrite Hb. apply Hsteps; [|done]. repeat constructor.
  - intros d0. by rewrite make_dirs_files.
  - by eapply Hkeep; [apply copyBinary_touches|].
  - intros d0 E. unfold write_config, Stat. destruct (_ || _); [done|]. rewrite decide_True by eauto. done.
  - by eapply Hkeep; [apply writeToken_touches|].
  - by eapply Hkeep; [apply write_unit_touches|].
Qed.

(** The steps of a successful installation, with what each leaves alone. *)
Lemma Install_runs cfg env d w d' w' : let c := ApplyDefaults cfg in
  Install cfg env d w = (None, d', w') -> exists d1 d2 d3 d4,
  (make_dirs env [pk_ConfigDir c; pk_DataDir c; pk_RunDir c] d = (None, d1) /\ d_files d1 = d_files d /\
   d_dirs d1 ⊆ d_dirs d') /\
  (copyBinary c env d1 = (None, d2) /\ forall q, q <> file (pk_BinaryPath c) -> d_files d2 !! q = d_files d1 !! q) /\
  (write_config c env d2 = (None, d3) /\ (forall q, q <> config_path c -> d_files d3 !! q = d_files d2 !! q) /\
   d_dirs d3 ⊆ d_dirs d') /\
  (writeToken c env d3 = (None, d4) /\ forall q, q <> token_path c -> d_files d4 !! q = d_files d3 !! q) /\
  (write_unit c env d4 = (None, d') /\ forall q, q <> file (pk_UnitFilePath c) -> d_files d' !! q = d_files d4 !! q).
Proof.
  intros c (_ & _ & Hrun & _)%Install_inv. fold c in Hrun.
  apply run_steps_inv in Hrun as (d1 & E1 & Hrun). pose proof (install_steps_grow c env) as Hg.
  pose proof (run_steps_grow _ d1 Hg) as Hsub. unfold install_steps in Hg, Hsub. cbn [drop] in Hg, Hsub.
  rewrite Hrun in Hsub. cbn [snd] in Hsub.
  apply run_steps_inv in Hrun as (d2 & E2 & Hrun). apply run_steps_inv in Hrun as (d3 & E3 & Hrun).
  pose proof (run_steps_grow _ d3 (Forall_drop _ 2 _ Hg)) as Hsub3. cbn [drop] in Hsub3.
  rewrite Hrun in Hsub3. cbn [snd] in Hsub3.
  apply run_steps_inv in Hrun as (d4 & E4 & Hrun). apply run_steps_inv in Hrun as (d5 & E5 & Hrun). injection Hrun as ->.
  exists d1, d2, d3, d4. split_and!; try done.
  - rewrite <- (make_dirs_files env [pk_ConfigDir c; pk_DataDir c; pk_RunDir c] d). by rewrite E1.
  - exact (touches_None _ _ _ _ (copyBinary_touches c env) E2).
  - exact (touches_None _ _ _ _ (write_config_touches c env) E3).
  - exact (touches_None _ _ _ _ (writeToken_touches c env) E4).
  - exact (touches_None _ _ _ _ (write_unit_touches c env) E5).
Qed.

Lemma installed_config cfg env d w d' w' : let c := ApplyDefaults cfg in
  NoDup (targets c) -> Install cfg env d w = (None, d', w') ->
  match d_files d !! config_path c with
  | Some b => d_files d' !! config_path c = Some b
  | None => config_path c ∈ d_dirs d' \/
            d_files d' !! config_path c = Some (bytes_of_string (GenerateDefaultConfig (pk_APIBaseURL c)))
  end.
Proof.
  intros c (N1 & N2 & N3 & N4 & N5 & N6)%targets_distinct
    (d1 & d2 & d3 & d4 & (_ & F1 & _) & (_ & F2) & (E3 & _ & Hsub) & (_ & F4) & (_ & F5))%Install_runs.
  fold c in F2, E3, F4, F5. apply write_config_ok in E3. rewrite F2, F1 in E3 by done.
  destruct (d_files d !! config_path c).
  - by rewrite F5, F4 by done.
  - destruct E3 as [Hin|E3]; [left; by apply Hsub|right]. by rewrite F5, F4 by done.
Qed.

Lemma ApplyDefaults_BaseURL dec : Reconnect.BaseURL (ag_API (Agent.ApplyDefaults dec)) = Reconnect.BaseURL (ag_API dec).
Proof. by destruct dec as [??? []]. Qed.

(** A successful installation: the directories exist, the binary is a copy
    of the running one, a configuration is there (the old one, or else the
    default one), the given token is stored if the agent will accept it, and
    the unit file is the generated one. *)
Theorem Install_spec cfg env d w d' w' : let c := ApplyDefaults cfg in
  NoDup (targets c) -> file (pk_TokenFile c) ∉ [file (pk_BinaryPath c); config_path c] ->
  Install cfg env d w = (None, d', w') ->
  Forall (fun dir => file dir ∈ d_dirs d') [pk_ConfigDir c; pk_DataDir c; pk_RunDir c] /\
  (exists src, ie_exe env = Some src /\
     (src = pk_BinaryPath c \/
      is_Some (d_files d !! file src) /\ d_files d' !! file (pk_BinaryPath c) = d_files d !! file src)) /\
  match d_files d !! config_path c with
  | Some b => d_files d' !! config_path c = Some b
  | None => config_path c ∈ d_dirs d' \/
            d_files d' !! config_path c = Some (bytes_of_string (GenerateDefaultConfig (pk_APIBaseURL c)))
  end /\
  (exists t, token_value c d = Ok t /\
     (t = "" /\ d_files d' !! token_path c = d_files d !! token_path c \/
      t <> "" /\ validateToken t = None /\ d_files d' !! token_path c = Some (bytes_of_string t))) /\
  d_files d' !! file (pk_UnitFilePath c) = Some (bytes_of_string (GenerateUnitFile c)).
Proof.
  intros c Hnd Htf Hi. pose proof (installed_config _ _ _ _ _ _ Hnd Hi) as Hc.
  apply Install_runs in Hi as (d1 & d2 & d3 & d4 & (E1 & F1 & Hsub) & (E2 & F2) & (_ & F3 & _) & (E4 & F4) & (E5 & F5)).
  fold c in Hc, E1, E2, F2, F3, E4, F4, E5, F5. apply targets_distinct in Hnd as (N1 & N2 & N3 & N4 & N5 & N6).
  rewrite !not_elem_of_cons in Htf. destruct Htf as (T1 & T2 & _). split_and!; [| |exact Hc| |].
  - apply make_dirs_ok in E1 as [_ E1]. eapply Forall_impl; [exact E1|]. intros x Hx. by apply Hsub.
  - apply copyBinary_ok in E2 as (src & Hs & Hb). exists src. split; [done|]. rewrite <- F1.
    by rewrite F5, F4, F3 by done.
  - apply writeToken_ok in E4 as (t & Ht & Hw). exists t.
    rewrite (token_value_eq c d) in Ht by (by rewrite F3, F2, F1). split; [done|].
    rewrite F3, F2, F1 in Hw by done. by rewrite F5 by done.
  - by apply write_unit_ok in E5.
Qed.

Lemma purge_dirs_inv env dirs d d' : purge_dirs env dirs d = (None, d') ->
  (forall q, Forall (fun dir => ~ below (file dir) q) dirs -> d_files d' !! q = d_files d !! q) /\
  (forall q, Exists (fun dir => below (file dir) q) dirs \/ d_files d !! q = None -> d_files d' !! q = None).
Proof.
  revert d. induction dirs as [|x dirs IH]; intros d; simpl.
  { intros [= ->]. split; [done|]. intros q [Hq|Hq]; [by inversion Hq|done]. }
  pose proof (os_RemoveAll_ne (ie_remove env) (file x) d) as Hne.
  destruct (os_RemoveAll _ _ d) as [[] d1] eqn:E; [|done]. cbn [snd] in Hne. intros [Hk Hg]%IH. split.
  - intros q Hq. inversion_clear Hq. rewrite Hk by done. by apply Hne.
  - intros q Hq. apply Hg. destruct (decide (below (file x) q)) as [Hb|Hb].
    { right. by eapply os_RemoveAll_gone. }
    destruct Hq as [Hq|Hq]; [left; by inversion_clear Hq|right]. by rewrite Hne.
Qed.

Lemma Uninstall_inv cfg purge env d w d' w' : let c := ApplyDefaults cfg in
  is_Some (d_files d !! file (pk_UnitFilePath c)) -> Uninstall cfg purge env d w = (None, d', w') ->
  exists d1, d_files d1 = delete (file (pk_BinaryPath c)) (delete (file (pk_UnitFilePath c)) (d_files d)) /\
    (if purge then purge_dirs env [pk_DataDir c; pk_ConfigDir c] d1 else (None, d1)) = (None, d').
Proof.
  intros c Hu Hun. unfold Uninstall in Hun. fold c in Hun. destruct (ie_root env); [|done]. cbn [negb] in Hun.
  assert (Hs : Stat (ie_stat env) (file (pk_UnitFilePath c)) d <> StatNotExist).
  { unfold Stat. destruct (_ || _); [done|]. by rewrite decide_True by eauto. }
  destruct (Stat _ _ d); [|done|].
  all: destruct (os_Remove _ (file (pk_UnitFilePath c)) d) as [[] d1] eqn:E1; [|done];
    destruct (DaemonReload _) as [[] w1]; [|done]; cbn [negb] in Hun;
    destruct (os_Remove _ (file (pk_BinaryPath c)) d1) as [[] d2] eqn:E2; [|done];
    apply os_Remove_files in E1, E2; exists d2; rewrite E2, E1; split; [done|];
    destruct purge; [destruct (purge_dirs _ _ _)|]; by simplify_eq.
Qed.

Lemma config_below c : below (file (pk_ConfigDir c)) (config_path c) /\ below (file (pk_ConfigDir c)) (token_path c).
Proof. unfold below, config_path, token_path. rewrite !Join_plain by by_compute. by rewrite !take_app_length. Qed.

(** C39. Installing and then uninstalling with [--purge] gives back the disk:
    the binary and the unit file are gone, nothing is left below the
    configuration and the data directory, every other file is as before. *)
Theorem install_uninstall cfg env env' d w d1 w1 d2 w2 w' : let c := ApplyDefaults cfg in
  Install cfg env d w = (None, d1, w1) -> Uninstall cfg true env' d1 w' = (None, d2, w2) ->
  forall q, d_files d2 !! q =
    if decide (q = file (pk_BinaryPath c) \/ q = file (pk_UnitFilePath c) \/
               below (file (pk_DataDir c)) q \/ below (file (pk_ConfigDir c)) q)
    then None else d_files d !! q.
Proof.
  intros c Hi Hu q. pose proof Hi as (_ & _ & Hrun & _)%Install_inv. fold c in Hrun.
  assert (Hunit : is_Some (d_files d1 !! file (pk_UnitFilePath c))).
  { apply Install_runs in Hi as (? & ? & ? & ? & _ & _ & _ & _ & E5 & _). apply write_unit_ok in E5. eauto. }
  assert (Hkeep : q ∉ targets c -> d_files d1 !! q = d_files d !! q).
  { intros Hq. pose proof (run_steps_touches _ _ d q (install_steps_touch c env) Hq) as E. by rewrite Hrun in E. }
  apply Uninstall_inv in Hu as (d3 & E3 & Hp); [|done]. apply purge_dirs_inv in Hp as [Hk Hg]. fold c in E3, Hk, Hg.
  case_decide as Hq.
  - apply Hg. rewrite !Exists_cons, E3, !lookup_delete_None. naive_solver.
  - rewrite Hk by (repeat constructor; tauto). rewrite E3, !lookup_delete_ne by naive_solver. apply Hkeep.
    pose proof (config_below c) as [Hc Ht]. unfold targets. rewrite !not_elem_of_cons.
    split_and!; [tauto|intros ->; tauto|intros ->; tauto|tauto|apply not_elem_of_nil].
Qed.

(** Without [--purge], and whatever happens, uninstalling removes nothing
    but the binary and the unit file; with it, nothing outside the data and the
    configuration directory either. *)
Theorem Uninstall_preserves cfg purge env d w q : let c := ApplyDefaults cfg in
  q ∉ [file (pk_BinaryPath c); file (pk_UnitFilePath c)] ->
  (purge = true -> ~ below (file (pk_DataDir c)) q /\ ~ below (file (pk_ConfigDir c)) q) ->
  d_files (Uninstall cfg purge env d w).1.2 !! q = d_files d !! q.
Proof.
  intros c Hq Hp. rewrite !not_elem_of_cons in Hq. destruct Hq as (H1 & H2 & _).
  unfold Uninstall. fold c. destruct (ie_root env); [|done]. cbn [negb].
  pose proof (os_Remove_ne (ie_remove env) (file (pk_UnitFilePath c)) d q H2) as E1.
  destruct (Stat _ _ d); [|done|].
  all: destruct (os_Remove _ (file (pk_UnitFilePath c)) d) as [[] d1]; [|done]; cbn [snd] in E1;
    destruct (DaemonReload _) as [[] w1]; [|done]; cbn [negb];
    pose proof (os_Remove_ne (ie_remove env) (file (pk_BinaryPath c)) d1 q H1) as E2;
    destruct (os_Remove _ (file (pk_BinaryPath c)) d1) as [[] d2]; cbn [snd] in E2; cbn [fst snd];
    [|by rewrite E2]; (destruct purge; [|by cbn; rewrite E2]); destruct (Hp eq_refl) as [P1 P2];
    simpl; pose proof (os_RemoveAll_ne (ie_remove env) _ d2 q P1) as E3;
    destruct (os_RemoveAll _ _ d2) as [[] d3]; cbn [snd] in E3; [|by cbn; rewrite E3, E2];
    pose proof (os_RemoveAll_ne (ie_remove env) _ d3 q P2) as E4;
    destruct (os_RemoveAll _ _ d3) as [[] d4]; cbn in *; by rewrite E4, E3, E2.
Qed.

(** C40. The configuration a fresh installation writes is refused by the agent
    the unit file starts, whatever URL was given to the installer: the file has
    no [api] section, and the decoder leaves the fields of a section that is
    not in the document at their zero values. *)
Theorem fresh_install_refused yaml cfg env d w d' w' : let c := ApplyDefaults cfg in
  (forall text keys dec, plain_document text keys -> Some "api" ∉ keys ->
     yaml (bytes_of_string text) = Some dec -> Reconnect.BaseURL (ag_API dec) = "") ->
  printable (pk_APIBaseURL c) -> NoDup (targets c) ->
  Install cfg env d w = (None, d', w') -> d_files d !! config_path c = None -> config_path c ∉ d_dirs d' ->
  exists e, ParseConfig yaml (d_files d' !! config_path c) = Err e.
Proof.
  intros c Hy Hurl Hnd Hi Hnone Hdir. pose proof (installed_config _ _ _ _ _ _ Hnd Hi) as Hc. fold c in Hc.
  rewrite Hnone in Hc. destruct Hc as [Hc | ->]; [done|].
  destruct (ParseConfig _ _) as [cfg'|e] eqn:E; [|eauto]. exfalso.
  apply ParseConfig_spec in E as (_ & _ & Hb & _ & _ & _ & data & dec & [= <-] & Hdec & ->).
  destruct (default_config_keys _ Hurl) as (keys & Hdoc & Hk).
  apply Hb. rewrite ApplyDefaults_BaseURL. by eapply Hy.
Qed.

End install_theorems.

(** ** The real controller *)

(** A system that keeps the commands it was given, newest last: what it answers
    depends on them. *)
Record traced := mkTraced { tr_log : list (list string) }.

#[global] Instance traced_systemctl (available : bool) (answer : list (list string) -> list string -> string * bool)
    : Systemctl traced := {|
  LookPath _ _ := available;
  exec_run _ args s := (answer (tr_log s) args, mkTraced (tr_log s ++ [args]))
|}.

(** Over the real controller a successful installation reloads systemd once and
    does not enable the service; a successful removal stops and disables
    the service, whether or not these commands succeed, and then reloads. *)
Theorem systemctl_commands available answer cfg purge env d s :
  let ctl := NewSystemdController traced (H := traced_systemctl available answer) in
  (forall d' s', Install (H := ctl) cfg env d s = (None, d', s') -> tr_log s' = tr_log s ++ [["daemon-reload"]]) /\
  (forall d' s', Uninstall (H := ctl) cfg purge env d s = (None, d', s') ->
     is_Some (d_files d !! file (pk_UnitFilePath (ApplyDefaults cfg))) ->
     let service := pk_ServiceName (ApplyDefaults cfg) in
     tr_log s' = tr_log s ++ [["stop"; service]; ["disable"; service]; ["daemon-reload"]]).
Proof.
  intros ctl. split.
  - intros d' s' (_ & _ & _ & Hr)%Install_inv. cbn in Hr. unfold succeeds, run in Hr. cbn in Hr.
    destruct (answer _ _) as [? []]; by simplify_eq/=.
  - intros d' s' Hu Hs. unfold Uninstall in Hu. set (c := ApplyDefaults cfg) in *.
    destruct (ie_root env); [|done]. cbn [negb] in Hu.
    assert (Hst : Stat (ie_stat env) (file (pk_UnitFilePath c)) d <> StatNotExist).
    { unfold Stat. destruct (_ || _); [done|]. by rewrite decide_True by eauto. }
    assert (Hlog : forall args s0, tr_log (succeeds (H := traced_systemctl available answer) args s0).2 = tr_log s0 ++ [args]).
    { intros args s0. unfold succeeds, run. cbn. by destruct (answer _ _). }
    set (s1 := (Disable (SystemdController := ctl) _ _).2) in Hu.
    assert (H1 : tr_log s1 = tr_log s ++ [["stop"; pk_ServiceName c]; ["disable"; pk_ServiceName c]]).
    { subst s1. cbn [ctl NewSystemdController Disable Stop]. by rewrite !Hlog, <- app_assoc. }
    pose proof (Hlog ["daemon-reload"] s1) as H2. cbn [ctl NewSystemdController DaemonReload] in Hu.
    destruct (succeeds ["daemon-reload"] s1) as [ok s2]. cbn [snd] in H2. rewrite H1, <- app_assoc in H2.
    destruct (Stat _ _ d); [|done|]; repeat (case_match; simplify_eq; try done).
Qed.

(** A failed copy leaves a truncated binary where a working one was. *)
Lemma copy_destroys_binary : exists env d,
  is_Some (d_files d !! file DefaultBinaryPath) /\
  (copyBinary (ApplyDefaults (mkInstall "" "" "" "" "" "" "" "" "")) env d).1 = Some ECopy /\
  d_files (copyBinary (ApplyDefaults (mkInstall "" "" "" "" "" "" "" "" "")) env d).2 !! file DefaultBinaryPath = Some [].
Proof.
  exists (mkInstallEnv true (Some "/tmp/plexd") (fun _ => false) (fun _ => WriteFails 0) (fun _ => false) (fun _ => false)).
  exists (mkDisk {[file "/tmp/plexd" := [1; 2]; file DefaultBinaryPath := [1]]}
                 {[ []; ["tmp"]; ["usr"]; ["usr"; "local"]; ["usr"; "local"; "bin"] ]}).
  split_and!; [by eexists; vm_compute|by vm_compute|by vm_compute].
Qed.

(** ** Witnesses *)

(** A systemd that does what it is told and counts its commands. *)
Module SimSystemd.
#[export] Instance sim : SystemdController nat := {
  IsAvailable _ := true;
  DaemonReload n := (true, S n);
  Enable _ n := (true, S n);
  Disable _ n := (true, S n);
  Stop _ n := (true, S n);
  IsActive _ n := (false, n)
}.
End SimSystemd.
Import SimSystemd.

Definition ex_install : InstallConfig := mkInstall "" "" "" "" "" "" "https://cp" " tok " "".
Definition ex_install_env : install_env :=
  mkInstallEnv true (Some "/tmp/plexd") (fun _ => false) (fun _ => NoFault) (fun _ => false) (fun _ => false).
Definition ex_disk0 : disk := mkDisk {[file "/tmp/plexd" := [1; 2]]} {[ []; ["tmp"] ]}.
Definition ex_disk1 : disk := (Install ex_install ex_install_env ex_disk0 0%nat).1.2.
Definition ex_disk2 : disk := (Uninstall ex_install true ex_install_env ex_disk1 1%nat).1.2.

Lemma ex_install_runs : Install ex_install ex_install_env ex_disk0 0%nat = (None, ex_disk1, 1%nat).
Proof.
  unfold ex_disk1. assert (E1 : (Install ex_install ex_install_env ex_disk0 0%nat).1.1 = None) by by vm_compute.
  assert (E2 : (Install ex_install ex_install_env ex_disk0 0%nat).2 = 1%nat) by by vm_compute.
  destruct (Install _ _ _ _) as [[e d] w]. cbn in *. by subst.
Qed.

Lemma ex_uninstall_runs : Uninstall ex_install true ex_install_env ex_disk1 1%nat = (None, ex_disk2, 4%nat).
Proof.
  unfold ex_disk2. assert (E1 : (Uninstall ex_install true ex_install_env ex_disk1 1%nat).1.1 = None) by by vm_compute.
  assert (E2 : (Uninstall ex_install true ex_install_env ex_disk1 1%nat).2 = 4%nat) by by vm_compute.
  destruct (Uninstall _ _ _ _ _) as [[e d] w]. cbn in *. by subst.
Qed.

Lemma ex_targets : NoDup (targets (ApplyDefaults ex_install)).
Proof. by_compute. Qed.

Lemma ex_token_source : file (pk_TokenFile (ApplyDefaults ex_install)) ∉
  [file (pk_BinaryPath (ApplyDefaults ex_install)); config_path (ApplyDefaults ex_install)].
Proof. by_compute. Qed.

Lemma ex_other_file : file "/tmp/plexd" ∉ targets (ApplyDefaults ex_install).
Proof. by_compute. Qed.

Lemma Install_preserves_witness :
  d_files (Install ex_install ex_install_env ex_disk0 0%nat).1.2 !! file "/tmp/plexd" = d_files ex_disk0 !! file "/tmp/plexd".
Proof.
  exact (Install_preserves ex_install ex_install_env ex_disk0 0%nat (file "/tmp/plexd") (or_introl ex_other_file)).
Defined.

Lemma Install_spec_witness :
  d_files ex_disk1 !! file DefaultUnitFilePath = Some (bytes_of_string (GenerateUnitFile (ApplyDefaults ex_install))).
Proof.
  destruct (Install_spec ex_install ex_install_env ex_disk0 0%nat ex_disk1 1%nat ex_targets ex_token_source ex_install_runs)
    as (_ & _ & _ & _ & Hu). exact Hu.
Defined.

Lemma install_uninstall_witness : d_files ex_disk2 !! file "/etc/plexd/bootstrap-token" = None.
Proof.
  rewrite (install_uninstall ex_install ex_install_env ex_install_env ex_disk0 0%nat ex_disk1 1%nat ex_disk2 4%nat 1%nat
    ex_install_runs ex_uninstall_runs (file "/etc/plexd/bootstrap-token")).
  by vm_compute.
Defined.

Lemma ex_kept_file : file "/tmp/plexd" ∉
  [file (pk_BinaryPath (ApplyDefaults ex_install)); file (pk_UnitFilePath (ApplyDefaults ex_install))].
Proof. by_compute. Qed.

Lemma ex_kept_outside : ~ below (file (pk_DataDir (ApplyDefaults ex_install))) (file "/tmp/plexd") /\
  ~ below (file (pk_ConfigDir (ApplyDefaults ex_install))) (file "/tmp/plexd").
Proof. by_compute. Qed.

Lemma Uninstall_preserves_witness :
  d_files (Uninstall ex_install true ex_install_env ex_disk1 1%nat).1.2 !! file "/tmp/plexd" = d_files ex_disk1 !! file "/tmp/plexd".
Proof.
  exact (Uninstall_preserves ex_install true ex_install_env ex_disk1 1%nat (file "/tmp/plexd") ex_kept_file (fun _ => ex_kept_outside)).
Defined.

(** A decoder that finds an [api] section in one document, which is not of
    the plain form, and in no other. *)
Definition ex_no_api (data : list Z) : option AgentConfig :=
  Some (ex_decoded (if decide (data = [1]) then "https://cp" else "") "/d" "/d" "n1").

Lemma plain_first text keys x l : plain_document text keys -> bytes_of_string text = x :: l -> 10 <= x.
Proof.
  intros ([|s ls] & -> & Hls); [done|]. apply Forall2_cons_inv_r in Hls as (k & ks & [Hp _] & _ & _).
  cbn [unlines foldr]. rewrite bytes_of_string_app. unfold printable in Hp.
  destruct (bytes_of_string s) as [|y ys]; cbn; intros [= <- _]; [by vm_compute|].
  inversion_clear Hp. lia.
Qed.

Lemma ex_no_api_law text keys dec : plain_document text keys -> Some "api" ∉ keys ->
  ex_no_api (bytes_of_string text) = Some dec -> Reconnect.BaseURL (ag_API dec) = "".
Proof.
  intros Hd _. unfold ex_no_api. case_decide as E; [|by intros [= <-]].
  pose proof (plain_first _ _ _ _ Hd E). lia.
Qed.

Lemma ex_url_printable : printable (pk_APIBaseURL (ApplyDefaults ex_install)).
Proof. by_compute. Qed.

Lemma ex_no_config : d_files ex_disk0 !! config_path (ApplyDefaults ex_install) = None.
Proof. by vm_compute. Qed.

Lemma ex_config_no_dir : config_path (ApplyDefaults ex_install) ∉ d_dirs ex_disk1.
Proof. by_compute. Qed.

Lemma fresh_install_refused_witness :
  exists e, ParseConfig ex_no_api (d_files ex_disk1 !! config_path (ApplyDefaults ex_install)) = Err e.
Proof.
  exact (fresh_install_refused ex_no_api ex_install ex_install_env ex_disk0 0%nat ex_disk1 1%nat ex_no_api_law
    ex_url_printable ex_targets ex_install_runs ex_no_config ex_config_no_dir).
Defined.
