(* ===== verification/Sources.v ===== *)
(** * Sources of metrics and logs (src/internal/metrics: latency.go, tunnel.go,
      system.go; src/internal/logfwd/journald.go)

    The collectors the forwarders of [Forwarder] run.  What they read (pings,
    WireGuard counters, system counters, the journal) is an interface on a
    world; JSON is an argument. *)

From stdpp Require Import base strings list gmap.
From S2P Require Import Prelude Types Forwarder.

Definition GroupSystem : string := "system".
Definition GroupTunnel : string := "tunnel".
Definition GroupLatency : string := "latency".

(** ** Latency (latency.go) *)

Record LatencyResult := mkLatency { lr_PeerID : string; lr_RTTNano : Z }.

(** The context's state and the clock are read from the world. *)
Class Probe (W : Type) := {
  PeerIDs : W -> list string;
  Ping : string -> W -> option Z * W;
  cancelled : W -> bool;
  clock : W -> Z
}.

Section latency.
Context {W : Type} `{Probe W} (marshal : LatencyResult -> string).

(** The points so far, and whether the context ended the loop. *)
Fixpoint ping_all (peers : list string) (points : list MetricPoint) (w : W) : bool * list MetricPoint * W :=
  match peers with
  | [] => (true, points, w)
  | peerID :: peers =>
      if cancelled w then (false, points, w)
      else
        let '(rtt, w) := Ping peerID w in
        let data := marshal (mkLatency peerID (default (-1) rtt)) in
        ping_all peers (points ++ [mkMetricPoint (clock w) GroupLatency peerID data]) w
  end.

(** The points come with the error; [safeCollect] drops them. *)
Definition LatencyCollector_Collect (w : W) : collected MetricPoint * W :=
  match ping_all (PeerIDs w) [] w with
  | (true, points, w) => (Entries points, w)
  | (false, _, w) => (Failed "context", w)
  end.

End latency.

(** ** Tunnels (tunnel.go) *)

Definition DefaultStaleThreshold : Z := 5 * minute.

Record TunnelStats := mkTunnelStats {
  tn_PeerID : string; tn_LastHandshakeTime : Z; tn_RxBytes : Z; tn_TxBytes : Z;
  tn_HandshakeSucceeded : bool; tn_HandshakeStale : bool
}.

Definition NewTunnelCollectorWithThreshold (staleThreshold : Z) : Z :=
  if decide (staleThreshold <= 0) then DefaultStaleThreshold else staleThreshold.
Definition NewTunnelCollector : Z := NewTunnelCollectorWithThreshold DefaultStaleThreshold.

Definition mark_stale (now threshold : Z) (s : TunnelStats) : TunnelStats :=
  if decide (is_zero_time (tn_LastHandshakeTime s) = false /\ time_sub now (tn_LastHandshakeTime s) > threshold)
  then mkTunnelStats (tn_PeerID s) (tn_LastHandshakeTime s) (tn_RxBytes s) (tn_TxBytes s) (tn_HandshakeSucceeded s) true
  else s.

Section tunnel.
Context {W : Type} (ReadTunnelStats : W -> result string (list TunnelStats) * W) (now : W -> Z).
Context (marshal : TunnelStats -> option string).

Definition tunnel_point (t threshold : Z) (s : TunnelStats) : option MetricPoint :=
  (fun data => mkMetricPoint t GroupTunnel (tn_PeerID s) data) <$> marshal (mark_stale t threshold s).

Definition TunnelCollector_Collect (threshold : Z) (w : W) : collected MetricPoint * W :=
  match ReadTunnelStats w with
  | (Err e, w) => (Failed ("metrics: tunnel: " +:+ e), w)
  | (Ok stats, w) =>
      match mapM (tunnel_point (now w) threshold) stats with
      | None => (Failed "metrics: tunnel", w)
      | Some points => (Entries points, w)
      end
  end.

End tunnel.

(** ** System (system.go) *)

(** The CPU share is a float: its JSON text. *)
Record SystemStats := mkSystemStats {
  sy_CPUUsagePercent : string; sy_MemoryUsedBytes : Z; sy_MemoryTotalBytes : Z; sy_DiskUsedBytes : Z;
  sy_DiskTotalBytes : Z; sy_NetworkRxBytes : Z; sy_NetworkTxBytes : Z
}.

Definition SystemCollector_Collect {W} (ReadStats : W -> result string SystemStats * W) (now : W -> Z)
    (marshal : SystemStats -> option string) (w : W) : collected MetricPoint * W :=
  match ReadStats w with
  | (Err e, w) => (Failed ("metrics: system: " +:+ e), w)
  | (Ok stats, w) =>
      match marshal stats with
      | None => (Failed "metrics: system", w)
      | Some data => (Entries [mkMetricPoint (now w) GroupSystem "" data], w)
      end
  end.

(** ** The journal (journald.go) *)

Record JournalEntry := mkJournal { jn_Timestamp : Z; jn_Message : string; jn_Priority : Z; jn_Unit : string }.

Definition priorityToSeverity : list string :=
  ["emerg"; "alert"; "crit"; "err"; "warning"; "notice"; "info"; "debug"].

Definition mapSeverity (priority : Z) : string :=
  if decide (priority < 0 \/ priority > 7) then "info"
  else default "" (priorityToSeverity !! Z.to_nat priority).

Definition journal_log (hostname : string) (e : JournalEntry) : LogEntry :=
  mkLogEntry (jn_Timestamp e) "journald" (jn_Unit e) (jn_Message e) (mapSeverity (jn_Priority e)) hostname.

Definition JournaldSource_Collect {W} (ReadEntries : W -> result string (list JournalEntry) * W) (hostname : string) (w : W)
    : collected LogEntry * W :=
  match ReadEntries w with
  | (Err e, w) => (Failed ("logfwd: journald: " +:+ e), w)
  | (Ok entries, w) => (Entries (journal_log hostname <$> entries), w)
  end.

(** ** Lemmas *)

Section latency_lemmas.
Context {W : Type} `{Probe W} (marshal : LatencyResult -> string).

Lemma ping_all_app peers : forall points w,
  exists new, (ping_all marshal peers points w).1.2 = points ++ new /\ mp_PeerID <$> new `prefix_of` peers /\
    ((ping_all marshal peers points w).1.1 = true -> mp_PeerID <$> new = peers) /\
    Forall (fun p => mp_Group p = GroupLatency /\ exists rtt, mp_Data p = marshal (mkLatency (mp_PeerID p) rtt)) new.
Proof.
  induction peers as [|id peers IH]; intros points w; simpl.
  { exists []. rewrite app_nil_r. split_and!; [done|apply prefix_nil|done|constructor]. }
  destruct (cancelled w); [exists []; rewrite app_nil_r; split_and!; [done|apply prefix_nil|done|constructor]|].
  destruct (Ping id w) as [rtt w1].
  destruct (IH (points ++ [mkMetricPoint (clock w1) GroupLatency id (marshal (mkLatency id (default (-1) rtt)))]) w1)
    as (new & E & Hp & Ht & Hf).
  eexists (_ :: new). rewrite E, <- app_assoc. split_and!; [done| | |].
  - by apply prefix_cons.
  - intros Hd. cbn. by rewrite Ht.
  - constructor; [|done]. cbn. eauto.
Qed.

(** A latency collection that succeeds has one point per peer, in order, also
    for the peers that did not answer. *)
Theorem latency_complete w points w' : LatencyCollector_Collect marshal w = (Entries points, w') ->
  mp_PeerID <$> points = PeerIDs w /\
  Forall (fun p => mp_Group p = GroupLatency /\ exists rtt, mp_Data p = marshal (mkLatency (mp_PeerID p) rtt)) points.
Proof.
  unfold LatencyCollector_Collect. destruct (ping_all_app (PeerIDs w) [] w) as (new & E & _ & Ht & Hf).
  destruct (ping_all marshal (PeerIDs w) [] w) as [[[] ps] w1]; [|done]. cbn in *. intros [= <- <-].
  subst ps. split; [by apply Ht|done].
Qed.

End latency_lemmas.

(** A tunnel is reported stale when the reader says so or when its last
    handshake is older than the threshold, and nothing else of it changes. *)
Theorem mark_stale_spec now threshold s :
  tn_HandshakeStale (mark_stale now threshold s) = true <->
    tn_HandshakeStale s = true \/
    is_zero_time (tn_LastHandshakeTime s) = false /\ time_sub now (tn_LastHandshakeTime s) > threshold.
Proof. unfold mark_stale. case_decide; cbn; tauto. Qed.

(** Every priority of the journal has its own severity. *)
Theorem mapSeverity_injective p q : 0 <= p <= 7 -> 0 <= q <= 7 -> mapSeverity p = mapSeverity q -> p = q.
Proof.
  intros Hp Hq. assert (Hall : Forall (fun p => Forall (fun q => mapSeverity p = mapSeverity q -> p = q)
    [0; 1; 2; 3; 4; 5; 6; 7]) [0; 1; 2; 3; 4; 5; 6; 7]) by by_compute.
  assert (Hin : forall x, 0 <= x <= 7 -> x ∈ [0; 1; 2; 3; 4; 5; 6; 7]).
  { intros x Hx. rewrite !elem_of_cons. lia. }
  rewrite Forall_forall in Hall. specialize (Hall p (Hin p Hp)). rewrite Forall_forall in Hall. by apply Hall, Hin.
Qed.

(** ** Witnesses *)

#[local] Instance ex_probe : Probe nat := {
  PeerIDs _ := ["a"; "b"];
  Ping id n := (if decide (id = "a") then Some 5 else None, S n);
  cancelled n := bool_decide (n = 9%nat);
  clock n := Z.of_nat n
}.

Definition ex_latency_json (r : LatencyResult) : string := if decide (lr_RTTNano r = -1) then "lost" else "ok".

Lemma latency_complete_witness :
  mp_PeerID <$> [mkMetricPoint 1 "latency" "a" "ok"; mkMetricPoint 2 "latency" "b" "lost"] = ["a"; "b"].
Proof. exact (proj1 (latency_complete ex_latency_json 0%nat _ 2%nat eq_refl)). Defined.

Lemma mapSeverity_injective_witness : mapSeverity 3 = mapSeverity 3 -> 3 = 3.
Proof. exact (mapSeverity_injective 3 3 ltac:(lia) ltac:(lia)). Defined.
