(* ===== verification/SshServer.v ===== *)
(** * The SSH mesh server (src/internal/tunnel: hostkey.go, ssh_server.go,
      ssh_channels.go, mesh_server.go, k8s_proxy.go)

    The host key on disk, the accept loop with its slots and connections as a
    step relation, the two copies of a forwarded channel, the composition with
    the session manager of [Tunnel], and the request the Kubernetes proxy sends
    on.  The SSH protocol is third-party code: its results are arguments or
    guards of the steps. *)

From Stdlib Require Import Ascii String.
From stdpp Require Import base strings list gmap pretty relations.
From S2P Require Import Prelude Types Fs.
From S2P Require Tunnel.

(** ** Host and port (package net) *)

Definition has_char (c : ascii) (l : list ascii) : bool := existsb (fun x => bool_decide (x = c)) l.

Fixpoint index_char (c : ascii) (l : list ascii) : option nat :=
  match l with
  | [] => None
  | x :: l => if decide (x = c) then Some 0%nat else S <$> index_char c l
  end.

Fixpoint last_index (c : ascii) (l : list ascii) : option nat :=
  match l with
  | [] => None
  | x :: l =>
      match last_index c l with
      | Some i => Some (S i)
      | None => if decide (x = c) then Some 0%nat else None
      end
  end.

Definition chars (s : string) : list ascii := String.list_ascii_of_string s.
Definition text (l : list ascii) : string := String.string_of_list_ascii l.

Definition JoinHostPort (host port : string) : string :=
  if has_char ":" (chars host) then "[" +:+ host +:+ "]:" +:+ port else host +:+ ":" +:+ port.

Definition SplitHostPort (hostport : string) : option (string * string) :=
  let l := chars hostport in
  match last_index ":" l with
  | None => None
  | Some i =>
      let port := drop (S i) l in
      match l with
      | "["%char :: l' =>
          match index_char "]" l with
          | None => None
          | Some e =>
              if decide (S e <> i) then None
              else if has_char "[" l' || has_char "]" (drop (S e) l) then None
              else Some (text (take (e - 1) l'), text port)
          end
      | _ =>
          let host := take i l in
          if has_char ":" host || has_char "[" l || has_char "]" l then None
          else Some (text host, text port)
      end
  end.

(** ** The host key (hostkey.go) *)

Definition hostKeyFileName : string := "ssh_host_ed25519_key".

Inductive key_error := KeyUnreadable | KeyUnparsable | KeyDir | KeyGenerate | KeyMarshal | KeyWrite | KeySigner.

Section hostkey.
Context {K S : Type}.
(** A fresh private key, its PEM file, the parser, the signer. *)
Context (GenerateKey : option K) (MarshalPrivateKey : K -> option (list Z))
        (ParsePrivateKey : list Z -> option S) (NewSignerFromKey : K -> option S).

Definition GenerateHostKey : result key_error S :=
  match GenerateKey with
  | None => Err KeyGenerate
  | Some priv => match NewSignerFromKey priv with None => Err KeySigner | Some s => Ok s end
  end.

(** [unreadable]: the file is there and reading it fails. *)
Definition LoadOrGenerateHostKey (unreadable : bool) (f : fault) (dataDir : path) (d : disk)
    : result key_error S * disk :=
  let keyPath := Join dataDir hostKeyFileName in
  if unreadable then (Err KeyUnreadable, d)
  else
    match d_files d !! keyPath with
    | Some data =>
        match ParsePrivateKey data with
        | None => (Err KeyUnparsable, d)
        | Some signer => (Ok signer, d)
        end
    | None =>
        if decide (keyPath ∈ d_dirs d) then (Err KeyUnreadable, d)
        else
          match MkdirAll dataDir d with
          | (false, d) => (Err KeyDir, d)
          | (true, d) =>
              match GenerateKey with
              | None => (Err KeyGenerate, d)
              | Some priv =>
                  match MarshalPrivateKey priv with
                  | None => (Err KeyMarshal, d)
                  | Some pemData =>
                      match WriteFileAtomic f dataDir hostKeyFileName pemData d with
                      | (Some _, d) => (Err KeyWrite, d)
                      | (None, d) =>
                          match NewSignerFromKey priv with
                          | None => (Err KeySigner, d)
                          | Some signer => (Ok signer, d)
                          end
                      end
                  end
              end
          end
    end.

End hostkey.

(** ** Server configuration (ssh_server.go) *)

Record SSHServerConfig := mkSSHConfig { sc_MaxSessions : Z; sc_IdleTimeout : Z; sc_ListenAddr : string }.

Definition DefaultMaxSSHSessions : Z := 10.
Definition DefaultSSHIdleTimeout : Z := 30 * minute.

Definition ApplyDefaults (c : SSHServerConfig) : SSHServerConfig :=
  mkSSHConfig (if decide (sc_MaxSessions c = 0) then DefaultMaxSSHSessions else sc_MaxSessions c)
    (if decide (sc_IdleTimeout c = 0) then DefaultSSHIdleTimeout else sc_IdleTimeout c) (sc_ListenAddr c).

Definition Validate (c : SSHServerConfig) : option string :=
  if decide (sc_ListenAddr c = "") then Some "tunnel: ssh: config: ListenAddr is required"
  else if decide (sc_MaxSessions c <= 0) then Some "tunnel: ssh: config: MaxSessions must be positive"
  else if decide (sc_IdleTimeout c < minute) then Some "tunnel: ssh: config: IdleTimeout must be at least 1m"
  else None.

(** ** The server *)

(** A connection that has a slot: in the handshake, or authenticated by a token
    and with the deadline of its last reset. *)
Inductive conn := Handshaking | Serving (token : string) (deadline : Z).

#[global] Instance conn_eq_dec : EqDecision conn.
Proof. solve_decision. Defined.

(** [ss_channels]: goroutines of [handleDirectTCPIP] that have not dialed yet,
    with the payload; [ss_dials]: the addresses dialed, each with the token of
    its connection. *)
Record SSHServer := mkServer {
  ss_cfg : SSHServerConfig;
  ss_listening : bool;
  ss_cancelled : bool;
  ss_loop : bool;
  ss_sem : nat;
  ss_conns : gmap nat conn;
  ss_channels : list (string * list Z);
  ss_dials : list (string * string);
  ss_clock : Z
}.

(** [make] panics on a negative size. *)
Definition NewSSHServer (cfg : SSHServerConfig) (now : Z) : outcome SSHServer :=
  let cfg := ApplyDefaults cfg in
  if decide (sc_MaxSessions cfg < 0) then Panics
  else Returns (mkServer cfg false false false 0 ∅ [] [] now).

(** [listen]: what net.Listen gives. *)
Definition Start (listen : bool) (s : SSHServer) : option string * SSHServer :=
  if negb listen then (Some "tunnel: ssh: listen", s)
  else (None, mkServer (ss_cfg s) true false true (ss_sem s) (ss_conns s) (ss_channels s) (ss_dials s)
                (ss_clock s)).

Definition set_conns (sem : nat) (m : gmap nat conn) (s : SSHServer) : SSHServer :=
  mkServer (ss_cfg s) (ss_listening s) (ss_cancelled s) (ss_loop s) sem m (ss_channels s) (ss_dials s) (ss_clock s).

(** The loop body: a slot, or the connection is closed. *)
Definition accept (id : nat) (s : SSHServer) : bool * SSHServer :=
  if decide (Z.of_nat (ss_sem s) < sc_MaxSessions (ss_cfg s))
  then (true, set_conns (S (ss_sem s)) (<[id := Handshaking]> (ss_conns s)) s)
  else (false, s).

(** The connection's goroutine returns and gives its slot back. *)
Definition release (id : nat) (s : SSHServer) : SSHServer :=
  set_conns (pred (ss_sem s)) (delete id (ss_conns s)) s.

(** After the handshake, and for every channel, the deadline is set anew. *)
Definition reset_deadline (id : nat) (token : string) (s : SSHServer) : SSHServer :=
  set_conns (ss_sem s) (<[id := Serving token (ss_clock s + sc_IdleTimeout (ss_cfg s))]> (ss_conns s)) s.

(** A new channel: [true] when it is not rejected at once. *)
Definition open_channel (id : nat) (token channelType : string) (extra : list Z) (s : SSHServer) : bool * SSHServer :=
  let s := reset_deadline id token s in
  if decide (channelType = "direct-tcpip")
  then (true, mkServer (ss_cfg s) (ss_listening s) (ss_cancelled s) (ss_loop s) (ss_sem s) (ss_conns s)
                (ss_channels s ++ [(token, extra)]) (ss_dials s) (ss_clock s))
  else (false, s).

Record directTCPIPPayload := mkPayload { dp_DestHost : string; dp_DestPort : Z; dp_OriginHost : string; dp_OriginPort : Z }.

Inductive channel_result := RejectedPayload | RejectedConnect | AcceptFailed | Forwarding (addr : string).

(** [handleDirectTCPIP] up to the copies: the address it dialed, if any, and
    the outcome. *)
Definition handleDirectTCPIP (unmarshal : list Z -> option directTCPIPPayload) (dial : string -> bool) (accepted : bool)
    (extra : list Z) : option string * channel_result :=
  match unmarshal extra with
  | None => (None, RejectedPayload)
  | Some payload =>
      let destAddr := JoinHostPort (dp_DestHost payload) (pretty (dp_DestPort payload)) in
      (Some destAddr,
       if negb (dial destAddr) then RejectedConnect else if negb accepted then AcceptFailed else Forwarding destAddr)
  end.

(** The goroutine of a channel; a dial with a cancelled context fails at once. *)
Definition run_channel (i : nat) (token : string) (dialed : option string) (s : SSHServer) : SSHServer :=
  mkServer (ss_cfg s) (ss_listening s) (ss_cancelled s) (ss_loop s) (ss_sem s) (ss_conns s)
    (delete i (ss_channels s))
    (match dialed with
     | Some a => if ss_cancelled s then ss_dials s else ss_dials s ++ [(token, a)]
     | None => ss_dials s
     end) (ss_clock s).

(** The part of [Shutdown] before it waits. *)
Definition begin_Shutdown (s : SSHServer) : SSHServer :=
  mkServer (ss_cfg s) false true (ss_loop s) (ss_sem s) (ss_conns s) (ss_channels s) (ss_dials s) (ss_clock s).

(** [wg.Wait] returns: the accept loop and every connection have ended. *)
Definition drained (s : SSHServer) : Prop := ss_loop s = false /\ ss_conns s = ∅.

Definition end_loop (s : SSHServer) : SSHServer :=
  mkServer (ss_cfg s) (ss_listening s) (ss_cancelled s) false (ss_sem s) (ss_conns s) (ss_channels s) (ss_dials s)
    (ss_clock s).

Definition tick (dt : Z) (s : SSHServer) : SSHServer :=
  mkServer (ss_cfg s) (ss_listening s) (ss_cancelled s) (ss_loop s) (ss_sem s) (ss_conns s) (ss_channels s) (ss_dials s)
    (ss_clock s + dt).

Section server.
Context (Verify : string -> bool) (unmarshal : list Z -> option directTCPIPPayload).

(** The handshake succeeds only with a key the callback accepts; nothing moves
    on a connection after its deadline.  A failing [Accept] ends the loop, and
    [Accept] fails once the listener is closed. *)
Inductive step : SSHServer -> SSHServer -> Prop :=
| step_accept id s : ss_loop s = true -> ss_listening s = true -> ss_conns s !! id = None ->
    step s (accept id s).2
| step_loop_ends s : ss_loop s = true -> step s (end_loop s)
| step_handshake id token s : ss_conns s !! id = Some Handshaking -> Verify token = true ->
    step s (reset_deadline id token s)
| step_handshake_fails id s : ss_conns s !! id = Some Handshaking -> step s (release id s)
| step_channel id token deadline channelType extra s : ss_conns s !! id = Some (Serving token deadline) ->
    ss_clock s < deadline -> step s (open_channel id token channelType extra s).2
| step_dial i token extra dial accepted s : ss_channels s !! i = Some (token, extra) ->
    step s (run_channel i token (handleDirectTCPIP unmarshal dial accepted extra).1 s)
| step_closed id token deadline s : ss_conns s !! id = Some (Serving token deadline) -> step s (release id s)
| step_shutdown s : step s (begin_Shutdown s)
| step_time dt s : 0 <= dt -> step s (tick dt s).

End server.

(** ** A forwarded channel (ssh_channels.go) *)

Module Pipe.

(** What was sent and delivered in each direction, which senders have
    finished, and whether [cleanup] has run. *)
Record state := mkState {
  up_sent : list Z; up_done : list Z; up_eof : bool;
  down_sent : list Z; down_done : list Z; down_eof : bool;
  closed : bool
}.

Definition start : state := mkState [] [] false [] [] false false.

(** [io.Copy] ends at the end of its source or on an error: both ends are
    closed, once. *)
Inductive step : state -> state -> Prop :=
| client_sends b us ud ds dd de : step (mkState us ud false ds dd de false) (mkState (us ++ [b]) ud false ds dd de false)
| client_finishes us ud ue ds dd de c : step (mkState us ud ue ds dd de c) (mkState us ud true ds dd de c)
| target_sends b us ud ue ds dd : step (mkState us ud ue ds dd false false) (mkState us ud ue (ds ++ [b]) dd false false)
| target_finishes us ud ue ds dd de c : step (mkState us ud ue ds dd de c) (mkState us ud ue ds dd true c)
| copy_up b us ud ue ds dd de : us !! length ud = Some b ->
    step (mkState us ud ue ds dd de false) (mkState us (ud ++ [b]) ue ds dd de false)
| copy_down b us ud ue ds dd de : ds !! length dd = Some b ->
    step (mkState us ud ue ds dd de false) (mkState us ud ue ds (dd ++ [b]) de false)
| up_ends us ud ds dd de c : length ud = length us ->
    step (mkState us ud true ds dd de c) (mkState us ud true ds dd de true)
| down_ends us ud ue ds dd c : length dd = length ds ->
    step (mkState us ud ue ds dd true c) (mkState us ud ue ds dd true true)
| copy_fails s : step s (mkState (up_sent s) (up_done s) (up_eof s) (down_sent s) (down_done s) (down_eof s) true).

End Pipe.

(** ** The mesh server (mesh_server.go) *)

Inductive mesh_phase := Running | Draining | Stopped.

Record MeshServer := mkMesh { me_phase : mesh_phase; me_ssh : option SSHServer; me_sessions : Tunnel.Manager.state }.

(** [hostKey]: whether there is one. *)
Definition NewMeshServer (cfg : Tunnel.Config) (hostKey : bool) (now : Z) : outcome MeshServer :=
  let cfg := Tunnel.ApplyDefaults cfg in
  let addr := Tunnel.tc_SSHListenAddr cfg in
  let meshIP := match SplitHostPort addr with Some (host, _) => host | None => "" end in
  let sessions := Tunnel.Manager.mkState (Tunnel.Manager.NewSessionManager cfg meshIP) [] [] now in
  if decide (addr <> "" /\ hostKey = true) then
    match NewSSHServer (mkSSHConfig (Tunnel.tc_MaxSessions cfg) (Tunnel.tc_DefaultTimeout cfg) addr) now with
    | Panics => Panics
    | Returns s => Returns (mkMesh Running (Some s) sessions)
    end
  else Returns (mkMesh Running None sessions).

Definition mesh_Start (listen : bool) (m : MeshServer) : option string * MeshServer :=
  match me_ssh m with
  | None => (None, m)
  | Some s =>
      match Start listen s with
      | (Some e, s) => (Some ("tunnel: mesh server: start ssh: " +:+ e), mkMesh (me_phase m) (Some s) (me_sessions m))
      | (None, s) => (None, mkMesh (me_phase m) (Some s) (me_sessions m))
      end
  end.

(** [Shutdown] waits for the SSH server and then closes the sessions; the
    parts go on meanwhile. *)
Inductive mesh_step (Verify : string -> bool) (unmarshal : list Z -> option directTCPIPPayload)
    : MeshServer -> MeshServer -> Prop :=
| mesh_ssh p s s' t : step Verify unmarshal s s' -> mesh_step Verify unmarshal (mkMesh p (Some s) t) (mkMesh p (Some s') t)
| mesh_sessions p s t t' : Tunnel.Manager.step t t' -> mesh_step Verify unmarshal (mkMesh p s t) (mkMesh p s t')
| mesh_shutdown s t : mesh_step Verify unmarshal (mkMesh Running s t) (mkMesh Draining (begin_Shutdown <$> s) t)
| mesh_drained `{MapOrder} s t : match s with Some s => drained s | None => True end ->
    mesh_step Verify unmarshal (mkMesh Draining s t) (mkMesh Stopped s (Tunnel.Manager.Shutdown t)).

(** ** The Kubernetes proxy (k8s_proxy.go) *)

Record url := mkURL { u_Scheme : string; u_Host : string; u_Path : string }.
Record request := mkRequest { q_URL : url; q_Host : string; q_RemoteAddr : string; q_Header : gmap string (list string) }.

Definition NewK8sProxy (parse : string -> option url) (targetURL : string) : result string url :=
  match parse targetURL with
  | None => Err "tunnel: k8s proxy: parse target"
  | Some target =>
      if decide (u_Host target = "") then Err "tunnel: k8s proxy: parse target: empty host" else Ok target
  end.

Definition Director (target : url) (q : request) : request :=
  let clientIP := match SplitHostPort (q_RemoteAddr q) with Some (host, _) => host | None => q_RemoteAddr q end in
  mkRequest (mkURL (u_Scheme target) (u_Host target) (u_Path (q_URL q))) (u_Host target) (q_RemoteAddr q)
    (<["X-Forwarded-For" := [clientIP]]> (q_Header q)).

(** [httputil.ReverseProxy] appends the client's address to what the director
    left in the header. *)
Fixpoint join_comma (l : list string) : string :=
  match l with [] => "" | [x] => x | x :: l => x +:+ ", " +:+ join_comma l end.

Definition ServeHTTP (target : url) (q : request) : request :=
  let q := Director target q in
  match SplitHostPort (q_RemoteAddr q) with
  | None => q
  | Some (clientIP, _) =>
      let prior := default [] (q_Header q !! "X-Forwarded-For") in
      mkRequest (q_URL q) (q_Host q) (q_RemoteAddr q)
        (<["X-Forwarded-For" := [join_comma (prior ++ [clientIP])]]> (q_Header q))
  end.

(** ** Lemmas *)

Lemma has_char_false c l : has_char c l = false <-> c ∉ l.
Proof.
  unfold has_char. rewrite <- not_true_iff_false, existsb_exists. split.
  - intros Hn Hc. apply Hn. exists c. split; [by apply list_elem_of_In|by apply bool_decide_eq_true_2].
  - intros Hn (x & Hx & ->%bool_decide_eq_true). by apply Hn, list_elem_of_In.
Qed.

Lemma has_char_true c l : has_char c l = true <-> c ∈ l.
Proof.
  rewrite <- (not_false_iff_true (has_char c l)), has_char_false. split; [|tauto]. intros H. by apply dec_stable.
Qed.

Lemma last_index_None c l : c ∉ l -> last_index c l = None.
Proof.
  induction l as [|x l IH]; [done|]. intros [Hx Hl]%not_elem_of_cons. simpl. rewrite IH by done.
  by rewrite decide_False.
Qed.

Lemma last_index_app c l1 l2 : c ∉ l2 -> last_index c (l1 ++ c :: l2) = Some (length l1).
Proof.
  intros Hl. induction l1 as [|x l1 IH]; simpl; [by rewrite last_index_None, decide_True|]. by rewrite IH.
Qed.

Lemma index_char_app c l1 l2 : c ∉ l1 -> index_char c (l1 ++ c :: l2) = Some (length l1).
Proof.
  induction l1 as [|x l1 IH]; simpl; [by rewrite decide_True|]. intros [Hx Hl]%not_elem_of_cons.
  by rewrite decide_False, IH.
Qed.

Lemma text_chars s : text (chars s) = s.
Proof. apply String.string_of_list_ascii_of_string. Qed.

Lemma chars_app a b : chars (a +:+ b) = chars a ++ chars b.
Proof. apply string_app_list. Qed.

(** Splitting a joined address gives its parts back. *)
Theorem SplitHostPort_Join host port :
  "["%char ∉ chars host -> "]"%char ∉ chars host ->
  ":"%char ∉ chars port -> "["%char ∉ chars port -> "]"%char ∉ chars port ->
  SplitHostPort (JoinHostPort host port) = Some (host, port).
Proof.
  intros H1 H2 P1 P2 P3. unfold JoinHostPort. destruct (has_char ":" (chars host)) eqn:E.
  - unfold SplitHostPort. rewrite !chars_app. cbn [chars String.list_ascii_of_string app].
    assert (El : "["%char :: chars host ++ "]"%char :: ":"%char :: chars port =
      ("["%char :: chars host ++ ["]"%char]) ++ ":"%char :: chars port) by (simpl; by rewrite <- app_assoc).
    assert (Ei : last_index ":" ("["%char :: chars host ++ "]"%char :: ":"%char :: chars port) =
      Some (S (length (chars host) + 1))) by (rewrite El, last_index_app by done; simpl; by rewrite length_app).
    assert (Ee : index_char "]" ("["%char :: chars host ++ "]"%char :: ":"%char :: chars port) =
      Some (S (length (chars host)))).
    { apply (index_char_app "]" ("["%char :: chars host)). by apply not_elem_of_cons. }
    rewrite Ei, Ee, decide_False by lia.
    replace (S (length (chars host)) - 1)%nat with (length (chars host)) by lia. rewrite take_app_length.
    cbn [drop]. rewrite !drop_app_ge by lia.
    replace (S (length (chars host)) - length (chars host))%nat with 1%nat by lia.
    replace (S (length (chars host) + 1) - length (chars host))%nat with 2%nat by lia. cbn [drop].
    rewrite !text_chars. rewrite (proj2 (has_char_false "[" _)), (proj2 (has_char_false "]" _));
      [cbn; by rewrite drop_0, text_chars|..].
    + by apply not_elem_of_cons.
    + rewrite not_elem_of_app, !not_elem_of_cons. done.
  - apply has_char_false in E. unfold SplitHostPort. rewrite !chars_app. cbn [chars String.list_ascii_of_string app].
    fold (chars port). rewrite last_index_app by done.
    assert (Hh : take (length (chars host)) (chars host ++ ":"%char :: chars port) = chars host /\
                 drop (S (length (chars host))) (chars host ++ ":"%char :: chars port) = chars port).
    { rewrite take_app_length, drop_app_ge by lia.
      by replace (S (length (chars host)) - length (chars host))%nat with 1%nat by lia. }
    assert (Hc : has_char "[" (chars host ++ ":"%char :: chars port) = false /\
                 has_char "]" (chars host ++ ":"%char :: chars port) = false)
      by (rewrite !has_char_false, !not_elem_of_app, !not_elem_of_cons; done).
    destruct (chars host ++ ":"%char :: chars port) as [|x l'] eqn:El; [by destruct (chars host)|].
    rewrite (proj1 Hh), (proj2 Hh), (proj1 Hc), (proj2 Hc), !text_chars, (proj2 (has_char_false ":" _) E).
    assert (Hx : x <> "["%char).
    { intros ->. destruct (chars host) as [|y h]; simplify_eq/=. apply H1. by left. }
    destruct x as [[] [] [] [] [] [] [] []]; try done. 
Qed.

(** *** The host key *)

Section hostkey_lemmas.
Context {K S : Type} (GenerateKey GenerateKey' : option K) (MarshalPrivateKey : K -> option (list Z))
        (ParsePrivateKey : list Z -> option S) (NewSignerFromKey : K -> option S).

(** The node keeps its host key: whatever key a second call would generate, it
    loads the one the first call has returned and stored. *)
Theorem host_key_stable f f' dir d d' signer :
  (forall k pem s, MarshalPrivateKey k = Some pem -> NewSignerFromKey k = Some s -> ParsePrivateKey pem = Some s) ->
  LoadOrGenerateHostKey GenerateKey MarshalPrivateKey ParsePrivateKey NewSignerFromKey false f dir d = (Ok signer, d') ->
  LoadOrGenerateHostKey GenerateKey' MarshalPrivateKey ParsePrivateKey NewSignerFromKey false f' dir d' = (Ok signer, d').
Proof.
  intros Hlaw. assert (Hp : plain hostKeyFileName) by by_compute.
  assert (Hload : forall d0 pem, d_files d0 !! Join dir hostKeyFileName = Some pem -> ParsePrivateKey pem = Some signer ->
    LoadOrGenerateHostKey GenerateKey' MarshalPrivateKey ParsePrivateKey NewSignerFromKey false f' dir d0 = (Ok signer, d0)).
  { intros d0 pem E1 E2. unfold LoadOrGenerateHostKey. by rewrite E1, E2. }
  unfold LoadOrGenerateHostKey at 1. destruct (d_files d !! _) as [pem|] eqn:Ef.
  - destruct (ParsePrivateKey pem) eqn:Ep; [|done]. intros [= <- <-]. by eapply Hload.
  - case_decide; [done|]. destruct (MkdirAll dir d) as [[] d1]; [|done].
    destruct GenerateKey as [k|]; [|done]. destruct (MarshalPrivateKey k) as [pem|] eqn:Em; [|done].
    pose proof (WriteFileAtomic_files f dir hostKeyFileName pem d1 Hp) as Hw.
    destruct (WriteFileAtomic f dir hostKeyFileName pem d1) as [[e|] d2]; [done|].
    destruct (NewSignerFromKey k) as [s|] eqn:Es; [|done]. intros [= <- <-].
    destruct Hw as (_ & [[_ [? ?]]|[[_ [? ?]]|[E _]]]); [done|done|].
    eapply Hload; [|by eapply Hlaw]. rewrite Join_plain by done. by rewrite E, lookup_insert_eq.
Qed.

End hostkey_lemmas.

(** *** The server *)

Section server_lemmas.
Context (Verify : string -> bool) (unmarshal : list Z -> option directTCPIPPayload).

Record inv (s : SSHServer) : Prop := mkInv {
  inv_sem : ss_sem s = size (ss_conns s);
  inv_max : Z.of_nat (ss_sem s) <= Z.max 0 (sc_MaxSessions (ss_cfg s));
  inv_auth : forall id token deadline, ss_conns s !! id = Some (Serving token deadline) ->
    Verify token = true /\ deadline <= ss_clock s + sc_IdleTimeout (ss_cfg s);
  inv_channels : Forall (fun c => Verify c.1 = true) (ss_channels s);
  inv_dials : Forall (fun c => Verify c.1 = true) (ss_dials s)
}.

Lemma inv_release id s : inv s -> is_Some (ss_conns s !! id) -> inv (release id s).
Proof.
  intros [H1 H2 H3 H4 H5] [c Hc]. pose proof (map_size_delete_Some id (ss_conns s) (mk_is_Some _ _ Hc)). split; cbn; try done.
  - lia.
  - lia.
  - intros id' token deadline [_ E]%lookup_delete_Some. by eapply H3.
Qed.

Lemma inv_reset id token s : inv s -> is_Some (ss_conns s !! id) -> Verify token = true -> inv (reset_deadline id token s).
Proof.
  intros [H1 H2 H3 H4 H5] Hc Hv. split; cbn; try done.
  - by rewrite map_size_insert_Some.
  - intros id' token' deadline [[_ E]|[_ E]]%lookup_insert_Some; [|by eapply H3]. simplify_eq. split; [done|lia].
Qed.

Lemma ssh_step_inv s s' : step Verify unmarshal s s' -> inv s -> inv s'.
Proof.
  destruct 1 as [id s Hl Hls Hn|s Hl|id token s Hc Hv|id s Hc|id token dl ct extra s Hc Hd|i token extra dial acc s Hi
    |id token dl s Hc|s|dt s Hd]; intros Hinv; pose proof Hinv as [H1 H2 H3 H4 H5].
  - unfold accept. case_decide as Hm; [|done]. split; cbn; try done.
    + rewrite map_size_insert_None by done. lia.
    + lia.
    + intros id' token deadline [[_ E]|[_ E]]%lookup_insert_Some; [done|by eapply H3].
  - by split.
  - by apply inv_reset; [|eexists|].
  - by apply inv_release; [|eexists].
  - destruct (H3 _ _ _ Hc) as [Hv _]. pose proof (inv_reset id token s Hinv (mk_is_Some _ _ Hc) Hv) as Hr.
    unfold open_channel. case_decide; [|done]. destruct Hr as [R1 R2 R3 R4 R5]. split; cbn; try done.
    apply Forall_app. split; [done|]. by constructor.
  - assert (Hv : Verify token = true) by exact (Forall_lookup_1 _ _ _ _ H4 Hi). split; cbn; try done.
    + by apply Forall_delete.
    + destruct (handleDirectTCPIP _ _ _ _).1; [|done]. destruct (ss_cancelled s); [done|].
      apply Forall_app. split; [done|]. by constructor.
  - by apply inv_release; [|eexists].
  - by split.
  - split; cbn; try done. intros id token dl Hc. destruct (H3 _ _ _ Hc). split; [done|lia].
Qed.

Lemma ssh_steps_inv s s' : rtc (step Verify unmarshal) s s' -> inv s -> inv s'.
Proof. induction 1; eauto using ssh_step_inv. Qed.

Lemma fresh_inv cfg now s listen : NewSSHServer cfg now = Returns s -> inv (Start listen s).2.
Proof.
  unfold NewSSHServer. case_decide; [done|]. intros [= <-]. unfold Start.
  destruct listen; cbn; split; cbn; try done; try lia; intros id token dl Hc; by rewrite lookup_empty in Hc.
Qed.

(** C19. Every state of a started server: no more connections than the limit, and
    every connection past its handshake, every channel that waits and every
    address that was dialed belongs to a token the verifier accepted.  A
    connection without a new channel ends within the idle timeout. *)
Theorem ssh_server_invariant cfg now s0 s : NewSSHServer cfg now = Returns s0 ->
  rtc (step Verify unmarshal) (Start true s0).2 s ->
  Z.of_nat (size (ss_conns s)) <= sc_MaxSessions (ApplyDefaults cfg) /\
  (forall id token deadline, ss_conns s !! id = Some (Serving token deadline) ->
     Verify token = true /\ deadline <= ss_clock s + sc_IdleTimeout (ApplyDefaults cfg)) /\
  Forall (fun c => Verify c.1 = true) (ss_channels s) /\
  Forall (fun c => Verify c.1 = true) (ss_dials s).
Proof.
  intros Hn Hr. pose proof (ssh_steps_inv _ _ Hr (fresh_inv cfg now s0 true Hn)) as [H1 H2 H3 H4 H5].
  assert (Hcfg : ss_cfg s = ApplyDefaults cfg /\ 0 <= sc_MaxSessions (ApplyDefaults cfg)).
  { unfold NewSSHServer in Hn. case_decide; [done|]. injection Hn as <-. split; [|lia].
    assert (E : ss_cfg s = ss_cfg (Start true (mkServer (ApplyDefaults cfg) false false false 0 ∅ [] [] now)).2); [|done].
    clear -Hr. induction Hr as [|x y z Hxy Hyz IH]; [done|]. rewrite IH. clear -Hxy. destruct Hxy; try done.
    - unfold accept. by case_decide.
    - unfold open_channel. by case_decide. }
  destruct Hcfg as [Hcfg Hpos]. rewrite Hcfg in *. split_and!; try done. lia.
Qed.

(** Once the listener is closed, no connection is added. *)
Lemma closed_step s s' : step Verify unmarshal s s' -> ss_listening s = false ->
  ss_listening s' = false /\ (ss_loop s = false -> ss_loop s' = false) /\ dom (ss_conns s') ⊆ dom (ss_conns s).
Proof.
  destruct 1 as [id s Hl Hls Hn|s Hl|id token s Hc Hv|id s Hc|id token dl ct extra s Hc Hd|i token extra dial acc s Hi
    |id token dl s Hc|s|dt s Hd]; intros Hcl; try (split_and!; done).
  - by rewrite Hcl in Hls.
  - cbn. split_and!; try done. rewrite dom_insert_lookup_L by eauto. done.
  - cbn. split_and!; try done. rewrite dom_delete_L. set_solver.
  - unfold open_channel. case_decide; cbn; (split_and!; try done); rewrite dom_insert_lookup_L by eauto; done.
  - cbn. split_and!; try done. rewrite dom_delete_L. set_solver.
Qed.

(** *** The mesh server *)

(** In state [Draining] the SSH server is shut down; in state [Stopped] it has
    ended too. *)
Definition mesh_inv (m : MeshServer) : Prop :=
  match me_phase m, me_ssh m with
  | Running, _ | _, None => True
  | Draining, Some s => ss_listening s = false
  | Stopped, Some s => ss_listening s = false /\ drained s
  end.

Lemma drained_step s s' : step Verify unmarshal s s' -> ss_listening s = false -> drained s -> drained s'.
Proof.
  intros Hs Hl [Hd1 Hd2]. destruct (closed_step _ _ Hs Hl) as (_ & Hl' & Hdom). split; [by apply Hl'|].
  apply dom_empty_inv_L. rewrite Hd2, dom_empty_L in Hdom. set_solver.
Qed.

Lemma mesh_step_inv m m' : mesh_step Verify unmarshal m m' -> mesh_inv m -> mesh_inv m'.
Proof.
  destruct 1 as [p s s' t Hs|p s t t' Ht|s t|ord s t Hd]; unfold mesh_inv; cbn.
  - destruct p; [done| |].
    + intros Hl. by apply (closed_step _ _ Hs Hl).
    + intros [Hl Hd]. split; [by apply (closed_step _ _ Hs Hl)|by eapply drained_step].
  - done.
  - by destruct s.
  - by destruct s.
Qed.

Lemma CloseSession_sessions id st :
  Tunnel.Manager.sm_sessions (Tunnel.Manager.t_mgr (Tunnel.Manager.CloseSession id st).2) =
  delete id (Tunnel.Manager.sm_sessions (Tunnel.Manager.t_mgr st)).
Proof.
  unfold Tunnel.Manager.CloseSession, Tunnel.Manager.removeSession.
  destruct (Tunnel.Manager.sm_sessions (Tunnel.Manager.t_mgr st) !! id) eqn:E; [done|]. by rewrite delete_id.
Qed.

Lemma Shutdown_closes_all `{MapOrder} st : Tunnel.Manager.ActiveCount (Tunnel.Manager.Shutdown st) = 0.
Proof.
  unfold Tunnel.Manager.ActiveCount, Tunnel.Manager.Shutdown.
  set (ids := range_keys (Tunnel.Manager.sm_sessions (Tunnel.Manager.t_mgr st))).
  assert (Hids : forall id, is_Some (Tunnel.Manager.sm_sessions (Tunnel.Manager.t_mgr st) !! id) -> id ∈ ids)
    by (intros id; apply elem_of_range_keys).
  assert (Hl : forall l st0 id, is_Some (Tunnel.Manager.sm_sessions (Tunnel.Manager.t_mgr
      (foldl (fun st id => (Tunnel.Manager.CloseSession id st).2) st0 l)) !! id) ->
    is_Some (Tunnel.Manager.sm_sessions (Tunnel.Manager.t_mgr st0) !! id) /\ id ∉ l).
  { induction l as [|x l IH]; intros st0 id Hs; [split; [done|apply not_elem_of_nil]|]. cbn in Hs.
    apply IH in Hs as [[v Hv] Hn]. rewrite CloseSession_sessions in Hv. apply lookup_delete_Some in Hv as [Hx Hv].
    split; [eauto|]. apply not_elem_of_cons. done. }
  rewrite (proj2 (map_size_empty_iff _)); [done|]. apply map_empty. intros id. apply eq_None_not_Some. intros Hs.
  destruct (Hl _ _ _ Hs) as [Ha Hb]. by apply Hb, Hids.
Qed.

(** The order of a shutdown: when it has closed the sessions, the SSH server
    has no connection and no accept loop any more, and never gets one again. *)
Theorem mesh_shutdown_order cfg key now listen m0 s t s' t' :
  NewMeshServer cfg key now = Returns m0 ->
  rtc (mesh_step Verify unmarshal) (mesh_Start listen m0).2 (mkMesh Draining s t) ->
  mesh_step Verify unmarshal (mkMesh Draining s t) (mkMesh Stopped s' t') ->
  Tunnel.Manager.ActiveCount t' = 0 /\
  forall m, rtc (mesh_step Verify unmarshal) (mkMesh Stopped s' t') m ->
    match me_ssh m with Some s2 => drained s2 | None => True end.
Proof.
  intros Hn Hr Hs.
  assert (H0 : mesh_inv (mesh_Start listen m0).2).
  { assert (Hp : me_phase (mesh_Start listen m0).2 = Running); [|unfold mesh_inv; by rewrite Hp].
    unfold NewMeshServer in Hn. case_decide; [destruct (NewSSHServer _ _) as [s1|]; [|done]|]; injection Hn as <-;
      unfold mesh_Start; cbn; [|done]. by destruct (Start listen s1) as [[] ?]. }
  assert (Hinv : forall x y, rtc (mesh_step Verify unmarshal) x y -> mesh_inv x -> mesh_inv y)
    by (induction 1; eauto using mesh_step_inv).
  assert (Hphase : forall x y, rtc (mesh_step Verify unmarshal) x y -> me_phase x = Stopped -> me_phase y = Stopped).
  { induction 1 as [|x y z Hxy _ IH]; [done|]. intros Hx. apply IH. by destruct Hxy. }
  pose proof (mesh_step_inv _ _ Hs (Hinv _ _ Hr H0)) as H1. inversion Hs; subst.
  split; [apply Shutdown_closes_all|]. intros m2 Hr2. pose proof (Hinv _ _ Hr2 H1) as H2.
  unfold mesh_inv in H2. rewrite (Hphase _ _ Hr2 eq_refl) in H2. by destruct (me_ssh m2) as [s2|]; [apply H2|].
Qed.

End server_lemmas.

(** *** A forwarded channel *)

(** What arrives at either end of a forwarded channel is the beginning of what
    the other end sent, in order; and nothing moves once it is closed. *)
Theorem channel_faithful s : rtc Pipe.step Pipe.start s ->
  Pipe.up_done s `prefix_of` Pipe.up_sent s /\ Pipe.down_done s `prefix_of` Pipe.down_sent s /\
  forall s', Pipe.closed s = true -> rtc Pipe.step s s' ->
    Pipe.up_done s' = Pipe.up_done s /\ Pipe.down_done s' = Pipe.down_done s.
Proof.
  assert (Hnext : forall (l done : list Z) b, done `prefix_of` l -> l !! length done = Some b -> done ++ [b] `prefix_of` l).
  { intros l dn b [k ->] Hb. rewrite lookup_app_r, Nat.sub_diag in Hb by lia.
    destruct k as [|x k]; simplify_eq/=. exists k. by rewrite <- app_assoc. }
  assert (Hstep : forall x y, Pipe.step x y ->
    Pipe.up_done x `prefix_of` Pipe.up_sent x /\ Pipe.down_done x `prefix_of` Pipe.down_sent x ->
    Pipe.up_done y `prefix_of` Pipe.up_sent y /\ Pipe.down_done y `prefix_of` Pipe.down_sent y).
  { intros x y []; cbn; intros [H1 H2]; split; eauto using prefix_app_r. }
  intros Hr. assert (Hp : Pipe.up_done s `prefix_of` Pipe.up_sent s /\ Pipe.down_done s `prefix_of` Pipe.down_sent s).
  { assert (Hg : forall x y, rtc Pipe.step x y ->
      Pipe.up_done x `prefix_of` Pipe.up_sent x /\ Pipe.down_done x `prefix_of` Pipe.down_sent x ->
      Pipe.up_done y `prefix_of` Pipe.up_sent y /\ Pipe.down_done y `prefix_of` Pipe.down_sent y)
      by (induction 1; eauto). apply (Hg _ _ Hr). done. }
  destruct Hp as [H1 H2]. split_and!; try done. intros s' Hc Hr'. clear Hr H1 H2.
  induction Hr' as [|x y z Hxy _ IH]; [done|]. destruct Hxy; cbn in *; try done; by apply IH.
Qed.

(** A client that has finished sending gets no answer that comes later: the end
    of one copy closes both directions. *)
Lemma half_close_truncates : exists s, rtc Pipe.step Pipe.start s /\
  Pipe.up_done s = [1] /\ Pipe.down_sent s = [2] /\ Pipe.down_done s = [] /\ Pipe.closed s = true.
Proof.
  eexists (Pipe.mkState [1] [1] true [2] [] false true). split; [|done].
  eapply rtc_l; [apply (Pipe.client_sends 1)|]. eapply rtc_l; [by apply (Pipe.copy_up 1)|].
  eapply rtc_l; [apply Pipe.client_finishes|]. eapply rtc_l; [apply (Pipe.target_sends 2)|].
  eapply rtc_l; [by apply Pipe.up_ends|]. apply rtc_refl.
Qed.

(** *** The proxy *)

(** A forwarded request goes to the configured server, and the addresses in
    X-Forwarded-For are the caller's own, whatever the request claimed. *)
Theorem proxy_target parse targetURL target q : NewK8sProxy parse targetURL = Ok target ->
  let out := ServeHTTP target q in
  u_Host (q_URL out) = u_Host target /\ q_Host out = u_Host target /\ u_Host target <> "" /\
  u_Path (q_URL out) = u_Path (q_URL q) /\
  (forall k, k <> "X-Forwarded-For" -> q_Header out !! k = q_Header q !! k) /\
  q_Header out !! "X-Forwarded-For" =
    Some [match SplitHostPort (q_RemoteAddr q) with
          | Some (host, _) => host +:+ ", " +:+ host
          | None => q_RemoteAddr q
          end].
Proof.
  unfold NewK8sProxy. destruct (parse targetURL); [|done]. case_decide; [done|]. intros [= <-].
  unfold ServeHTTP, Director. cbn. destruct (SplitHostPort (q_RemoteAddr q)) as [[host port]|]; cbn.
  - split_and!; try done; [|by rewrite lookup_insert_eq; rewrite lookup_insert_eq].
    intros k Hk. by rewrite !lookup_insert_ne.
  - split_and!; try done; [|by rewrite lookup_insert_eq]. intros k Hk. by rewrite lookup_insert_ne.
Qed.

(** *** What goes wrong *)

(** One failing [Accept] ends the loop for good, although the listener is still
    open. *)
Lemma accept_error_final Verify unmarshal s s' : rtc (step Verify unmarshal) (end_loop s) s' -> ss_loop s' = false.
Proof.
  intros Hr. remember (end_loop s) as s0. assert (Hl : ss_loop s0 = false) by by subst.
  clear Heqs0. induction Hr as [|x y z Hxy _ IH]; [done|]. apply IH. destruct Hxy; cbn in *; try done.
  - unfold accept. by case_decide.
  - unfold open_channel. by case_decide.
Qed.

Definition one_session : SSHServer := mkServer (mkSSHConfig 1 minute "10.0.0.1:22") true false true 0 ∅ [] [] 0.

(** The deadline is set after the handshake only: a client that sends nothing
    holds its slot for any time [t], the next client is refused and a shutdown
    does not return. *)
Lemma silent_client_holds_slot Verify unmarshal t : 0 <= t -> exists s,
  rtc (step Verify unmarshal) one_session s /\ ss_clock s = t /\ ss_loop s = false /\ (accept 2 s).1 = false /\ ~ drained s.
Proof.
  intros Ht. exists (tick t (end_loop (begin_Shutdown (accept 1 one_session).2))). split_and!; try done.
  - eapply rtc_l; [by apply (step_accept _ _ 1)|]. eapply rtc_l; [apply step_shutdown|].
    eapply rtc_l; [by apply step_loop_ends|]. eapply rtc_l; [by apply (step_time _ _ t)|]. apply rtc_refl.
  - intros [_ Hc]. cbn in Hc. by apply (f_equal (lookup 1%nat)) in Hc.
Qed.

(** Nothing can be opened on a connection once the idle timeout has passed since
    its last channel, however busy that channel is. *)
Lemma busy_connection_cut id token t s : sc_IdleTimeout (ss_cfg s) <= t ->
  exists deadline, ss_conns (tick t (reset_deadline id token s)) !! id = Some (Serving token deadline) /\
    deadline <= ss_clock (tick t (reset_deadline id token s)).
Proof. intros Ht. eexists. cbn. rewrite lookup_insert_eq. split; [done|lia]. Qed.

(** ** Witnesses *)

Lemma SplitHostPort_Join_witness : SplitHostPort (JoinHostPort "fd00::1" "22") = Some ("fd00::1", "22").
Proof.
  assert (H1 : "["%char ∉ chars "fd00::1") by by_compute. assert (H2 : "]"%char ∉ chars "fd00::1") by by_compute.
  assert (P1 : ":"%char ∉ chars "22") by by_compute. assert (P2 : "["%char ∉ chars "22") by by_compute.
  assert (P3 : "]"%char ∉ chars "22") by by_compute. exact (SplitHostPort_Join "fd00::1" "22" H1 H2 P1 P2 P3).
Defined.

(** Keys are numbers, their PEM file the number. *)
Definition ex_marshal (k : Z) : option (list Z) := Some [k].
Definition ex_parse (l : list Z) : option Z := match l with [k] => Some k | _ => None end.
Definition ex_key_disk : disk := mkDisk ∅ {[ [] ]}.
Definition ex_key_call := LoadOrGenerateHostKey (Some 7) ex_marshal ex_parse Some false NoFault ["data"] ex_key_disk.

Lemma ex_key_ok : ex_key_call = (Ok 7, ex_key_call.2).
Proof. assert (E : ex_key_call.1 = Ok 7) by by vm_compute. rewrite <- E. apply surjective_pairing. Qed.

Lemma ex_key_law k pem s : ex_marshal k = Some pem -> Some k = Some s -> ex_parse pem = Some s.
Proof. intros [= <-] [= <-]. done. Qed.

Lemma host_key_stable_witness :
  LoadOrGenerateHostKey (Some 8) ex_marshal ex_parse Some false NoFault ["data"] ex_key_call.2 = (Ok 7, ex_key_call.2).
Proof.
  exact (host_key_stable (Some 7) (Some 8) ex_marshal ex_parse Some NoFault NoFault ["data"] ex_key_disk ex_key_call.2 7
    ex_key_law ex_key_ok).
Defined.

Definition ex_verify (token : string) : bool := bool_decide (token = "good").
Definition ex_payload (l : list Z) : option directTCPIPPayload := Some (mkPayload "10.0.0.9" 5432 "" 0).
Definition ex_server : SSHServer := mkServer (mkSSHConfig 1 minute "10.0.0.1:22") false false false 0 ∅ [] [] 0.
Definition ex_dialed : SSHServer :=
  run_channel 0 "good" (handleDirectTCPIP ex_payload (fun _ => true) true []).1
    (open_channel 1 "good" "direct-tcpip" [] (reset_deadline 1 "good" (accept 1 (Start true ex_server).2).2)).2.

Lemma ex_dialed_reached : rtc (step ex_verify ex_payload) (Start true ex_server).2 ex_dialed.
Proof.
  eapply rtc_l; [by apply (step_accept _ _ 1)|]. eapply rtc_l; [by apply (step_handshake _ _ 1 "good")|].
  eapply rtc_l; [by apply (step_channel _ _ 1 "good" minute "direct-tcpip" [])|].
  eapply rtc_l; [by apply (step_dial _ _ 0 "good" [] (fun _ => true) true)|]. apply rtc_refl.
Qed.

Lemma ssh_server_invariant_witness :
  ss_dials ex_dialed = [("good", "10.0.0.9:5432")] /\ Forall (fun c => ex_verify c.1 = true) (ss_dials ex_dialed).
Proof.
  split; [by vm_compute|].
  destruct (ssh_server_invariant ex_verify ex_payload (mkSSHConfig 1 minute "10.0.0.1:22") 0 ex_server ex_dialed
    eq_refl ex_dialed_reached) as (_ & _ & _ & Hd). exact Hd.
Defined.

Definition ex_mesh : MeshServer := mkMesh Running None
  (Tunnel.Manager.mkState (Tunnel.Manager.NewSessionManager (Tunnel.ApplyDefaults (Tunnel.mkConfig true 2 minute "" "")) "") [] [] 0).

Lemma ex_mesh_drains : rtc (mesh_step ex_verify ex_payload) (mesh_Start true ex_mesh).2
  (mkMesh Draining None (me_sessions ex_mesh)).
Proof. eapply rtc_l; [apply mesh_shutdown|apply rtc_refl]. Qed.

Lemma mesh_shutdown_order_witness :
  Tunnel.Manager.ActiveCount (Tunnel.Manager.Shutdown (H := id_order) (me_sessions ex_mesh)) = 0.
Proof.
  exact (proj1 (mesh_shutdown_order ex_verify ex_payload (Tunnel.mkConfig true 2 minute "" "") false 0 true ex_mesh None
    (me_sessions ex_mesh) None _ eq_refl ex_mesh_drains
    (mesh_drained ex_verify ex_payload (H := id_order) None (me_sessions ex_mesh) I))).
Defined.

Lemma channel_faithful_witness : Pipe.up_done (Pipe.mkState [1] [1] false [] [] false false) `prefix_of` [1].
Proof.
  assert (Hr : rtc Pipe.step Pipe.start (Pipe.mkState [1] [1] false [] [] false false)).
  { eapply rtc_l; [apply (Pipe.client_sends 1)|]. eapply rtc_l; [by apply (Pipe.copy_up 1)|]. apply rtc_refl. }
  exact (proj1 (channel_faithful _ Hr)).
Defined.

Definition ex_target : url := mkURL "https" "k8s:6443" "".
Definition ex_request : request :=
  mkRequest (mkURL "" "" "/api") "node" "10.0.0.5:4711" {["X-Forwarded-For" := ["1.2.3.4"]]}.

Lemma proxy_target_witness : q_Header (ServeHTTP ex_target ex_request) !! "X-Forwarded-For" = Some ["10.0.0.5, 10.0.0.5"].
Proof.
  destruct (proxy_target (fun _ => Some ex_target) "https://k8s:6443" ex_target ex_request eq_refl)
    as (_ & _ & _ & _ & _ & Hx). rewrite Hx. by vm_compute.
Defined.
