(* ===== verification/Cli.v ===== *)
(** * Commands that talk to the agent (src/cmd/plexd/cmd: sockutil.go, state.go,
      status.go, actions.go, hooks.go, audit.go, peers.go, policies.go, logs.go)

    The commands over the Unix socket of the server of [NodeAuth]: the URL the
    HTTP client makes of a path, the redirects it follows, and what a command
    prints.  JSON is opaque text, as in [NodeApi]. *)

From Stdlib Require Import Ascii String.
From stdpp Require Import base strings list gmap.
From S2P Require Import Prelude Base64 Types Sse Fs Json Client StateCache NodeApi NodeAuth.

(** ** URLs (net/url, net/http) *)

(** [shouldEscape] in a path; what [validEncoded] admits besides. *)
Definition path_char (c : Z) : bool :=
  unreserved c || bool_decide (c ∈ bytes_of_string ",/;").
Definition encoded_char (c : Z) : bool := path_char c || bool_decide (c ∈ bytes_of_string "!'()*[]%").

Definition escape_path (s : string) : string :=
  string_of_bytes (bytes_of_string s ≫= fun c =>
    if path_char c then [c] else [37; upper_hex (c / 16); upper_hex (c mod 16)]).

Definition is_control (c : Z) : bool := bool_decide (c < 32) || bool_decide (c = 127).

(** The text before the first occurrence of a byte. *)
Fixpoint before (c : Z) (l : list Z) : list Z :=
  match l with [] => [] | x :: l => if decide (x = c) then [] else x :: before c l end.
Fixpoint after (c : Z) (l : list Z) : list Z :=
  match l with [] => [] | x :: l => if decide (x = c) then l else after c l end.

(** [EscapedPath] of the URL parsed from [http://localhost] and the path. *)
Definition request_path (p : string) : option string :=
  let l := bytes_of_string p in
  let u := before 35 l in
  if existsb is_control u then None
  else
    match unescape (after 35 l) with
    | None => None
    | Some _ =>
        let raw := string_of_bytes (before 63 u) in
        match PathUnescape raw with
        | None => None
        | Some path => Some (if forallb encoded_char (bytes_of_string raw) then raw else escape_path path)
        end
    end.

(** ** The client of the socket (sockutil.go) *)

Definition defaultSocketPath : string := DefaultSocketPath.

Section client.
Context `{MapOrder} `{Codec ReportEntry} `{UserDB} (f : path -> fault) (json_Valid : string -> bool).
Context (gcm_Open : list Z -> list Z -> list Z -> option (list Z)) (nsk : list Z).
Context (fetch : string -> result fetch_error NodeApi.SecretResponse) (now : Z).
(** The listeners of the agent, if it runs, and the connection a command
    makes to its socket. *)
Context (agent : option listeners) (c : conn).

Abbreviation server_state := (StateCache * disk)%type.

(** [Client.Do]: a redirected request that is not a GET becomes one, without
    its body; ten redirects are the limit. *)
Fixpoint do_request (fuel : nat) (method escaped : string) (body : option reportPutRequest) (st : server_state)
    : option response * server_state :=
  match agent with
  | None => (None, st)
  | Some ls =>
      match serve f json_Valid gcm_Open nsk fetch now ls (Unix c) (mkReq method escaped "" None "" body) st with
      | None => (Some (writeError StatusBadRequest "Bad Request"), st)
      | Some (resp, _, st) =>
          if decide (rp_status resp = StatusMovedPermanently) then
            match fuel with
            | O => (None, st)
            | S fuel => do_request fuel "GET" (escape_path (cleanPath escaped)) None st
            end
          else (Some resp, st)
      end
  end.

Definition maxRedirects : nat := 10.

Definition socket_do (method p : string) (body : option reportPutRequest) (st : server_state)
    : option response * server_state :=
  match request_path p with
  | None => (None, st)
  | Some escaped => do_request maxRedirects method escaped body st
  end.

Definition socketGet (p : string) (st : server_state) : option response * server_state := socket_do "GET" p None st.

(** ** Commands *)

(** A document, a line, a line with a quoted word, the summary of [status] with
    the metadata listed below it, or the log of journalctl. *)
Inductive output :=
| Printed (b : body) | Message (s : string) | Quoted (pre word post : string)
| Summary (metadata data secrets reports : nat) (entries : list (string * string))
| Journal.

Inductive cmd_error :=
| AgentUnavailable | UnknownType (t : string) | NotFound (t key : string) | UnexpectedStatus (s : Z)
| DataRequired | DataInvalid | MarshalFailed | ParseFailed | JournalctlFailed.

(** state.go *)
Definition runState (st : server_state) : result cmd_error output * server_state :=
  match socketGet "/v1/state" st with
  | (None, st) => (Err AgentUnavailable, st)
  | (Some resp, st) => (Ok (Printed (rp_body resp)), st)
  end.

Definition runStateGet (entryType key : string) (st : server_state) : result cmd_error output * server_state :=
  if decide (entryType <> "metadata" /\ entryType <> "data" /\ entryType <> "report") then (Err (UnknownType entryType), st)
  else
    match socketGet ("/v1/state/" +:+ entryType +:+ "/" +:+ key) st with
    | (None, st) => (Err AgentUnavailable, st)
    | (Some resp, st) =>
        if decide (rp_status resp = StatusNotFound) then (Err (NotFound entryType key), st)
        else if decide (rp_status resp <> StatusOK) then (Err (UnexpectedStatus (rp_status resp)), st)
        else (Ok (Printed (rp_body resp)), st)
    end.

(** The body on the wire, single quotes standing for the double ones; the server does not decode more than 1 MiB. *)
Definition report_text (payload : string) : string :=
  "{'content_type':'application/json','payload':" +:+ payload +:+ "}".
Definition maxReportBodyBytes : Z := Z.shiftl 1 20.
Definition report_body (payload : string) : option reportPutRequest :=
  if decide (Z.of_nat (String.length (report_text payload)) <= maxReportBodyBytes)
  then Some (mkPutRequest "application/json" payload) else None.

(** [compact] is what marshalling a raw message makes of it. *)
Definition runStateReport (compact : string -> option string) (key data : string) (st : server_state)
    : result cmd_error output * server_state :=
  if decide (data = "") then (Err DataRequired, st)
  else if negb (json_Valid data) then (Err DataInvalid, st)
  else
    match compact data with
    | None => (Err MarshalFailed, st)
    | Some payload =>
        match socket_do "PUT" ("/v1/state/report/" +:+ key) (report_body payload) st with
        | (None, st) => (Err AgentUnavailable, st)
        | (Some resp, st) =>
            if decide (rp_status resp <> StatusOK) then (Err (UnexpectedStatus (rp_status resp)), st)
            else (Ok (Message ("report " +:+ key +:+ " written")), st)
        end
    end.

(** status.go: any other object decodes to an empty summary. *)
Definition runStatus (st : server_state) : result cmd_error output * server_state :=
  match socketGet "/v1/state" st with
  | (None, st) => (Err AgentUnavailable, st)
  | (Some resp, st) =>
      match rp_body resp with
      | BState s => (Ok (Summary (size (ss_Metadata s)) (length (ss_DataKeys s)) (length (ss_SecretKeys s))
                          (length (ss_ReportKeys s)) (range_map (ss_Metadata s))), st)
      | BError _ => (Ok (Summary 0 0 0 0 []), st)
      | _ => (Err ParseFailed, st)
      end
  end.

(** The commands that print a fixed text when the agent answers. *)
Definition runProbe (out : output) (st : server_state) : result cmd_error output * server_state :=
  match socketGet "/v1/state" st with
  | (None, st) => (Err AgentUnavailable, st)
  | (Some _, st) => (Ok out, st)
  end.

Definition runActions := runProbe (Message "action listing not yet available").
Definition runActionsRun (name : string) := runProbe (Quoted "action dispatch for " name " not yet available").
Definition runHooksList := runProbe (Message "hook listing not yet available").
Definition runHooksVerify := runProbe (Message "hook verification not yet available").
Definition runHooksReload := runProbe (Message "hook reload not yet available").
Definition runAudit := runProbe (Message "audit collection status not yet available").
Definition runPeers := runProbe (Message "peer listing not yet available").
Definition runPolicies := runProbe (Message "policy listing not yet available").
Definition runLogStatus := runProbe (Message "log forwarding status not yet available").

End client.

(** plexd logs: where journalctl is, and whether a run of it succeeds. *)
Definition logs_args (follow : bool) : list string :=
  let args := ["-u"; "plexd"; "--no-pager"] in if follow then args ++ ["-f"] else args.

Definition runLogs (journalctl : option string) (run : string -> list string -> bool) (follow : bool)
    : result cmd_error output :=
  match journalctl with
  | None => Ok (Message "journalctl not found; logs may be available on stdout of the plexd process")
  | Some p => if run p (logs_args follow) then Ok Journal else Err JournalctlFailed
  end.

(** ** Lemmas *)

Lemma path_char_range c : path_char c = true -> 36 <= c <= 126 /\ c <> 37 /\ c <> 63.
Proof.
  unfold path_char, unreserved. rewrite !orb_true_iff, !andb_true_iff, !Z.leb_le, !Z.eqb_eq, bool_decide_eq_true.
  intros Hc. assert (Hl : c ∈ bytes_of_string ",/;" -> c = 44 \/ c = 47 \/ c = 59).
  { change (bytes_of_string ",/;") with [44; 47; 59]. rewrite !elem_of_cons, elem_of_nil. tauto. }
  destruct Hc as [Hc|Hc%Hl]; lia.
Qed.

Lemma before_id c l : c ∉ l -> before c l = l.
Proof. induction l as [|x l IH]; [done|]. intros [Hx Hl]%not_elem_of_cons. simpl. by rewrite decide_False, IH. Qed.

Lemma after_nil c l : c ∉ l -> after c l = [].
Proof. induction l as [|x l IH]; [done|]. intros [Hx Hl]%not_elem_of_cons. simpl. by rewrite decide_False, IH. Qed.

Lemma unescape_id l : 37 ∉ l -> unescape l = Some l.
Proof.
  induction l as [|x l IH]; [done|]. intros [Hx Hl]%not_elem_of_cons. cbn [unescape].
  rewrite decide_False by done. by rewrite IH.
Qed.

Lemma PathUnescape_id p : 37 ∉ bytes_of_string p -> PathUnescape p = Some p.
Proof. intros Hp. unfold PathUnescape. rewrite unescape_id by done. cbn. by rewrite string_of_bytes_of_string. Qed.

(** A path of these characters is sent as it is. *)
Definition plain_path (p : string) : Prop := Forall (fun c => path_char c = true) (bytes_of_string p).

Lemma plain_path_not c p : plain_path p -> path_char c = false -> c ∉ bytes_of_string p.
Proof. intros Hp Hc Hin. unfold plain_path in Hp. rewrite Forall_forall in Hp. apply Hp in Hin. congruence. Qed.

Lemma request_path_id p : plain_path p -> request_path p = Some p.
Proof.
  intros Hp. unfold request_path.
  rewrite (before_id 35), (after_nil 35) by (by apply plain_path_not). cbn [unescape].
  destruct (existsb is_control (bytes_of_string p)) eqn:Ec.
  { apply existsb_exists in Ec as (c & Hin%list_elem_of_In & Hc). unfold plain_path in Hp. rewrite Forall_forall in Hp.
    apply Hp, path_char_range in Hin. unfold is_control in Hc.
    rewrite orb_true_iff, !bool_decide_eq_true in Hc. lia. }
  rewrite (before_id 63), string_of_bytes_of_string, PathUnescape_id by (by apply plain_path_not).
  destruct (forallb encoded_char (bytes_of_string p)) eqn:E; [done|]. exfalso.
  apply not_true_iff_false in E. apply E, forallb_forall. intros c Hin%list_elem_of_In.
  unfold plain_path in Hp. rewrite Forall_forall in Hp. unfold encoded_char. by rewrite (Hp c Hin).
Qed.

(** A key the commands can name. *)
Definition simple_key (key : string) : Prop :=
  plain key /\ Forall (fun c => unreserved c = true) (bytes_of_string key).

Definition entry_path (t key : string) : string := "/v1/state/" +:+ t +:+ "/" +:+ key.

Lemma entry_split t key : plain t -> plain key -> split_slash "" (entry_path t key) = [""; "v1"; "state"; t; key].
Proof.
  intros [Ht _] [Hk _]. unfold entry_path.
  change ("/v1/state/" +:+ t +:+ "/" +:+ key) with (String.append "" (String "/" (String.append "v1" (String "/"
      (String.append "state" (String "/" (String.append t (String "/" key)))))))).
  by rewrite !split_slash_app, split_no_slash by (done || by_compute).
Qed.

Lemma no_slash_suffix s : no_slash s -> s <> "" -> forall a, HasSuffix (a +:+ s) "/" = false.
Proof.
  intros Hs Hne a. apply not_true_iff_false. unfold HasSuffix. rewrite andb_true_iff, !bool_decide_eq_true, string_app_list.
  cbn [String.list_ascii_of_string length]. intros [_ E]. unfold no_slash in Hs.
  assert (Hl : String.list_ascii_of_string s <> []) by by destruct s.
  destruct (exists_last Hl) as (l & c & El). rewrite El in *.
  rewrite app_assoc, length_app, Nat.add_sub, drop_app_length in E. injection E as ->.
  apply Forall_app in Hs as [_ Hs]. by inversion Hs.
Qed.

Lemma cleanPath_slash p : let q := String "/" p in
  cleanPath q = (let np := String "/" (join "/" (Join [] q)) in
                 if HasSuffix q "/" && negb (bool_decide (np = "/")) then np +:+ "/" else np).
Proof. done. Qed.

Lemma entry_clean t key : plain t -> plain key -> cleanPath (entry_path t key) = entry_path t key.
Proof.
  intros Ht Hk. change (entry_path t key) with (String "/" ("v1/state/" +:+ t +:+ "/" +:+ key)).
  rewrite cleanPath_slash. change (String "/" ("v1/state/" +:+ t +:+ "/" +:+ key)) with (entry_path t key).
  assert (Hj : Join [] (entry_path t key) = ["v1"; "state"; t; key]).
  { unfold Join. rewrite entry_split by done. cbn [foldl].
    destruct Ht as (_ & T1 & T2 & T3), Hk as (_ & K1 & K2 & K3). unfold push.
    rewrite (decide_True (P := "" = "" \/ "" = ".")) by auto.
    repeat (rewrite decide_False by (intros [?|?]; done || fail); rewrite decide_False by done). done. }
  rewrite Hj. assert (Hs : HasSuffix (entry_path t key) "/" = false).
  { unfold entry_path. rewrite <- !string_app_assoc. apply no_slash_suffix; [apply Hk|apply Hk]. }
  rewrite Hs. cbn [andb join]. done.
Qed.

Lemma entry_plain t key : Forall (fun c => unreserved c = true) (bytes_of_string t) ->
  Forall (fun c => unreserved c = true) (bytes_of_string key) -> plain_path (entry_path t key).
Proof.
  intros Ht Hk. unfold plain_path, entry_path. rewrite !bytes_of_string_app, !Forall_app.
  assert (Hu : forall l, Forall (fun c => unreserved c = true) l -> Forall (fun c => path_char c = true) l).
  { intros l Hl. eapply Forall_impl; [exact Hl|]. intros c Hc. unfold path_char. by rewrite Hc. }
  split_and!; [by_compute|by apply Hu|by_compute|by apply Hu].
Qed.

(** The route of an entry's path. *)
Lemma entry_route t key : simple_key t -> simple_key key ->
  PathUnescape (entry_path t key) = Some (entry_path t key) /\
  request_path (entry_path t key) = Some (entry_path t key) /\
  forall m, m <> "CONNECT" -> m <> "HEAD" ->
    Mux m (entry_path t key) =
      match match_segments m ["v1"; "state"; t; key] with
      | Some r => Routed r
      | None => if existsb (fun m => bool_decide (is_Some (match_segments m ["v1"; "state"; t; key]))) ["GET"; "PUT"; "DELETE"]
                then MNotAllowed else MNotFound
      end.
Proof.
  intros [Ht Ut] [Hk Uk]. pose proof (entry_plain t key Ut Uk) as Hp. split_and!.
  - by apply PathUnescape_id, plain_path_not.
  - by apply request_path_id.
  - intros m Hm1 Hm2. unfold Mux. rewrite entry_clean by done. rewrite decide_False by (intros [_ ?]; done).
    rewrite (decide_False (P := m = "HEAD")) by done. unfold segments. rewrite entry_split by done.
    assert (Hseg : forall s, plain s -> Forall (fun c => unreserved c = true) (bytes_of_string s) -> segment s = s).
    { intros s Hs Us. unfold segment. rewrite decide_False by apply Hs. rewrite PathUnescape_id; [done|].
      intros Hin. rewrite Forall_forall in Us. by apply Us in Hin. }
    cbn [fmap list_fmap]. rewrite (Hseg t), (Hseg key) by done. done.
Qed.

Lemma simple_key_valid key : simple_key key -> validReportKey key = true.
Proof.
  intros [(Hs & H1 & H2 & H3) Hu]. unfold validReportKey. rewrite !andb_true_iff, !bool_decide_eq_true.
  split_and!; [done|done|done|]. apply forallb_forall. intros c Hin%list_elem_of_In.
  unfold no_slash in Hs. rewrite Forall_forall in Hs. rewrite bool_decide_eq_false_2 by by apply Hs.
  rewrite bool_decide_eq_false_2; [done|]. intros ->. rewrite Forall_forall in Hu.
  assert (Hb : 92 ∈ bytes_of_string key) by (unfold bytes_of_string; by apply (list_elem_of_fmap_2 ascii_code) in Hin).
  by apply Hu in Hb.
Qed.

Lemma report_match key : simple_key key ->
  match_segments "PUT" ["v1"; "state"; "report"; key] = Some (RPutReport key) /\
  match_segments "GET" ["v1"; "state"; "report"; key] = Some (RReportKey key).
Proof.
  intros [[Hs _] _]. assert (Hk : key <> "/") by (intros ->; by inversion Hs).
  split; cbn; by rewrite (decide_False (P := key = "/")).
Qed.

Lemma entry_types_simple t : t ∈ ["metadata"; "data"; "report"] -> simple_key t.
Proof. rewrite !elem_of_cons, elem_of_nil. intros [-> | [-> | [-> | []]]]; split; by_compute. Qed.

Section theorems.
Context `{MapOrder} `{Codec ReportEntry} `{UserDB} (f : path -> fault) (json_Valid : string -> bool).
Context (gcm_Open : list Z -> list Z -> list Z -> option (list Z)) (nsk : list Z).
Context (fetch : string -> result fetch_error NodeApi.SecretResponse) (now : Z).
Context (ls : listeners) (c : conn).

Abbreviation cred := (connContextWithPeerCred None c).
Abbreviation do_request := (do_request f json_Valid gcm_Open nsk fetch now (Some ls) c).
Abbreviation handle_route := (handle_route f json_Valid gcm_Open nsk fetch now).

(** One request that is not for a secret. *)
Lemma do_request_mux fuel m p path body st : PathUnescape p = Some path ->
  HasPrefix path "/v1/state/secrets" = false ->
  do_request fuel m p body st =
    (let '(resp, st) := mux_ServeHTTP f json_Valid gcm_Open nsk fetch now (mkReq m p "" cred "" body) st in
     if decide (rp_status resp = StatusMovedPermanently) then
       match fuel with
       | O => (None, st)
       | S fuel => do_request fuel "GET" (escape_path (cleanPath p)) None st
       end
     else (Some resp, st)).
Proof.
  intros Eu Hpre. destruct fuel; cbn [Cli.do_request]; unfold serve, URL_Path; cbn [rq_escapedPath]; rewrite Eu;
    cbn [mbind option_bind]; unfold wrapSecretAuth; rewrite Hpre; unfold notify_ServeHTTP;
    destruct (mux_ServeHTTP _ _ _ _ _ _ _ _) as [resp st']; by destruct (ls_secretAuth ls).
Qed.

(** A request for an entry goes straight to its handler. *)
Lemma do_entry t fuel m key body st r resp st' : t ∈ ["metadata"; "data"; "report"] ->
  simple_key key -> m <> "CONNECT" -> m <> "HEAD" ->
  match_segments m ["v1"; "state"; t; key] = Some r ->
  handle_route r (mkReq m (entry_path t key) "" cred "" body) st = (resp, st') ->
  rp_status resp <> StatusMovedPermanently ->
  do_request fuel m (entry_path t key) body st = (Some resp, st').
Proof.
  intros Ht Hk Hm1 Hm2 Hr Hh Hs. assert (Hsk : simple_key t) by (by apply entry_types_simple).
  destruct (entry_route t key Hsk Hk) as (Eu & _ & Hmux). specialize (Hmux m Hm1 Hm2). rewrite Hr in Hmux.
  rewrite (do_request_mux _ _ _ _ _ _ Eu).
  2: { rewrite !elem_of_cons, elem_of_nil in Ht. by destruct Ht as [-> | [-> | [-> | []]]]. }
  unfold mux_ServeHTTP. cbn [rq_method rq_escapedPath]. rewrite Hmux, Hh. by rewrite decide_False.
Qed.

(** [plexd state get] prints what the handler of the entry answers. *)
Lemma runStateGet_entry t key st r resp : t ∈ ["metadata"; "data"; "report"] -> simple_key key ->
  match_segments "GET" ["v1"; "state"; t; key] = Some r ->
  handle_route r (mkReq "GET" (entry_path t key) "" cred "" None) st = (resp, st) ->
  rp_status resp <> StatusMovedPermanently ->
  runStateGet f json_Valid gcm_Open nsk fetch now (Some ls) c t key st =
    (if decide (rp_status resp = StatusNotFound) then Err (NotFound t key)
     else if decide (rp_status resp <> StatusOK) then Err (UnexpectedStatus (rp_status resp))
     else Ok (Printed (rp_body resp)), st).
Proof.
  intros Ht Hk Hr Hh Hs. assert (Hsk : simple_key t) by (by apply entry_types_simple).
  destruct (entry_route t key Hsk Hk) as (_ & Ereq & _). unfold runStateGet. rewrite decide_False.
  2: { rewrite !elem_of_cons, elem_of_nil in Ht. tauto. }
  unfold socketGet, socket_do. change ("/v1/state/" +:+ t +:+ "/" +:+ key) with (entry_path t key). rewrite Ereq.
  rewrite (do_entry t _ "GET" key None st r resp st) by done. by repeat case_decide.
Qed.

Lemma runStateGet_metadata key st : simple_key key ->
  runStateGet f json_Valid gcm_Open nsk fetch now (Some ls) c "metadata" key st =
    (match GetMetadataKey st.1 key with
     | Some v => Ok (Printed (BKeyValue key v))
     | None => Err (NotFound "metadata" key)
     end, st).
Proof.
  intros Hk. assert (key <> "/") by (intros ->; destruct Hk as [[Hs _] _]; by inversion Hs).
  rewrite (runStateGet_entry _ _ _ (RMetadataKey key) (handleGetMetadataKey st.1 key)); [|by_compute|done| |done|].
  - unfold handleGetMetadataKey. by destruct (GetMetadataKey _ _).
  - cbn. by rewrite (decide_False (P := key = "/")).
  - unfold handleGetMetadataKey. by destruct (GetMetadataKey _ _).
Qed.

Lemma runStateGet_data key st : simple_key key ->
  runStateGet f json_Valid gcm_Open nsk fetch now (Some ls) c "data" key st =
    (match GetDataEntry st.1 key with
     | Some e => Ok (Printed (BData e))
     | None => Err (NotFound "data" key)
     end, st).
Proof.
  intros Hk. assert (key <> "/") by (intros ->; destruct Hk as [[Hs _] _]; by inversion Hs).
  rewrite (runStateGet_entry _ _ _ (RDataKey key) (handleGetDataKey st.1 key)); [|by_compute|done| |done|].
  - unfold handleGetDataKey. by destruct (GetDataEntry _ _).
  - cbn. by rewrite (decide_False (P := key = "/")).
  - unfold handleGetDataKey. by destruct (GetDataEntry _ _).
Qed.

(** C37. [plexd state report] followed by [plexd state get] on a server that
    listens on the default socket.  For a key that the commands can name, not
    empty, of unreserved characters and not a dot segment, and valid JSON data
    whose compacted form is valid and makes a request body of at most 1 MiB:
    the report is written, and reading it back prints the compacted data with
    its key, content type and time.  Other keys can fail: a dot segment is
    reported as written and is not ([dot_report_not_written]), and a question
    mark in a key cuts it off ([query_in_key]). *)
Theorem report_then_get compact key data payload st :
  simple_key key -> data <> "" -> json_Valid data = true -> compact data = Some payload ->
  payload <> "" -> json_Valid payload = true ->
  Z.of_nat (String.length (report_text payload)) <= maxReportBodyBytes ->
  exists e st',
    runStateReport f json_Valid gcm_Open nsk fetch now (Some ls) c compact key data st
      = (Ok (Message ("report " +:+ key +:+ " written")), st') /\
    runStateGet f json_Valid gcm_Open nsk fetch now (Some ls) c "report" key st' = (Ok (Printed (BReport e)), st') /\
    re_Key e = key /\ re_Payload e = payload /\ re_ContentType e = "application/json" /\ re_UpdatedAt e = now.
Proof.
  intros Hk Hd Hv Hc Hp1 Hp2 Hlen. destruct st as [sc d].
  assert (Ht : simple_key "report") by (split; by_compute).
  destruct (entry_route "report" key Ht Hk) as (_ & Ereq & _).
  assert (Hput : exists e d', handle_route (RPutReport key)
      (mkReq "PUT" (entry_path "report" key) "" cred "" (Some (mkPutRequest "application/json" payload))) (sc, d) =
      (writeJSON StatusOK (BReport e), (mkCache (sc_dataDir sc) (sc_metadata sc) (sc_data sc) (sc_secretIndex sc)
        (<[key := e]> (sc_reports sc)), d')) /\
      re_Key e = key /\ re_Payload e = payload /\ re_ContentType e = "application/json" /\ re_UpdatedAt e = now).
  { cbn [NodeAuth.handle_route rq_ifMatch rq_body]. unfold handlePutReport. rewrite simple_key_valid by done.
    cbn [negb prq_ContentType prq_Payload]. rewrite decide_False by done. rewrite bool_decide_eq_false_2, Hp2 by done.
    cbn [orb negb]. rewrite decide_False by (intros E; by apply E). unfold PutReport.
    destruct (next_version (sc_reports sc !! key) None) as [v|] eqn:Ev; [|by destruct (sc_reports sc !! key)].
    eexists _, _. split; [reflexivity|]. done. }
  destruct Hput as (e & d' & Hput & He). eexists e, _. split; [|split; [|exact He]].
  - unfold runStateReport. rewrite decide_False, Hv by done. cbn [negb]. rewrite Hc. unfold socket_do.
    change ("/v1/state/report/" +:+ key) with (entry_path "report" key). rewrite Ereq. unfold report_body.
    rewrite decide_True by done.
    by rewrite (do_entry "report" _ "PUT" key _ _ (RPutReport key) _ _ ltac:(by_compute) Hk ltac:(done) ltac:(done)
      (proj1 (report_match key Hk)) Hput).
  - rewrite (runStateGet_entry "report" key _ (RReportKey key) (writeJSON StatusOK (BReport e)));
      [done|by_compute|done|by apply report_match| |done].
    cbn [NodeAuth.handle_route fst]. unfold handleGetReportKey, GetReport. rewrite simple_key_valid by done.
    cbn [negb sc_reports]. by rewrite lookup_insert_eq.
Qed.

(** A key that is a dot segment: the server redirects, the client repeats the
    request as a GET of the cleaned path, and the command says that the report
    was written although nothing was. *)
Theorem dot_report_not_written compact data payload st :
  data <> "" -> json_Valid data = true -> compact data = Some payload ->
  runStateReport f json_Valid gcm_Open nsk fetch now (Some ls) c compact ".." data st
    = (Ok (Message "report .. written"), st).
Proof.
  intros Hd Hv Hc. unfold runStateReport. rewrite decide_False, Hv by done. cbn [negb]. rewrite Hc. unfold socket_do.
  assert (E1 : request_path ("/v1/state/report/" +:+ "..") = Some "/v1/state/report/..") by by vm_compute. rewrite E1.
  assert (E2 : Mux "PUT" "/v1/state/report/.." = MRedirect) by by vm_compute.
  assert (E3 : escape_path (cleanPath "/v1/state/report/..") = "/v1/state") by by vm_compute.
  assert (E4 : Mux "GET" "/v1/state" = Routed RState) by by vm_compute.
  rewrite (do_request_mux _ _ _ "/v1/state/report/..") by by vm_compute. unfold mux_ServeHTTP at 1.
  cbn [rq_method rq_escapedPath]. rewrite E2. cbn [rp_status]. rewrite decide_True by done. unfold maxRedirects.
  rewrite E3, (do_request_mux _ _ _ "/v1/state") by by vm_compute. unfold mux_ServeHTTP.
  cbn [rq_method rq_escapedPath]. by rewrite E4.
Qed.

End theorems.

(** A question mark in a key starts the query: the report is written under
    another key than the command names. *)
Lemma query_in_key : request_path ("/v1/state/report/" +:+ "a?b") = Some (entry_path "report" "a").
Proof. by vm_compute. Qed.

(** ** Witnesses *)

Import SimCodec.

#[local] Instance ex_cli_order : MapOrder := id_order.
#[local] Instance ex_cli_users : UserDB := {| LookupGroup := fun _ => None; LookupId := fun _ => None |}.

Lemma ex_simple : simple_key "health".
Proof. split; by_compute. Qed.

Definition ex_compact (s : string) : option string := Some s.

Lemma report_then_get_witness : exists e st',
  runStateReport (fun _ => NoFault) (fun _ => true) ex_open [] ex_fetch 5 (Some ex_listeners) (ex_conn 1000) ex_compact "health" "1"
    ex_state = (Ok (Message "report health written"), st') /\
  runStateGet (fun _ => NoFault) (fun _ => true) ex_open [] ex_fetch 5 (Some ex_listeners) (ex_conn 1000) "report" "health" st'
    = (Ok (Printed (BReport e)), st') /\
  re_Key e = "health" /\ re_Payload e = "1" /\ re_ContentType e = "application/json" /\ re_UpdatedAt e = 5.
Proof.
  exact (report_then_get (fun _ => NoFault) (fun _ => true) ex_open [] ex_fetch 5 ex_listeners (ex_conn 1000) ex_compact
    "health" "1" "1" ex_state ex_simple ltac:(done) eq_refl eq_refl ltac:(done) eq_refl ltac:(by vm_compute)).
Defined.

Lemma dot_report_not_written_witness :
  runStateReport (fun _ => NoFault) (fun _ => true) ex_open [] ex_fetch 5 (Some ex_listeners) (ex_conn 1000) ex_compact ".." "1"
    ex_state = (Ok (Message "report .. written"), ex_state).
Proof.
  exact (dot_report_not_written (fun _ => NoFault) (fun _ => true) ex_open [] ex_fetch 5 ex_listeners (ex_conn 1000) ex_compact
    "1" "1" ex_state ltac:(done) eq_refl eq_refl).
Defined.
