(* ===== verification/Lifecycle.v ===== *)
(** * Running and stopping (src/internal/nodeapi/server.go, the rest of [Start];
      src/cmd/plexd/cmd/up.go, the end of [runUp])

    Two step relations: the node API's server from its open listeners to the
    return of [Start], and the agent's four goroutines from their start to the
    return of [runUp].  Waiting is modelled with a clock and deadlines. *)

From stdpp Require Import base strings list gmap relations.
From S2P Require Import Prelude.
From S2P Require NodeAuth.

(** ** The server of the node API *)

Module Server.

(** Where [Start] is: serving, in [unixServer.Shutdown], in
    [tcpServer.Shutdown], after the removal of the socket in [wg.Wait], or
    returned. *)
Inductive phase := Serving | StoppingUnix (deadline : Z) | StoppingTcp (deadline : Z) | Waiting | Returned.

(** A listener: whether it is open, the requests that are being served. *)
Record listener := mkListener { l_open : bool; l_active : nat }.

Record state := mkState {
  s_phase : phase;
  s_cancelled : bool;
  s_unix : listener;
  s_tcp : option listener;
  s_syncer : bool; (* runs *)
  s_socket : bool; (* the file is there *)
  s_late : nat; (* requests that finished after the syncer had ended *)
  s_clock : Z
}.

Definition started (tcp : bool) (now : Z) : state :=
  mkState Serving false (mkListener true 0) (if tcp then Some (mkListener true 0) else None) true true 0 now.

(** [http.Server.Shutdown] closes the listener at once and waits for its
    requests or the end of its context. *)
Definition close_listener (l : listener) : listener := mkListener false (l_active l).
Definition begin_request (l : listener) : listener := mkListener (l_open l) (S (l_active l)).
Definition end_request (l : listener) : listener := mkListener (l_open l) (pred (l_active l)).

Definition settled (l : listener) (deadline now : Z) : Prop := l_active l = 0%nat \/ deadline <= now.

Definition finish (s : state) (unix : listener) (tcp : option listener) : state :=
  mkState (s_phase s) (s_cancelled s) unix tcp (s_syncer s) (s_socket s)
    (if s_syncer s then s_late s else S (s_late s)) (s_clock s).

Section server.
Context (ShutdownTimeout : Z).

Inductive step : state -> state -> Prop :=
| request_unix ph c u t sy so la n : l_open u = true ->
    step (mkState ph c u t sy so la n) (mkState ph c (begin_request u) t sy so la n)
| request_tcp ph c u t sy so la n : l_open t = true ->
    step (mkState ph c u (Some t) sy so la n) (mkState ph c u (Some (begin_request t)) sy so la n)
| answer_unix s : (0 < l_active (s_unix s))%nat -> step s (finish s (end_request (s_unix s)) (s_tcp s))
| answer_tcp s t : s_tcp s = Some t -> (0 < l_active t)%nat -> step s (finish s (s_unix s) (Some (end_request t)))
| cancel ph c u t sy so la n : step (mkState ph c u t sy so la n) (mkState ph true u t sy so la n)
| syncer_ends ph u t sy so la n : step (mkState ph true u t sy so la n) (mkState ph true u t false so la n)
| stop_unix u t sy so la n :
    step (mkState Serving true u t sy so la n)
         (mkState (StoppingUnix (n + ShutdownTimeout)) true (close_listener u) t sy so la n)
| stop_tcp dl u t sy so la n : settled u dl n ->
    step (mkState (StoppingUnix dl) true u (Some t) sy so la n)
         (mkState (StoppingTcp dl) true u (Some (close_listener t)) sy so la n)
| no_tcp dl u sy so la n : settled u dl n ->
    step (mkState (StoppingUnix dl) true u None sy so la n) (mkState Waiting true u None sy false la n)
| tcp_stopped dl u t sy so la n : settled t dl n ->
    step (mkState (StoppingTcp dl) true u (Some t) sy so la n) (mkState Waiting true u (Some t) sy false la n)
| returns c u t so la n : step (mkState Waiting c u t false so la n) (mkState Returned c u t false so la n)
| time dt ph c u t sy so la n : 0 <= dt ->
    step (mkState ph c u t sy so la n) (mkState ph c u t sy so la (n + dt)).

End server.

(** What holds on the way. *)
Definition tcp_closed (t : option listener) : Prop := match t with Some t => l_open t = false | None => True end.

Definition inv (s : state) : Prop :=
  match s_phase s with
  | Serving => s_socket s = true
  | StoppingUnix _ => s_cancelled s = true /\ l_open (s_unix s) = false
  | StoppingTcp _ => s_cancelled s = true /\ l_open (s_unix s) = false /\ tcp_closed (s_tcp s) /\ is_Some (s_tcp s)
  | Waiting => s_cancelled s = true /\ l_open (s_unix s) = false /\ tcp_closed (s_tcp s) /\ s_socket s = false
  | Returned => l_open (s_unix s) = false /\ tcp_closed (s_tcp s) /\ s_socket s = false /\ s_syncer s = false
  end.

Lemma server_step_inv T s s' : step T s s' -> inv s -> inv s'.
Proof.
  destruct 1; unfold inv in *; cbn in *; try (by intuition auto); try (by destruct ph; intuition (eauto; congruence)).
  all: destruct s as [ph c u t' sy so la n]; cbn in *; subst; destruct ph; cbn; intuition eauto.
Qed.

(** The deadline of a shutdown is at most the timeout away. *)
Definition deadline_ok (T : Z) (s : state) : Prop :=
  match s_phase s with StoppingUnix dl | StoppingTcp dl => dl <= s_clock s + T | _ => True end.

Lemma step_deadline T s s' : step T s s' -> deadline_ok T s -> deadline_ok T s'.
Proof. destruct 1; unfold deadline_ok; cbn; try done; try lia. destruct ph; cbn; lia. Qed.

Lemma server_steps_inv T s s' : rtc (step T) s s' -> inv s /\ deadline_ok T s -> inv s' /\ deadline_ok T s'.
Proof. induction 1; [done|]. intros []. eauto using server_step_inv, step_deadline. Qed.

Lemma started_inv T tcp now : inv (started tcp now) /\ deadline_ok T (started tcp now).
Proof. by destruct tcp. Qed.

(** From the last wait on, [Start] returns at once. *)
Lemma waiting_returns T u t sy so la n :
  rtc (step T) (mkState Waiting true u t sy so la n) (mkState Returned true u t false so la n).
Proof. eapply rtc_l; [apply syncer_ends|]. eapply rtc_l; [apply returns|apply rtc_refl]. Qed.

Lemma stopping_tcp_returns T dl u t sy so la n : 0 <= T -> dl <= n + T ->
  exists s', rtc (step T) (mkState (StoppingTcp dl) true u (Some t) sy so la n) s' /\ s_phase s' = Returned /\
    s_clock s' <= n + T.
Proof.
  intros HT Hd. eexists. split.
  - eapply rtc_l; [apply (time _ (Z.max 0 (dl - n))); lia|]. eapply rtc_l; [apply tcp_stopped; right; lia|].
    apply waiting_returns.
  - cbn. split; [done|lia].
Qed.

Lemma stopping_unix_returns T dl u t sy so la n : 0 <= T -> dl <= n + T ->
  exists s', rtc (step T) (mkState (StoppingUnix dl) true u t sy so la n) s' /\ s_phase s' = Returned /\
    s_clock s' <= n + T.
Proof.
  intros HT Hd. destruct t as [t|].
  - set (n' := n + Z.max 0 (dl - n)).
    assert (Hsteps : rtc (step T) (mkState (StoppingUnix dl) true u (Some t) sy so la n)
      (mkState Waiting true u (Some (close_listener t)) sy false la n')).
    { eapply rtc_l; [apply (time _ (Z.max 0 (dl - n))); lia|]. eapply rtc_l; [apply stop_tcp; right; lia|].
      eapply rtc_l; [apply tcp_stopped; right; lia|]. apply rtc_refl. }
    eexists. split; [etrans; [exact Hsteps|apply waiting_returns]|]. cbn. split; [done|lia].
  - eexists. split.
    + eapply rtc_l; [apply (time _ (Z.max 0 (dl - n))); lia|]. eapply rtc_l; [apply no_tcp; right; lia|].
      apply waiting_returns.
    + cbn. split; [done|lia].
Qed.

(** Stopping the node API: once its context is cancelled, [Start] can return
    within the shutdown timeout although no request finishes; and when it has
    returned, both listeners are closed, the socket file is gone and the syncer
    has ended. *)
Theorem server_stops T tcp now s : 0 <= T -> rtc (step T) (started tcp now) s ->
  (s_phase s = Returned ->
     l_open (s_unix s) = false /\ tcp_closed (s_tcp s) /\ s_socket s = false /\ s_syncer s = false) /\
  (s_cancelled s = true ->
     exists s', rtc (step T) s s' /\ s_phase s' = Returned /\ s_clock s' <= s_clock s + T).
Proof.
  intros HT Hr. destruct (server_steps_inv _ _ _ Hr (started_inv T tcp now)) as [Hi Hd].
  split; [intros E; unfold inv in Hi; by rewrite E in Hi|].
  destruct s as [ph c u t sy so la n]. cbn. intros ->. unfold inv, deadline_ok in Hi, Hd. cbn in Hi, Hd.
  destruct ph as [|dl|dl| |].
  - destruct (stopping_unix_returns T (n + T) (close_listener u) t sy so la n HT ltac:(lia)) as (s' & Hs & Hp & Hc).
    exists s'. split_and!; [|done|done]. eapply rtc_l; [apply stop_unix|exact Hs].
  - by apply stopping_unix_returns.
  - destruct Hi as (_ & _ & _ & [t' ->]). by apply stopping_tcp_returns.
  - eexists. split; [apply waiting_returns|]. cbn. split; [done|lia].
  - eexists. split; [apply rtc_refl|]. cbn. split; [done|lia].
Qed.

(** The syncer's context ends with the server's: a request over TCP that comes
    during the shutdown is served although nobody reports its change. *)
Lemma late_report_lost T : exists s, rtc (step T) (started true 0) s /\ s_late s = 1%nat /\ s_syncer s = false.
Proof.
  eexists (mkState (StoppingUnix (0 + T)) true (mkListener false 0) (Some (mkListener true 0)) false true 1 0). split; [|done].
  eapply rtc_l; [apply cancel|]. eapply rtc_l; [apply stop_unix|]. eapply rtc_l; [apply syncer_ends|].
  eapply rtc_l; [by apply request_tcp|]. eapply rtc_l; [|apply rtc_refl].
  exact (answer_tcp T (mkState (StoppingUnix (0 + T)) true (mkListener false 0) (Some (mkListener true 1)) false true 0 0)
    (mkListener true 1) eq_refl ltac:(cbn; lia)).
Qed.

End Server.

(** ** The agent *)

Module Agent.

Inductive component := SSEManager | Heartbeat | Reconciler | NodeAPIServer.

#[global] Instance component_eq_dec : EqDecision component.
Proof. solve_decision. Defined.

Definition drainTimeout : Z := 30 * second.

(** [Stopped] tells whether the drain timed out. *)
Inductive phase := Running | Draining (deadline : Z) | Stopped (forced : bool).

Record state := mkState { a_phase : phase; a_running : list component; a_clock : Z }.

Definition started (now : Z) : state := mkState Running [SSEManager; Heartbeat; Reconciler; NodeAPIServer] now.

Definition ends (c : component) (l : list component) : list component := filter (fun x => x <> c) l.

(** A component's goroutine ends by itself or after the signal; its error is
    logged. *)
Inductive step : state -> state -> Prop :=
| component_ends c ph l n : c ∈ l -> step (mkState ph l n) (mkState ph (ends c l) n)
| signal l n : step (mkState Running l n) (mkState (Draining (n + drainTimeout)) l n)
| drained dl n : step (mkState (Draining dl) [] n) (mkState (Stopped false) [] n)
| drain_timeout dl l n : dl <= n -> step (mkState (Draining dl) l n) (mkState (Stopped true) l n)
| time dt ph l n : 0 <= dt -> step (mkState ph l n) (mkState ph l (n + dt)).

Definition inv (s : state) : Prop :=
  match a_phase s with
  | Running => True
  | Draining dl => dl <= a_clock s + drainTimeout
  | Stopped forced => forced = false -> a_running s = []
  end.

Lemma agent_step_inv s s' : step s s' -> inv s -> inv s'.
Proof.
  destruct 1; unfold inv; cbn; try done; try lia.
  - destruct ph; cbn; [done|done|]. intros Hf E. by rewrite (Hf E).
  - destruct ph; cbn; [done|lia|done].
Qed.

(** plexd up stops on a signal and on nothing else: components that end leave
    it running, also all of them; after the signal it returns within the drain
    timeout, whatever the components do, and without a timeout only when all of
    them have ended. *)
Theorem up_stops now s : rtc step (started now) s ->
  (forall s', step s s' -> a_phase s = Running -> a_phase s' = Running \/
     a_phase s' = Draining (a_clock s + drainTimeout) /\ a_running s' = a_running s) /\
  (forall forced, a_phase s = Stopped forced -> forced = false -> a_running s = []) /\
  (forall deadline, a_phase s = Draining deadline ->
     exists s' forced, rtc step s s' /\ a_phase s' = Stopped forced /\ a_running s' = a_running s /\
       a_clock s' <= a_clock s + drainTimeout).
Proof.
  intros Hr. assert (Hi : inv s).
  { assert (Hg : forall x y, rtc step x y -> inv x -> inv y) by (induction 1; eauto using agent_step_inv).
    by apply (Hg _ _ Hr). }
  split_and!.
  - intros s' Hs. destruct Hs; cbn; try done; auto.
  - intros forced E. unfold inv in Hi. by rewrite E in Hi.
  - destruct s as [ph l n]. cbn. intros dl ->. unfold inv in Hi. cbn in Hi.
    eexists _, true. split.
    + eapply rtc_l; [apply (time (Z.max 0 (dl - n))); lia|]. eapply rtc_l; [apply drain_timeout; lia|apply rtc_refl].
    + cbn. split_and!; [done|done|]. unfold drainTimeout, second in *. lia.
Qed.

(** An agent whose components have all failed runs on. *)
Lemma empty_agent_runs now : exists s, rtc step (started now) s /\ a_phase s = Running /\ a_running s = [].
Proof.
  exists (mkState Running [] now). split; [|done].
  eapply rtc_l; [apply (component_ends SSEManager); by_compute|]. eapply rtc_l; [apply (component_ends Heartbeat); by_compute|].
  eapply rtc_l; [apply (component_ends Reconciler); by_compute|].
  eapply rtc_l; [apply (component_ends NodeAPIServer); by_compute|]. apply rtc_refl.
Qed.

End Agent.

(** ** Witnesses *)

Lemma server_stops_witness : exists s',
  rtc (Server.step (NodeAuth.DefaultShutdownTimeout)) (Server.mkState Server.Serving true (Server.mkListener true 0) None true true 0 7) s' /\
  Server.s_phase s' = Server.Returned /\ Server.s_clock s' <= 7 + NodeAuth.DefaultShutdownTimeout.
Proof.
  assert (Hr : rtc (Server.step NodeAuth.DefaultShutdownTimeout) (Server.started false 7)
    (Server.mkState Server.Serving true (Server.mkListener true 0) None true true 0 7))
    by (eapply rtc_l; [apply Server.cancel|apply rtc_refl]).
  exact (proj2 (Server.server_stops NodeAuth.DefaultShutdownTimeout false 7 _ ltac:(by vm_compute) Hr) eq_refl).
Defined.

Lemma up_stops_witness : exists s' forced,
  rtc Agent.step (Agent.mkState (Agent.Draining (5 + Agent.drainTimeout)) (Agent.a_running (Agent.started 5)) 5) s' /\
  Agent.a_phase s' = Agent.Stopped forced /\ Agent.a_running s' = Agent.a_running (Agent.started 5) /\
  Agent.a_clock s' <= 5 + Agent.drainTimeout.
Proof.
  assert (Hr : rtc Agent.step (Agent.started 5)
    (Agent.mkState (Agent.Draining (5 + Agent.drainTimeout)) (Agent.a_running (Agent.started 5)) 5))
    by (eapply rtc_l; [apply Agent.signal|apply rtc_refl]).
  exact (proj2 (proj2 (Agent.up_stops 5 _ Hr)) _ eq_refl).
Defined.
