(* ===== verification/System.v ===== *)
(** * The agent as a whole (src/cmd/plexd/cmd/up.go, src/internal/nodeapi)

    The components as [runUp] connects them: the reconciler with its two
    handlers over the control plane's client, the event stream with the key
    rotation handler, the heartbeat and the node API server, which all start at
    the same time and interleave in any order.  A cycle of the reconciler is cut
    where it takes and leaves the lock of the server's cache.  The theorem
    follows the state from the control plane to what [plexd state get] prints;
    two lemmas show where it does not arrive. *)

From Stdlib Require Import Ascii String.
From stdpp Require Import base strings list gmap relations.
From S2P Require Import Prelude Base64 Types Diff Verifier Sse Fs Json Identity.
From S2P Require Reconcile Registration Client Agent NodeAuth Reconnect.
From S2P Require Import StateCache NodeApi Up Cli.

(** ** The world of the goroutines *)

Section system.
Context {N : Type} `{Registration.RegEnv N} `{Client.Transport N} `{Client.Gzip} `{MapOrder} `{NodeAuth.UserDB} `{SigScheme}.
Context `{Codec identity_json} `{Codec SigningKeys} `{Codec StateResponse} `{Codec DriftReport}.
Context `{Codec HeartbeatRequest} `{Codec HeartbeatResponse}.
Context `{Codec (gmap string string)} `{Codec (list SecretRef)} `{Codec DataEntry} `{Codec ReportEntry}.
(** The faults of the disk, in the current state of the environment; the JSON
    check and AES-GCM. *)
Context (faults : N -> path -> fault) (json_Valid : string -> bool).
Context (gcm_Open : list Z -> list Z -> list Z -> option (list Z)).

(** The disk and the network are those of the registrar's state. *)
Record world := mkWorld { w_up : up_state (N := N); w_cache : StateCache }.

Definition w_net (w : world) : N := Registration.rs_world (u_reg (w_up w)).
Definition server_state (w : world) : StateCache * disk := (w_cache w, Registration.rs_disk (u_reg (w_up w))).
Definition set_server (st : StateCache * disk) (w : world) : world :=
  let r := u_reg (w_up w) in
  mkWorld (set_reg (Registration.mkReg (Registration.rs_auth r) st.2 (Registration.rs_world r)) (w_up w)) st.1.

#[global] Instance world_verifier : HasVerifier world := {|
  get_verifier := fun w => u_verifier (w_up w);
  set_verifier := fun v w => mkWorld (set_verifier v (w_up w)) (w_cache w);
  get_set_verifier := fun _ _ => eq_refl
|}.

(** A call of the client, with the token it has now. *)
Definition with_client {A} (ag : agent) (call : Client.ControlPlane -> N -> A * N) (w : world) : A * world :=
  let r := u_reg (w_up w) in
  let '(a, n) := call (Client.SetAuthToken (Registration.rs_auth r) (a_client ag)) (Registration.rs_world r) in
  (a, mkWorld (set_reg (Registration.mkReg (Registration.rs_auth r) (Registration.rs_disk r) n) (w_up w)) (w_cache w)).

(** ** Steps 6 to 9 of [runUp] *)

(** The client as the reconciler's [StateFetcher]. *)
Definition fetcher (ag : agent) : Reconcile.StateFetcher (W := world) (E := Reconnect.go_error) :=
  Reconcile.mkStateFetcher
    (fun nodeID w =>
       let '(r, w) := with_client ag (fun c => Client.FetchState c nodeID) w in
       (match r with Ok s => Ok (Some s) | Err e => Err e end, w))
    (fun nodeID report => with_client ag (fun c => Client.ReportDrift c nodeID report)).

Definition lift_outcome {E E'} (e : E') (o : Reconcile.handler_outcome (E := E)) : Reconcile.handler_outcome (E := E') :=
  match o with
  | Reconcile.HReturns None => Reconcile.HReturns None
  | Reconcile.HReturns (Some _) => Reconcile.HReturns (Some e)
  | Reconcile.HPanics => Reconcile.HPanics
  end.

(** The handlers of the node API and of the signing keys. *)
Definition nodeapi_handler : Reconcile.ReconcileHandler (W := world) (E := Reconnect.go_error) := fun desired diff w =>
  let '(o, st) := NodeApi_ReconcileHandler (faults (w_net w)) desired diff (server_state w) in
  (lift_outcome (Reconnect.EOther "") o, set_server st w).
Definition signing_handler : Reconcile.ReconcileHandler (W := world) (E := Reconnect.go_error) := fun desired diff w =>
  let '(o, u) := handleSigningKeysDiff desired diff (w_up w) in (lift_outcome (Reconnect.EOther "") o, mkWorld u (w_cache w)).

Definition up_reconciler (ag : agent) : Reconcile.Reconciler (W := world) (E := Reconnect.go_error) :=
  Reconcile.RegisterHandler
    (Reconcile.RegisterHandler (Reconcile.NewReconciler (Some (fetcher ag)) (Agent.ag_Reconcile (a_cfg ag))) nodeapi_handler)
    signing_handler.

Definition up_dispatcher : EventDispatcher (W := world) (E := string) :=
  Register NewEventDispatcher (event_name EventSigningKeyRotated)
    (fun env w => let '(e, u) := handleSigningKeyRotated env (w_up w) in (e, mkWorld u (w_cache w))).

Definition up_heartbeat (ag : agent) (fuel : nat) (i : Registration.reg_input) : Agent.HeartbeatService (W := up_state) :=
  heartbeat_service fuel (a_cfg ag) (a_identity ag) i
    (fun token nodeID req => Client.Heartbeat (Client.SetAuthToken token (a_client ag)) nodeID req).

(** ** The running agent *)

(** Where the reconciler is: its goroutine has not begun; in the select of the
    loop; in a cycle, with the state it fetched, its difference to the snapshot
    and the number of steps that are done; at its end. *)
Inductive phase :=
| Before
| Idle
| Cycle (now : Z) (desired : StateResponse) (diff : StateDiff) (stage : nat)
| Ended.

(** The node API server. *)
Inductive server := NotStarted | Serving (ls : NodeAuth.listeners) | Failed.

(** [y_last] is the state of the last cycle that has ended. *)
Record sys := mkSys {
  y_phase : phase;
  y_rec : Reconcile.Reconciler (W := world) (E := Reconnect.go_error);
  y_server : server;
  y_world : world;
  y_last : option StateResponse
}.

Definition set_world (w : world) (s : sys) : sys := mkSys (y_phase s) (y_rec s) (y_server s) w (y_last s).

(** The agent when the goroutines are started. *)
Definition init (ag : agent) (u : up_state) : sys :=
  mkSys Before (up_reconciler ag) NotStarted (mkWorld u (NodeAuth.NewServer (a_nodeapi ag)).2) None.

(** [runCycle] up to the difference. *)
Definition begin_cycle (ag : agent) (now : Z) (r : Reconcile.Reconciler) (s : sys) : sys :=
  match Reconcile.FetchState (fetcher ag) (id_NodeID (a_identity ag)) (y_world s) with
  | (Ok (Some d), w) =>
      let diff := ComputeDiff (Some d) (Some (Reconcile.Get (Reconcile.rc_snapshot r))) in
      if IsEmpty diff then mkSys Idle r (y_server s) w (Some d)
      else mkSys (Cycle now d diff 0) r (y_server s) w (y_last s)
  | (_, w) => mkSys Idle r (y_server s) w (y_last s)
  end.

(** The rest of it: the three updates of the server's handler, the handler of the
    signing keys, the drift report, the snapshot. *)
Definition last_stage : nat := 5.
Definition cycle_stage (ag : agent) (now : Z) (d : StateResponse) (diff : StateDiff)
    (x : Reconcile.Reconciler (W := world) (E := Reconnect.go_error) * world) (stage : nat)
    : Reconcile.Reconciler * world :=
  let '(r, w) := x in
  let server f := set_server (f (faults (w_net w)) d diff (server_state w)) w in
  match stage with
  | 0%nat => (r, server reconcile_metadata)
  | 1%nat => (r, server reconcile_data)
  | 2%nat => (r, server reconcile_secrets)
  | 3%nat => (r, (signing_handler d diff w).2)
  | 4%nat => (r, (Reconcile.ReportDrift (fetcher ag) (id_NodeID (a_identity ag)) (BuildDriftReport now diff) w).2)
  | _ => (Reconcile.mkReconciler (Reconcile.rc_client r) (Reconcile.rc_cfg r)
            (Reconcile.Update (Reconcile.rc_snapshot r) d) (Reconcile.rc_handlers r) (Reconcile.rc_triggerCh r), w)
  end.

Definition next_stage (ag : agent) (now : Z) (d : StateResponse) (diff : StateDiff) (stage : nat) (s : sys) : sys :=
  let '(r, w) := cycle_stage ag now d diff (y_rec s, y_world s) stage in
  if decide (stage = last_stage) then mkSys Idle r (y_server s) w (Some d)
  else mkSys (Cycle now d diff (S stage)) r (y_server s) w (y_last s).

(** A trigger the heartbeat pulled reaches the reconciler's channel. *)
Definition pass_trigger (s : sys) : sys :=
  let w := y_world s in
  if u_trigger (w_up w) then
    mkSys (y_phase s) (Reconcile.TriggerReconcile (y_rec s)) (y_server s)
      (mkWorld (mkUp (u_reg (w_up w)) (u_verifier (w_up w)) false) (w_cache w)) (y_last s)
  else s.

(** One step of one of the goroutines: of the reconciler, the start of the
    server, which loads the cache under its lock, an event of the stream that is
    accepted or refused, a heartbeat, a request to the node API. *)
Inductive step (ag : agent) : sys -> sys -> Prop :=
| step_run s now : y_phase s = Before -> id_NodeID (a_identity ag) <> "" ->
    step ag s (begin_cycle ag now (y_rec s) s)
| step_tick s now : y_phase s = Idle -> step ag s (begin_cycle ag now (y_rec s) s)
| step_receive s now : y_phase s = Idle -> Reconcile.rc_triggerCh (y_rec s) = true ->
    step ag s (begin_cycle ag now (Reconcile.clear_trigger (y_rec s)) s)
| step_stage s now d diff stage : y_phase s = Cycle now d diff stage ->
    step ag s (next_stage ag now d diff stage s)
| step_done s : y_phase s = Idle -> step ag s (mkSys Ended (y_rec s) (y_server s) (y_world s) (y_last s))
| step_start s env sock res st sock' : y_server s = NotStarted ->
    NodeAuth.Start (a_nodeapi ag) env (server_state (y_world s)) sock = (res, st, sock') ->
    step ag s (mkSys (y_phase s) (y_rec s) (match res with Ok ls => Serving ls | Err _ => Failed end)
      (set_server st (y_world s)) (y_last s))
| step_event s e c v :
    Verify (get_verifier (y_world s)) e c = (Returns None, v) ->
    step ag s (set_world (Dispatch up_dispatcher e (set_verifier v (y_world s))) s)
| step_refused s e c err v :
    Verify (get_verifier (y_world s)) e c = (Returns (Some err), v) ->
    step ag s (set_world (set_verifier v (y_world s)) s)
| step_heartbeat s fuel i :
    step ag s (pass_trigger (set_world
      (mkWorld (Agent.sendHeartbeat (up_heartbeat ag fuel i) (w_up (y_world s))) (w_cache (y_world s))) s))
| step_request s ls v q fetch now resp note st : y_server s = Serving ls ->
    NodeAuth.serve (faults (w_net (y_world s))) json_Valid gcm_Open (a_nsk ag) fetch now ls v q (server_state (y_world s))
      = Some (resp, note, st) ->
    step ag s (set_world (set_server st (y_world s)) s).

(** The state that update [k] of the handler has brought to the cache: during a
    cycle, the one it fetched when the update is done; the last one otherwise. *)
Definition applied (k : nat) (s : sys) : StateResponse :=
  let last := default empty_StateResponse (y_last s) in
  match y_phase s with Cycle _ d _ stage => if decide (k < stage)%nat then d else last | _ => last end.

(** The commands look for the agent at the default path. *)
Definition agent_at (ag : agent) (srv : server) : option NodeAuth.listeners :=
  match srv with
  | Serving ls => if decide (NodeAuth.nc_SocketPath (a_nodeapi ag) = defaultSocketPath) then Some ls else None
  | _ => None
  end.

End system.

(** ** What requests and updates do to the cache *)

Definition cached_data (c : StateCache) : gmap string Z := de_Version <$> sc_data c.

(** States with the same metadata and data versions. *)
Definition same_sections (d e : StateResponse) : Prop :=
  st_Metadata d = st_Metadata e /\ data_versions (st_Data d) = data_versions (st_Data e).

(** The sections of a cache that requests and events leave alone. *)
Definition same_state (c c' : StateCache) : Prop :=
  sc_metadata c' = sc_metadata c /\ sc_data c' = sc_data c /\ sc_secretIndex c' = sc_secretIndex c.

Section requests.
Context `{MapOrder} `{Codec ReportEntry} `{NodeAuth.UserDB} (f : path -> fault) (json_Valid : string -> bool).
Context (gcm_Open : list Z -> list Z -> list Z -> option (list Z)) (nsk : list Z).
Context (fetch : string -> result fetch_error NodeApi.SecretResponse) (now : Z).

Lemma handle_route_state r q st :
  same_state st.1 (NodeAuth.handle_route f json_Valid gcm_Open nsk fetch now r q st).2.1.
Proof.
  destruct st as [sc d]. destruct r; cbn [NodeAuth.handle_route]; try done.
  - unfold handlePutReport, PutReport. repeat case_match; by simplify_eq/=.
  - unfold handleDeleteReport, DeleteReport. repeat case_match; by simplify_eq/=.
Qed.

Lemma notify_state path q st :
  same_state st.1 (NodeAuth.notify_ServeHTTP f json_Valid gcm_Open nsk fetch now path q st).2.1.
Proof.
  assert (Hm : same_state st.1 (NodeAuth.mux_ServeHTTP f json_Valid gcm_Open nsk fetch now q st).2.1).
  { unfold NodeAuth.mux_ServeHTTP. destruct (NodeAuth.Mux _ _); try done. apply handle_route_state. }
  unfold NodeAuth.notify_ServeHTTP. by destruct (NodeAuth.mux_ServeHTTP _ _ _ _ _ _ _ _).
Qed.

(** No request changes metadata, data or the secret index. *)
Lemma serve_state ls v q st resp note st' :
  NodeAuth.serve f json_Valid gcm_Open nsk fetch now ls v q st = Some (resp, note, st') -> same_state st.1 st'.1.
Proof.
  unfold NodeAuth.serve. destruct (NodeAuth.URL_Path q) as [p|]; [|done]. cbn [mbind option_bind].
  assert (Hn : forall q, same_state st.1 (NodeAuth.notify_ServeHTTP f json_Valid gcm_Open nsk fetch now p q st).2.1)
    by (intros; apply notify_state).
  destruct v as [c|]; [|destruct (NodeAuth.ls_token ls); [|done]; cbn [mbind option_bind]].
  - intros [= E]. set (q' := NodeAuth.with_ctx _ q) in E. specialize (Hn q').
    unfold NodeAuth.wrapSecretAuth, NodeAuth.SecretAuthMiddleware in E. repeat case_match; simplify_eq; try done;
      match goal with E : NodeAuth.notify_ServeHTTP _ _ _ _ _ _ _ _ _ = _ |- _ => by rewrite E in Hn end.
  - intros [= E]. set (q' := NodeAuth.with_ctx _ q) in E. specialize (Hn q').
    unfold NodeAuth.BearerAuthMiddleware in E. repeat case_match; simplify_eq; try done; by rewrite E in Hn.
Qed.

End requests.

Lemma data_versions_store l : de_Version <$> foldl (fun m e => <[de_Key e := e]> m) (∅ : gmap string DataEntry) l
  = data_versions l.
Proof.
  unfold data_versions. induction l as [|e l IH] using rev_ind; [apply fmap_empty|].
  rewrite foldl_app, build_map_snoc, <- IH. cbn [foldl]. by rewrite fmap_insert.
Qed.

Lemma store_entries_new `{Codec DataEntry} f dir entries : forall new old d,
  (store_entries f dir entries (new, old, d)).1.1 = foldl (fun m e => <[de_Key e := e]> m) new entries.
Proof. induction entries as [|e entries IH]; intros new old d; [done|]. apply IH. Qed.

Lemma UpdateData_cache `{MapOrder} `{Codec DataEntry} f l st : let st' := UpdateData f l st in
  sc_metadata st'.1 = sc_metadata st.1 /\ cached_data st'.1 = data_versions l /\ sc_secretIndex st'.1 = sc_secretIndex st.1.
Proof.
  destruct st as [sc d]. unfold UpdateData. set (old := (fun _ => tt) <$> sc_data sc).
  pose proof (store_entries_new f (Join (stateDir sc) "data") l ∅ old d) as E.
  destruct (store_entries _ _ _ _) as [[new old'] d']. cbn in *. subst new. split_and!; [done| |done].
  apply data_versions_store.
Qed.

Lemma reconcile_metadata_cache `{Codec (gmap string string)} f d δ st : let st' := reconcile_metadata f d δ st in
  sc_metadata st'.1 = (if MetadataChanged δ then st_Metadata d else sc_metadata st.1) /\ sc_data st'.1 = sc_data st.1.
Proof. unfold reconcile_metadata. destruct st. by destruct (MetadataChanged δ). Qed.

Lemma reconcile_data_cache `{MapOrder} `{Codec DataEntry} f d δ st : let st' := reconcile_data f d δ st in
  sc_metadata st'.1 = sc_metadata st.1 /\
  cached_data st'.1 = (if DataChanged δ then data_versions (st_Data d) else cached_data st.1).
Proof.
  unfold reconcile_data. destruct (DataChanged δ); [|done].
  by destruct (UpdateData_cache f (st_Data d) st) as (? & ? & _).
Qed.

Lemma reconcile_secrets_cache `{Codec (list SecretRef)} f d δ st : let st' := reconcile_secrets f d δ st in
  sc_metadata st'.1 = sc_metadata st.1 /\ sc_data st'.1 = sc_data st.1.
Proof. unfold reconcile_secrets. destruct st. by destruct (SecretRefsChanged δ). Qed.

(** ** The invariant *)

Section invariant.
Context {N : Type} `{Registration.RegEnv N} `{Client.Transport N} `{Client.Gzip} `{MapOrder} `{NodeAuth.UserDB} `{SigScheme}.
Context `{Codec identity_json} `{Codec SigningKeys} `{Codec StateResponse} `{Codec DriftReport}.
Context `{Codec HeartbeatRequest} `{Codec HeartbeatResponse}.
Context `{Codec (gmap string string)} `{Codec (list SecretRef)} `{Codec DataEntry} `{Codec ReportEntry}.
Context (faults : N -> path -> fault) (json_Valid : string -> bool).
Context (gcm_Open : list Z -> list Z -> list Z -> option (list Z)).
Context (ag : agent).

Abbreviation Get r := (Reconcile.Get (Reconcile.rc_snapshot r)).
Abbreviation reconciler := (Reconcile.Reconciler (W := world (N := N)) (E := Reconnect.go_error)).
Abbreviation nodeID := (id_NodeID (a_identity ag)).
Abbreviation handlers := [nodeapi_handler faults; signing_handler].
Abbreviation agent_step := (step faults json_Valid gcm_Open ag).

Lemma Get_Update_same s d : same_sections (Reconcile.Get (Reconcile.Update s d)) d.
Proof. by destruct (Reconcile.Get_Update_equiv s d) as (_ & _ & _ & ? & ? & ?). Qed.

(** The client's calls leave the cache alone. *)
Lemma with_client_cache {A} (call : Client.ControlPlane -> N -> A * N) w :
  w_cache (with_client ag call w).2 = w_cache w.
Proof. unfold with_client. by destruct (call _ _). Qed.

Lemma FetchState_cache w : w_cache (Reconcile.FetchState (fetcher ag) nodeID w).2 = w_cache w.
Proof.
  cbn [fetcher Reconcile.FetchState].
  pose proof (with_client_cache (fun c => Client.FetchState c nodeID) w) as E.
  by destruct (with_client _ _ _).
Qed.

(** *** A cycle in one piece

    The steps of a cycle without anything between them are [runCycle]. *)

Definition run_stages (now : Z) (d : StateResponse) (δ : StateDiff) (x : reconciler * world (N := N)) : reconciler * world :=
  foldl (cycle_stage faults ag now d δ) x (seq 0 (S last_stage)).

Lemma server_set_server st (w : world (N := N)) : server_state (set_server st w) = st.
Proof. by destruct st. Qed.
Lemma set_set_server st st' (w : world (N := N)) : set_server st (set_server st' w) = set_server st w.
Proof. done. Qed.
Lemma net_set_server st (w : world (N := N)) : w_net (set_server st w) = w_net w.
Proof. done. Qed.

Lemma handlers_stages now d δ (r : reconciler) w :
  Reconcile.run_all handlers d δ w =
    ([false; false], (foldl (cycle_stage faults ag now d δ) (r, w) (seq 0 4)).2).
Proof.
  cbn [Reconcile.run_all seq foldl cycle_stage]. unfold Reconcile.safeInvoke, nodeapi_handler, NodeApi_ReconcileHandler.
  cbn [lift_outcome]. by rewrite !set_set_server, !net_set_server, !server_set_server.
Qed.

Lemma runCycle_stages (r : reconciler) w now : Reconcile.rc_handlers r = handlers ->
  Reconcile.runCycle (fetcher ag) r nodeID now w =
    match Reconcile.FetchState (fetcher ag) nodeID w with
    | (Ok (Some d), w1) =>
        let δ := ComputeDiff (Some d) (Some (Get r)) in if IsEmpty δ then (r, w1) else run_stages now d δ (r, w1)
    | (_, w1) => (r, w1)
    end.
Proof.
  intros Hh. unfold Reconcile.runCycle. destruct (Reconcile.FetchState _ _ w) as [[[d|]|e] w1]; [|done..].
  cbv zeta. destruct (IsEmpty _); [done|].
  rewrite Reconcile.invokeHandlers_run_all, Hh, (handlers_stages now d _ r). cbn [fst snd existsb orb id].
  unfold run_stages. change (seq 0 (S last_stage)) with (seq 0 4 ++ [4; 5])%nat. rewrite foldl_app.
  assert (Hr : forall δ, (foldl (cycle_stage faults ag now d δ) (r, w1) (seq 0 4)).1 = r) by done.
  set (δ := ComputeDiff _ _). specialize (Hr δ).
  destruct (foldl (cycle_stage faults ag now d δ) (r, w1) (seq 0 4)) as [r' w2]. cbn [fst snd] in *. subst r'.
  cbn [foldl cycle_stage]. rewrite Hh. by destruct (Reconcile.ReportDrift _ _ _ w2).
Qed.

(** Such a cycle is made of steps of the agent. *)
Lemma cycle_steps (r : reconciler) srv (w : world (N := N)) last now :
  Reconcile.rc_handlers r = handlers -> nodeID <> "" ->
  exists last', rtc agent_step (mkSys Before r srv w last)
    (let x := Reconcile.runCycle (fetcher ag) r nodeID now w in mkSys Idle x.1 srv x.2 last').
Proof.
  intros Hh Hn. rewrite (runCycle_stages r w now Hh).
  pose proof (step_run faults json_Valid gcm_Open ag (mkSys Before r srv w last) now eq_refl Hn) as Hs.
  unfold begin_cycle in Hs. cbn [y_world y_rec y_server y_last] in Hs.
  destruct (Reconcile.FetchState _ _ w) as [[[d|]|e] w1]; [|eexists; by apply rtc_once..]. cbv zeta.
  set (δ := ComputeDiff _ _) in *. clearbody δ. destruct (IsEmpty δ); [eexists; by apply rtc_once|].
  exists (Some d). eapply rtc_l; [exact Hs|]. clear Hs. unfold run_stages. cbn [seq last_stage foldl].
  assert (Ha : forall (x : reconciler * world) k, k <> last_stage ->
    agent_step (mkSys (Cycle now d δ k) x.1 srv x.2 last)
      (let x' := cycle_stage faults ag now d δ x k in mkSys (Cycle now d δ (S k)) x'.1 srv x'.2 last)).
  { intros [r0 w0] k Hk. pose proof (step_stage faults json_Valid gcm_Open ag (mkSys (Cycle now d δ k) r0 srv w0 last)
      now d δ k eq_refl) as Hst. unfold next_stage in Hst. cbn [y_rec y_world y_server y_last] in Hst.
    destruct (cycle_stage _ _ _ _ _ _ _). by rewrite decide_False in Hst. }
  set (st := cycle_stage faults ag now d δ) in *.
  eapply rtc_l; [exact (Ha (r, w1) 0%nat ltac:(done))|]. eapply rtc_l; [exact (Ha (st (r, w1) 0%nat) 1%nat ltac:(done))|].
  set (x2 := st (st (r, w1) 0%nat) 1%nat). eapply rtc_l; [exact (Ha x2 2%nat ltac:(done))|].
  set (x3 := st x2 2%nat). eapply rtc_l; [exact (Ha x3 3%nat ltac:(done))|].
  set (x4 := st x3 3%nat). eapply rtc_l; [exact (Ha x4 4%nat ltac:(done))|].
  set (x5 := st x4 4%nat). apply rtc_once. destruct x5 as [r5 w5].
  exact (step_stage faults json_Valid gcm_Open ag (mkSys (Cycle now d δ 5) r5 srv w5 last) now d δ 5%nat eq_refl).
Qed.

(** Empty desired metadata against an empty snapshot is no drift. *)
Lemma runCycle_no_metadata (r : reconciler) (w : world (N := N)) now d w1 :
  Reconcile.rc_handlers r = handlers -> st_Metadata (Get r) = ∅ ->
  Reconcile.FetchState (fetcher ag) nodeID w = (Ok (Some d), w1) -> st_Metadata d = ∅ ->
  sc_metadata (w_cache (Reconcile.runCycle (fetcher ag) r nodeID now w).2) = sc_metadata (w_cache w).
Proof.
  intros Hh Hg Hf Hd. rewrite runCycle_stages by done. pose proof (FetchState_cache w) as Ec. rewrite Hf in Ec |- *. cbv zeta.
  set (δ := ComputeDiff (Some d) _). cbn [snd] in Ec. rewrite <- Ec. destruct (IsEmpty δ); [done|].
  assert (Em : MetadataChanged δ = false).
  { destruct (ComputeDiff_fields d (Get r)) as (_ & _ & _ & _ & _ & _ & _ & Fm & _). apply Fm. congruence. }
  unfold run_stages. cbn [seq last_stage foldl cycle_stage snd fst fetcher Reconcile.ReportDrift].
  rewrite with_client_cache. unfold signing_handler, handleSigningKeysDiff. cbn [snd w_cache set_server].
  rewrite (proj1 (reconcile_secrets_cache _ d δ _)). cbn [server_state set_server w_cache fst].
  rewrite (proj1 (reconcile_data_cache _ d δ _)). cbn [server_state set_server w_cache fst].
  rewrite (proj1 (reconcile_metadata_cache _ d δ _)). by rewrite Em.
Qed.

(** *** Invariant of the steps *)

Record inv (s : sys (N := N)) : Prop := mkInv {
  iv_last : same_sections (Get (y_rec s)) (default empty_StateResponse (y_last s));
  iv_cycle : forall now d δ k, y_phase s = Cycle now d δ k ->
    δ = ComputeDiff (Some d) (Some (Get (y_rec s))) /\ (k <= last_stage)%nat;
  iv_metadata : sc_metadata (w_cache (y_world s)) = st_Metadata (applied 0 s);
  iv_data : cached_data (w_cache (y_world s)) = data_versions (st_Data (applied 1 s))
}.

(** The sections of the cache are all that counts of the world. *)
Lemma set_world_inv (w : world (N := N)) s : same_state (w_cache (y_world s)) (w_cache w) -> inv s -> inv (set_world w s).
Proof.
  intros (Em & Ed & _) [H1' H2' H3' H4']. split; [exact H1'|exact H2'|exact (eq_trans Em H3')|].
  refine (eq_trans _ H4'). unfold cached_data. exact (f_equal (fmap de_Version) Ed).
Qed.

Lemma begin_cycle_inv now (r : reconciler) s :
  Reconcile.rc_snapshot r = Reconcile.rc_snapshot (y_rec s) -> (y_phase s = Before \/ y_phase s = Idle) ->
  inv s -> inv (begin_cycle ag now r s).
Proof.
  intros Er Hp [Hl _ Hm Hd]. unfold begin_cycle. pose proof (FetchState_cache (y_world s)) as Ec.
  assert (Ha : forall k, applied k s = default empty_StateResponse (y_last s)).
  { intros k. unfold applied. by destruct Hp as [-> | ->]. }
  rewrite Ha in Hm, Hd. rewrite <- Er in Hl.
  destruct (Reconcile.FetchState _ _ (y_world s)) as [[[d|]|e] w1]; cbn [snd] in Ec;
    [|split; cbn; [done|done|by rewrite Ec|by rewrite Ec]..].
  cbv zeta. set (δ := ComputeDiff _ _). destruct (ComputeDiff_fields d (Get r)) as (_ & _ & _ & _ & _ & _ & _ & Fm & Fd & _).
  destruct Hl as [L1 L2]. destruct (IsEmpty δ) eqn:Ee.
  - apply IsEmpty_true in Ee as (_ & _ & _ & _ & _ & _ & Em & Ed & _).
    assert (E1 : st_Metadata d = st_Metadata (Get r)) by (by apply Fm).
    assert (E2 : data_versions (st_Data d) = data_versions (st_Data (Get r))) by (by apply Fd).
    split; cbn; [by split|done|by rewrite Ec, E1, L1|by rewrite Ec, E2, L2].
  - split; cbn; [by split| |by rewrite Ec|by rewrite Ec].
    intros now' d' δ' k [= <- <- <- <-]. split; [done|lia].
Qed.

(** What a step of a cycle does to the cache and the reconciler. *)
Lemma cycle_stage_cache now d δ (r : reconciler) (w : world (N := N)) k :
  let x := cycle_stage faults ag now d δ (r, w) k in
  sc_metadata (w_cache x.2) = (if decide (k = 0%nat /\ MetadataChanged δ = true) then st_Metadata d else sc_metadata (w_cache w)) /\
  cached_data (w_cache x.2) =
    (if decide (k = 1%nat /\ DataChanged δ = true) then data_versions (st_Data d) else cached_data (w_cache w)) /\
  ((k < last_stage)%nat -> x.1 = r) /\ (k = last_stage -> same_sections (Get x.1) d).
Proof.
  destruct k as [|[|[|[|[|k]]]]]; cbn [cycle_stage fst snd].
  - destruct (reconcile_metadata_cache (faults (w_net w)) d δ (server_state w)) as [E1 E2]. cbn [w_cache set_server].
    unfold cached_data. rewrite E1, E2. split_and!; [|done..]. by destruct (MetadataChanged δ).
  - destruct (reconcile_data_cache (faults (w_net w)) d δ (server_state w)) as [E1 E2]. cbn [w_cache set_server].
    rewrite E1, E2. split_and!; [done| |done..]. by destruct (DataChanged δ).
  - destruct (reconcile_secrets_cache (faults (w_net w)) d δ (server_state w)) as [E1 E2]. cbn [w_cache set_server].
    unfold cached_data. by rewrite E1, E2.
  - done.
  - cbn [fetcher Reconcile.ReportDrift]. by rewrite with_client_cache.
  - split_and!; [done|done|unfold last_stage; lia|intros _; apply Get_Update_same].
Qed.

Lemma next_stage_inv now d δ k s : y_phase s = Cycle now d δ k -> inv s -> inv (next_stage faults ag now d δ k s).
Proof.
  intros Hp [[L1 L2] Hc Hm Hd]. destruct (Hc _ _ _ _ Hp) as [Eδ Hk]. unfold applied in Hm, Hd. rewrite Hp in Hm, Hd.
  destruct (ComputeDiff_fields d (Get (y_rec s))) as (_ & _ & _ & _ & _ & _ & _ & Fm & Fd & _). rewrite <- Eδ in Fm, Fd.
  unfold next_stage. destruct (cycle_stage_cache now d δ (y_rec s) (y_world s) k) as (E1 & E2 & E3 & E4).
  destruct (cycle_stage _ _ _ _ _ _ _) as [r w]. cbn [fst snd] in *.
  assert (Gm : sc_metadata (w_cache w) = st_Metadata d).
  { rewrite E1, Hm. destruct (decide (k = 0%nat /\ _)) as [Hx|Hx]; [done|]. destruct (decide (0 < k)%nat); [done|]. rewrite <- L1. symmetry. apply Fm.
    apply not_true_iff_false. intros ?. apply Hx. split; [lia|done]. }
  assert (Gd : cached_data (w_cache w) =
    data_versions (st_Data (if decide (1 < S k)%nat then d else default empty_StateResponse (y_last s)))).
  { rewrite E2, Hd. destruct (decide (k = 1%nat /\ _)) as [Hx|Hx]; [by rewrite decide_True by lia|].
    destruct (decide (1 < k)%nat); [by rewrite decide_True by lia|].
    destruct (decide (1 < S k)%nat); [|done]. rewrite <- L2. symmetry. apply Fd.
    apply not_true_iff_false. intros ?. apply Hx. split; [lia|done]. }
  destruct (decide (k = last_stage)) as [Hlast|Hlast].
  - split; cbn; [by apply E4|done|exact Gm|]. by rewrite decide_True in Gd by (unfold last_stage in Hlast; lia).
  - rewrite E3 by lia. split; cbn; [by split| |exact Gm|exact Gd].
    intros now' d' δ' k' [= <- <- <- <-]. split; [done|lia].
Qed.

Lemma Dispatch_cache e (w : world (N := N)) : w_cache (Dispatch up_dispatcher e w) = w_cache w.
Proof.
  unfold Dispatch, up_dispatcher, Register. cbn [dp_handlers NewEventDispatcher]. rewrite lookup_empty. cbn [default app].
  destruct (decide (ev_EventType e = event_name EventSigningKeyRotated)) as [->|Hne].
  - rewrite lookup_insert_eq. cbn [foldl]. by destruct (handleSigningKeyRotated _ _).
  - by rewrite lookup_insert_ne, lookup_empty by done.
Qed.

Lemma pass_trigger_inv s : inv s -> inv (pass_trigger s).
Proof.
  unfold pass_trigger. destruct (u_trigger _); [|done]. intros [H1' H2' H3' H4'].
  unfold Reconcile.TriggerReconcile. destruct s as [ph r srv w last]. cbn in *.
  destruct (Reconcile.rc_triggerCh r); by split.
Qed.

(** Every step but the start of the server keeps the invariant. *)
Lemma step_inv s s' : agent_step s s' ->
  (y_server s' = NotStarted \/ y_server s <> NotStarted) -> inv s -> inv s'.
Proof.
  destruct 1 as [s now Hp Hn|s now Hp|s now Hp Ht|s now d δ k Hp|s Hp|s env sock res st sock' Hs Hst|s e c v Hv
    |s e c err v Hv|s fuel i|s ls v q fetch now resp note st Hs Hq]; intros Hsrv Hi.
  - apply begin_cycle_inv; auto.
  - apply begin_cycle_inv; auto.
  - apply begin_cycle_inv; auto.
  - by apply next_stage_inv.
  - destruct Hi as [H1' H2' H3' H4']. unfold applied in *. rewrite Hp in H3', H4'. by split.
  - cbn in Hsrv. exfalso. destruct Hsrv as [Hx|Hx]; [|done]. by destruct res.
  - apply set_world_inv; [|done]. by rewrite Dispatch_cache.
  - by apply set_world_inv.
  - apply pass_trigger_inv. by apply set_world_inv.
  - apply set_world_inv; [|done]. by apply serve_state in Hq.
Qed.

Lemma step_server s s' : agent_step s s' -> y_server s <> NotStarted -> y_server s' = y_server s.
Proof.
  destruct 1; intros Hne; try done.
  - unfold begin_cycle. repeat case_match; done.
  - unfold begin_cycle. repeat case_match; done.
  - unfold begin_cycle. repeat case_match; done.
  - unfold next_stage. destruct (cycle_stage _ _ _ _ _ _ _). by case_decide.
  - unfold pass_trigger. by destruct (u_trigger _).
Qed.

Lemma steps_server s s' : rtc agent_step s s' -> y_server s <> NotStarted -> y_server s' = y_server s.
Proof. induction 1 as [|s s1 s2 Hs _ IH]; [done|]. intros Hne. rewrite IH by (by rewrite (step_server _ _ Hs)). by apply step_server. Qed.

Lemma sys_steps_inv s s' : rtc agent_step s s' -> y_server s' = NotStarted \/ y_server s <> NotStarted -> inv s -> inv s'.
Proof.
  induction 1 as [|s s1 s2 Hs Hr IH]; [done|]. intros Hsrv Hi.
  assert (y_server s1 = NotStarted \/ y_server s <> NotStarted) as Hs1.
  { destruct Hsrv as [Hx|?]; [left|by right]. destruct (y_server s1) eqn:E; [done|..];
      rewrite (steps_server _ _ Hr), E in Hx by (by rewrite E); done. }
  apply IH; [|by eapply step_inv]. destruct Hsrv as [?|Hne]; [by left|right]. by rewrite (step_server _ _ Hs).
Qed.

Lemma init_inv u : inv (init faults ag u).
Proof.
  split; cbn; [|done|done|done]. unfold Reconcile.Get. cbn. by rewrite Reconcile.copyMetadata_id.
Qed.

End invariant.

(** ** Theorems *)

(** On a disk without files in the state directory, loading leaves data and
    reports empty and the rest of the cache as it was. *)
Lemma Load_none `{Codec (gmap string string)} `{Codec (list SecretRef)} `{Codec DataEntry} `{Codec ReportEntry} sc d c d' :
  (forall q, d_files d !! (stateDir sc ++ q) = None) -> Load sc d = (None, (c, d')) ->
  c = mkCache (sc_dataDir sc) (sc_metadata sc) ∅ (sc_secretIndex sc) ∅.
Proof.
  intros Hn. assert (Hd : forall p d0, d_files (MkdirAll p d0).2 = d_files d0).
  { intros p d0. unfold MkdirAll. by case_decide. }
  assert (Hj : forall n, plain n -> Join (stateDir sc) n = stateDir sc ++ [n]) by (intros; by apply Join_plain).
  unfold Load. rewrite !Hj by (split; by_compute).
  pose proof (Hd (stateDir sc ++ ["data"]) d) as E1. destruct (MkdirAll _ d) as [[] d1]; [|done]. cbn [negb snd] in *.
  pose proof (Hd (stateDir sc ++ ["report"]) d1) as E2. destruct (MkdirAll _ d1) as [[] d2]; [|done]. cbn [negb snd] in *.
  rewrite E1 in E2. unfold load_optional. rewrite E2, !Hn. cbn [default].
  assert (Hr : forall n, ReadDir (stateDir sc ++ [n]) d2 = []).
  { intros n. destruct (ReadDir _ d2) as [|x l] eqn:Er; [done|]. exfalso.
    assert (Hx : x ∈ ReadDir (stateDir sc ++ [n]) d2) by (rewrite Er; by left).
    apply elem_of_ReadDir in Hx as [b Hx]. by rewrite E2, <- app_assoc, Hn in Hx. }
  rewrite !Hr. cbn [load_files]. by intros [= <- <-].
Qed.

Section theorems.
Context {N : Type} `{Registration.RegEnv N} `{Client.Transport N} `{Client.Gzip} `{MapOrder} `{NodeAuth.UserDB} `{SigScheme}.
Context `{Codec identity_json} `{Codec SigningKeys} `{Codec StateResponse} `{Codec DriftReport}.
Context `{Codec HeartbeatRequest} `{Codec HeartbeatResponse}.
Context `{Codec (gmap string string)} `{Codec (list SecretRef)} `{Codec DataEntry} `{Codec ReportEntry}.
Context (faults : N -> path -> fault) (json_Valid : string -> bool).
Context (gcm_Open : list Z -> list Z -> list Z -> option (list Z)).

(** What [plexd state get] prints in a state of the agent. *)
Definition cli_get (ag : agent) (fetch : string -> result fetch_error NodeApi.SecretResponse)
    (now : Z) (c : NodeAuth.conn) (t key : string) (s : sys (N := N)) : result cmd_error output :=
  (runStateGet (faults (w_net (y_world s))) json_Valid gcm_Open (a_nsk ag) fetch now (agent_at ag (y_server s)) c t key
     (server_state (y_world s))).1.

Lemma cli_get_sections ag fetch now c key s ls :
  y_server s = Serving ls -> NodeAuth.nc_SocketPath (a_nodeapi ag) = defaultSocketPath -> simple_key key ->
  cli_get ag fetch now c "metadata" key s =
    match sc_metadata (w_cache (y_world s)) !! key with
    | Some v => Ok (Printed (BKeyValue key v))
    | None => Err (NotFound "metadata" key)
    end /\
  match cached_data (w_cache (y_world s)) !! key with
  | Some v => exists e, cli_get ag fetch now c "data" key s = Ok (Printed (BData e)) /\ de_Version e = v
  | None => cli_get ag fetch now c "data" key s = Err (NotFound "data" key)
  end.
Proof.
  intros Hs Hp Hk. unfold cli_get, agent_at. rewrite Hs, decide_True, runStateGet_metadata, runStateGet_data by done.
  cbn [fst server_state]. unfold GetMetadataKey, GetDataEntry, cached_data. split; [by destruct (_ !! key)|].
  rewrite lookup_fmap. destruct (sc_data _ !! key) as [e|]; cbn; eauto.
Qed.

(** C5. From the control plane to the command line.  Start the goroutines of the
    agent and let the steps of the reconciler, the start of the server, events,
    heartbeats and requests interleave in any way, with any failures of network
    and disk.  When the server starts without error, loads its cache before a
    data entry has been stored in it, and finds no file in the state directory,
    then from there on [plexd state get], for a key of unreserved characters that
    is no dot segment and with the server's socket at the default path, prints
    the metadata of the state that the last cycle fetched, and data entries of
    its versions; while a cycle is under way, those of the state it has fetched
    once it has stored them, and those of the state before until then.  A load
    that comes later can drop entries ([late_load_loses_data]), and an old state
    directory can hide removals ([stale_after_restart]). *)
Theorem state_reaches_cli ag u s1 env sock ls st sock' s fetch now c key :
  rtc (step faults json_Valid gcm_Open ag) (init faults ag u) s1 -> y_server s1 = NotStarted ->
  NodeAuth.Start (a_nodeapi ag) env (server_state (y_world s1)) sock = (Ok ls, st, sock') ->
  sc_data (w_cache (y_world s1)) = ∅ ->
  (forall q, d_files (server_state (y_world s1)).2 !! (stateDir (w_cache (y_world s1)) ++ q) = None) ->
  rtc (step faults json_Valid gcm_Open ag)
    (mkSys (y_phase s1) (y_rec s1) (Serving ls) (set_server st (y_world s1)) (y_last s1)) s ->
  NodeAuth.nc_SocketPath (a_nodeapi ag) = defaultSocketPath -> simple_key key ->
  cli_get ag fetch now c "metadata" key s =
    match st_Metadata (applied 0 s) !! key with
    | Some v => Ok (Printed (BKeyValue key v))
    | None => Err (NotFound "metadata" key)
    end /\
  match data_versions (st_Data (applied 1 s)) !! key with
  | Some v => exists e, cli_get ag fetch now c "data" key s = Ok (Printed (BData e)) /\ de_Version e = v
  | None => cli_get ag fetch now c "data" key s = Err (NotFound "data" key)
  end.
Proof.
  intros Hr1 Hn Hst Hd Hf Hr2 Hp Hk.
  assert (Hi1 : inv s1) by (eapply sys_steps_inv; [exact Hr1|by left|apply init_inv]).
  assert (Hc : sc_metadata st.1 = sc_metadata (w_cache (y_world s1)) /\ sc_data st.1 = ∅).
  { unfold NodeAuth.Start in Hst. destruct (NodeAuth.Validate _); [done|]. cbn [server_state fst snd] in Hst, Hf.
    destruct (Load _ _) as [[e|] [c1 d1]] eqn:El; [done|]. apply Load_none in El; [|done]. subst c1.
    by repeat (case_match; simplify_eq). }
  assert (Hi2 : inv (mkSys (y_phase s1) (y_rec s1) (Serving ls) (set_server st (y_world s1)) (y_last s1))).
  { destruct Hi1 as [H1' H2' H3' H4']. destruct Hc as [Ec Ed]. split; [exact H1'|exact H2'|exact (eq_trans Ec H3')|].
    change (applied 1 _) with (applied 1 s1). rewrite <- H4'. cbn. unfold cached_data. by rewrite Ed, Hd. }
  assert (Hs : y_server s = Serving ls) by (by rewrite (steps_server faults json_Valid gcm_Open ag _ _ Hr2)).
  apply (sys_steps_inv faults json_Valid gcm_Open ag _ _ Hr2) in Hi2 as [_ _ Hm Hv]; [|by right].
  rewrite <- Hm, <- Hv. by eapply cli_get_sections.
Qed.

(** After a restart with a state directory, metadata that the control plane
    removed meanwhile stays: the snapshot starts empty, so an empty desired
    section is no drift.  [s] is the agent after its first cycle. *)
Theorem stale_after_restart ag ls (w : world (N := N)) d w1 now s last fetch now' c key v :
  NodeAuth.nc_SocketPath (a_nodeapi ag) = defaultSocketPath -> simple_key key ->
  sc_metadata (w_cache w) !! key = Some v ->
  Reconcile.FetchState (fetcher ag) (id_NodeID (a_identity ag)) w = (Ok (Some d), w1) -> st_Metadata d = ∅ ->
  s = (let x := Reconcile.runCycle (fetcher ag) (up_reconciler faults ag) (id_NodeID (a_identity ag)) now w in
       mkSys Idle x.1 (Serving ls) x.2 last) ->
  cli_get ag fetch now' c "metadata" key s = Ok (Printed (BKeyValue key v)).
Proof.
  intros Hp Hk Hv Hf Hd ->. cbv zeta.
  match goal with |- cli_get _ _ _ _ _ _ ?s = _ =>
    destruct (cli_get_sections ag fetch now' c key s ls eq_refl Hp Hk) as [-> _] end.
  cbn [y_world]. rewrite (runCycle_no_metadata faults ag (up_reconciler faults ag) w now d w1 eq_refl); [by rewrite Hv| |done|done].
  cbn. by rewrite Reconcile.copyMetadata_id.
Qed.

End theorems.

(** Events, when the server's handlers are registered with the dispatcher (which
    [runUp] does not do): a state event replaces metadata and data, a secrets
    event the index, and no other event changes the server's state. *)
Theorem events_applied `{MapOrder} `{Codec (gmap string string)} `{Codec (list SecretRef)} `{Codec DataEntry}
    `{Codec NodeStateUpdatePayload} `{Codec NodeSecretsUpdatePayload} {W} (f : W -> path -> fault) get set e (w : W) :
  (forall st w, get (set st w) = st) ->
  let c := (get w).1 in
  let c' := (get (Dispatch (RegisterEventHandlers f get set NewEventDispatcher) e w)).1 in
  let payload := bytes_of_string (ev_Payload e) in
  (sc_metadata c', cached_data c', sc_secretIndex c') =
    if decide (ev_EventType e = event_name EventNodeStateUpdated) then
      match Unmarshal payload with
      | Some p => (nsu_Metadata p, data_versions (nsu_Data p), sc_secretIndex c)
      | None => (sc_metadata c, cached_data c, sc_secretIndex c)
      end
    else if decide (ev_EventType e = event_name EventNodeSecretsUpdated) then
      match Unmarshal payload with
      | Some p => (sc_metadata c, cached_data c, Some (nsp_SecretRefs p))
      | None => (sc_metadata c, cached_data c, sc_secretIndex c)
      end
    else (sc_metadata c, cached_data c, sc_secretIndex c).
Proof.
  intros Hg. cbn zeta. unfold Dispatch, RegisterEventHandlers, Register. cbn [dp_handlers NewEventDispatcher].
  assert (Hne : event_name EventNodeStateUpdated <> event_name EventNodeSecretsUpdated) by (by intros ?%(inj event_name)).
  rewrite lookup_empty, (lookup_insert_ne _ (event_name EventNodeStateUpdated) (event_name EventNodeSecretsUpdated)),
    lookup_empty by done. cbn [default app].
  destruct (decide (ev_EventType e = event_name EventNodeStateUpdated)) as [->|H1'].
  { rewrite lookup_insert_ne, lookup_insert_eq by done. cbn [foldl].
    unfold handle_state_event, on_server, HandleNodeStateUpdated. destruct (Unmarshal _) as [p|]; cbn [snd]; rewrite Hg; [|done].
    destruct (UpdateData_cache (f w) (nsu_Data p) (UpdateMetadata (f w) (nsu_Metadata p) (get w))) as (-> & -> & ->).
    by destruct (get w). }
  destruct (decide (ev_EventType e = event_name EventNodeSecretsUpdated)) as [->|H2'].
  { rewrite lookup_insert_eq. cbn [foldl]. unfold handle_secrets_event, on_server, HandleNodeSecretsUpdated.
    destruct (Unmarshal _) as [p|]; cbn [snd fmap option_fmap option_map]; rewrite Hg; [|done]. by destruct (get w). }
  by rewrite !lookup_insert_ne, lookup_empty by done.
Qed.

(** The reconciler and the server start at the same time.  When the first cycle
    is ahead of the server's load on a new node, the directories are not there
    yet, the entries are only in memory, and loading drops them; the snapshot has
    them, so that no later cycle brings them back. *)
Definition ex_entry : DataEntry := mkDataEntry "k" "text/plain" "1" 3 0.
Definition ex_wanted : StateResponse :=
  mkStateResponse [] [] None {["role" := "web"]} None None None None None [ex_entry] [].

Section examples.
Import SimCodec.
#[local] Existing Instance id_order.
#[local] Existing Instance ex_scheme.

Definition ex_new_disk : disk := mkDisk ∅ {[ []; ["d"] ]}.

Lemma late_load_loses_data :
  let diff := ComputeDiff (Some ex_wanted) (Some (Reconcile.Get Reconcile.NewStateSnapshot)) in
  let st := (NodeApi_ReconcileHandler (fun _ => NoFault) ex_wanted diff (NewStateCache ["d"], ex_new_disk)).2 in
  let st' := (Load st.1 st.2).2 in
  sc_data st.1 !! "k" = Some ex_entry /\ (Load st.1 st.2).1 = None /\ sc_data st'.1 !! "k" = None /\
  IsEmpty (ComputeDiff (Some ex_wanted) (Some (Reconcile.Get (Reconcile.Update Reconcile.NewStateSnapshot ex_wanted)))) = true.
Proof. cbn zeta. split_and!; by vm_compute. Qed.

(** ** Witnesses *)

(** A network that answers every request with a 200, decoded to the same state. *)
#[local] Instance ex_sys_env : Registration.RegEnv nat := {|
  Registration.rg_ctxErr n := (false, n);
  Registration.rg_now n := (0, n);
  Registration.rg_register _ n := (Err (Reconnect.EOther ""), n);
  Registration.rg_rand n := (0, n);
  Registration.rg_wait _ n := (false, n)
|}.
#[local] Instance ex_transport : Client.Transport nat := {| Client.Do _ n := (Ok (Client.mkResponse 200 "" "" []), S n) |}.
#[local] Instance ex_gzip : Client.Gzip := {| Client.gzip_write b := b; Client.gzip_read b := Some b |}.
#[local] Instance ex_sys_users : NodeAuth.UserDB := {| NodeAuth.LookupGroup _ := None; NodeAuth.LookupId _ := None |}.
Definition fixed_codec {A} (a : A) : Codec A := {| MarshalIndent _ := Some []; Unmarshal _ := Some a; norm a := a |}.
#[local] Instance ex_state_codec : Codec StateResponse := fixed_codec ex_wanted.
#[local] Instance ex_drift_codec : Codec DriftReport := fixed_codec (mkDriftReport 0 []).
#[local] Instance ex_hb_codec : Codec HeartbeatRequest := fixed_codec Agent.zero_request.
#[local] Instance ex_hbr_codec : Codec HeartbeatResponse := fixed_codec (mkHeartbeatResponse false false).
#[local] Instance ex_keys_codec : Codec SigningKeys := fixed_codec ex_rotation.

Definition ex_sys_agent : agent :=
  mkAgent Agent.ex_agent_config (Client.mkClient "https://cp" "1.0" "secret") ex_node
    (heartbeat_cfg Agent.ex_agent_config ex_node) (nodeapi_cfg Agent.ex_agent_config) [].
Definition ex_sys_start : NodeAuth.start_env :=
  NodeAuth.mkStartEnv true true true true (NodeAuth.mkSocket 0 0 0x1ED) true true (fun _ => Registration.FileMissing).
Definition ex_up_state : up_state (N := nat) :=
  mkUp (Registration.mkReg "secret" ex_new_disk 0%nat) (NewEd25519Verifier (replicate 32 7) 0) false.
Definition ex_sys_listeners : NodeAuth.listeners := NodeAuth.mkListeners true None.
Definition ex_no_faults (n : nat) (p : path) : fault := NoFault.

(** The server starts before the reconciler, which then runs a cycle. *)
Definition ex_init : sys (N := nat) := init ex_no_faults ex_sys_agent ex_up_state.
Definition ex_sys_started :=
  NodeAuth.Start (a_nodeapi ex_sys_agent) ex_sys_start (server_state (y_world ex_init)) None.
Definition ex_served : sys := mkSys Before (y_rec ex_init) (Serving ex_sys_listeners)
  (set_server ex_sys_started.1.2 (y_world ex_init)) None.

Lemma ex_sys_starts : ex_sys_started = (Ok ex_sys_listeners, ex_sys_started.1.2, ex_sys_started.2).
Proof.
  assert (E : ex_sys_started.1.1 = Ok ex_sys_listeners) by by vm_compute.
  destruct ex_sys_started as [[r st] sock]. cbn in *. by subst.
Qed.

(** The agent after [n] steps of the cycle. *)
Definition ex_cycle (n : nat) : sys :=
  let s := begin_cycle ex_sys_agent 0 (y_rec ex_served) ex_served in
  foldl (fun s k => match y_phase s with
                    | Cycle now d δ k => next_stage ex_no_faults ex_sys_agent now d δ k s
                    | _ => s
                    end) s (seq 0 n).

Lemma ex_cycle_steps n :
  rtc (step ex_no_faults (fun _ => true) NodeAuth.ex_open ex_sys_agent) ex_served (ex_cycle n).
Proof.
  unfold ex_cycle. induction n as [|n IH] using nat_ind.
  - apply rtc_once. by apply step_run.
  - rewrite seq_S, foldl_app. cbn [foldl]. destruct (y_phase (foldl _ _ _)) eqn:Ep; [done|done| |done].
    eapply rtc_r; [exact IH|]. by apply step_stage.
Qed.

(** In the middle of the first cycle the metadata are there and the data are
    not; after it, both are. *)
Lemma state_reaches_cli_witness :
  let get := cli_get ex_no_faults (fun _ => true) NodeAuth.ex_open ex_sys_agent NodeAuth.ex_fetch 0 (NodeAuth.ex_conn 1000) in
  get "metadata" "role" (ex_cycle 1) = Ok (Printed (BKeyValue "role" "web")) /\
  get "data" "k" (ex_cycle 1) = Err (NotFound "data" "k") /\
  y_phase (ex_cycle 6) = Idle /\
  exists e, get "data" "k" (ex_cycle 6) = Ok (Printed (BData e)) /\ de_Version e = 3.
Proof.
  intros get.
  assert (P : forall n key, simple_key key -> _) by (intros n key; exact (
    state_reaches_cli (N := nat) ex_no_faults (fun _ => true) NodeAuth.ex_open ex_sys_agent ex_up_state ex_init ex_sys_start
    None ex_sys_listeners ex_sys_started.1.2 ex_sys_started.2 (ex_cycle n) NodeAuth.ex_fetch 0 (NodeAuth.ex_conn 1000) key
    (rtc_refl _ _) eq_refl ex_sys_starts eq_refl (fun q => lookup_empty _) (ex_cycle_steps n) ltac:(by vm_compute))).
  assert (Hr : simple_key "role") by (split; by_compute). assert (Hk : simple_key "k") by (split; by_compute).
  assert (M1 : st_Metadata (applied 0 (ex_cycle 1)) = {["role" := "web"]}) by by vm_compute.
  assert (D1 : st_Data (applied 1 (ex_cycle 1)) = []) by by vm_compute.
  assert (D6 : st_Data (applied 1 (ex_cycle 6)) = [ex_entry]) by by vm_compute.
  destruct (P 1%nat "role" Hr) as [Pm _]. destruct (P 1%nat "k" Hk) as [_ Pd]. destruct (P 6%nat "k" Hk) as [_ Pe].
  rewrite M1 in Pm. rewrite D1 in Pd. rewrite D6 in Pe.
  split; [exact Pm|]. split; [exact Pd|]. split; [by vm_compute|exact Pe].
Defined.

(** The same node restarts with metadata on disk and a control plane without. *)
Definition ex_blank : StateResponse := mkStateResponse [] [] None ∅ None None None None None [ex_entry] [].
Definition ex_stale_cache : StateCache := mkCache ["d"] {["role" := "web"]} ∅ None ∅.
Definition ex_stale_world : world (N := nat) := set_server (ex_stale_cache, ex_new_disk) (mkWorld ex_up_state ex_stale_cache).

Lemma stale_after_restart_witness :
  let x := Reconcile.runCycle (fetcher (H7 := fixed_codec ex_blank) ex_sys_agent) (up_reconciler (H7 := fixed_codec ex_blank) ex_no_faults ex_sys_agent)
    "n1" 0 ex_stale_world in
  cli_get ex_no_faults (fun _ => true) NodeAuth.ex_open ex_sys_agent NodeAuth.ex_fetch 0
    (NodeAuth.ex_conn 1000) "metadata" "role" (mkSys Idle x.1 (Serving ex_sys_listeners) x.2 (Some ex_blank))
    = Ok (Printed (BKeyValue "role" "web")).
Proof.
  refine (stale_after_restart (N := nat) (H7 := fixed_codec ex_blank) ex_no_faults (fun _ => true) NodeAuth.ex_open ex_sys_agent
    ex_sys_listeners ex_stale_world ex_blank
    (Reconcile.FetchState (fetcher (H7 := fixed_codec ex_blank) ex_sys_agent) "n1" ex_stale_world).2 0 _ (Some ex_blank)
    NodeAuth.ex_fetch 0 (NodeAuth.ex_conn 1000) "role" "web" _ _ _ _ eq_refl eq_refl).
  - by vm_compute.
  - split; by_compute.
  - by vm_compute.
  - by vm_compute.
Defined.

Definition ex_event : SignedEnvelope := mkEnvelope (event_name EventNodeSecretsUpdated) "e1" 0 "n" "{}" "".
#[local] Instance ex_secrets_codec : Codec NodeSecretsUpdatePayload := fixed_codec (mkSecretsUpdate [mkSecretRef "db" 2]).
#[local] Instance ex_update_codec : Codec NodeStateUpdatePayload := fixed_codec (mkStateUpdate ∅ []).

Lemma events_applied_witness :
  sc_secretIndex (Dispatch (RegisterEventHandlers (fun _ _ => NoFault) id (fun st _ => st) NewEventDispatcher) ex_event
    (ex_stale_cache, ex_new_disk)).1 = Some [mkSecretRef "db" 2].
Proof.
  pose proof (events_applied (fun _ _ => NoFault) id (fun st _ => st) ex_event (ex_stale_cache, ex_new_disk)
    (fun _ _ => eq_refl)) as E.
  etrans; [exact (f_equal snd E)|]. by vm_compute.
Defined.

End examples.
