(* ===== verification/Main.v ===== *)
(** * Entry point, flags and logger (src/cmd/plexd/main.go, cmd/root.go, cmd/up.go)

    What the process starts with: build information, the persistent flags with
    their defaults, the exit status, and the level of the logger.  The
    command-line package is an argument: what running the root command
    returns. *)

From Stdlib Require Import Ascii String.
From stdpp Require Import base strings list.
From S2P Require Import Prelude Base64 Agent Up.

(** ** Build information (main.go, root.go) *)

Record rootCmd := mkRoot { rt_Version : string; rt_template : string }.

Definition newline : string := String (ascii_of_nat 10) EmptyString.

Definition version_template (commit date : string) : string :=
  "plexd version {{.Version}}" +:+ newline +:+ "commit: " +:+ commit +:+ newline +:+ "built: " +:+ date +:+ newline.

Definition buildVersion : string := "dev".
Definition buildCommit : string := "none".
Definition buildDate : string := "unknown".

(** [init]. *)
Definition root : rootCmd := mkRoot buildVersion (version_template buildCommit buildDate).

Definition SetVersionInfo (version commit date : string) : rootCmd := mkRoot version (version_template commit date).

(** The exit status; [execute] says whether the command returned an error. *)
Definition main (version commit date : string) (execute : rootCmd -> bool) : Z :=
  if execute (SetVersionInfo version commit date) then 1 else 0.

(** ** Persistent flags (root.go) *)

Record persistent_flags := mkPersistent { pf_config : string; pf_logLevel : string; pf_api : string; pf_mode : string }.

Definition default_flags : persistent_flags := mkPersistent "/etc/plexd/config.yaml" "info" "" "".

(** The flags of [Up] as the command line leaves them. *)
Definition up_flags (pf : persistent_flags) (tokenFile : string) : flags :=
  mkFlags (pf_api pf) (pf_mode pf) (pf_logLevel pf) tokenFile.

(** ** The logger (up.go) *)

Inductive level := LevelDebug | LevelInfo | LevelWarn | LevelError.

Definition setupLogger (lvl : string) : level :=
  if decide (lvl = "debug") then LevelDebug
  else if decide (lvl = "warn") then LevelWarn
  else if decide (lvl = "error") then LevelError
  else LevelInfo.

(** ** Theorems *)

(** The flag has a default that is not empty, so it always replaces the level
    of the configuration file: without [--log-level] the level is info. *)
Theorem log_level_ignored cfg tokenFile :
  setupLogger (ag_LogLevel (override (up_flags default_flags tokenFile) cfg)) = LevelInfo.
Proof. done. Qed.

(** With a flag, the level is the flag's; mode and API URL come from the
    configuration unless their flags are given. *)
Theorem flags_override pf tokenFile cfg :
  pf_logLevel pf <> "" ->
  let cfg' := override (up_flags pf tokenFile) cfg in
  ag_LogLevel cfg' = pf_logLevel pf /\
  ag_Mode cfg' = (if decide (pf_mode pf = "") then ag_Mode cfg else pf_mode pf) /\
  Reconnect.BaseURL (ag_API cfg') = (if decide (pf_api pf = "") then Reconnect.BaseURL (ag_API cfg) else pf_api pf).
Proof. intros Hl. cbn. unfold or_flag. by rewrite decide_False. Qed.

Lemma flags_override_witness :
  ag_LogLevel (override (up_flags (mkPersistent "" "debug" "" "") "") ex_agent_config) = "debug".
Proof. exact (proj1 (flags_override (mkPersistent "" "debug" "" "") "" ex_agent_config ltac:(done))). Defined.
